(* ===== verification/_CoqProject ===== *)
-Q . S2P
Prelude.v
CLib.v
StrUtil.v
AutoBuffer.v
Base64.v
MessageDigest.v
StdMap.v
YamlUtil.v
YamlTheory.v
YamlMemory.v
FirstLine.v
HeaderField.v
HttpPacket.v
HttpTheory.v
HttpProps.v
WebSocket.v
WebSocketTheory.v
WebSocketFields.v
NetSceneDispatcher.v
DispatcherTheory.v
SysUtil.v
Thread.v
Support.v
Dao.v
VisitTimes.v
MessageQueue.v
UnixSocket.v
BlockSocket.v
SocketEpoll.v
TcpConnection.v
ServerBase.v
NetThreadTheory.v
ServerConfig.v
EventLoop.v
WebServer.v
ThreadLife.v
ServerLife.v
ServerObjects.v
WebLoop.v
RequestPath.v
LoadBalancer.v
ProxyServer.v
ProxyForward.v
ProxyLoop.v
ProxyPath.v
EndToEnd.v
HeartbeatPath.v
Coroutine.v
CoroutineAsm.v
