(* ===== verification/Prelude.v ===== *)
(** * Unixtar: a verification library for the web-server framework

    ** The program

    Unixtar is a multi-threaded HTTP/WebSocket server framework with a reverse
    proxy. One thread accepts connections and hands each to a net thread. A net
    thread waits on epoll, reads what has arrived into the buffer of the
    connection, drives the parser of the connection's protocol, and puts every
    complete packet into the receive queue of its worker threads. A worker takes
    a packet, lets the scene registered for its route compute a response, packs
    the response and puts it into the send queue, from which the net thread
    writes it to the socket. The reverse proxy keeps the list of the web servers,
    selects one per client and learns which are up from their heartbeats. Both
    programs are configured by a small YAML file.

    ** The files

    A file has one Module, named after the component; paths are under src/.

    - [Prelude], [CLib], [StdMap]: machine integers, the result type of calls that may
      not return normally, the tactics and the hint database; the C and C++
      library calls of the sources ([strtoul], [stoi], [snprintf] of decimals,
      [std::string] searches); [std::map] with string keys in key order.
    - [StrUtil] (utils/strutil.cc), [AutoBuffer] (utils/autobuffer.cc), [Base64]
      (utils/base64.cc), [MessageDigest] (utils/messagedigest.cc, Module [Sha1]).
    - [YamlUtil], [YamlTheory] (utils/yamlutil.cc): the configuration parser. Nodes are
      shared by the tree, the variable [parent] and the stack of enclosing nodes:
      they live in a store and a [Node *] is a place in it. [YamlMemory]: destructors,
      [Load] and [Close] with descriptors that can be deleted, which refine those
      of [YamlUtil] ([yaml_memory_refines]).
    - [FirstLine], [HeaderField], [HttpPacket] (http/): the lines and fields of a message, the
      packets, and the parser; [HttpTheory] and [HttpProps] are their theory. The virtual
      methods of [HttpParser] are the class [HttpParserMethods]; [HttpParserLaws]
      states what both subclasses satisfy, and the theorems about [DoParse] use
      only the laws.
    - [WebSocket], [WebSocketTheory], [WebSocketFields] (longlink/websocketpacket.cc): frames, opening
      handshake, parser; what the fields of a packet are, in terms of the bytes received.
    - [NetSceneDispatcher], [DispatcherTheory] (netscene/): the scene table, routing, the
      responses, the scenes that come with the framework.
    - [MessageQueue] (utils/messagequeue.h): the blocking queue, with the interleavings of
      its threads as a step relation.
    - [SysUtil] (signalhandler.cc, utils/fileutil.cc, daemon.cc), [Dao] (dao/), [VisitTimes]
      (netscene/netscene_getindexpage.cc): callbacks for signals, files, the
      daemon; rows and the connection to the database; the visit counter that
      joins them. [Thread] (utils/thread.cc): a thread object, its owner and the threads it
      starts. [Support]: exceptions, the logger, data that scenes read once, unit tests.
    - [UnixSocket] (socket/unixsocket.cc), [BlockSocket] (socket/socketpoll.cc, blocksocket.cc), [SocketEpoll]
      (socket/socketepoll.cc): sockets, poll, epoll and the notifier around the
      system calls, whose results are arguments.
    - [TcpConnection] (networkmodel/tcpconnection.cc, applicationlayer.h): connections,
      generic in the parser through the class [ApplicationProtocolParser]; the
      contexts of packets to send live in a memory, because a connection, the
      queues and the workers share them.
    - [ServerBase] (networkmodel/serverbase.cc): the connection pool, generic in the
      connections through the class [Connection] and its laws, and the event
      handlers of a net thread, whose virtual methods are the record
      [NetThreadMethods]. [NetThreadTheory]: the invariant that relates the pool, the memory
      and the flags of the contexts, kept by every operation; the classes
      [ParserLaws] and [ThreadLaws] state what a parser and the virtual methods
      promise. [ServerConfig]: reading the configuration and creating the threads.
      [EventLoop]: the turns of [Run] and [Serve], proved against [ThreadLaws].
    - [WebServer] (webserver.cc): its configuration, the distribution of workers, what a
      net thread does with a parsed packet, the loop of a worker, sending and the
      heartbeat. [ThreadLife] (with utils/thread.cc): the steps of a net thread, its
      workers and the main thread from start to stop. [ServerLife]: the main thread
      with all its threads, from [Serve] to the deletion of the last one, each thread one of
      [ThreadLife]; the workers as objects. [ServerObjects]: default methods and destructors.
      [WebLoop]: the web server discharges [ThreadLaws], and its threads in any interleaving of the
      handlers. [RequestPath]: one request from the socket to the response.
    - [LoadBalancer], [ProxyServer], [ProxyForward] (reverseproxy/): registration and selection of
      web servers, the proxy's configuration and its heartbeat check, forwarding.
      [ProxyLoop]: a network thread of the proxy as a transition system over the event loop.
      [ProxyPath]: a request and its response through the read events of the proxy.
      [EndToEnd]: client, proxy and web server together. [HeartbeatPath]: the heartbeat from the
      web server to the balancer of the proxy.
    - [Coroutine] (utils/coroutine/): contexts that share one stack, and their dispatcher;
      [CoroutineAsm]: the instructions of coroutine_util.S, which refine its operations.

    ** State, errors and integers

    A method is a function from the old object (and the results of the system
    calls it makes) to its result and the new object. A call that may fail
    returns [res]: [Ok] or a [fault], which is a failed assertion, undefined
    behaviour, the use of an object that has been deleted ([Dangling]), a call
    that never returns, or a C++ exception. Integers are [Z]; every operation of
    the source on an unsigned type that can leave its range wraps; an [int] index
    that passes its largest value is undefined behaviour ([inc_int]). Logging has no effect
    on the state and is left out, except where the arguments of a message
    dereference a null pointer or a deleted object.

    Threads interleave at the grain of their synchronized operations: a method
    of the queue under its lock ([MessageQueue]), a step of [ThreadLife] or [Thread], a whole handler of
    the net thread against a whole turn of a worker ([WebLoop]), an event of the
    proxy's net thread ([ProxyLoop]).

    ** Loops and fuel

    - [HttpPacket.parse_fuel] is 5 and [WebSocket.parse_fuel] is 7: every turn of the loops that
      does not return moves to a later position, and there are that many; that
      the fuel is never used up is part of [request_DoParse_total],
      [response_DoParse_total] and [ws_DoParse_returns], where running out would
      show as [Hang].
    - [StrUtil.split] gets one turn more than there are bytes; every turn moves on by
      at least one byte. With an empty separator the source does not move, and
      [Hang] is the answer.
    - [LoadBalancer.__BalanceByPoll] gets one turn per server: after a full round the
      state repeats, and [Select_never_returns] shows for any number of turns that
      nothing is found later.
    - [YamlMemory.delete_Node] and [PrintNode] get one level per node of the tree: a child is
      created after its parent, so that no path is longer; that the fuel is
      enough is part of [yaml_memory_safe] and [PrintYamlTree_keys].
    - [Sha1.Digest] gets one turn per block, [YamlUtil.pop_loop] one per node of the
      stack, [CLib.dec_digits] one per digit.

    - [CoroutineAsm.run] gets the exact number of instructions, six for every word of the
      loops; the theorems say that the machine then is at the return address.
    - [WebServer.send_loop] gets one turn more than there are packets in the queue,
      which only shrinks in it; [Run], [Receive] and [_OnConnect] recurse on the list
      of the results of the system calls, and one that is cut short waits.

    ** The theorems

    - The whole path: a request is read, queued, answered by its scene, notified
      and sent (C5); the objects of a net thread stay consistent in any
      interleaving (C3); its loop never follows the address of a connection that
      is gone (C6). Here and for the proxy a message comes as any results of [read] of
      1 to 4096 bytes; one that fills its 4096 bytes is followed by the next in the same
      event, as [Receive] reads them ([TcpConnection.events_of]). If nothing follows, the
      connection stalls ([TcpConnection.eagain_sticks]).
    - The proxy: it relays a request and its response byte for byte (C8); every connection to a web server has its client, in
      any order of events (C7), and no response goes to another client
      (C4). Both programs together: a client behind the proxy reads the
      answer of the scene that serves its request (C2), and the heartbeat of a web
      server marks it as up (C9).
      The steps of [ProxyLoop] are events that return, with a new descriptor from
      [socket] and counters that do not wrap; [ProxyForward] shows those that do not
      return normally: no connection can be made, the client's id has been
      given to another connection, a forwarded request outlives its client.
    - HTTP: feeding a message in pieces is parsing it at once (C1, C15); what
      [Pack] writes is read back in any segmentation (C13, C14); the parser returns,
      whatever arrives in whatever pieces (C36). [HttpProps] and [HeaderField] also show what is not read: a
      request without headers, an empty body, a block of one field.
    - WebSocket: the parser decodes frames (C16), returns and keeps its invariant
      (C17), takes each field of a packet from its place in the bytes received (C24), reads
      back what [ws::Pack] writes (C39); the handshake is that of the RFC (C35). The
      other theorems of [WebSocketTheory] bound this: longer frames are rejected, the mask
      restarts with every piece.
    - Threads: no response is left in the send queue unnoticed (C11); a thread
      that runs honours a stop (C20), one that is just starting may not
      ([ThreadLife.stop_lost]); once the loop of [Serve] is left, only finitely many steps
      of the main thread and the thread it is joining remain, one of them is possible
      until all threads are joined and deleted (C12), which rests on a measure that every
      step of a stopped thread and its workers makes smaller ([ThreadLife.own_smaller]). For the
      owner of a thread object: no operation fails, [Join] waits exactly until the thread
      has ended, and the thread can use the object after its deletion exactly when it was
      deleted started and not joined (C23). Queue: first in, first
      out (C19), no lost wake-up (C18). Coroutines resume as they
      were, but for one word in a case that is described (C40), and the assembly they
      rest on does what the model says (C26, C27).
    - Connections: the pool refines a finite map (C10), reads drive the parser
      ([TcpConnection.read_events_parse]), pending packets leave in order (C31), errors delete the connection
      (C37), accepted connections are spread over the threads (C30), a
      notification empties the send queue ([WebLoop.HandleSend_sends_all]).
    - Server: responses ([DispatcherTheory.HandleHttp_responds]), workers handle each packet once and queue its
      answer while the send queue has room (C33), every packet is queued or its connection deleted
      (C34), configuration (C32, C38), whose trees are released node by node
      (C22), the visit counter survives the process (C21).
    - Helpers: SHA-1 is SHA-1 (C25), Base64 inverts for fewer than 2^31 bytes (C28), the buffer refines a
      byte sequence (C29), polling selects the next server
      ([LoadBalancer.poll_selects_next]).

    Further theorems in the files bound these: what the parsers reject, what the
    accessors of the configuration return, when the pool overflows, what a
    thread does when epoll fails, what happens to late responses and to bodies
    that outlive their connection.

    ** Parameters

    The code the protobuf compiler generates is not in the repository: what it
    reads from a request or a heartbeat ([ParseReq], [ParseHeartbeat]) and how it
    writes a response ([SerializeResp]) are arguments of the definitions. So are
    the results of [read], [write], [socket], [bind], [connect], [accept], [epoll_ctl],
    [epoll_wait], [poll], [fork], [random], [inet_addr], [inet_ntop], of the calls of
    mysql++, and the clock.

    ** Not modelled

    The macros of the logger and the main program of the proxy only call the
    system and the servers; the protobuf files are input of a generator, and the
    thread pool is a submodule. Of the YAML parser, conversion to [double] is left
    out, which nothing calls. *)
From stdpp Require Export base tactics option list numbers strings sets.
From Stdlib Require Export ZArith Lia.

Open Scope Z_scope.

Create HintDb unixtar.
Create Rewrite HintDb unixtar.

(** ** Machine integers

    [size_t], [uint64_t], [uint32_t], [uint16_t] and [uint8_t] values are
    elements of [Z] in range; an operation that can leave the range is
    written with the wrap-around of its width. *)

Definition wrap64 (z : Z) : Z := z mod 2 ^ 64.
Definition wrap32 (z : Z) : Z := z mod 2 ^ 32.
Definition wrap16 (z : Z) : Z := z mod 2 ^ 16.
Definition wrap8 (z : Z) : Z := z mod 2 ^ 8.

(** Conversion to a signed [int] (two's complement, 32 bits). *)
Definition to_int (z : Z) : Z :=
  let r := z mod 2 ^ 32 in if r <? 2 ^ 31 then r else r - 2 ^ 32.

(** Conversion of a byte to a (signed) [char]. *)
Definition to_char (z : Z) : Z :=
  let r := z mod 2 ^ 8 in if r <? 2 ^ 7 then r else r - 2 ^ 8.

Definition add64 (a b : Z) : Z := wrap64 (a + b).
Definition sub64 (a b : Z) : Z := wrap64 (a - b).

(** ** Bytes and strings *)

(** A [std::string], a [char] array or the bytes of a buffer: each element
    is the unsigned value of one byte. *)
Abbreviation bytes := (list Z).

Definition byte_ok (b : Z) : Prop := 0 <= b < 256.
Definition bytes_ok (s : bytes) : Prop := Forall byte_ok s.

Abbreviation zlen l := (Z.of_nat (length l)).

(** The bytes of a string literal of the source. *)
Definition byte_of_ascii (a : Ascii.ascii) : Z := Z.of_N (Ascii.N_of_ascii a).

Fixpoint str (s : String.string) : bytes :=
  match s with
  | String.EmptyString => []
  | String.String a s' => byte_of_ascii a :: str s'
  end.

(** ["\r\n"] *)
Definition crlf : bytes := [13; 10].

(** ** Failures *)

(** The exceptions the program throws or lets through. *)
Inductive exn :=
| InvalidArgument
| OutOfRange
| IllegalBase64LengthException (len : Z)
| Base64DecodeException
| NoSuchFieldException (field : bytes)
| NotAnYamlObjectException (field : bytes)
| NotAnYamlArrayException (field : bytes)
| NotAnYamlLeafException (field : bytes)
| MysqlppException
| SystemError.

(** A call that does not return normally: a failed [assert] (the process
    aborts), undefined behaviour (an access outside an object, a null
    dereference, a division by zero), an access to an object that has been
    destroyed, a call that never returns (a loop
    without exit, a self-deadlock), or a C++ exception. *)
Inductive fault :=
| AssertFailed
| Undefined
| Dangling
| Hang
| Throw (e : exn).

Inductive res (A : Type) :=
| Ok (a : A)
| Fault (f : fault).
Arguments Ok {A} a.
Arguments Fault {A} f.

#[export] Instance res_ret : MRet res := fun A a => Ok a.
#[export] Instance res_bind : MBind res := fun A B k m =>
  match m with Ok a => k a | Fault f => Fault f end.
#[export] Instance res_fmap : FMap res := fun A B k m =>
  match m with Ok a => Ok (k a) | Fault f => Fault f end.

(** [assert(b)] *)
Definition assert_ (b : bool) : res unit := if b then Ok tt else Fault AssertFailed.

(** [++i] for an [int]: past the largest value it is undefined. *)
Definition inc_int (i : Z) : res Z := if i <? 2 ^ 31 - 1 then Ok (i + 1) else Fault Undefined.

#[export] Instance exn_eq_dec : EqDecision exn.
Proof. solve_decision. Defined.
#[export] Instance fault_eq_dec : EqDecision fault.
Proof. solve_decision. Defined.
#[export] Instance res_eq_dec {A} `{EqDecision A} : EqDecision (res A).
Proof. solve_decision. Defined.

(** ** Generic lemmas *)

Lemma wrap64_id (z : Z) : 0 <= z < 2 ^ 64 -> wrap64 z = z.
Proof. intros. by apply Z.mod_small. Qed.

Lemma wrap64_range (z : Z) : 0 <= wrap64 z < 2 ^ 64.
Proof. by apply Z.mod_pos_bound. Qed.

Lemma sub64_id (a b : Z) : 0 <= b <= a -> a < 2 ^ 64 -> sub64 a b = a - b.
Proof. intros. apply wrap64_id. lia. Qed.

Lemma add64_id (a b : Z) : 0 <= a + b < 2 ^ 64 -> add64 a b = a + b.
Proof. intros. by apply wrap64_id. Qed.

Lemma to_int_id (z : Z) : 0 <= z < 2 ^ 31 -> to_int z = z.
Proof.
  intros. unfold to_int. rewrite Z.mod_small by lia.
  by destruct (Z.ltb_spec z (2 ^ 31)); [|lia].
Qed.

(** Bit operations as arithmetic. *)
Lemma land_ones_mod (x k : Z) : 0 <= k -> Z.land x (2 ^ k - 1) = x mod 2 ^ k.
Proof. intros. rewrite <- Z.land_ones by done. by rewrite Z.ones_equiv, Z.sub_1_r. Qed.

Lemma lor_shifted (a b k : Z) : 0 <= k -> 0 <= b < 2 ^ k -> Z.lor (a * 2 ^ k) b = a * 2 ^ k + b.
Proof.
  intros Hk Hb. destruct (decide (b = 0)) as [->|Hb0]; [by rewrite Z.lor_0_r, Z.add_0_r|].
  rewrite <- Z.lxor_lor, <- Z.add_nocarry_lxor; [done|..];
    rewrite <- Z.shiftl_mul_pow2 by done; apply Z.bits_inj'; intros n Hn;
    rewrite Z.land_spec, Z.bits_0; destruct (Z.lt_ge_cases n k).
  1,3: by rewrite Z.shiftl_spec_low.
  all: rewrite (Z.bits_above_log2 b); [by rewrite andb_false_r|lia|];
    apply Z.log2_lt_pow2; [lia|];
    eapply Z.lt_le_trans; [apply Hb|]; apply Z.pow_le_mono_r; lia.
Qed.

Lemma bind_Ok {A B} (m : res A) (k : A -> res B) (b : B) :
  (m ≫= k) = Ok b <-> exists a, m = Ok a /\ k a = Ok b.
Proof. destruct m; cbv [mbind res_bind]; naive_solver. Qed.

Lemma inc_int_ok (i : Z) : i < 2 ^ 31 - 1 -> inc_int i = Ok (i + 1).
Proof. intros. unfold inc_int. by destruct (Z.ltb_spec i (2 ^ 31 - 1)); [|lia]. Qed.

Lemma inc_int_max (i : Z) : 2 ^ 31 - 1 <= i -> inc_int i = Fault Undefined.
Proof. intros. unfold inc_int. by destruct (Z.ltb_spec i (2 ^ 31 - 1)); [lia|]. Qed.

Lemma assert_Ok (b : bool) (u : unit) : assert_ b = Ok u <-> b = true.
Proof. destruct b, u; cbn; naive_solver. Qed.

#[export] Hint Resolve wrap64_range : unixtar.

(** A call that uses no object that has been destroyed. *)
Definition safe {A} (r : res A) : Prop := r <> Fault Dangling.

Lemma safe_Ok {A} (a : A) : safe (Ok a).
Proof. done. Qed.

Lemma safe_bind {A B} (m : res A) (k : A -> res B) : safe m -> (forall a, safe (k a)) -> safe (m ≫= k).
Proof. unfold safe. destruct m; cbv [mbind res_bind]; [by auto|congruence]. Qed.

Lemma safe_assert (b : bool) : safe (assert_ b).
Proof. by destruct b. Qed.

#[export] Hint Resolve safe_Ok safe_assert : unixtar.

(** ** Automation *)

(** Case analysis on the tests of a definition, with their equations. *)
Ltac bool_cases :=
  repeat match goal with
  | |- context [Z.ltb ?a ?b] => destruct (Z.ltb_spec a b)
  | |- context [Z.leb ?a ?b] => destruct (Z.leb_spec a b)
  | |- context [Z.eqb ?a ?b] => destruct (Z.eqb_spec a b)
  | |- context [Nat.ltb ?a ?b] => destruct (Nat.ltb_spec a b)
  | |- context [Nat.leb ?a ?b] => destruct (Nat.leb_spec a b)
  | |- context [Nat.eqb ?a ?b] => destruct (Nat.eqb_spec a b)
  end.

(** A chain of binds and tests is safe if its calls are. *)
Ltac solve_safe :=
  repeat first
  [ progress intros
  | assumption | solve [unfold safe; discriminate] | solve [auto 1 with unixtar nocore]
  | apply safe_bind
  | match goal with |- safe (match ?x with _ => _ end) => destruct x end
  | progress cbv zeta ].

(** Inversion of a successful chain of binds. *)
Ltac res_inv :=
  repeat match goal with
  | H : (_ ≫= _) = Ok _ |- _ =>
      apply bind_Ok in H; let a := fresh "a" in let E := fresh "E" in
      destruct H as (a & E & H)
  | H : assert_ _ = Ok _ |- _ => apply assert_Ok in H
  | H : Ok _ = Ok _ |- _ => injection H as H
  | H : Fault _ = Ok _ |- _ => discriminate H
  | H : (_, _) = (_, _) |- _ => injection H as ? ?
  end; subst.
