(* ===== verification/CLib.v ===== *)
(** * The C and C++ library calls of the sources

    Executable definitions of the parts of [<cstring>], [<cstdlib>],
    [<cstdio>] and [std::string] the program calls, with the facts the
    components share: searching a string, decimal printing and its
    inverses [strtoul] and [stoi]. *)
From S2P Require Import Prelude.

(** ** C strings *)

(** The C string seen through [s.c_str()]: the bytes before the first NUL. *)
Fixpoint cstr (s : bytes) : bytes :=
  match s with
  | [] => []
  | c :: s' => if c =? 0 then [] else c :: cstr s'
  end.

(** [strlen]; the array is NUL-terminated after its last byte. *)
Definition strlen (s : bytes) : nat := length (cstr s).

(** [strnlen(s, n)] *)
Definition strnlen (s : bytes) (n : nat) : nat := length (cstr (take n s)).

(** [strcmp(a.c_str(), b.c_str()) == 0] *)
Definition strcmp0 (a b : bytes) : bool := bool_decide (cstr a = cstr b).

(** ** Searching *)

Fixpoint starts_with (n s : bytes) : bool :=
  match n, s with
  | [], _ => true
  | c :: n', d :: s' => (c =? d) && starts_with n' s'
  | _ :: _, [] => false
  end.

(** The first position of [n] in [s]. *)
Fixpoint find_sub (n s : bytes) : option nat :=
  if starts_with n s then Some O
  else match s with
       | [] => None
       | _ :: s' => S <$> find_sub n s'
       end.

(** [s.find(n, pos)] *)
Definition string_find (s n : bytes) (pos : nat) : option nat :=
  if (pos <=? length s)%nat then (Nat.add pos) <$> find_sub n (drop pos s) else None.

(** The first position of a byte that satisfies [p]. *)
Fixpoint find_if (p : Z -> bool) (s : bytes) : option nat :=
  match s with
  | [] => None
  | c :: s' => if p c then Some O else S <$> find_if p s'
  end.

(** The last position of a byte that satisfies [p]. *)
Fixpoint find_last_if (p : Z -> bool) (s : bytes) : option nat :=
  match s with
  | [] => None
  | c :: s' =>
      match find_last_if p s' with
      | Some i => Some (S i)
      | None => if p c then Some O else None
      end
  end.

(** [s.substr(pos, n)] for [pos <= s.size()]. *)
Definition substr (s : bytes) (pos n : nat) : bytes := take n (drop pos s).

(** ** Numbers *)

Definition is_space (c : Z) : bool := ((9 <=? c) && (c <=? 13)) || (c =? 32).
Definition is_digit (c : Z) : bool := (48 <=? c) && (c <=? 57).

Fixpoint skip_space (s : bytes) : bytes :=
  match s with
  | c :: s' => if is_space c then skip_space s' else s
  | [] => []
  end.

Fixpoint take_digits (s : bytes) : bytes :=
  match s with
  | c :: s' => if is_digit c then c :: take_digits s' else []
  | [] => []
  end.

Definition read_sign (s : bytes) : bool * bytes :=
  match s with
  | 45 :: s' => (true, s')
  | 43 :: s' => (false, s')
  | _ => (false, s)
  end.

Definition push_digit (v d : Z) : Z := v * 10 + (d - 48).
Definition dec_value (ds : bytes) : Z := fold_left push_digit ds 0.

(** Sign and digits read by [strtol] and [strtoul] in base 10. *)
Definition scan_number (s : bytes) : bool * bytes :=
  let '(neg, r) := read_sign (skip_space (cstr s)) in (neg, take_digits r).

Definition ULONG_MAX : Z := 2 ^ 64 - 1.
Definition LONG_MAX : Z := 2 ^ 63 - 1.
Definition LONG_MIN : Z := - 2 ^ 63.

(** [strtoul(s, nullptr, 10)] *)
Definition strtoul (s : bytes) : Z :=
  let '(neg, ds) := scan_number s in
  let v := dec_value ds in
  if ULONG_MAX <? v then ULONG_MAX else if neg then wrap64 (- v) else v.

(** [strtol(s, nullptr, 10)] *)
Definition strtol (s : bytes) : Z :=
  let '(neg, ds) := scan_number s in
  let v := if neg then - dec_value ds else dec_value ds in
  Z.max LONG_MIN (Z.min LONG_MAX v).

(** [std::stoi(s)] *)
Definition stoi (s : bytes) : res Z :=
  let '(neg, ds) := scan_number s in
  match ds with
  | [] => Fault (Throw InvalidArgument)
  | _ :: _ =>
      let v := if neg then - dec_value ds else dec_value ds in
      if (v <? - 2 ^ 31) || (2 ^ 31 - 1 <? v) then Fault (Throw OutOfRange) else Ok v
  end.

(** [std::stoull(s)] *)
Definition stoull (s : bytes) : res Z :=
  let '(neg, ds) := scan_number s in
  match ds with
  | [] => Fault (Throw InvalidArgument)
  | _ :: _ =>
      let v := dec_value ds in
      if ULONG_MAX <? v then Fault (Throw OutOfRange) else Ok (if neg then wrap64 (- v) else v)
  end.

(** The decimal digits of a 64-bit unsigned value: at most 20 of them, since
    [2 ^ 64 < 10 ^ 20]. *)
Fixpoint dec_digits (fuel : nat) (z : Z) (acc : bytes) : bytes :=
  match fuel with
  | O => acc
  | S f =>
      let acc' := (48 + z mod 10) :: acc in
      if z <? 10 then acc' else dec_digits f (z / 10) acc'
  end.

Definition dec (z : Z) : bytes := dec_digits 20 z [].

(** What [snprintf(buf, size, ...)] leaves in [buf], as a C string. *)
Definition snprintf (size : nat) (text : bytes) : bytes := take (size - 1) text.

(** ** Facts about searching *)

Lemma starts_with_prefix (n s : bytes) : starts_with n s = true <-> n `prefix_of` s.
Proof.
  revert s. induction n as [|c n IH]; intros [|d s]; simpl.
  - split; [intros _; apply prefix_nil | done].
  - split; [intros _; apply prefix_nil | done].
  - split; [done | intros H; by apply prefix_nil_not in H].
  - rewrite andb_true_iff, Z.eqb_eq, IH. split.
    + intros [-> H]. by apply prefix_cons.
    + intros H. split; [by apply prefix_cons_inv_1 in H | by apply prefix_cons_inv_2 in H].
Qed.

Lemma starts_with_app (n s : bytes) : starts_with n (n ++ s) = true.
Proof. apply starts_with_prefix. by eexists. Qed.

Lemma find_sub_Some (n s : bytes) (i : nat) :
  find_sub n s = Some i ->
  n `prefix_of` drop i s /\ (i <= length s)%nat /\
  forall j, (j < i)%nat -> ~ n `prefix_of` drop j s.
Proof.
  revert i. induction s as [|c s IH]; intros i; simpl.
  - destruct (starts_with n []) eqn:E; intros [= <-].
    apply starts_with_prefix in E. split; [done|]. split; [done|lia].
  - destruct (starts_with n (c :: s)) eqn:E.
    + intros [= <-]. apply starts_with_prefix in E. split; [done|]. split; [lia|lia].
    + destruct (find_sub n s) as [k|] eqn:Ek; simpl; [|done]. intros [= <-].
      destruct (IH k eq_refl) as (H1 & H2 & H3). split; [done|]. split; [lia|].
      intros [|j] Hj; simpl.
      * intros H. apply starts_with_prefix in H. congruence.
      * apply H3. lia.
Qed.

Lemma find_sub_None (n s : bytes) :
  find_sub n s = None -> forall j, (j <= length s)%nat -> ~ n `prefix_of` drop j s.
Proof.
  induction s as [|c s IH]; simpl.
  - destruct (starts_with n []) eqn:E; [done|]. intros _ j Hj H.
    replace j with 0%nat in H by lia. apply starts_with_prefix in H. simpl in H. congruence.
  - destruct (starts_with n (c :: s)) eqn:E; [done|].
    destruct (find_sub n s) eqn:Ek; [done|]. intros _ [|j] Hj H; simpl in H.
    + apply starts_with_prefix in H. congruence.
    + by apply (IH eq_refl j); [lia|].
Qed.

(** [find_sub] finds a position that is known to be the first one. *)
Lemma find_sub_first (n s : bytes) (i : nat) :
  n `prefix_of` drop i s -> (i <= length s)%nat ->
  (forall j, (j < i)%nat -> ~ n `prefix_of` drop j s) ->
  find_sub n s = Some i.
Proof.
  intros H1 H2 H3. destruct (find_sub n s) as [k|] eqn:E.
  - destruct (find_sub_Some _ _ _ E) as (K1 & K2 & K3).
    destruct (lt_eq_lt_dec k i) as [[|]|]; [by destruct (H3 k)|by subst|by destruct (K3 i)].
  - by destruct (find_sub_None _ _ E i).
Qed.

Definition occurs_in (n s : bytes) : Prop := exists i, n `prefix_of` drop i s.

(** No proper nonempty suffix of [n] is a prefix of [n]. *)
Definition border_free (n : bytes) : Prop :=
  forall k, (0 < k < length n)%nat -> ~ drop k n `prefix_of` n.

Lemma prefix_app_short (p q r : bytes) :
  p `prefix_of` q ++ r -> (length p <= length q)%nat -> p `prefix_of` q.
Proof.
  intros [t Ht] Hl. exists (drop (length p) q).
  rewrite <- (take_drop (length p) q) at 1. f_equal.
  by rewrite <- (take_app_le _ r), Ht, take_app_length.
Qed.

Lemma prefix_app_split (p q r : bytes) :
  p `prefix_of` q ++ r -> (length q <= length p)%nat -> q `prefix_of` p /\ drop (length q) p `prefix_of` r.
Proof.
  intros [t Ht] Hl. split.
  - exists (drop (length q) p).
    rewrite <- (take_app_length q r) at 1. rewrite Ht, take_app_le by done.
    by rewrite take_drop.
  - exists t. rewrite <- (drop_app_length q r) at 1. rewrite Ht, drop_app_le; done.
Qed.

(** A field that does not contain a border-free separator ends where the
    separator after it starts. *)
Lemma find_sub_sep (n f r : bytes) :
  n <> [] -> border_free n -> ~ occurs_in n f -> find_sub n (f ++ n ++ r) = Some (length f).
Proof.
  intros Hn Hb Ho. apply find_sub_first.
  - rewrite drop_app_length. by eexists.
  - rewrite length_app. lia.
  - intros j Hj Hp. rewrite drop_app_le in Hp by lia.
    destruct (le_lt_dec (length n) (length (drop j f))) as [Hl|Hl].
    + apply Ho. exists j. by eapply prefix_app_short.
    + pose proof (length_drop f j) as Hd.
      apply prefix_app_split in Hp as [_ Hp]; [|lia].
      apply (Hb (length (drop j f))); [lia|].
      eapply prefix_app_short; [apply Hp | rewrite length_drop; lia].
Qed.

(** ** Facts about numbers *)

Lemma dec_digits_value (fuel : nat) (z : Z) (acc : bytes) :
  0 <= z < 10 ^ Z.of_nat fuel ->
  fold_left push_digit (dec_digits fuel z acc) 0 = fold_left push_digit acc z.
Proof.
  revert z acc. induction fuel as [|f IH]; intros z acc Hz.
  - simpl. f_equal. change (10 ^ Z.of_nat 0) with 1 in Hz. lia.
  - cbn [dec_digits]. rewrite Nat2Z.inj_succ, Z.pow_succ_r in Hz by lia.
    destruct (Z.ltb_spec z 10).
    + simpl. f_equal. unfold push_digit. rewrite Z.mod_small; lia.
    + rewrite IH by (split; [apply Z.div_pos | apply Z.div_lt_upper_bound]; lia).
      simpl. f_equal. unfold push_digit. pose proof (Z.div_mod z 10). lia.
Qed.

Lemma dec_digits_length (fuel k : nat) (z : Z) (acc : bytes) :
  0 <= z < 10 ^ Z.of_nat k -> (0 < k)%nat ->
  (length (dec_digits fuel z acc) <= k + length acc)%nat.
Proof.
  revert k z acc. induction fuel as [|f IH]; intros k z acc Hz Hk; simpl; [lia|].
  destruct (Z.ltb_spec z 10); simpl; [lia|].
  destruct k as [|[|k]]; [lia|simpl in Hz; lia|].
  rewrite Nat2Z.inj_succ, Z.pow_succ_r in Hz by lia.
  etrans; [apply (IH (S k))|simpl; lia]; [|lia].
  split; [apply Z.div_pos | apply Z.div_lt_upper_bound]; lia.
Qed.

Lemma dec_digits_digits (fuel : nat) (z : Z) (acc : bytes) :
  Forall (fun c => is_digit c = true) acc ->
  Forall (fun c => is_digit c = true) (dec_digits fuel z acc).
Proof.
  revert z acc. induction fuel as [|f IH]; intros z acc H; simpl; [done|].
  assert (is_digit (48 + z mod 10) = true) as Hd.
  { unfold is_digit. pose proof (Z.mod_pos_bound z 10). bool_cases; simpl; lia. }
  destruct (z <? 10); [by constructor | apply IH; by constructor].
Qed.

Lemma dec_digits_nonnil (fuel : nat) (z : Z) (acc : bytes) :
  (0 < fuel)%nat \/ acc <> [] -> dec_digits fuel z acc <> [].
Proof.
  revert z acc. induction fuel as [|f IH]; intros z acc H; simpl; [by destruct H; [lia|]|].
  destruct (z <? 10); [done | apply IH; by right].
Qed.

Lemma dec_nonnil (z : Z) : dec z <> [].
Proof. apply dec_digits_nonnil. left. lia. Qed.

Lemma dec_digit (z : Z) : Forall (fun c => is_digit c = true) (dec z).
Proof. by apply dec_digits_digits. Qed.

Lemma dec_length (k : nat) (z : Z) :
  0 <= z < 10 ^ Z.of_nat k -> (0 < k)%nat -> (length (dec z) <= k)%nat.
Proof.
  intros. unfold dec. etrans; [by apply (dec_digits_length _ k)|simpl; lia].
Qed.

Lemma is_digit_spec (c : Z) : is_digit c = true <-> 48 <= c <= 57.
Proof. unfold is_digit. bool_cases; simpl; lia. Qed.

Lemma cstr_id (s : bytes) : Forall (fun c => c <> 0) s -> cstr s = s.
Proof.
  induction 1 as [|c s H _ IH]; simpl; [done|].
  destruct (Z.eqb_spec c 0); [done|by rewrite IH].
Qed.

Lemma take_digits_all (s : bytes) :
  Forall (fun c => is_digit c = true) s -> take_digits s = s.
Proof. induction 1 as [|c s H _ IH]; simpl; [done|]. by rewrite H, IH. Qed.

Lemma scan_digits (s : bytes) :
  Forall (fun c => is_digit c = true) s -> s <> [] -> scan_number s = (false, s).
Proof.
  intros H Hn. unfold scan_number.
  rewrite cstr_id by (eapply Forall_impl; [done|]; simpl; intros c Hc%is_digit_spec; lia).
  destruct s as [|c s]; [done|]. pose proof H as H'. apply Forall_cons in H as [Hc _].
  apply is_digit_spec in Hc. cbn [skip_space].
  assert (is_space c = false) as -> by (unfold is_space; bool_cases; simpl; lia).
  assert (read_sign (c :: s) = (false, c :: s)) as ->.
  { unfold read_sign. repeat (case_match; try lia); done. }
  by rewrite take_digits_all.
Qed.

Lemma dec_value_dec (z : Z) : 0 <= z < 10 ^ 20 -> dec_value (dec z) = z.
Proof. intros. unfold dec_value, dec. by rewrite dec_digits_value. Qed.

(** Printing with ["%zu"] and reading back with [strtoul]. *)
Lemma strtoul_dec (z : Z) : 0 <= z < 2 ^ 64 -> strtoul (dec z) = z.
Proof.
  intros Hz. unfold strtoul. rewrite scan_digits by auto using dec_digit, dec_nonnil.
  rewrite dec_value_dec by lia. unfold ULONG_MAX. bool_cases; lia.
Qed.

Lemma stoull_dec (z : Z) : 0 <= z < 2 ^ 64 -> stoull (dec z) = Ok z.
Proof.
  intros Hz. unfold stoull. rewrite scan_digits by auto using dec_digit, dec_nonnil.
  pose proof (dec_value_dec z) as E. pose proof (dec_nonnil z). destruct (dec z) as [|c l]; [done|].
  rewrite E by lia. unfold ULONG_MAX. bool_cases; [lia|done].
Qed.

Lemma stoi_dec (z : Z) : 0 <= z < 2 ^ 31 -> stoi (dec z) = Ok z.
Proof.
  intros Hz. unfold stoi. rewrite scan_digits by auto using dec_digit, dec_nonnil.
  pose proof (dec_value_dec z). pose proof (dec_nonnil z).
  destruct (dec z); [done|]. rewrite H by lia.
  destruct (Z.ltb_spec z (- 2 ^ 31)); [lia|]. destruct (Z.ltb_spec (2 ^ 31 - 1) z); [lia|done].
Qed.

Lemma snprintf_short (size : nat) (t : bytes) :
  (length t < size)%nat -> snprintf size t = t.
Proof. intros. apply take_ge. lia. Qed.
