(* ===== verification/StrUtil.v ===== *)
(** * String helpers (utils/strutil.cc)

    [strnstr], [split], [trim] and [delafter] of namespace [str], and what
    each of them computes: [strnstr] is the first occurrence before the
    first NUL, [split] keeps the nonempty fields of a separated text,
    [trim] removes exactly the spaces at both ends. *)
From S2P Require Import Prelude CLib.

Module StrUtil.

(** ** Definitions *)

(** The [while] of [strnstr]: [len] is the current [_len], [i] the number of
    times [_haystack] was advanced; the result is the offset of the match. *)
Fixpoint strnstr_loop (len : nat) (hay needle : bytes) (len2 i : nat) : option nat :=
  match len with
  | O => None
  | S len' =>
      if (len2 <=? len)%nat then
        if starts_with (take len2 needle) hay then Some i
        else strnstr_loop len' (tail hay) needle len2 (S i)
      else None
  end.

(** A pointer argument is [None] for [nullptr], else the bytes it points to. *)
Definition strnstr (haystack needle : option bytes) (len : Z) : option nat :=
  match haystack, needle with
  | Some hay, Some ndl =>
      let len2 := to_int (Z.of_nat (strlen ndl)) in
      if len2 =? 0 then Some O
      else
        let len1 := to_int (Z.of_nat (strnlen hay (Z.to_nat len))) in
        let len := if wrap64 len1 <? len then wrap64 len1 else len in
        strnstr_loop (Z.to_nat len) hay ndl (Z.to_nat (wrap64 len2)) O
  | _, _ => None
  end.

(** The [while] of [split]: the loop has no exit of its own for an empty
    separator, which [fuel] turns into [Hang]. *)
Fixpoint split_loop (fuel : nat) (src sep : bytes) (last : nat) (has : bool)
    (acc : list bytes) : res (list bytes) :=
  match fuel with
  | O => Fault Hang
  | S fuel' =>
      match string_find src sep last with
      | Some curr =>
          if (curr =? last)%nat then split_loop fuel' src sep (curr + length sep) has acc
          else split_loop fuel' src sep (curr + length sep) true
                 (acc ++ [substr src last (curr - last)])
      | None =>
          Ok (if has && (last <? length src)%nat
              then acc ++ [substr src last (length src - last)] else acc)
      end
  end.

Definition split (src sep : bytes) : res (list bytes) :=
  match src with
  | [] => Ok []
  | _ :: _ => split_loop (S (length src)) src sep O false []
  end.

Definition trim (s : bytes) : bytes :=
  match s with
  | [] => s
  | _ :: _ =>
      let s1 := match find_if (fun c => negb (c =? 32)) s with
                | Some i => drop i s
                | None => []
                end in
      match find_last_if (fun c => negb (c =? 32)) s1 with
      | Some i => take (S i) s1
      | None => []
      end
  end.

(** [delafter(std::string &, std::string &)]: any byte of [whence]. *)
Definition delafter_any (s whence : bytes) : bytes :=
  match find_if (fun c => existsb (Z.eqb c) whence) s with
  | Some pos => take pos s
  | None => s
  end.

(** [delafter(std::string &, char)] *)
Definition delafter (s : bytes) (whence : Z) : bytes :=
  match find_if (fun c => c =? whence) s with
  | Some pos => take pos s
  | None => s
  end.

(** ** Specifications *)

(** A separated text. *)
Fixpoint join (sep : bytes) (fs : list bytes) : bytes :=
  match fs with
  | [] => []
  | [f] => f
  | f :: fs' => f ++ sep ++ join sep fs'
  end.

(** The fields [split] keeps: the nonempty ones, except that a last field
    is kept only after a nonempty field. *)
Fixpoint kept_fields (has : bool) (fs : list bytes) : list bytes :=
  match fs with
  | [] => []
  | [f] => if has && negb (bool_decide (f = [])) then [f] else []
  | f :: fs' => if bool_decide (f = []) then kept_fields has fs' else f :: kept_fields true fs'
  end.

(** ** Lemmas *)

Lemma cstr_take (s : bytes) : cstr s = take (length (cstr s)) s.
Proof.
  induction s as [|c s IH]; simpl; [done|].
  destruct (c =? 0); simpl; [done|]. by rewrite IH at 1.
Qed.

Lemma cstr_length (s : bytes) : (length (cstr s) <= length s)%nat.
Proof. induction s as [|c s IH]; simpl; [lia|]. destruct (c =? 0); simpl; lia. Qed.

Lemma find_sub_short (n s : bytes) : (length s < length n)%nat -> find_sub n s = None.
Proof.
  intros H. destruct (find_sub n s) as [i|] eqn:E; [|done].
  apply find_sub_Some in E as ([t Ht] & _ & _).
  apply (f_equal length) in Ht. rewrite length_drop, length_app in Ht. lia.
Qed.

Lemma find_sub_cons (n : bytes) (c : Z) (s : bytes) :
  find_sub n (c :: s) = if starts_with n (c :: s) then Some O else S <$> find_sub n s.
Proof. done. Qed.

Lemma starts_with_take (n s : bytes) (k : nat) :
  (length n <= k)%nat -> starts_with n (take k s) = starts_with n s.
Proof.
  revert s k. induction n as [|c n IH]; intros [|d s] [|k] H; simpl in *; try done; try lia.
  rewrite IH; [done|lia].
Qed.

Lemma strnstr_loop_find (len : nat) (hay n : bytes) (i : nat) :
  n <> [] -> (len <= length hay)%nat ->
  strnstr_loop len hay n (length n) i = (Nat.add i) <$> find_sub n (take len hay).
Proof.
  intros Hn. revert hay i. induction len as [|len IH]; intros hay i Hl; cbn [strnstr_loop].
  - destruct n; done.
  - rewrite (firstn_all n). destruct (Nat.leb_spec (length n) (S len)).
    + destruct hay as [|c hay]; simpl in Hl; [lia|].
      rewrite (find_sub_cons n c (take len hay) : find_sub n (take (S len) (c :: hay)) = _).
      rewrite <- (starts_with_take n (c :: hay) (S len)) by lia. cbn [tail].
      change (take (S len) (c :: hay)) with (c :: take len hay).
      destruct (starts_with n (c :: take len hay)); simpl; [f_equal; lia|].
      rewrite IH by lia. destruct (find_sub n (take len hay)); simpl; [f_equal; lia|done].
    + rewrite find_sub_short; [done|]. rewrite length_take. lia.
Qed.

Lemma strnstr_find (hay n : bytes) (len : Z) :
  n <> [] -> Forall (fun c => c <> 0) n -> zlen n < 2 ^ 31 -> 0 <= len < 2 ^ 31 ->
  len <= zlen hay ->
  strnstr (Some hay) (Some n) len = find_sub n (cstr (take (Z.to_nat len) hay)).
Proof.
  intros Hn Hz Hl Hlen Hh. unfold strnstr, strlen. rewrite cstr_id by done.
  rewrite (to_int_id (zlen n)) by lia.
  destruct (Z.eqb_spec (zlen n) 0); [destruct n; simpl in *; [done|lia]|].
  unfold strnlen. set (t := take (Z.to_nat len) hay).
  assert (length (cstr t) <= Z.to_nat len)%nat as Ht.
  { etrans; [apply cstr_length|]. unfold t. rewrite length_take. lia. }
  rewrite to_int_id by lia. rewrite !wrap64_id by lia.
  assert ((if zlen (cstr t) <? len then zlen (cstr t) else len) = zlen (cstr t)) as ->.
  { bool_cases; lia. }
  rewrite !Nat2Z.id. rewrite strnstr_loop_find by (done || lia).
  replace (take (length (cstr t)) hay) with (cstr t).
  - by destruct (find_sub n (cstr t)).
  - rewrite cstr_take at 1. unfold t. rewrite take_take. f_equal. unfold t in Ht. lia.
Qed.

(** *** [split] *)

Lemma string_find_app (pre s n : bytes) :
  string_find (pre ++ s) n (length pre) = (Nat.add (length pre)) <$> find_sub n s.
Proof.
  unfold string_find. rewrite length_app, drop_app_length.
  by destruct (Nat.leb_spec (length pre) (length pre + length s)); [|lia].
Qed.

Lemma substr_app (pre f s : bytes) : substr (pre ++ f ++ s) (length pre) (length f) = f.
Proof. unfold substr. by rewrite drop_app_length, take_app_length. Qed.

Lemma not_occurs_None (n f : bytes) : ~ occurs_in n f -> find_sub n f = None.
Proof.
  intros H. destruct (find_sub n f) as [i|] eqn:E; [|done].
  apply find_sub_Some in E as (E & _ & _). destruct H. by exists i.
Qed.

(** Absence of the separator, by computation. *)
Lemma find_sub_not_occurs (n f : bytes) : find_sub n f = None -> n <> [] -> ~ occurs_in n f.
Proof.
  intros E Hn [j Hj]. destruct (le_lt_dec j (length f)).
  - by apply (find_sub_None _ _ E j).
  - rewrite drop_ge in Hj by lia. by apply prefix_nil_inv in Hj.
Qed.

Section SplitLoop.
Context (sep : bytes) (Hsep : sep <> []) (Hborder : border_free sep).

Lemma split_loop_fields (fuel : nat) (fs : list bytes) (pre : bytes) (has : bool)
    (acc : list bytes) :
  fs <> [] -> Forall (fun f => ~ occurs_in sep f) fs -> (length fs <= fuel)%nat ->
  split_loop fuel (pre ++ join sep fs) sep (length pre) has acc
  = Ok (acc ++ kept_fields has fs).
Proof.
  revert fuel pre has acc. induction fs as [|f fs IH]; intros fuel pre has acc Hne Hf Hl; [done|].
  apply Forall_cons in Hf as [Hf Hfs]. destruct fuel as [|fuel]; simpl in Hl; [lia|].
  destruct fs as [|g fs].
  - cbn [split_loop join kept_fields]. rewrite string_find_app, not_occurs_None by done. simpl.
    rewrite length_app. destruct f as [|c f]; simpl.
    + destruct (Nat.ltb_spec (length pre) (length pre + 0)); [lia|].
      destruct has; simpl; by rewrite app_nil_r.
    + destruct (Nat.ltb_spec (length pre) (length pre + S (length f))); [|lia].
      rewrite andb_true_r. destruct has; simpl; [|by rewrite app_nil_r].
      do 3 f_equal. replace (length pre + S (length f) - length pre)%nat with (length (c :: f)) by (simpl; lia).
      rewrite <- (app_nil_r (c :: f)) at 1. apply substr_app.
  - change (join sep (f :: g :: fs)) with (f ++ sep ++ join sep (g :: fs)).
    change (kept_fields has (f :: g :: fs))
      with (if bool_decide (f = []) then kept_fields has (g :: fs) else f :: kept_fields true (g :: fs)).
    cbn [split_loop]. rewrite string_find_app, find_sub_sep by done. cbn [fmap option_fmap option_map].
    replace (length pre + length f - length pre)%nat with (length f) by lia.
    rewrite substr_app.
    assert (forall h a, split_loop fuel (pre ++ f ++ sep ++ join sep (g :: fs)) sep
              (length pre + length f + length sep) h a = Ok (a ++ kept_fields h (g :: fs))) as Hgo.
    { intros h a.
      replace (length pre + length f + length sep)%nat with (length (pre ++ f ++ sep))
        by (rewrite !length_app; lia).
      replace (pre ++ f ++ sep ++ join sep (g :: fs)) with ((pre ++ f ++ sep) ++ join sep (g :: fs))
        by (by rewrite <- !app_assoc).
      apply IH; [done|done|simpl in *; lia]. }
    rewrite !Hgo. destruct f as [|c f].
    + by rewrite Nat.add_0_r, Nat.eqb_refl.
    + destruct (Nat.eqb_spec (length pre + length (c :: f)) (length pre)); [simpl in *; lia|].
      by rewrite bool_decide_eq_false_2, <- app_assoc by done.
Qed.

Lemma join_fields_length (fs : list bytes) :
  fs <> [] -> (length fs <= S (length (join sep fs)))%nat.
Proof using Hsep.
  clear Hborder.
  induction fs as [|f [|g fs] IH]; intros H; [done|simpl; lia|].
  change (join sep (f :: g :: fs)) with (f ++ sep ++ join sep (g :: fs)).
  rewrite !length_app. assert (0 < length sep)%nat by (destruct sep; [done|simpl; lia]).
  specialize (IH ltac:(done)). simpl in *. lia.
Qed.

Lemma split_join_kept (fs : list bytes) :
  fs <> [] -> Forall (fun f => ~ occurs_in sep f) fs ->
  split (join sep fs) sep = Ok (kept_fields false fs).
Proof using Hsep Hborder.
  intros Hne Hf. unfold split.
  pose proof (split_loop_fields (S (length (join sep fs))) fs [] false [] Hne Hf
                (join_fields_length fs Hne)) as H.
  simpl app in H. simpl length in H at 2. rewrite <- H.
  destruct (join sep fs) eqn:E; [|done].
  rewrite <- E, H, E in *. clear H. destruct fs as [|f [|g fs]]; [done| |].
  - simpl in E. subst. done.
  - exfalso. change (join sep (f :: g :: fs)) with (f ++ sep ++ join sep (g :: fs)) in E.
    apply app_eq_nil in E as [_ E]. apply app_eq_nil in E as [E _]. done.
Qed.

(** Every text is a list of fields without the separator, joined. *)
Lemma fields_exist (s : bytes) :
  exists fs, fs <> [] /\ join sep fs = s /\ Forall (fun f => ~ occurs_in sep f) fs.
Proof using Hsep.
  clear Hborder.
  induction s as [s IH] using (induction_ltof1 _ (@length Z)).
  destruct (find_sub sep s) as [i|] eqn:E.
  - apply find_sub_Some in E as ([t Ht] & Hi & Hfirst).
    destruct (IH t) as (fs & Hne & Hj & Hf).
    { unfold ltof. apply (f_equal length) in Ht. rewrite length_drop, length_app in Ht.
      destruct sep; [done|simpl in *; lia]. }
    exists (take i s :: fs). split; [done|]. split.
    + destruct fs as [|g fs]; [done|].
      change (join sep (take i s :: g :: fs)) with (take i s ++ sep ++ join sep (g :: fs)).
      by rewrite Hj, <- Ht, take_drop.
    + constructor; [|done]. intros [j Hj']. destruct (le_lt_dec i j) as [Hij|Hij].
      * rewrite drop_ge in Hj' by (rewrite length_take; lia).
        apply prefix_nil_inv in Hj'. done.
      * apply (Hfirst j Hij). etrans; [apply Hj'|].
        rewrite <- (take_drop i s) at 2. rewrite drop_app_le by (rewrite length_take; lia).
        by eexists.
  - exists [s]. split; [done|]. split; [done|]. constructor; [|done]. intros [j Hj].
    apply find_sub_not_occurs in E; [|done]. apply E. by exists j.
Qed.

End SplitLoop.

(** The separators of the program are border-free. *)
Lemma border_free_1 (c : Z) : border_free [c].
Proof. intros k Hk. simpl in Hk. lia. Qed.

Lemma border_free_2 (c d : Z) : c <> d -> border_free [c; d].
Proof.
  intros Hne k Hk Hp. simpl in Hk. replace k with 1%nat in Hp by lia.
  simpl in Hp. apply prefix_cons_inv_1 in Hp. congruence.
Qed.

(** Two or more nonempty fields all come back. *)
Lemma kept_fields_all (fs : list bytes) :
  Forall (fun f => f <> []) fs -> kept_fields true fs = fs.
Proof.
  induction 1 as [|f fs Hf _ IH]; [done|]. cbn [kept_fields].
  rewrite bool_decide_false, IH by done. by destruct fs.
Qed.

Lemma split_join (sep : bytes) (f g : bytes) (fs : list bytes) :
  sep <> [] -> border_free sep ->
  Forall (fun f => ~ occurs_in sep f /\ f <> []) (f :: g :: fs) ->
  split (join sep (f :: g :: fs)) sep = Ok (f :: g :: fs).
Proof.
  intros Hs Hb [Ho Hn]%Forall_and. rewrite split_join_kept by done. f_equal.
  apply Forall_cons in Hn as [Hf Hn].
  change (kept_fields false (f :: g :: fs)) with
    (if bool_decide (f = []) then kept_fields false (g :: fs) else f :: kept_fields true (g :: fs)).
  rewrite bool_decide_false by done. f_equal. by apply kept_fields_all.
Qed.

(** A text without the separator gives no field at all. *)
Lemma split_no_sep (s sep : bytes) :
  sep <> [] -> border_free sep -> ~ occurs_in sep s -> split s sep = Ok [].
Proof.
  intros Hs Hb Ho. apply (split_join_kept sep Hs Hb [s]); [done|by constructor].
Qed.

Lemma split_loop_nil_sep (fuel : nat) (src : bytes) (last : nat) (has : bool) (acc : list bytes) :
  (last <= length src)%nat -> split_loop fuel src [] last has acc = Fault Hang.
Proof.
  intros Hl. induction fuel as [|fuel IH]; [done|]. cbn [split_loop].
  unfold string_find. destruct (Nat.leb_spec last (length src)); [|lia].
  assert (find_sub [] (drop last src) = Some O) as -> by (by destruct (drop last src)).
  cbn [fmap option_fmap option_map]. rewrite Nat.add_0_r, Nat.eqb_refl.
  simpl length. rewrite Nat.add_0_r. apply IH.
Qed.

(** *** [trim] and [delafter] *)

Definition spaces (s : bytes) : Prop := Forall (fun c => c = 32) s.

Lemma find_if_split (p : Z -> bool) (s : bytes) :
  match find_if p s with
  | Some i => Forall (fun c => p c = false) (take i s) /\
              exists c, s !! i = Some c /\ p c = true
  | None => Forall (fun c => p c = false) s
  end.
Proof.
  induction s as [|c s IH]; simpl; [constructor|].
  destruct (p c) eqn:E; [split; [constructor|by exists c]|].
  destruct (find_if p s) as [i|]; simpl; [|by constructor].
  destruct IH as [H1 H2]. split; [by constructor|done].
Qed.

Lemma find_last_if_split (p : Z -> bool) (s : bytes) :
  match find_last_if p s with
  | Some i => Forall (fun c => p c = false) (drop (S i) s) /\
              exists c, s !! i = Some c /\ p c = true
  | None => Forall (fun c => p c = false) s
  end.
Proof.
  induction s as [|c s IH]; simpl; [constructor|].
  destruct (find_last_if p s) as [i|]; simpl; [done|].
  destruct (p c) eqn:E; [split; [done|by exists c]|by constructor].
Qed.

Lemma spaces_spec (s : bytes) : Forall (fun c => negb (c =? 32) = false) s <-> spaces s.
Proof.
  apply Forall_iff. intros c. destruct (Z.eqb_spec c 32); naive_solver.
Qed.

Lemma trim_parts (s : bytes) :
  exists l r, spaces l /\ spaces r /\ s = l ++ trim s ++ r.
Proof.
  unfold trim. destruct s as [|c0 s0]; [by exists [], []; repeat constructor|].
  set (s := c0 :: s0). set (p := fun c => negb (c =? 32)).
  pose proof (find_if_split p s) as H. destruct (find_if p s) as [i|].
  - destruct H as [H _]. apply spaces_spec in H.
    pose proof (find_last_if_split p (drop i s)) as H2.
    destruct (find_last_if p (drop i s)) as [j|].
    + destruct H2 as [H2 _]. apply spaces_spec in H2.
      exists (take i s), (drop (S j) (drop i s)). by rewrite !take_drop.
    + apply spaces_spec in H2. exists (take i s), (drop i s). by rewrite app_nil_l, take_drop.
  - apply spaces_spec in H. exists s, []. split; [done|]. split; [constructor|].
    by rewrite !app_nil_r.
Qed.

Lemma trim_ends (s : bytes) : head (trim s) <> Some 32 /\ last (trim s) <> Some 32.
Proof.
  unfold trim. destruct s as [|c0 s0]; [done|].
  set (s := c0 :: s0). set (p := fun c => negb (c =? 32)).
  pose proof (find_if_split p s) as H. destruct (find_if p s) as [i|]; [|done].
  destruct H as (_ & c & Hc & Hpc). pose proof (find_last_if_split p (drop i s)) as H2.
  destruct (find_last_if p (drop i s)) as [j|]; [|done].
  destruct H2 as (_ & d & Hd & Hpd). rewrite head_lookup, last_lookup.
  assert (length (take (S j) (drop i s)) = S j) as ->.
  { rewrite length_take. apply lookup_lt_Some in Hd. lia. }
  simpl Nat.pred. rewrite !lookup_take_lt by lia. rewrite lookup_drop, Nat.add_0_r, Hc, Hd.
  split; intros [= ->]; done.
Qed.

(** ** Properties *)

(** [split] on any border-free separator (all of ["\r\n"], [": "], [":"] and
    [" "] are) returns exactly the nonempty fields of the text, in order, except that
    a last field that no nonempty field precedes is dropped. *)
Theorem split_fields (sep : bytes) (fs : list bytes)
    (Hsep : sep <> []) (Hborder : border_free sep) (Hne : fs <> [])
    (Hfs : Forall (fun f => ~ occurs_in sep f) fs) :
  split (join sep fs) sep = Ok (kept_fields false fs).
Proof. by apply split_join_kept. Qed.

Lemma split_fields_witness :
  split (join crlf [str "Host: a"; []; str "Accept: b"]) crlf
  = Ok [str "Host: a"; str "Accept: b"].
Proof.
  refine (split_fields crlf [str "Host: a"; []; str "Accept: b"] _ _ _ _); [done| |done|].
  - by apply border_free_2.
  - repeat constructor; by apply find_sub_not_occurs.
Defined.

End StrUtil.
