(* ===== verification/AutoBuffer.v ===== *)
(** * The growable byte buffer (utils/autobuffer.h, utils/autobuffer.cc)

    [AutoBuffer] owns a [std::vector<char>] or is a shallow view of memory
    that belongs to another object. The library keeps the two apart in the
    pointer [byte_array_p_], and shows that an owning buffer is a sequence
    of bytes to which [Write] appends. *)
From S2P Require Import Prelude CLib.

Module AutoBuffer.

(** ** Definitions *)

(** The value of [byte_array_p_]: null, the storage of the buffer's own
    vector, or an address [off] inside a block of another object. *)
Inductive pointer :=
| PNull
| POwn
| PExt (blk : Z) (off : Z).

Record AutoBuffer := mkAutoBuffer {
  byte_array_p_ : pointer;
  is_shallow_copy_ : bool;
  byte_array_ : bytes;
  pos_ : Z;
  length_ : Z;
  capacity_ : Z;
  malloc_unit_size_ : Z
}.

Definition new (malloc_unit_size : Z) : AutoBuffer :=
  {| byte_array_p_ := PNull; is_shallow_copy_ := false; byte_array_ := [];
     pos_ := 0; length_ := 0; capacity_ := 0; malloc_unit_size_ := malloc_unit_size |}.

(** The default argument of the constructor. *)
Definition kMallocUnit : Z := 128.

Definition Pos (b : AutoBuffer) : Z := pos_ b.
Definition Length (b : AutoBuffer) : Z := length_ b.
Definition Capacity (b : AutoBuffer) : Z := capacity_ b.
Definition AvailableSize (b : AutoBuffer) : Z := sub64 (capacity_ b) (length_ b).

(** [std::vector<char>::resize] *)
Definition vector_resize (v : bytes) (n : Z) : bytes := resize (Z.to_nat n) 0 v.

Definition AddCapacity (b : AutoBuffer) (size_to_add : Z) : res AutoBuffer :=
  if size_to_add =? 0 then Ok b
  else
    _ ← assert_ (negb (is_shallow_copy_ b));
    if malloc_unit_size_ b =? 0 then Fault Undefined
    else
      let size_to_add :=
        if negb (size_to_add mod malloc_unit_size_ b =? 0)
        then wrap64 ((size_to_add / malloc_unit_size_ b + 1) * malloc_unit_size_ b)
        else size_to_add in
      let size := add64 (capacity_ b) size_to_add in
      Ok {| byte_array_p_ := POwn; is_shallow_copy_ := is_shallow_copy_ b;
            byte_array_ := vector_resize (byte_array_ b) size;
            pos_ := pos_ b; length_ := length_ b; capacity_ := size;
            malloc_unit_size_ := malloc_unit_size_ b |}.

(** [memcpy(Ptr(off), src, src.size())]: defined only inside the vector. *)
Definition copy_at (b : AutoBuffer) (off : Z) (src : bytes) : res AutoBuffer :=
  match byte_array_p_ b with
  | POwn =>
      if (0 <=? off) && (off + zlen src <=? zlen (byte_array_ b)) then
        Ok {| byte_array_p_ := POwn; is_shallow_copy_ := is_shallow_copy_ b;
              byte_array_ := take (Z.to_nat off) (byte_array_ b) ++ src
                             ++ drop (Z.to_nat off + length src) (byte_array_ b);
              pos_ := pos_ b; length_ := length_ b; capacity_ := capacity_ b;
              malloc_unit_size_ := malloc_unit_size_ b |}
      else Fault Undefined
  | _ => Fault Undefined
  end.

Definition SetLength (b : AutoBuffer) (len : Z) : AutoBuffer :=
  {| byte_array_p_ := byte_array_p_ b; is_shallow_copy_ := is_shallow_copy_ b;
     byte_array_ := byte_array_ b; pos_ := pos_ b; length_ := len;
     capacity_ := capacity_ b; malloc_unit_size_ := malloc_unit_size_ b |}.

Definition AddLength (b : AutoBuffer) (len : Z) : AutoBuffer :=
  if 0 <? len then SetLength b (add64 (length_ b) len) else b.

(** [Write(_byte_array, _len)]: the source array is [None] for [nullptr]. *)
Definition Write (b : AutoBuffer) (byte_array : option bytes) (len : Z) : res AutoBuffer :=
  match byte_array with
  | None => Ok b
  | Some src =>
      if len =? 0 then Ok b
      else
        _ ← assert_ (negb (is_shallow_copy_ b));
        b1 ← (if capacity_ b <? add64 (length_ b) len
              then AddCapacity b (sub64 (add64 (length_ b) len) (capacity_ b)) else Ok b);
        if zlen src <? len then Fault Undefined
        else
          b2 ← copy_at b1 (length_ b1) (take (Z.to_nat len) src);
          Ok (SetLength b2 (add64 (length_ b2) len))
  end.

(** [Write(s.data(), s.size())] *)
Definition WriteString (b : AutoBuffer) (s : bytes) : res AutoBuffer := Write b (Some s) (zlen s).

Inductive TWhence := kStart | kCurrent | kEnd.

Definition set_pos (b : AutoBuffer) (p : Z) : AutoBuffer :=
  {| byte_array_p_ := byte_array_p_ b; is_shallow_copy_ := is_shallow_copy_ b;
     byte_array_ := byte_array_ b; pos_ := p; length_ := length_ b;
     capacity_ := capacity_ b; malloc_unit_size_ := malloc_unit_size_ b |}.

Definition Seek (b : AutoBuffer) (whence : TWhence) (pos : Z) : AutoBuffer :=
  match whence with
  | kStart => set_pos b 0
  | kCurrent => set_pos b (add64 (pos_ b) pos)
  | kEnd => set_pos b (Length b)
  end.

Definition ShallowCopyFrom (b : AutoBuffer) (p : pointer) (len : Z) : AutoBuffer :=
  {| byte_array_p_ := p; is_shallow_copy_ := true; byte_array_ := []; pos_ := pos_ b;
     length_ := len; capacity_ := capacity_ b; malloc_unit_size_ := malloc_unit_size_ b |}.

Definition Reset (b : AutoBuffer) : AutoBuffer :=
  {| byte_array_p_ := PNull; is_shallow_copy_ := false; byte_array_ := []; pos_ := 0;
     length_ := 0; capacity_ := 0; malloc_unit_size_ := malloc_unit_size_ b |}.

(** Reading [n] bytes from [Ptr(off)] of an owning buffer. *)
Definition load (b : AutoBuffer) (off n : Z) : res bytes :=
  match byte_array_p_ b with
  | POwn =>
      if (0 <=? off) && (0 <=? n) && (off + n <=? zlen (byte_array_ b))
      then Ok (take (Z.to_nat n) (drop (Z.to_nat off) (byte_array_ b)))
      else Fault Undefined
  | _ => Fault Undefined
  end.

(** ** Specification: a buffer is a sequence of bytes *)

(** The bytes an owning buffer holds. *)
Definition contents (b : AutoBuffer) : bytes := take (Z.to_nat (length_ b)) (byte_array_ b).

(** The bytes a buffer gives access to: those of its own vector, or those of
    the block it was made a view of, which [deref] looks up; a view that
    reaches beyond the block, or whose block is gone, must not be read. *)
Definition bytes_of (deref : Z -> option bytes) (b : AutoBuffer) : res bytes :=
  match byte_array_p_ b with
  | PExt blk off =>
      match deref blk with
      | Some v =>
          if (0 <=? off) && (off + length_ b <=? zlen v)
          then Ok (take (Z.to_nat (length_ b)) (drop (Z.to_nat off) v)) else Fault Undefined
      | None => Fault Dangling
      end
  | _ => Ok (contents b)
  end.

(** The invariant of an owning buffer. *)
Record owned (b : AutoBuffer) : Prop := {
  owned_shallow : is_shallow_copy_ b = false;
  owned_ptr : byte_array_p_ b = if capacity_ b =? 0 then PNull else POwn;
  owned_cap : zlen (byte_array_ b) = capacity_ b;
  owned_len : 0 <= length_ b <= capacity_ b;
  owned_unit : 0 < malloc_unit_size_ b < 2 ^ 32;
  owned_mult : capacity_ b mod malloc_unit_size_ b = 0
}.

(** A call on an owning buffer. *)
Inductive op :=
| OpWrite (s : bytes)
| OpAddCapacity (n : Z)
| OpSeek (w : TWhence) (p : Z)
| OpReset.

Definition do_op (b : AutoBuffer) (o : op) : res AutoBuffer :=
  match o with
  | OpWrite s => WriteString b s
  | OpAddCapacity n => AddCapacity b n
  | OpSeek w p => Ok (Seek b w p)
  | OpReset => Ok (Reset b)
  end.

Fixpoint do_ops (b : AutoBuffer) (os : list op) : res AutoBuffer :=
  match os with
  | [] => Ok b
  | o :: os' => b' ← do_op b o; do_ops b' os'
  end.

(** The abstract buffer: the bytes and the read position. *)
Definition spec_op (a : bytes * Z) (o : op) : bytes * Z :=
  match o with
  | OpWrite s => (a.1 ++ s, a.2)
  | OpAddCapacity _ => a
  | OpSeek kStart _ => (a.1, 0)
  | OpSeek kCurrent p => (a.1, add64 a.2 p)
  | OpSeek kEnd _ => (a.1, zlen a.1)
  | OpReset => ([], 0)
  end.

Definition implements (b : AutoBuffer) (a : bytes * Z) : Prop :=
  owned b /\ contents b = a.1 /\ pos_ b = a.2.

(** An upper bound on the growth of the capacity in one call. *)
Definition op_growth (u : Z) (o : op) : Z :=
  match o with
  | OpWrite s => zlen s + u
  | OpAddCapacity n => Z.max 0 n + u
  | _ => 0
  end.

Definition ops_growth (u : Z) (os : list op) : Z := foldr (fun o z => op_growth u o + z) 0 os.

Definition op_ok (o : op) : Prop := match o with OpAddCapacity n => 0 <= n | _ => True end.

(** ** Lemmas *)

Lemma new_owned (u : Z) : 0 < u < 2 ^ 32 -> owned (new u).
Proof. intros. split; simpl; done || lia. Qed.

Lemma Reset_owned (b : AutoBuffer) : 0 < malloc_unit_size_ b < 2 ^ 32 -> owned (Reset b).
Proof. intros. split; simpl; done || lia. Qed.

Lemma contents_length (b : AutoBuffer) : owned b -> zlen (contents b) = length_ b.
Proof.
  intros H. unfold contents. rewrite length_take.
  destruct H as [_ _ Hc Hl _ _]. lia.
Qed.

Lemma contents_nil (b : AutoBuffer) : length_ b = 0 -> contents b = [].
Proof. intros H. unfold contents. by rewrite H. Qed.

(** The size [AddCapacity] adds: the request rounded up to the unit. *)
Definition round_up (n u : Z) : Z := if n mod u =? 0 then n else (n / u + 1) * u.

Lemma round_up_spec (n u : Z) :
  0 < n -> 0 < u -> n <= round_up n u < n + u /\ round_up n u mod u = 0.
Proof.
  intros Hn Hu. unfold round_up. pose proof (Z.div_mod n u). pose proof (Z.mod_pos_bound n u).
  destruct (Z.eqb_spec (n mod u) 0); [lia|]. split; [lia|]. apply Z.mod_mul. lia.
Qed.

Lemma AddCapacity_ok (b : AutoBuffer) (n : Z) :
  owned b -> 0 < n -> capacity_ b + n < 2 ^ 62 ->
  exists b', AddCapacity b n = Ok b' /\ owned b' /\ contents b' = contents b /\
    length_ b' = length_ b /\ pos_ b' = pos_ b /\ malloc_unit_size_ b' = malloc_unit_size_ b /\
    capacity_ b + n <= capacity_ b' < capacity_ b + n + malloc_unit_size_ b.
Proof.
  intros Hb Hn Hs. destruct Hb as [H1 H2 H3 H4 H5 H6]. unfold AddCapacity.
  destruct (Z.eqb_spec n 0); [lia|]. rewrite H1. cbn.
  destruct (Z.eqb_spec (malloc_unit_size_ b) 0); [lia|].
  set (u := malloc_unit_size_ b) in *.
  destruct (round_up_spec n u Hn ltac:(lia)) as [Hr Hm].
  assert ((if negb (n mod u =? 0) then wrap64 ((n / u + 1) * u) else n) = round_up n u) as ->.
  { unfold round_up in *. destruct (n mod u =? 0); simpl in *; [done|]. apply wrap64_id. lia. }
  eexists. split; [done|]. cbn. rewrite add64_id by lia.
  assert (zlen (vector_resize (byte_array_ b) (capacity_ b + round_up n u))
          = capacity_ b + round_up n u) as Hlen.
  { unfold vector_resize. rewrite length_resize. lia. }
  split; [split; cbn; try done; try lia|].
  - destruct (Z.eqb_spec (capacity_ b + round_up n u) 0); [lia|done].
  - fold u. rewrite Z.add_mod, H6, Hm by lia. by rewrite Z.mod_0_l by lia.
  - split; [|repeat split; lia]. unfold contents, vector_resize. cbn.
    rewrite resize_ge by lia. rewrite take_app_le by lia. done.
Qed.

Lemma copy_at_ok (b : AutoBuffer) (s : bytes) :
  owned b -> s <> [] -> length_ b + zlen s <= capacity_ b ->
  exists b', copy_at b (length_ b) s = Ok b' /\
    owned (SetLength b' (length_ b + zlen s)) /\
    contents (SetLength b' (length_ b + zlen s)) = contents b ++ s /\
    length_ b' = length_ b /\ pos_ b' = pos_ b /\ capacity_ b' = capacity_ b /\
    malloc_unit_size_ b' = malloc_unit_size_ b.
Proof.
  intros [H1 H2 H3 H4 H5 H6] Hs Hl. unfold copy_at.
  assert (0 < zlen s) by (destruct s; [done|simpl; lia]).
  rewrite H2. destruct (Z.eqb_spec (capacity_ b) 0); [lia|].
  destruct (Z.leb_spec 0 (length_ b)); [|lia].
  destruct (Z.leb_spec (length_ b + zlen s) (zlen (byte_array_ b))); [|lia].
  eexists. split; [done|]. cbn. split; [split; cbn; try done; try lia|].
  - destruct (Z.eqb_spec (capacity_ b) 0); [lia|done].
  - rewrite !length_app, length_take, length_drop. lia.
  - split; [|done]. unfold contents. cbn.
    rewrite app_assoc, take_app_le by (rewrite length_app, length_take; lia).
    apply take_ge. rewrite length_app, length_take. lia.
Qed.

(** The contract of [Write] on an owning buffer. *)
Lemma WriteString_ok (b : AutoBuffer) (s : bytes) :
  owned b -> length_ b + zlen s < 2 ^ 61 -> capacity_ b < 2 ^ 61 ->
  exists b', WriteString b s = Ok b' /\ owned b' /\ contents b' = contents b ++ s /\
    length_ b' = length_ b + zlen s /\ pos_ b' = pos_ b /\
    malloc_unit_size_ b' = malloc_unit_size_ b /\
    capacity_ b' <= Z.max (capacity_ b) (length_ b' + malloc_unit_size_ b).
Proof.
  intros Hb Hs Hc. pose proof Hb as [H1 _ _ H4 H5 _]. unfold WriteString, Write.
  destruct (Z.eqb_spec (zlen s) 0) as [E|E].
  { destruct s; [|simpl in E; lia]. exists b. rewrite app_nil_r. simpl. split_and!; auto; lia. }
  rewrite H1. cbn [negb assert_]. cbn [mbind res_bind].
  rewrite add64_id by lia.
  assert (s <> []) by (by intros ->).
  assert (exists b1, (if capacity_ b <? length_ b + zlen s
            then AddCapacity b (sub64 (length_ b + zlen s) (capacity_ b)) else Ok b) = Ok b1 /\
          owned b1 /\ contents b1 = contents b /\ length_ b1 = length_ b /\ pos_ b1 = pos_ b /\
          malloc_unit_size_ b1 = malloc_unit_size_ b /\ length_ b + zlen s <= capacity_ b1 /\
          capacity_ b1 <= Z.max (capacity_ b) (length_ b + zlen s + malloc_unit_size_ b))
    as (b1 & -> & Hb1 & Hc1 & Hl1 & Hp1 & Hu1 & Hcap & Hmax).
  { destruct (Z.ltb_spec (capacity_ b) (length_ b + zlen s)).
    - rewrite sub64_id by lia.
      destruct (AddCapacity_ok b (length_ b + zlen s - capacity_ b)) as (b1 & ? & ? & ? & ? & ? & ? & ?);
        [done|lia|lia|]. exists b1. split_and!; try done; lia.
    - exists b. split_and!; try done; lia. }
  cbn [mbind res_bind]. destruct (Z.ltb_spec (zlen s) (zlen s)); [lia|].
  rewrite Nat2Z.id, firstn_all.
  destruct (copy_at_ok b1 s) as (b2 & -> & Hb2 & Hc2 & Hl2 & Hp2 & Hcap2 & Hu2); [done|done|lia|].
  cbn [mbind res_bind]. rewrite Hl2, add64_id by lia.
  eexists. split; [done|]. split; [done|]. rewrite Hc2, Hc1. cbn.
  split; [done|]. split_and!; congruence || lia.
Qed.

(** A buffer that holds [s], with nothing sent yet. *)
Definition holds (b : AutoBuffer) (s : bytes) : Prop :=
  owned b /\ contents b = s /\ pos_ b = 0 /\ capacity_ b <= zlen s + 2 ^ 33.

Lemma holds_new (u : Z) : 0 < u < 2 ^ 32 -> holds (new u) [].
Proof. intros. split; [by apply new_owned|done]. Qed.

Lemma holds_Reset (b : AutoBuffer) : 0 < malloc_unit_size_ b < 2 ^ 32 -> holds (Reset b) [].
Proof. intros. split; [by apply Reset_owned|done]. Qed.

Lemma holds_length (b : AutoBuffer) (s : bytes) : holds b s -> length_ b = zlen s.
Proof. intros (H & <- & _). by rewrite contents_length. Qed.

Lemma holds_unit (b : AutoBuffer) (s : bytes) : holds b s -> 0 < malloc_unit_size_ b < 2 ^ 32.
Proof. by intros ([] & _). Qed.

Lemma WriteString_holds (b : AutoBuffer) (s t : bytes) :
  holds b s -> zlen (s ++ t) < 2 ^ 60 ->
  exists b', WriteString b t = Ok b' /\ holds b' (s ++ t).
Proof.
  intros Hb Hl. pose proof (holds_length _ _ Hb) as Hlen. pose proof (holds_unit _ _ Hb).
  destruct Hb as (Ho & Hc & Hp & Hcap). rewrite length_app in Hl.
  destruct (WriteString_ok b t) as (b' & Hw & Ho' & Hc' & Hl' & Hp' & Hu' & Hcap'); [done|lia|lia|].
  exists b'. split; [done|]. split; [done|]. rewrite Hc', Hc. split; [done|].
  split; [congruence|]. rewrite length_app. lia.
Qed.

Lemma load_contents (b : AutoBuffer) (off n : Z) :
  owned b -> 0 <= off -> 0 < n -> off + n <= length_ b ->
  load b off n = Ok (take (Z.to_nat n) (drop (Z.to_nat off) (contents b))).
Proof.
  intros [H1 H2 H3 H4 H5 H6] Ho Hn Hl. unfold load. rewrite H2.
  destruct (Z.eqb_spec (capacity_ b) 0); [lia|].
  destruct (Z.leb_spec 0 off); [|lia]. destruct (Z.leb_spec 0 n); [|lia].
  destruct (Z.leb_spec (off + n) (zlen (byte_array_ b))); [|lia]. cbn. f_equal.
  unfold contents. rewrite skipn_firstn_comm, take_take. f_equal. lia.
Qed.

Lemma op_growth_nonneg (u : Z) (o : op) : 0 < u -> 0 <= op_growth u o.
Proof. destruct o; simpl; lia. Qed.

Lemma ops_growth_nonneg (u : Z) (os : list op) : 0 < u -> 0 <= ops_growth u os.
Proof.
  intros Hu. induction os as [|o os IH]; simpl; [lia|]. pose proof (op_growth_nonneg u o Hu). lia.
Qed.

Lemma set_pos_implements (b : AutoBuffer) (a : bytes * Z) (p : Z) :
  implements b a -> implements (set_pos b p) (a.1, p).
Proof. intros ([] & H2 & H3). split; [by constructor|done]. Qed.

(** One call simulates one abstract step. *)
Lemma do_op_implements (b : AutoBuffer) (a : bytes * Z) (o : op) :
  implements b a -> op_ok o -> capacity_ b + op_growth (malloc_unit_size_ b) o < 2 ^ 61 ->
  exists b', do_op b o = Ok b' /\ implements b' (spec_op a o) /\
    malloc_unit_size_ b' = malloc_unit_size_ b /\
    capacity_ b' <= capacity_ b + op_growth (malloc_unit_size_ b) o.
Proof.
  intros Hb Ho Hs. pose proof Hb as (Hw & Hc & Hp). pose proof Hw as [_ _ H3 H4 H5 _].
  destruct o as [t|n|w p|]; simpl in *.
  - destruct (WriteString_ok b t) as (b' & -> & Ho' & Hc' & Hl' & Hp' & Hu' & Hcap'); [done|lia|lia|].
    exists b'. split_and!; try done; [split_and!; simpl; congruence|lia].
  - destruct (decide (n = 0)) as [->|Hn].
    { exists b. split_and!; try done. lia. }
    destruct (AddCapacity_ok b n) as (b' & -> & Ho' & Hc' & Hl' & Hp' & Hu' & Hcap'); [done|lia|lia|].
    exists b'. split_and!; try done; [split_and!; simpl; congruence|lia].
  - exists (Seek b w p). split; [done|]. destruct w; simpl.
    + split_and!; try done || lia; by apply set_pos_implements.
    + rewrite <- Hp. split_and!; try done || lia; by apply set_pos_implements.
    + rewrite <- Hc, contents_length by done.
      split_and!; try done || lia; rewrite Hc; by apply set_pos_implements.
  - exists (Reset b). split_and!; try done; try (simpl; lia).
Qed.

(** ** Properties *)

(** C29: any sequence of [Write], [AddCapacity], [Seek] and [Reset] calls on an owning
    buffer succeeds and refines the abstract buffer: the bytes are those written since the
    last [Reset], in order, no call reads or writes outside the vector, and the invariant
    (capacity a multiple of the allocation unit, length at most capacity) is kept; the only
    hypothesis is that the total growth stays below 2^61 bytes. *)
Theorem do_ops_refine (os : list op) (b : AutoBuffer) (a : bytes * Z)
    (Hb : implements b a) (Hos : Forall op_ok os)
    (Hsize : capacity_ b + ops_growth (malloc_unit_size_ b) os < 2 ^ 61) :
  exists b', do_ops b os = Ok b' /\ implements b' (fold_left spec_op os a).
Proof.
  revert b a Hb Hsize. induction Hos as [|o os Ho _ IH]; intros b a Hb Hsize; simpl in *.
  { by exists b. }
  pose proof Hb as ([_ _ _ _ Hu _] & _).
  pose proof (ops_growth_nonneg (malloc_unit_size_ b) os ltac:(lia)).
  destruct (do_op_implements b a o) as (b1 & -> & Hb1 & Hu1 & Hc1); [done|done|lia|].
  apply IH; [done|]. rewrite Hu1. lia.
Qed.

Lemma do_ops_refine_witness :
  exists b', do_ops (new 128) [OpWrite (str "GET"); OpAddCapacity 200; OpWrite (str " /");
                              OpSeek kEnd 0] = Ok b' /\
             implements b' (str "GET /", 5).
Proof.
  refine (do_ops_refine [OpWrite (str "GET"); OpAddCapacity 200; OpWrite (str " /"); OpSeek kEnd 0]
            (new 128) ([], 0) _ _ _).
  - split; [by apply new_owned|done].
  - by repeat constructor.
  - vm_compute. reflexivity.
Defined.

End AutoBuffer.
