(* ===== verification/Base64.v ===== *)
(** * Base64 (utils/base64.cc)

    [Encode] and [Decode] as the state machines the source writes (the
    variable [where] and the [last] byte), shown equal to a direct
    description by groups of three bytes, and inverse to each other. *)
From S2P Require Import Prelude CLib.

Module Base64.

(** ** Definitions *)

Definition padding : Z := 61.

Definition encode_table : bytes :=
  str "ABCDEFGHIJKLMNOPQRSTUVWXYZabcdefghijklmnopqrstuvwxyz0123456789+/".

(** 255 indicates error. *)
Definition decode_table : list Z := [
  255; 255; 255; 255; 255; 255; 255; 255;
  255; 255; 255; 255; 255; 255; 255; 255;
  255; 255; 255; 255; 255; 255; 255; 255;
  255; 255; 255; 255; 255; 255; 255; 255;
  255; 255; 255; 255; 255; 255; 255; 255;
  255; 255; 255;  62; 255; 255; 255;  63;
   52;  53;  54;  55;  56;  57;  58;  59;
   60;  61; 255; 255; 255; 255; 255; 255;
  255;   0;   1;   2;   3;   4;   5;   6;
    7;   8;   9;  10;  11;  12;  13;  14;
   15;  16;  17;  18;  19;  20;  21;  22;
   23;  24;  25; 255; 255; 255; 255; 255;
  255;  26;  27;  28;  29;  30;  31;  32;
   33;  34;  35;  36;  37;  38;  39;  40;
   41;  42;  43;  44;  45;  46;  47;  48;
   49;  50;  51; 255; 255; 255; 255; 255].

(** Reading a table; an index outside it is undefined behaviour. *)
Definition table_at (t : list Z) (i : Z) : res Z :=
  if i <? 0 then Fault Undefined
  else match t !! Z.to_nat i with Some c => Ok c | None => Fault Undefined end.

(** The variables of the loop of [Encode]: the output so far, [last] and [where]. *)
Record enc_state := { e_res : bytes; e_last : Z; e_where : Z }.

Definition encode_step (st : enc_state) (curr : Z) : res enc_state :=
  let last := e_last st in
  if e_where st =? 0 then
    c ← table_at encode_table (Z.land (Z.shiftr curr 2) 63);
    Ok {| e_res := e_res st ++ [c]; e_last := curr; e_where := 1 |}
  else if e_where st =? 1 then
    c ← table_at encode_table
          (Z.lor (Z.shiftl (Z.land last 3) 4) (Z.land (Z.shiftr curr 4) 15));
    Ok {| e_res := e_res st ++ [c]; e_last := curr; e_where := 2 |}
  else
    c ← table_at encode_table
          (Z.lor (Z.shiftl (Z.land last 15) 2) (Z.land (Z.shiftr curr 6) 3));
    d ← table_at encode_table (Z.land curr 63);
    Ok {| e_res := e_res st ++ [c; d]; e_last := curr; e_where := 0 |}.

(** The loop from index [i] on, [inp] being what is left; [i] is an [int]. *)
Fixpoint encode_loop (i : Z) (st : enc_state) (inp : bytes) : res enc_state :=
  match inp with
  | [] => Ok st
  | curr :: inp' =>
      st' ← encode_step st curr;
      i' ← inc_int i;
      encode_loop i' st' inp'
  end.

(** The last group and its padding. *)
Definition encode_finish (st : enc_state) : res bytes :=
  if e_where st =? 1 then
    c ← table_at encode_table (Z.shiftl (Z.land (e_last st) 3) 4);
    Ok (e_res st ++ [c; padding; padding])
  else if e_where st =? 2 then
    c ← table_at encode_table (Z.shiftl (Z.land (e_last st) 15) 2);
    Ok (e_res st ++ [c; padding])
  else Ok (e_res st).

(** The C string [Encode] leaves in [_res]; its length is the return value. *)
Definition Encode (inp : bytes) : res bytes :=
  st ← encode_loop 0 {| e_res := []; e_last := 0; e_where := 0 |} inp;
  out ← encode_finish st;
  _ ← assert_ (Z.land (Z.of_nat (strlen out)) 3 =? 0);
  Ok out.

Record dec_state := { d_res : bytes; d_last : Z; d_where : Z }.

Definition decode_step (st : dec_state) (curr : Z) : dec_state :=
  let last := d_last st in
  if d_where st =? 0 then
    {| d_res := d_res st; d_last := curr; d_where := 1 |}
  else if d_where st =? 1 then
    {| d_res := d_res st ++
         [wrap8 (Z.land (Z.shiftl last 2) 255 + Z.land (Z.shiftr curr 4) 3)];
       d_last := curr; d_where := 2 |}
  else if d_where st =? 2 then
    {| d_res := d_res st ++
         [wrap8 (Z.shiftl (Z.land last 15) 4 + Z.land (Z.shiftr curr 2) 15)];
       d_last := curr; d_where := 3 |}
  else
    {| d_res := d_res st ++ [wrap8 (Z.shiftl (Z.land last 3) 6 + Z.land curr 63)];
       d_last := curr; d_where := 0 |}.

(** The index [_in[i]] is a [char]: a byte above 127 is a negative index. *)
Fixpoint decode_loop (st : dec_state) (inp : bytes) : res dec_state :=
  match inp with
  | [] => Ok st
  | c :: inp' =>
      if c =? padding then Ok st
      else
        curr ← table_at decode_table (to_char c);
        if curr =? 255 then Fault (Throw Base64DecodeException)
        else decode_loop (decode_step st curr) inp'
  end.

Definition Decode (inp : bytes) : res bytes :=
  if negb (Z.land (zlen inp) 3 =? 0) then Fault (Throw (IllegalBase64LengthException (zlen inp)))
  else
    st ← decode_loop {| d_res := []; d_last := 255; d_where := 0 |} inp;
    Ok (d_res st).

(** ** Specification *)

(** The digit of a 6-bit value: the capital letters, the small letters, the
    decimal digits, ['+'] and ['/'], in this order. *)
Definition digit (i : Z) : Z :=
  if i <? 26 then 65 + i else if i <? 52 then 97 + (i - 26) else if i <? 62 then 48 + (i - 52)
  else if i =? 62 then 43 else 47.

(** The encoding, group by group: three bytes are four digits of the 24-bit
    number they write; a shorter last group is padded. *)
Fixpoint encode_spec (s : bytes) : bytes :=
  match s with
  | [] => []
  | [a] => [digit (a / 4); digit (a mod 4 * 16); padding; padding]
  | [a; b] => let n := a * 256 + b in
      [digit (n / 1024); digit (n / 16 mod 64); digit (n mod 16 * 4); padding]
  | a :: b :: c :: s' => let n := a * 65536 + b * 256 + c in
      digit (n / 262144) :: digit (n / 4096 mod 64) :: digit (n / 64 mod 64) :: digit (n mod 64)
        :: encode_spec s'
  end.

(** ** Lemmas *)

Definition table_check (i : nat) : bool :=
  bool_decide (table_at encode_table (Z.of_nat i) = Ok (digit (Z.of_nat i))).

Lemma table_checked : forallb table_check (seq 0 64) = true.
Proof. vm_compute. reflexivity. Qed.

Lemma table_digit (i : Z) : 0 <= i < 64 -> table_at encode_table i = Ok (digit i).
Proof.
  intros Hi. pose proof table_checked as H. rewrite forallb_forall in H.
  specialize (H (Z.to_nat i)). rewrite in_seq in H. specialize (H ltac:(lia)).
  unfold table_check in H. rewrite Z2Nat.id in H by lia. by apply bool_decide_eq_true in H.
Qed.

(** Facts on the 64 digits, by computation. *)
Definition digit_check (i : nat) : bool :=
  let d := digit (Z.of_nat i) in
  bool_decide (table_at decode_table (to_char d) = Ok (Z.of_nat i))
  && negb (d =? padding) && negb (d =? 0).

Lemma digit_checked : forallb digit_check (seq 0 64) = true.
Proof. vm_compute. reflexivity. Qed.

Lemma digit_facts (i : Z) :
  0 <= i < 64 ->
  table_at decode_table (to_char (digit i)) = Ok i /\ digit i <> padding /\ digit i <> 0.
Proof.
  intros Hi. pose proof digit_checked as H. rewrite forallb_forall in H.
  specialize (H (Z.to_nat i)). rewrite in_seq in H. specialize (H ltac:(lia)).
  unfold digit_check in H. rewrite Z2Nat.id in H by lia.
  apply andb_true_iff in H as [H H3]. apply andb_true_iff in H as [H1 H2].
  apply bool_decide_eq_true in H1. apply negb_true_iff, Z.eqb_neq in H2, H3. done.
Qed.

(** The bit operations of both loops, as arithmetic. *)
Lemma land_3 x : Z.land x 3 = x mod 4.
Proof. apply (land_ones_mod x 2). lia. Qed.
Lemma land_15 x : Z.land x 15 = x mod 16.
Proof. apply (land_ones_mod x 4). lia. Qed.
Lemma land_63 x : Z.land x 63 = x mod 64.
Proof. apply (land_ones_mod x 6). lia. Qed.
Lemma land_255 x : Z.land x 255 = x mod 256.
Proof. apply (land_ones_mod x 8). lia. Qed.
Lemma lor_16 a b : 0 <= b < 16 -> Z.lor (a * 16) b = a * 16 + b.
Proof. apply (lor_shifted a b 4). lia. Qed.
Lemma lor_4 a b : 0 <= b < 4 -> Z.lor (a * 4) b = a * 4 + b.
Proof. apply (lor_shifted a b 2). lia. Qed.

Ltac bits_to_arith :=
  repeat first
    [ rewrite Z.shiftr_div_pow2 by lia | rewrite Z.shiftl_mul_pow2 by lia
    | rewrite land_3 | rewrite land_15 | rewrite land_63 | rewrite land_255 ];
  change (2 ^ 2) with 4; change (2 ^ 4) with 16; change (2 ^ 6) with 64; change (2 ^ 8) with 256.

Ltac arith := Z.to_euclidean_division_equations; lia.

Ltac enc_digit :=
  bits_to_arith; rewrite ?lor_16, ?lor_4 by arith; rewrite table_digit by arith.

Lemma encode_step_0 r l a :
  byte_ok a ->
  encode_step {| e_res := r; e_last := l; e_where := 0 |} a
  = Ok {| e_res := r ++ [digit (a / 4)]; e_last := a; e_where := 1 |}.
Proof.
  unfold byte_ok. intros Ha. unfold encode_step. simpl. enc_digit. simpl.
  do 5 f_equal. arith.
Qed.

Lemma encode_step_1 r a b :
  byte_ok a -> byte_ok b ->
  encode_step {| e_res := r; e_last := a; e_where := 1 |} b
  = Ok {| e_res := r ++ [digit (a mod 4 * 16 + b / 16)]; e_last := b; e_where := 2 |}.
Proof.
  unfold byte_ok. intros Ha Hb. unfold encode_step. simpl. enc_digit. simpl.
  do 5 f_equal. arith.
Qed.

Lemma encode_step_2 r b c :
  byte_ok b -> byte_ok c ->
  encode_step {| e_res := r; e_last := b; e_where := 2 |} c
  = Ok {| e_res := r ++ [digit (b mod 16 * 4 + c / 64); digit (c mod 64)];
          e_last := c; e_where := 0 |}.
Proof.
  unfold byte_ok. intros Hb Hc. unfold encode_step. simpl. enc_digit. simpl.
  enc_digit. simpl. do 5 f_equal. arith.
Qed.

(** Induction by groups of three. *)
Lemma group_ind (P : bytes -> Prop) :
  P [] -> (forall a, P [a]) -> (forall a b, P [a; b]) ->
  (forall a b c s, P s -> P (a :: b :: c :: s)) -> forall s, P s.
Proof.
  intros H0 H1 H2 H3. fix IH 1. intros [|a [|b [|c s]]]; [done..|]. apply H3, IH.
Qed.

Ltac enc_next := cbn [mbind res_bind]; rewrite inc_int_ok by lia; cbn [mbind res_bind encode_loop].

Lemma encode_groups (s : bytes) :
  bytes_ok s -> forall i r l, 0 <= i -> i + zlen s < 2 ^ 31 ->
  (encode_loop i {| e_res := r; e_last := l; e_where := 0 |} s ≫= encode_finish)
  = Ok (r ++ encode_spec s).
Proof.
  unfold bytes_ok. induction s as [|a|a b|a b c s IH] using group_ind; intros Hs i r l Hi Hl; cbn [length] in Hl.
  - cbn. by rewrite app_nil_r.
  - inversion Hs as [|? ? Ha _]; subst. cbn [encode_loop]. rewrite encode_step_0 by done.
    enc_next. unfold encode_finish, byte_ok in *. cbn [e_where e_last e_res Z.eqb].
    simpl Z.eqb. cbv iota. enc_digit. cbn [mbind res_bind]. by rewrite <- app_assoc.
  - inversion Hs as [|? ? Ha Hs1]; inversion Hs1 as [|? ? Hb _]; subst.
    cbn [encode_loop]. rewrite encode_step_0 by done. enc_next.
    rewrite encode_step_1 by done. enc_next.
    unfold encode_finish, byte_ok in *. cbn [e_where e_last e_res]. simpl Z.eqb. cbv iota.
    enc_digit. cbn [mbind res_bind encode_spec]. rewrite <- !app_assoc. simpl.
    do 3 f_equal; [f_equal; arith|]. do 2 f_equal; [f_equal; arith|]. do 2 f_equal. arith.
  - inversion Hs as [|? ? Ha Hs1]; inversion Hs1 as [|? ? Hb Hs2];
      inversion Hs2 as [|? ? Hc Hs3]; subst.
    cbn [encode_loop]. rewrite encode_step_0 by done. enc_next.
    rewrite encode_step_1 by done. enc_next.
    rewrite encode_step_2 by done. enc_next.
    rewrite IH by done || lia. rewrite <- !app_assoc. cbn [encode_spec app]. unfold byte_ok in *.
    f_equal. f_equal. f_equal; [f_equal; arith|]. f_equal; [f_equal; arith|].
    f_equal; [f_equal; arith|]. f_equal. f_equal. arith.
Qed.

Lemma encode_spec_shape (s : bytes) :
  bytes_ok s ->
  Forall (fun c => c <> 0) (encode_spec s) /\ zlen (encode_spec s) = (zlen s + 2) / 3 * 4.
Proof.
  unfold bytes_ok. assert (forall i, 0 <= i < 64 -> digit i <> 0) as Hd by (intros; by apply digit_facts).
  induction s as [|a|a b|a b c s IH] using group_ind; intros Hs; cbn [encode_spec].
  - done.
  - inversion Hs as [|? ? Ha _]; subst. unfold byte_ok in *. split; [|done].
    repeat constructor; try done; apply Hd; arith.
  - inversion Hs as [|? ? Ha Hs1]; inversion Hs1 as [|? ? Hb _]; subst. unfold byte_ok in *.
    split; [|done]. repeat constructor; try done; apply Hd; arith.
  - inversion Hs as [|? ? Ha Hs1]; inversion Hs1 as [|? ? Hb Hs2];
      inversion Hs2 as [|? ? Hc Hs3]; subst. destruct (IH Hs3) as [H1 H2]. unfold byte_ok in *. split.
    + repeat constructor; try done; apply Hd; arith.
    + cbn [length]. rewrite !Nat2Z.inj_succ, H2. arith.
Qed.

Lemma Encode_spec (s : bytes) : bytes_ok s -> zlen s < 2 ^ 31 -> Encode s = Ok (encode_spec s).
Proof.
  intros Hs Hlen. unfold Encode. pose proof (encode_groups s Hs 0 [] 0 ltac:(lia) ltac:(lia)) as H. simpl app in H.
  apply bind_Ok in H as (st & -> & H). cbn [mbind res_bind]. rewrite H. cbn [mbind res_bind].
  destruct (encode_spec_shape s Hs) as [H1 H2].
  unfold strlen. rewrite cstr_id, H2, land_3, Z.mod_mul by done. done.
Qed.

Lemma encode_step_ok (st : enc_state) (c : Z) :
  byte_ok (e_last st) -> byte_ok c -> exists st', encode_step st c = Ok st' /\ e_last st' = c.
Proof.
  unfold byte_ok. intros Hl Hc. unfold encode_step. repeat case_match; enc_digit; cbn [mbind res_bind];
    try enc_digit; cbn [mbind res_bind]; by eexists.
Qed.

(** A string that is too long for the index of the loop. *)
Lemma encode_overflow (s : bytes) : bytes_ok s -> forall i st, byte_ok (e_last st) ->
  i < 2 ^ 31 <= i + zlen s -> encode_loop i st s = Fault Undefined.
Proof.
  induction 1 as [|c s Hc _ IH]; intros i st Hl Hi; cbn [length] in Hi; [simpl in Hi; lia|].
  cbn [encode_loop]. destruct (encode_step_ok st c Hl Hc) as (st' & -> & <-). cbn [mbind res_bind].
  destruct (Z.lt_ge_cases i (2 ^ 31 - 1)); [|by rewrite inc_int_max].
  rewrite inc_int_ok by done. cbn [mbind res_bind]. apply IH; [done|lia].
Qed.

(** Decoding the digit of [i]. *)
Lemma decode_loop_digit (st : dec_state) (i : Z) (s : bytes) :
  0 <= i < 64 -> decode_loop st (digit i :: s) = decode_loop (decode_step st i) s.
Proof.
  intros Hi. destruct (digit_facts i Hi) as (H1 & H2 & H3). cbn [decode_loop].
  destruct (Z.eqb_spec (digit i) padding); [done|]. rewrite H1. cbn [mbind res_bind].
  by destruct (Z.eqb_spec i 255); [lia|].
Qed.

Lemma decode_groups (s : bytes) :
  bytes_ok s -> forall r l,
  exists st, decode_loop {| d_res := r; d_last := l; d_where := 0 |} (encode_spec s) = Ok st /\
             d_res st = r ++ s.
Proof.
  unfold bytes_ok. induction s as [|a|a b|a b c s IH] using group_ind; intros Hs r l.
  - eexists. split; [done|]. simpl. by rewrite app_nil_r.
  - inversion Hs as [|? ? Ha _]; subst. unfold byte_ok in *. cbn [encode_spec].
    rewrite !decode_loop_digit by arith. eexists. split; [done|]. simpl. unfold wrap8. bits_to_arith.
    do 2 f_equal. arith.
  - inversion Hs as [|? ? Ha Hs1]; inversion Hs1 as [|? ? Hb _]; subst. unfold byte_ok in *.
    cbn [encode_spec]. rewrite !decode_loop_digit by arith. eexists. split; [done|].
    simpl. unfold wrap8. bits_to_arith. rewrite <- app_assoc. simpl. do 2 f_equal; [arith|].
    f_equal. arith.
  - inversion Hs as [|? ? Ha Hs1]; inversion Hs1 as [|? ? Hb Hs2];
      inversion Hs2 as [|? ? Hc Hs3]; subst. cbn [encode_spec]. unfold byte_ok in *.
    rewrite !decode_loop_digit by arith. unfold decode_step. simpl.
    edestruct IH as (st & E & Hd); [done|]. exists st. split; [exact E|]. rewrite Hd.
    unfold wrap8. bits_to_arith. rewrite <- !app_assoc. simpl.
    f_equal. f_equal; [arith|]. f_equal; [arith|]. f_equal. arith.
Qed.

Lemma Decode_Encode (s : bytes) : bytes_ok s -> Decode (encode_spec s) = Ok s.
Proof.
  intros Hs. unfold Decode. destruct (encode_spec_shape s Hs) as [_ ->].
  rewrite land_3, Z.mod_mul by done. simpl.
  destruct (decode_groups s Hs [] 255) as (st & -> & Hd). cbn. by rewrite Hd.
Qed.

(** What [Decode] can do with a text of ASCII characters. *)
Lemma decode_table_ok (c : Z) :
  0 <= c < 128 -> exists v, table_at decode_table (to_char c) = Ok v.
Proof.
  intros Hc. unfold to_char. rewrite Z.mod_small by lia.
  destruct (Z.ltb_spec c (2 ^ 7)); [|lia]. unfold table_at. destruct (Z.ltb_spec c 0); [lia|].
  destruct (lookup_lt_is_Some_2 decode_table (Z.to_nat c)) as [v ->]; [simpl; lia|by eexists].
Qed.

(** Every character adds three quarters of a byte; [where] accounts for the
    part not written yet. *)
Definition written (st : dec_state) : Z :=
  4 * zlen (d_res st) - (if d_where st =? 0 then 0 else d_where st - 4).

Lemma decode_step_written (st : dec_state) (v : Z) :
  0 <= d_where st <= 3 ->
  0 <= d_where (decode_step st v) <= 3 /\ written (decode_step st v) = written st + 3.
Proof.
  intros H. unfold decode_step, written. bool_cases; simpl; rewrite ?length_app; simpl;
    bool_cases; simpl in *; lia.
Qed.

Lemma decode_loop_ascii (s : bytes) (st : dec_state) :
  Forall (fun c => 0 <= c < 128) s -> 0 <= d_where st <= 3 ->
  decode_loop st s = Fault (Throw Base64DecodeException) \/
  exists st', decode_loop st s = Ok st' /\ 0 <= d_where st' <= 3 /\
    written st' <= written st + 3 * zlen s.
Proof.
  intros Hs. revert st. induction Hs as [|c s Hc _ IH]; intros st Hw; cbn [decode_loop].
  - right. exists st. split; [done|]. simpl. lia.
  - destruct (c =? padding); [right; exists st; split; [done|]; cbn [length]; lia|].
    destruct (decode_table_ok c Hc) as [v ->]. cbn [mbind res_bind].
    destruct (v =? 255); [by left|]. destruct (decode_step_written st v Hw) as [Hw' Hm].
    destruct (IH (decode_step st v) Hw') as [->|(st' & -> & H1 & H2)]; [by left|].
    right. exists st'. split; [done|]. cbn [length]. lia.
Qed.

(** ** Properties *)

(** [Encode] computes the base64 text of any string of fewer than 2^31 bytes (the digits of its 24-bit
    groups, padded), without an index outside the table and without failing its length
    assertion; the text has four characters per started group of three bytes. *)
Theorem Encode_correct (s : bytes) (Hs : bytes_ok s) (Hlen : zlen s < 2 ^ 31) :
  Encode s = Ok (encode_spec s) /\ zlen (encode_spec s) = (zlen s + 2) / 3 * 4.
Proof. split; [by apply Encode_spec | by apply encode_spec_shape]. Qed.

Lemma Encode_correct_witness :
  Encode (str "Ma") = Ok (str "TWE=") /\ zlen (encode_spec (str "Ma")) = 4.
Proof.
  refine (Encode_correct (str "Ma") _ _); [by repeat constructor|reflexivity].
Defined.

(** C28: decoding what [Encode] wrote gives back the bytes, for every byte string of fewer than 2^31
    bytes; [Encode] counts with an [int], and on any longer string the count overflows, which is
    undefined. *)
Theorem Encode_Decode_roundtrip (s : bytes) (Hs : bytes_ok s) :
  if zlen s <? 2 ^ 31 then (Encode s ≫= Decode) = Ok s else Encode s = Fault Undefined.
Proof.
  destruct (Z.ltb_spec (zlen s) (2 ^ 31)).
  - rewrite Encode_spec by done. by apply Decode_Encode.
  - unfold Encode. by rewrite encode_overflow by (done || lia).
Qed.

Lemma Encode_Decode_roundtrip_witness : (Encode [0; 255; 16; 7] ≫= Decode) = Ok [0; 255; 16; 7].
Proof.
  assert (bytes_ok [0; 255; 16; 7]) as Hs by (by repeat constructor).
  exact (Encode_Decode_roundtrip [0; 255; 16; 7] Hs).
Defined.

(** On text of 7-bit characters [Decode] never has undefined behaviour: it reports a
    wrong length or an illegal character by its exceptions, and otherwise writes at most three
    bytes for every four characters. *)
Theorem Decode_total (s : bytes) (Hs : Forall (fun c => 0 <= c < 128) s) :
  Decode s = Fault (Throw (IllegalBase64LengthException (zlen s))) /\ zlen s mod 4 <> 0 \/
  Decode s = Fault (Throw Base64DecodeException) \/
  exists out, Decode s = Ok out /\ 4 * zlen out <= 3 * zlen s /\ zlen s mod 4 = 0.
Proof.
  unfold Decode. rewrite land_3. destruct (Z.eqb_spec (zlen s mod 4) 0); cbn [negb]; [|by left].
  right. destruct (decode_loop_ascii s {| d_res := []; d_last := 255; d_where := 0 |})
    as [->|(st & -> & H1 & H2)]; [done|done| |]; [by left|].
  right. eexists. split; [done|]. split; [|done]. unfold written in H2. simpl in H2.
  destruct (Z.eqb_spec (d_where st) 0); lia.
Qed.

Lemma Decode_total_witness :
  Decode (str "TW=") = Fault (Throw (IllegalBase64LengthException 3)) /\ 3 mod 4 <> 0 \/
  Decode (str "TW=") = Fault (Throw Base64DecodeException) \/
  exists out, Decode (str "TW=") = Ok out /\ 4 * zlen out <= 3 * 3 /\ 3 mod 4 = 0.
Proof. refine (Decode_total (str "TW=") _). by repeat constructor. Defined.

End Base64.
