(* ===== verification/MessageDigest.v ===== *)
(** * SHA-1 (utils/messagedigest.h, utils/messagedigest.cc)

    [Sha1Transform] as the source computes it - a 16-word circular block
    that is byte-swapped and expanded in place during the rounds - and
    [Digest] with its padding of the last block. Both are shown equal to the
    textbook definition (80-word message schedule, padded message). The
    in-place expansion also overwrites the caller's message: [Digest]
    returns it as well. *)
From Stdlib Require Import ZifyNat.
From S2P Require Import Prelude CLib.

Module Sha1.

(** ** Definitions *)

(** [rol(value, bits)] on [uint32_t] *)
Definition rol (value bits : Z) : Z :=
  Z.lor (wrap32 (Z.shiftl value bits)) (Z.shiftr value (32 - bits)).

(** The view [block->l] of 64 bytes: sixteen little-endian words. *)
Definition le_word (c : bytes) (i : nat) : Z :=
  let at_ j := nth (4 * i + j) c 0 in
  at_ 0%nat + at_ 1%nat * 2 ^ 8 + at_ 2%nat * 2 ^ 16 + at_ 3%nat * 2 ^ 24.

Definition load_block (c : bytes) : list Z := map (le_word c) (seq 0 16).

(** The view [block->c] of sixteen words. *)
Definition le_bytes (l : Z) : bytes :=
  [l mod 256; l / 2 ^ 8 mod 256; l / 2 ^ 16 mod 256; l / 2 ^ 24 mod 256].

Definition store_block (l : list Z) : bytes := flat_map le_bytes l.

(** [blk0(i)] and [blk(i)]: the value, and the block with the value stored. *)
Definition word_at (l : list Z) (i : nat) : Z := nth i l 0.

Definition blk0 (l : list Z) (i : nat) : Z * list Z :=
  let v := Z.lor (Z.land (rol (word_at l i) 24) 4278255360)
                 (Z.land (rol (word_at l i) 8) 16711935) in
  (v, <[i := v]> l).

Definition blk (l : list Z) (i : nat) : Z * list Z :=
  let v := rol (Z.lxor (Z.lxor (Z.lxor (word_at l ((i + 13) mod 16)) (word_at l ((i + 8) mod 16)))
                               (word_at l ((i + 2) mod 16))) (word_at l (i mod 16))) 1 in
  (v, <[(i mod 16)%nat := v]> l).

(** The variables [a] to [e] in the order of a round's arguments. *)
Record regs := mkRegs { rv : Z; rw : Z; rx : Z; ry : Z; rz : Z }.

(** [z += f(w, x, y) + expanded + k + rol(v, 5); w = rol(w, 30)], with the variables
    in the order of the next round: [R(e, a, b, c, d)] follows [R(a, b, c, d, e)]. *)
Definition round (f : Z -> Z -> Z -> Z) (k expanded : Z) (r : regs) : regs :=
  {| rv := wrap32 (rz r + (f (rw r) (rx r) (ry r) + expanded + k + rol (rv r) 5));
     rw := rv r; rx := rol (rw r) 30; ry := rx r; rz := ry r |}.

Definition f0 (w x y : Z) : Z := Z.lxor (Z.land w (Z.lxor x y)) y.
Definition f2 (w x y : Z) : Z := Z.lxor (Z.lxor w x) y.
Definition f3 (w x y : Z) : Z := Z.lor (Z.land (Z.lor w x) y) (Z.land w x).

Definition R0 (rl : regs * list Z) (i : nat) : regs * list Z :=
  let '(v, l) := blk0 rl.2 i in (round f0 1518500249 v rl.1, l).
Definition R1 (rl : regs * list Z) (i : nat) : regs * list Z :=
  let '(v, l) := blk rl.2 i in (round f0 1518500249 v rl.1, l).
Definition R2 (rl : regs * list Z) (i : nat) : regs * list Z :=
  let '(v, l) := blk rl.2 i in (round f2 1859775393 v rl.1, l).
Definition R3 (rl : regs * list Z) (i : nat) : regs * list Z :=
  let '(v, l) := blk rl.2 i in (round f3 2400959708 v rl.1, l).
Definition R4 (rl : regs * list Z) (i : nat) : regs * list Z :=
  let '(v, l) := blk rl.2 i in (round f2 3395469782 v rl.1, l).

(** The eighty round calls in order. *)
Definition do_round (rl : regs * list Z) (i : nat) : regs * list Z :=
  if (i <? 16)%nat then R0 rl i
  else if (i <? 20)%nat then R1 rl i
  else if (i <? 40)%nat then R2 rl i
  else if (i <? 60)%nat then R3 rl i
  else R4 rl i.

Definition add_regs (s r : regs) : regs :=
  {| rv := wrap32 (rv s + rv r); rw := wrap32 (rw s + rw r); rx := wrap32 (rx s + rx r);
     ry := wrap32 (ry s + ry r); rz := wrap32 (rz s + rz r) |}.

(** The new [_state] and what is left in [_buf]. *)
Definition Sha1Transform (state : regs) (buf : bytes) : regs * bytes :=
  let '(r, l) := fold_left do_round (seq 0 80) (state, load_block buf) in
  (add_regs state r, store_block l).

Definition Sha1ContextInit : regs :=
  {| rv := 1732584193; rw := 4023233417; rx := 2562383102; ry := 271733878; rz := 3285377520 |}.

(** The [while] over the full blocks, which writes into the message. *)
Fixpoint digest_loop (fuel : nat) (states : regs) (msg : bytes) (curr : nat) : res (regs * bytes) :=
  match fuel with
  | O => Fault Hang
  | S fuel' =>
      if (curr + 64 <=? length msg)%nat then
        let '(states', blk') := Sha1Transform states (take 64 (drop curr msg)) in
        digest_loop fuel' states' (take curr msg ++ blk' ++ drop (curr + 64) msg) (curr + 64)
      else Ok (states, msg)
  end.

(** [(_msg_len >> ((7 - i) * 8)) & 0xff] for [i] from 0 to 7 *)
Definition length_bytes (bits : Z) : bytes :=
  map (fun i => Z.land (Z.shiftr bits ((7 - Z.of_nat i) * 8)) 255) (seq 0 8).

(** [(states[i] >> ((3 - j) * 8)) & 0xff] for [j] from 0 to 3 *)
Definition state_bytes (w : Z) : bytes :=
  map (fun j => Z.land (Z.shiftr w ((3 - Z.of_nat j) * 8)) 255) (seq 0 4).

Definition zeros (n : nat) : bytes := replicate n 0.

(** The digest and the message after the call. *)
Definition Digest (msg : bytes) : res (bytes * bytes) :=
  let msg_len := length msg in
  let last_block_len := (msg_len mod 64)%nat in
  '(states, msg') ← digest_loop (S (msg_len / 64)) Sha1ContextInit msg 0;
  let bits := wrap64 (Z.of_nat msg_len * 8) in
  let tail := drop (msg_len - last_block_len) msg' in
  let states :=
    if (last_block_len <? 56)%nat then
      (Sha1Transform states (tail ++ [128] ++ zeros (55 - last_block_len) ++ length_bytes bits)).1
    else
      let st := (Sha1Transform states (tail ++ [128] ++ zeros (63 - last_block_len))).1 in
      (Sha1Transform st (zeros 56 ++ length_bytes bits)).1 in
  Ok (state_bytes (rv states) ++ state_bytes (rw states) ++ state_bytes (rx states)
      ++ state_bytes (ry states) ++ state_bytes (rz states), msg').

(** ** Specification (FIPS 180) *)

Definition be_word (c : bytes) (i : nat) : Z :=
  let at_ j := nth (4 * i + j) c 0 in
  at_ 0%nat * 2 ^ 24 + at_ 1%nat * 2 ^ 16 + at_ 2%nat * 2 ^ 8 + at_ 3%nat.

(** ROTL: the rotation of a 32-bit word. *)
Definition rotl (n x : Z) : Z := Z.lor (Z.shiftl x n mod 2 ^ 32) (Z.shiftr x (32 - n)).

(** The message schedule, one more word at a time. *)
Definition next_word (w : list Z) : Z :=
  let t := length w in
  rotl 1 (Z.lxor (Z.lxor (Z.lxor (word_at w (t - 3)) (word_at w (t - 8)))
                         (word_at w (t - 14))) (word_at w (t - 16))).

Fixpoint extend (n : nat) (w : list Z) : list Z :=
  match n with
  | O => w
  | S n' => extend n' (w ++ [next_word w])
  end.

Definition schedule (c : bytes) : list Z := extend 64 (map (be_word c) (seq 0 16)).

Definition ch (x y z : Z) : Z := Z.lor (Z.land x y) (Z.land (Z.lnot x) z).
Definition parity (x y z : Z) : Z := Z.lxor x (Z.lxor y z).
Definition maj (x y z : Z) : Z := Z.lor (Z.lor (Z.land x y) (Z.land x z)) (Z.land y z).

Definition f_t (t : nat) : Z -> Z -> Z -> Z :=
  if (t <? 20)%nat then ch else if (t <? 40)%nat then parity
  else if (t <? 60)%nat then maj else parity.

Definition k_t (t : nat) : Z :=
  if (t <? 20)%nat then 1518500249 else if (t <? 40)%nat then 1859775393
  else if (t <? 60)%nat then 2400959708 else 3395469782.

Definition spec_round (w : list Z) (r : regs) (t : nat) : regs :=
  {| rv := (rotl 5 (rv r) + f_t t (rw r) (rx r) (ry r) + rz r + k_t t + word_at w t) mod 2 ^ 32;
     rw := rv r; rx := rotl 30 (rw r); ry := rx r; rz := ry r |}.

Definition compress (h : regs) (c : bytes) : regs :=
  let r := fold_left (spec_round (schedule c)) (seq 0 80) h in
  {| rv := (rv h + rv r) mod 2 ^ 32; rw := (rw h + rw r) mod 2 ^ 32; rx := (rx h + rx r) mod 2 ^ 32;
     ry := (ry h + ry r) mod 2 ^ 32; rz := (rz h + rz r) mod 2 ^ 32 |}.

Definition initial_hash : regs :=
  {| rv := 0x67452301; rw := 0xefcdab89; rx := 0x98badcfe; ry := 0x10325476; rz := 0xc3d2e1f0 |}.

(** [n] in [k] big-endian bytes. *)
Fixpoint be_bytes (k : nat) (n : Z) : bytes :=
  match k with
  | O => []
  | S k' => n / 2 ^ (8 * Z.of_nat k') mod 256 :: be_bytes k' n
  end.

Definition pad (msg : bytes) : bytes :=
  msg ++ [128] ++ zeros ((119 - length msg mod 64) mod 64) ++ be_bytes 8 (8 * zlen msg).

Fixpoint blocks (n : nat) (s : bytes) : list bytes :=
  match n with
  | O => []
  | S n' => take 64 s :: blocks n' (drop 64 s)
  end.

Definition hash (msg : bytes) : regs :=
  fold_left compress (blocks (length (pad msg) / 64) (pad msg)) initial_hash.

Definition sha1 (msg : bytes) : bytes :=
  let h := hash msg in
  be_bytes 4 (rv h) ++ be_bytes 4 (rw h) ++ be_bytes 4 (rx h) ++ be_bytes 4 (ry h)
    ++ be_bytes 4 (rz h).

(** The specification on the example of the standard. *)
Example sha1_abc :
  sha1 (str "abc") = [0xa9; 0x99; 0x3e; 0x36; 0x47; 0x06; 0x81; 0x6a; 0xba; 0x3e; 0x25; 0x71; 0x78; 0x50;
                      0xc2; 0x6c; 0x9c; 0xd0; 0xd8; 0x9d].
Proof. vm_compute. reflexivity. Qed.

(** ** Lemmas *)

Lemma rol_rotl (x n : Z) : rol x n = rotl n x.
Proof. done. Qed.

Lemma Sha1ContextInit_initial : Sha1ContextInit = initial_hash.
Proof. done. Qed.

(** *** The logical functions *)

Ltac bitwise :=
  apply Z.bits_inj'; intros n Hn;
  repeat first [rewrite Z.lor_spec | rewrite Z.land_spec | rewrite Z.lxor_spec
               | rewrite Z.lnot_spec by done];
  repeat match goal with |- context [Z.testbit ?a n] => destruct (Z.testbit a n) end; done.

Lemma f0_ch (w x y : Z) : f0 w x y = ch w x y.
Proof. unfold f0, ch. bitwise. Qed.

Lemma f2_parity (w x y : Z) : f2 w x y = parity w x y.
Proof. unfold f2, parity. bitwise. Qed.

Lemma f3_maj (w x y : Z) : f3 w x y = maj w x y.
Proof. unfold f3, maj. bitwise. Qed.

(** *** Byte order *)

(** The word with the bytes [a], [b], [c], [d], most significant first. *)
Definition word4 (a b c d : Z) : Z := a * 2 ^ 24 + b * 2 ^ 16 + c * 2 ^ 8 + d.

Lemma land_split (a b m n : Z) :
  0 <= b < 256 -> 0 <= n < 256 ->
  Z.land (a * 256 + b) (m * 256 + n) = Z.land a m * 256 + Z.land b n.
Proof.
  intros Hb Hn. change 256 with (2 ^ 8) in *.
  rewrite <- (lor_shifted a b 8), <- (lor_shifted m n 8) by lia.
  assert (0 <= Z.land b n < 2 ^ 8) as Hl.
  { replace (Z.land b n) with (Z.land b n mod 2 ^ 8); [by apply Z.mod_pos_bound|].
    rewrite <- Z.land_ones, <- Z.land_assoc, (Z.land_ones n), Z.mod_small by lia. done. }
  rewrite <- (lor_shifted (Z.land a m) (Z.land b n) 8) by lia.
  rewrite <- !Z.shiftl_mul_pow2 by lia. rewrite Z.shiftl_land.
  assert (forall x y, 0 <= y < 2 ^ 8 -> Z.land (Z.shiftl x 8) y = 0) as H0.
  { intros x y Hy. apply Z.bits_inj'. intros i Hi. rewrite Z.land_spec, Z.bits_0.
    destruct (Z.lt_ge_cases i 8); [by rewrite Z.shiftl_spec_low|].
    rewrite <- (Z.mod_small y (2 ^ 8)) by done. by rewrite Z.mod_pow2_bits_high, andb_false_r by lia. }
  rewrite Z.land_lor_distr_l, !Z.land_lor_distr_r.
  rewrite (H0 a n) by done. rewrite (Z.land_comm b), (H0 m b) by done.
  by rewrite Z.lor_0_r, Z.lor_0_l.
Qed.

Lemma lor_split (a b m n : Z) :
  0 <= b < 256 -> 0 <= n < 256 ->
  Z.lor (a * 256 + b) (m * 256 + n) = Z.lor a m * 256 + Z.lor b n.
Proof.
  intros Hb Hn. change 256 with (2 ^ 8) in *.
  assert (0 <= Z.lor b n < 2 ^ 8) as Hl.
  { replace (Z.lor b n) with (Z.lor b n mod 2 ^ 8); [by apply Z.mod_pos_bound|].
    by rewrite <- Z.land_ones, Z.land_lor_distr_l, !Z.land_ones, !Z.mod_small by lia. }
  rewrite <- (lor_shifted a b 8), <- (lor_shifted m n 8) by lia.
  rewrite <- (lor_shifted (Z.lor a m) (Z.lor b n) 8) by lia.
  rewrite <- !Z.shiftl_mul_pow2 by lia. rewrite Z.shiftl_lor.
  rewrite !Z.lor_assoc. f_equal. rewrite <- !Z.lor_assoc. f_equal. apply Z.lor_comm.
Qed.

Lemma word4_bytes (a b c d : Z) : word4 a b c d = ((a * 256 + b) * 256 + c) * 256 + d.
Proof. unfold word4. lia. Qed.

Ltac arith := Z.to_euclidean_division_equations; lia.

Lemma rol_8 (a b c d : Z) :
  byte_ok a -> byte_ok b -> byte_ok c -> byte_ok d -> rol (word4 a b c d) 8 = word4 b c d a.
Proof.
  unfold byte_ok. intros. unfold rol, wrap32. rewrite Z.shiftl_mul_pow2, Z.shiftr_div_pow2 by lia.
  rewrite word4_bytes. change (2 ^ (32 - 8)) with 16777216. change (2 ^ 32) with 4294967296.
  replace ((((a * 256 + b) * 256 + c) * 256 + d) / 16777216) with a by arith.
  change (2 ^ 8) with 256.
  replace ((((a * 256 + b) * 256 + c) * 256 + d) * 256 mod 4294967296)
    with (((b * 256 + c) * 256 + d) * 2 ^ 8) by arith.
  rewrite lor_shifted by lia. rewrite word4_bytes. lia.
Qed.

Lemma rol_24 (a b c d : Z) :
  byte_ok a -> byte_ok b -> byte_ok c -> byte_ok d -> rol (word4 a b c d) 24 = word4 d a b c.
Proof.
  unfold byte_ok. intros. unfold rol, wrap32. rewrite Z.shiftl_mul_pow2, Z.shiftr_div_pow2 by lia.
  rewrite word4_bytes. change (2 ^ (32 - 24)) with 256. change (2 ^ 32) with 4294967296.
  replace ((((a * 256 + b) * 256 + c) * 256 + d) / 256) with ((a * 256 + b) * 256 + c) by arith.
  change (2 ^ 24) with 16777216.
  replace ((((a * 256 + b) * 256 + c) * 256 + d) * 16777216 mod 4294967296)
    with (d * 2 ^ 24) by arith.
  rewrite lor_shifted by lia. rewrite word4_bytes. lia.
Qed.

Lemma land_byte (x : Z) : byte_ok x -> Z.land x 255 = x.
Proof. intros. rewrite (land_ones_mod x 8 : _ -> Z.land x 255 = _) by lia. by apply Z.mod_small. Qed.

(** The byte swap of [blk0]. *)
Lemma swap_word (a b c d : Z) :
  byte_ok a -> byte_ok b -> byte_ok c -> byte_ok d ->
  Z.lor (Z.land (rol (word4 a b c d) 24) 4278255360) (Z.land (rol (word4 a b c d) 8) 16711935)
  = word4 d c b a.
Proof.
  intros Ha Hb Hc Hd. rewrite rol_24, rol_8 by done.
  change 4278255360 with (word4 255 0 255 0). change 16711935 with (word4 0 255 0 255).
  rewrite !word4_bytes.
  pose proof Ha as Ha'. pose proof Hb as Hb'. pose proof Hc as Hc'. pose proof Hd as Hd'.
  unfold byte_ok in Ha', Hb', Hc', Hd'.
  rewrite !land_split by lia. rewrite !(land_byte a), !(land_byte b), !(land_byte c), !(land_byte d) by done.
  rewrite !Z.land_0_r. rewrite !lor_split by lia. by rewrite !Z.lor_0_r, !Z.lor_0_l.
Qed.

Lemma le_word_word4 (c : bytes) (i : nat) :
  le_word c i = word4 (nth (4 * i + 3) c 0) (nth (4 * i + 2) c 0) (nth (4 * i + 1) c 0) (nth (4 * i + 0) c 0).
Proof. unfold le_word, word4. lia. Qed.

Lemma nth_byte_ok (c : bytes) (i : nat) : bytes_ok c -> byte_ok (nth i c 0).
Proof.
  intros H. rewrite nth_lookup. destruct (c !! i) eqn:E; simpl; [|unfold byte_ok; lia].
  by eapply Forall_lookup_1 in H.
Qed.

Lemma swap_le_word (c : bytes) (i : nat) :
  bytes_ok c ->
  Z.lor (Z.land (rol (le_word c i) 24) 4278255360) (Z.land (rol (le_word c i) 8) 16711935)
  = be_word c i.
Proof.
  intros H. rewrite le_word_word4, swap_word by (by apply nth_byte_ok). unfold be_word, word4. lia.
Qed.

(** *** The message schedule *)

Lemma word_at_insert (l : list Z) (i j : nat) (v : Z) :
  (i < length l)%nat -> word_at (<[i := v]> l) j = if (j =? i)%nat then v else word_at l j.
Proof.
  intros Hi. unfold word_at. rewrite !nth_lookup. destruct (Nat.eqb_spec j i) as [->|].
  - by rewrite list_lookup_insert_eq.
  - by rewrite list_lookup_insert_ne.
Qed.

Lemma word_at_app_l (l k : list Z) (i : nat) :
  (i < length l)%nat -> word_at (l ++ k) i = word_at l i.
Proof. intros. unfold word_at. by rewrite app_nth1. Qed.

Lemma extend_prefix (n : nat) (w : list Z) (t : nat) :
  (t < length w)%nat -> word_at (extend n w) t = word_at w t.
Proof.
  revert w. induction n as [|n IH]; intros w Ht; simpl; [done|].
  rewrite IH by (rewrite length_app; simpl; lia). by apply word_at_app_l.
Qed.

(** The recurrence of the schedule, in the schedule itself. *)
Lemma extend_rec (n : nat) (w : list Z) (t : nat) :
  (16 <= length w)%nat -> (length w <= t < length w + n)%nat ->
  word_at (extend n w) t =
  rol (Z.lxor (Z.lxor (Z.lxor (word_at (extend n w) (t - 3)) (word_at (extend n w) (t - 8)))
                      (word_at (extend n w) (t - 14))) (word_at (extend n w) (t - 16))) 1.
Proof.
  revert w. induction n as [|n IH]; intros w Hw Ht; [lia|]. cbn [extend].
  destruct (decide (t = length w)) as [->|].
  - rewrite !extend_prefix by (rewrite length_app; simpl; lia).
    assert (word_at (w ++ [next_word w]) (length w) = next_word w) as -> by apply nth_middle.
    by rewrite !(word_at_app_l w [_]) by lia.
  - apply IH; rewrite length_app; simpl; lia.
Qed.

Lemma schedule_rec (c : bytes) (t : nat) :
  (16 <= t < 80)%nat ->
  word_at (schedule c) t =
  rol (Z.lxor (Z.lxor (Z.lxor (word_at (schedule c) (t - 3)) (word_at (schedule c) (t - 8)))
                      (word_at (schedule c) (t - 14))) (word_at (schedule c) (t - 16))) 1.
Proof.
  intros Ht. unfold schedule. apply extend_rec; rewrite length_map, length_seq; lia.
Qed.

Lemma schedule_first (c : bytes) (t : nat) :
  (t < 16)%nat -> word_at (schedule c) t = be_word c t.
Proof.
  intros Ht. unfold schedule. rewrite extend_prefix by (rewrite length_map, length_seq; lia).
  unfold word_at. rewrite (nth_indep _ _ (be_word c 0)) by (rewrite length_map, length_seq; lia).
  rewrite map_nth, seq_nth by lia. done.
Qed.

Lemma load_block_word (c : bytes) (t : nat) : (t < 16)%nat -> word_at (load_block c) t = le_word c t.
Proof.
  intros Ht. unfold load_block, word_at.
  rewrite (nth_indep _ _ (le_word c 0)) by (rewrite length_map, length_seq; lia).
  by rewrite map_nth, seq_nth by lia.
Qed.

(** *** The rounds *)

(** [lia] with [Nat.modulo] by a constant. *)
Ltac nat_mod := lia.

(** The circular block before round [i]: the last sixteen words of the
    schedule, and before round 16 the words of the message not yet swapped. *)
Record circular (c : bytes) (i : nat) (l : list Z) : Prop := {
  circ_length : length l = 16%nat;
  circ_sched : forall t, (i - 16 <= t < i)%nat -> word_at l (t mod 16) = word_at (schedule c) t;
  circ_raw : forall t, (i <= t < 16)%nat -> word_at l t = le_word c t
}.

Lemma blk0_circular (c : bytes) (i : nat) (l : list Z) :
  bytes_ok c -> (i < 16)%nat -> circular c i l ->
  (blk0 l i).1 = word_at (schedule c) i /\ circular c (S i) (blk0 l i).2.
Proof.
  intros Hc Hi [Hl Hs Hr]. unfold blk0. cbn [fst snd].
  rewrite (Hr i), swap_le_word, <- schedule_first by (done || lia).
  split; [done|]. split.
  - by rewrite length_insert.
  - intros t Ht. rewrite word_at_insert by lia. destruct (Nat.eqb_spec (t mod 16) i).
    + f_equal. nat_mod.
    + apply Hs. split; [lia|]. assert (t <> i) by (intros ->; nat_mod). lia.
  - intros t Ht. rewrite word_at_insert by lia. destruct (Nat.eqb_spec t i); [lia|]. apply Hr. lia.
Qed.

Lemma blk_circular (c : bytes) (i : nat) (l : list Z) :
  (16 <= i < 80)%nat -> circular c i l ->
  (blk l i).1 = word_at (schedule c) i /\ circular c (S i) (blk l i).2.
Proof.
  intros Hi [Hl Hs Hr]. unfold blk. cbn [fst snd].
  replace ((i + 13) mod 16)%nat with ((i - 3) mod 16)%nat by nat_mod.
  replace ((i + 8) mod 16)%nat with ((i - 8) mod 16)%nat by nat_mod.
  replace ((i + 2) mod 16)%nat with ((i - 14) mod 16)%nat by nat_mod.
  assert (word_at l (i mod 16) = word_at (schedule c) (i - 16)) as ->.
  { rewrite <- (Hs (i - 16)%nat) by lia. f_equal. nat_mod. }
  rewrite !Hs by lia.
  rewrite <- schedule_rec by lia.
  assert (i mod 16 < 16)%nat by nat_mod.
  split; [done|]. split.
  - by rewrite length_insert.
  - intros t Ht. rewrite word_at_insert by lia. destruct (Nat.eqb_spec (t mod 16) (i mod 16)).
    + f_equal. nat_mod.
    + apply Hs. split; [lia|]. assert (t <> i) by (intros ->; done). lia.
  - intros t Ht. lia.
Qed.

Lemma round_spec (f : Z -> Z -> Z -> Z) (k v : Z) (r : regs) (w : list Z) (t : nat) :
  v = word_at w t -> k = k_t t -> (forall a b c, f a b c = f_t t a b c) ->
  round f k v r = spec_round w r t.
Proof.
  intros -> -> Hf. unfold round, spec_round, wrap32. rewrite !rol_rotl. f_equal. rewrite Hf. f_equal. lia.
Qed.

Lemma do_round_spec (c : bytes) (i : nat) (r : regs) (l : list Z) :
  bytes_ok c -> (i < 80)%nat -> circular c i l ->
  (do_round (r, l) i).1 = spec_round (schedule c) r i /\ circular c (S i) (do_round (r, l) i).2.
Proof.
  intros Hc Hi Hl. unfold do_round.
  destruct (Nat.ltb_spec i 16) as [H|H].
  { unfold R0. destruct (blk0_circular c i l) as [Hv Hl']; [done..|]. cbn [fst snd] in *.
    destruct (blk0 l i) as [v l']. cbn [fst snd] in *. split; [|done].
    apply round_spec; [done|..]; unfold k_t, f_t; destruct (Nat.ltb_spec i 20); try lia.
    all: auto using f0_ch. }
  destruct (blk_circular c i l) as [Hv Hl']; [lia|done|].
  unfold R1, R2, R3, R4. cbn [fst snd].
  destruct (blk l i) as [v l']. cbn [fst snd] in *.
  assert (forall f k, k = k_t i -> (forall a b d, f a b d = f_t i a b d) ->
            (round f k v r, l').1 = spec_round (schedule c) r i /\ circular c (S i) (round f k v r, l').2) as Hgo.
  { intros f k Hk Hf. split; [by apply round_spec|done]. }
  unfold k_t, f_t in Hgo.
  destruct (i <? 20)%nat; [apply Hgo; auto using f0_ch|].
  destruct (i <? 40)%nat; [apply Hgo; auto using f2_parity|].
  destruct (i <? 60)%nat; apply Hgo; auto using f2_parity, f3_maj.
Qed.

Lemma rounds_spec (c : bytes) (n : nat) (r : regs) :
  bytes_ok c -> (n <= 80)%nat ->
  (fold_left do_round (seq 0 n) (r, load_block c)).1 = fold_left (spec_round (schedule c)) (seq 0 n) r /\
  circular c n (fold_left do_round (seq 0 n) (r, load_block c)).2.
Proof.
  intros Hc. induction n as [|n IH]; intros Hn.
  - split; [done|]. split; [done|intros; lia|]. intros t Ht. apply load_block_word. lia.
  - rewrite seq_S, !fold_left_app. cbn [fold_left Nat.add]. destruct IH as [H1 H2]; [lia|].
    destruct (fold_left do_round (seq 0 n) (r, load_block c)) as [r' l']. cbn [fst snd] in *.
    rewrite <- H1. apply do_round_spec; [done|lia|done].
Qed.

Lemma store_block_length (l : list Z) : length (store_block l) = (4 * length l)%nat.
Proof. unfold store_block. induction l as [|x l IH]; [done|]. cbn [flat_map]. rewrite length_app, IH. simpl. lia. Qed.

Lemma Sha1Transform_compress (state : regs) (buf : bytes) :
  bytes_ok buf ->
  (Sha1Transform state buf).1 = compress state buf /\ length (Sha1Transform state buf).2 = 64%nat.
Proof.
  intros Hb. unfold Sha1Transform, compress.
  destruct (rounds_spec buf 80 state Hb ltac:(lia)) as [H1 [H2 _ _]].
  destruct (fold_left do_round (seq 0 80) (state, load_block buf)) as [r l]. cbn [fst snd] in *.
  by rewrite store_block_length, H1, H2.
Qed.

(** *** The digest *)

Lemma blocks_app (n m : nat) (a b : bytes) :
  length a = (64 * n)%nat -> blocks (n + m) (a ++ b) = blocks n a ++ blocks m b.
Proof.
  revert a. induction n as [|n IH]; intros a Ha.
  - destruct a; [done|simpl in Ha; lia].
  - cbn [blocks Nat.add app]. rewrite take_app_le, drop_app_le by lia. f_equal.
    apply IH. rewrite length_drop. lia.
Qed.

(** The loop over the full blocks of the message. *)
Lemma digest_loop_blocks (n fuel : nat) (st : regs) (pre s : bytes) :
  bytes_ok s -> (64 * n <= length s < 64 * n + 64)%nat -> (n < fuel)%nat ->
  exists pre', digest_loop fuel st (pre ++ s) (length pre)
               = Ok (fold_left compress (blocks n s) st, pre' ++ drop (64 * n) s) /\
               length pre' = (length pre + 64 * n)%nat.
Proof.
  revert fuel st pre s. induction n as [|n IH]; intros fuel st pre s Hs Hl Hf;
    (destruct fuel as [|fuel]; [lia|]); cbn [digest_loop].
  - rewrite length_app. destruct (Nat.leb_spec (length pre + 64) (length pre + length s)); [lia|].
    exists pre. split; [done|lia].
  - rewrite length_app. destruct (Nat.leb_spec (length pre + 64) (length pre + length s)); [|lia].
    rewrite drop_app_length.
    destruct (Sha1Transform_compress st (take 64 s)) as [H1 H2]; [by apply Forall_take|].
    destruct (Sha1Transform st (take 64 s)) as [st' blk']. cbn [fst snd] in *. subst st'.
    rewrite take_app_length.
    replace (drop (length pre + 64) (pre ++ s)) with (drop 64 s)
      by (by rewrite <- drop_drop, drop_app_length).
    replace (length pre + 64)%nat with (length (pre ++ blk')) by (rewrite length_app; lia).
    rewrite app_assoc.
    destruct (IH fuel (compress st (take 64 s)) (pre ++ blk') (drop 64 s)) as (pre' & -> & Hp).
    + by apply Forall_drop.
    + rewrite length_drop. lia.
    + lia.
    + exists pre'. rewrite drop_drop. split; [|rewrite length_app in Hp; lia].
      cbn [blocks fold_left]. do 3 f_equal. f_equal. lia.
Qed.

Lemma be_bytes_8 (n : Z) : length_bytes n = be_bytes 8 n.
Proof.
  unfold length_bytes. cbn [map seq be_bytes].
  rewrite !(land_ones_mod _ 8 : _ -> Z.land _ 255 = _), !Z.shiftr_div_pow2 by lia. done.
Qed.

Lemma be_bytes_4 (n : Z) : state_bytes n = be_bytes 4 n.
Proof.
  unfold state_bytes. cbn [map seq be_bytes].
  rewrite !(land_ones_mod _ 8 : _ -> Z.land _ 255 = _), !Z.shiftr_div_pow2 by lia. done.
Qed.

Lemma be_bytes_ok (k : nat) (n : Z) : bytes_ok (be_bytes k n) /\ length (be_bytes k n) = k.
Proof.
  induction k as [|k [IH1 IH2]]; cbn [be_bytes]; [split; [constructor|done]|]. split; [|simpl; lia].
  constructor; [|done]. unfold byte_ok. by apply Z.mod_pos_bound.
Qed.

Lemma sha1_shape (msg : bytes) : bytes_ok (sha1 msg) /\ length (sha1 msg) = 20%nat.
Proof.
  unfold sha1. split; [repeat apply Forall_app_2; apply be_bytes_ok|].
  rewrite !length_app. by rewrite !(proj2 (be_bytes_ok 4 _)).
Qed.

Lemma zeros_ok (n : nat) : bytes_ok (zeros n).
Proof. apply Forall_replicate. unfold byte_ok. lia. Qed.

Ltac solve_bytes_ok := repeat apply Forall_app_2; first [done | apply zeros_ok | apply be_bytes_ok].

(** The last one or two blocks: what is left after the full blocks, padded. *)
Lemma final_blocks (st : regs) (tail lenb : bytes) :
  bytes_ok tail -> bytes_ok lenb -> length lenb = 8%nat -> (length tail < 64)%nat ->
  (if (length tail <? 56)%nat then
     (Sha1Transform st (tail ++ [128] ++ zeros (55 - length tail) ++ lenb)).1
   else
     (Sha1Transform (Sha1Transform st (tail ++ [128] ++ zeros (63 - length tail))).1
        (zeros 56 ++ lenb)).1)
  = fold_left compress (blocks ((length tail + 72) / 64)
      (tail ++ [128] ++ zeros ((119 - length tail) mod 64) ++ lenb)) st.
Proof.
  intros Ht Hlb Hl Hlt. assert (bytes_ok [128]) by (by repeat constructor).
  destruct (Nat.ltb_spec (length tail) 56).
  - replace ((length tail + 72) / 64)%nat with 1%nat by nat_mod.
    replace ((119 - length tail) mod 64)%nat with (55 - length tail)%nat by nat_mod.
    cbn [blocks fold_left]. rewrite take_ge by (rewrite !length_app; unfold zeros; rewrite length_replicate; simpl; lia).
    apply Sha1Transform_compress. solve_bytes_ok.
  - replace ((length tail + 72) / 64)%nat with 2%nat by nat_mod.
    replace ((119 - length tail) mod 64)%nat with ((63 - length tail) + 56)%nat by nat_mod.
    replace (zeros (63 - length tail + 56)) with (zeros (63 - length tail) ++ zeros 56)
      by (symmetry; apply replicate_add).
    replace (tail ++ [128] ++ (zeros (63 - length tail) ++ zeros 56) ++ lenb)
      with ((tail ++ [128] ++ zeros (63 - length tail)) ++ (zeros 56 ++ lenb))
      by (by rewrite <- !app_assoc).
    assert (length (tail ++ [128] ++ zeros (63 - length tail)) = 64%nat) as H64.
    { rewrite !length_app. unfold zeros. rewrite length_replicate. simpl. lia. }
    cbn [blocks fold_left]. rewrite (drop_app_le _ _ 64), (drop_ge _ 64) by lia.
    rewrite (take_app_le _ _ 64), (take_ge _ 64) by lia. rewrite app_nil_l.
    rewrite (take_ge (zeros 56 ++ lenb)) by (rewrite length_app; unfold zeros; rewrite length_replicate; lia).
    assert (bytes_ok (tail ++ [128] ++ zeros (63 - length tail))) as Hok
      by solve_bytes_ok.
    destruct (Sha1Transform_compress st _ Hok) as [-> _].
    apply Sha1Transform_compress. solve_bytes_ok.
Qed.

(** The blocks of the padded message: the full blocks, then the padded rest. *)
Lemma pad_blocks (msg : bytes) :
  let n := (length msg / 64)%nat in
  let tail := drop (64 * n) msg in
  blocks (length (pad msg) / 64) (pad msg) =
  blocks n msg ++ blocks ((length tail + 72) / 64)
    (tail ++ [128] ++ zeros ((119 - length tail) mod 64) ++ be_bytes 8 (8 * zlen msg)).
Proof.
  intros n tail.
  assert (length tail = (length msg mod 64)%nat) as Htl.
  { unfold tail, n. rewrite length_drop. nat_mod. }
  assert (pad msg = take (64 * n) msg ++ (tail ++ [128] ++ zeros ((119 - length tail) mod 64)
            ++ be_bytes 8 (8 * zlen msg))) as Hpad.
  { unfold pad. rewrite Htl, (app_assoc (take _ _)). unfold tail. by rewrite take_drop. }
  assert (length (take (64 * n) msg) = (64 * n)%nat) as Ht1.
  { rewrite length_take. unfold n. nat_mod. }
  assert (length (pad msg) / 64 = n + (length tail + 72) / 64)%nat as Hcnt.
  { rewrite Hpad, !length_app, Ht1. unfold zeros. rewrite length_replicate.
    destruct (be_bytes_ok 8 (8 * zlen msg)) as [_ ->]. simpl length.
    replace (64 * n + (length tail + (1 + ((119 - length tail) mod 64 + 8))))%nat
      with (length tail + 1 + (119 - length tail) mod 64 + 8 + n * 64)%nat by lia.
    rewrite Nat.div_add by done. nat_mod. }
  rewrite Hcnt, Hpad, blocks_app by done. f_equal.
  rewrite <- (app_nil_r (blocks n (take (64 * n) msg))).
  change (@nil bytes) with (blocks 0 tail). rewrite <- blocks_app by done.
  unfold tail. by rewrite take_drop, Nat.add_0_r.
Qed.

Lemma Digest_sha1 (msg : bytes) :
  bytes_ok msg -> zlen msg < 2 ^ 61 ->
  exists msg', Digest msg = Ok (sha1 msg, msg') /\ length msg' = length msg /\
    ((length msg < 64)%nat -> msg' = msg).
Proof.
  intros Hm Hl. unfold Digest, sha1, hash. rewrite <- Sha1ContextInit_initial.
  set (n := (length msg / 64)%nat). set (tail := drop (64 * n) msg).
  assert (length tail = (length msg mod 64)%nat) as Htl.
  { unfold tail, n. rewrite length_drop. nat_mod. }
  assert (length tail < 64)%nat by (rewrite Htl; nat_mod).
  destruct (digest_loop_blocks n (S n) Sha1ContextInit [] msg) as (pre' & E & Hp);
    [done|unfold n; nat_mod|lia|]. cbn [app length] in E. fold tail in E. rewrite E.
  cbn [mbind res_bind]. rewrite <- Htl.
  assert (length msg = length pre' + length tail)%nat as Hlen.
  { rewrite Hp, Htl. unfold n. cbn [length]. nat_mod. }
  replace (length msg - length tail)%nat with (length pre') by lia. rewrite drop_app_length.
  rewrite wrap64_id by lia. rewrite be_bytes_8, (Z.mul_comm (zlen msg)).
  pose proof (final_blocks (fold_left compress (blocks n msg) Sha1ContextInit) tail
                (be_bytes 8 (8 * zlen msg))) as F.
  rewrite F; [|by apply Forall_drop|apply be_bytes_ok|apply be_bytes_ok|done].
  rewrite pad_blocks by done. fold n tail.
  rewrite fold_left_app, !be_bytes_4. eexists. split; [done|]. split.
  - rewrite length_app. lia.
  - intros Hlt. assert (n = 0%nat) as Hn by (unfold n; nat_mod).
    destruct pre'; [|simpl in Hp; lia]. unfold tail. by rewrite Hn.
Qed.

(** ** Properties *)

(** One call of [Sha1Transform], with its sixteen-word circular block expanded in
    place, computes the SHA-1 compression function on the 80-word schedule of the block. *)
Theorem Sha1Transform_correct (state : regs) (buf : bytes) (Hbuf : bytes_ok buf) :
  (Sha1Transform state buf).1 = compress state buf.
Proof. by apply Sha1Transform_compress. Qed.

Lemma Sha1Transform_correct_witness :
  (Sha1Transform Sha1ContextInit (zeros 64)).1 = compress Sha1ContextInit (zeros 64).
Proof. refine (Sha1Transform_correct Sha1ContextInit (zeros 64) _). apply zeros_ok. Defined.

(** C25: [Digest] returns the SHA-1 of every message below 2^61 bytes, whatever the length of
    the last block; the caller's buffer keeps its length, and its contents when the message is
    shorter than one block (longer messages are overwritten by the in-place expansion). *)
Theorem Digest_correct (msg : bytes) (Hmsg : bytes_ok msg) (Hlen : zlen msg < 2 ^ 61) :
  exists msg', Digest msg = Ok (sha1 msg, msg') /\ length msg' = length msg /\
    ((length msg < 64)%nat -> msg' = msg).
Proof. by apply Digest_sha1. Qed.

Lemma Digest_correct_witness :
  exists msg', Digest (str "abc") = Ok (sha1 (str "abc"), msg') /\ length msg' = 3%nat /\
    ((3 < 64)%nat -> msg' = str "abc").
Proof. refine (Digest_correct (str "abc") _ _); [by repeat constructor|done]. Defined.

(** [Digest] writes into the [const] message it is given: a message of one full block is
    not the same after the call. *)
Theorem Digest_clobbers_message :
  exists msg, bytes_ok msg /\ exists d msg', Digest msg = Ok (d, msg') /\ msg' <> msg.
Proof.
  exists (replicate 64 1). split; [apply Forall_replicate; unfold byte_ok; lia|].
  destruct (Digest (replicate 64 1)) as [[d m]|f] eqn:E; [|by vm_compute in E].
  exists d, m. split; [done|]. intros ->. by vm_compute in E.
Qed.

End Sha1.
