(* ===== verification/StdMap.v ===== *)
(** * [std::map<std::string, V>]

    The ordered maps of the sources: iteration is in key order, which the
    text of a header block and the search for a dynamic route depend on. A
    map is the list of its pairs in strictly increasing key order. *)
From Stdlib Require Import Sorting.Sorted.
From S2P Require Import Prelude CLib.

(** [std::string::compare]: bytes compare as unsigned values. *)
Fixpoint str_cmp (a b : bytes) : comparison :=
  match a, b with
  | [], [] => Eq
  | [], _ :: _ => Lt
  | _ :: _, [] => Gt
  | x :: a', y :: b' => match x ?= y with Eq => str_cmp a' b' | c => c end
  end.

Abbreviation smap V := (list (bytes * V)).

Section Map.
Context {V : Type}.

(** [m[k] = v] *)
Fixpoint map_set (k : bytes) (v : V) (m : smap V) : smap V :=
  match m with
  | [] => [(k, v)]
  | (k', v') :: m' =>
      match str_cmp k k' with
      | Lt => (k, v) :: m
      | Eq => (k, v) :: m'
      | Gt => (k', v') :: map_set k v m'
      end
  end.

(** [m.find(k)] *)
Fixpoint map_find (k : bytes) (m : smap V) : option V :=
  match m with
  | [] => None
  | (k', v') :: m' =>
      match str_cmp k k' with Eq => Some v' | _ => map_find k m' end
  end.

(** The loop [for (auto &h : hs) m[h.first] = h.second]. *)
Definition map_insert_all (m : smap V) (l : smap V) : smap V :=
  fold_left (fun acc p => map_set p.1 p.2 acc) l m.

Definition map_lt (p q : bytes * V) : Prop := str_cmp p.1 q.1 = Lt.
Definition map_sorted (m : smap V) : Prop := StronglySorted map_lt m.

End Map.

(** ** The order *)

Lemma str_cmp_eq (a b : bytes) : str_cmp a b = Eq <-> a = b.
Proof.
  revert b. induction a as [|x a IH]; intros [|y b]; simpl; try done.
  destruct (Z.compare_spec x y); [subst; rewrite IH; naive_solver|..]; naive_solver lia.
Qed.

Lemma str_cmp_refl (a : bytes) : str_cmp a a = Eq.
Proof. by apply str_cmp_eq. Qed.

Lemma str_cmp_antisym (a b : bytes) : str_cmp b a = CompOpp (str_cmp a b).
Proof.
  revert b. induction a as [|x a IH]; intros [|y b]; simpl; try done.
  rewrite (Z.compare_antisym x y). destruct (x ?= y); simpl; [apply IH|done..].
Qed.

Lemma str_cmp_trans (a b c : bytes) :
  str_cmp a b = Lt -> str_cmp b c = Lt -> str_cmp a c = Lt.
Proof.
  revert b c. induction a as [|x a IH]; intros [|y b] [|z c]; simpl; try done.
  destruct (Z.compare_spec x y), (Z.compare_spec y z), (Z.compare_spec x z); try done; try lia.
  apply IH.
Qed.

Lemma str_cmp_gt_lt (a b : bytes) : str_cmp a b = Gt -> str_cmp b a = Lt.
Proof. intros H. by rewrite str_cmp_antisym, H. Qed.

(** ** Laws *)

Section Laws.
Context {V : Type}.
Implicit Types m : smap V.

Lemma map_set_Forall (k0 k : bytes) (v : V) m :
  str_cmp k0 k = Lt -> Forall (fun p => str_cmp k0 p.1 = Lt) m ->
  Forall (fun p => str_cmp k0 p.1 = Lt) (map_set k v m).
Proof.
  intros Hk. induction 1 as [|[k' v'] m Hp Hm IH]; simpl; [by repeat constructor|].
  destruct (str_cmp k k'); by repeat constructor.
Qed.

Lemma map_set_sorted (k : bytes) (v : V) m : map_sorted m -> map_sorted (map_set k v m).
Proof.
  unfold map_sorted. induction 1 as [|[k' v'] m Hm IH Hall]; simpl; [by repeat constructor|].
  destruct (str_cmp k k') eqn:E.
  - apply str_cmp_eq in E as ->. by constructor.
  - constructor; [by constructor|]. constructor; [done|].
    eapply Forall_impl; [exact Hall|]. intros [k2 v2] H. by eapply str_cmp_trans.
  - constructor; [done|]. apply (map_set_Forall k'); [by apply str_cmp_gt_lt|done].
Qed.

Lemma map_insert_all_sorted m (l : smap V) : map_sorted m -> map_sorted (map_insert_all m l).
Proof.
  revert m. induction l as [|[k v] l IH]; intros m Hm; [done|]. by apply IH, map_set_sorted.
Qed.

Lemma map_find_set_eq (k : bytes) (v : V) m : map_find k (map_set k v m) = Some v.
Proof.
  induction m as [|[k' v'] m IH]; simpl; [by rewrite str_cmp_refl|].
  destruct (str_cmp k k') eqn:E; simpl; rewrite ?str_cmp_refl; [done|done|by rewrite E].
Qed.

Lemma map_find_set_ne (k k2 : bytes) (v : V) m :
  k2 <> k -> map_find k2 (map_set k v m) = map_find k2 m.
Proof.
  intros Hne. assert (str_cmp k2 k <> Eq) as Hc by (by rewrite str_cmp_eq).
  induction m as [|[k' v'] m IH]; simpl.
  - by destruct (str_cmp k2 k).
  - destruct (str_cmp k k') eqn:E; simpl.
    + apply str_cmp_eq in E as ->. by destruct (str_cmp k2 k').
    + by destruct (str_cmp k2 k).
    + by rewrite IH.
Qed.

(** A key above all others goes last. *)
Lemma map_set_last (k : bytes) (v : V) m :
  Forall (fun p => str_cmp p.1 k = Lt) m -> map_set k v m = m ++ [(k, v)].
Proof.
  induction 1 as [|[k' v'] m Hp _ IH]; simpl; [done|].
  rewrite (str_cmp_antisym k' k). simpl in Hp. rewrite Hp. simpl. by rewrite IH.
Qed.

(** Inserting the pairs of a sorted map in order rebuilds it. *)
Lemma map_insert_all_id m : map_sorted m -> map_insert_all [] m = m.
Proof.
  intros Hm. enough (forall a, map_sorted (a ++ m) -> map_insert_all a m = a ++ m) as H by apply H, Hm.
  clear Hm. induction m as [|[k v] m IH]; intros a Ha.
  - simpl. by rewrite app_nil_r.
  - unfold map_insert_all. simpl. rewrite map_set_last.
    + change (map_insert_all (a ++ [(k, v)]) m = a ++ (k, v) :: m).
      rewrite IH; [by rewrite <- app_assoc|by rewrite <- app_assoc].
    + clear IH. induction a as [|p a IH]; [constructor|].
      inversion Ha as [|? ? Ha1 Ha2]; subst. constructor; [|by apply IH].
      apply Forall_app in Ha2 as [_ Ha2]. by inversion Ha2.
Qed.

End Laws.

#[export] Hint Resolve map_set_sorted map_insert_all_sorted : unixtar.
