(* ===== verification/YamlUtil.v ===== *)
(** * The configuration parser (utils/yamlutil.h, utils/yamlutil.cc)

    [ParseYaml] reads a file line by line into a tree of nodes. The nodes are
    shared between the tree, the variable [parent] and the stack of enclosing
    nodes, so the model keeps them in a store and a [Node *] is a place in it.
    The values below a node are owned by it alone and are kept in place.
    [strtod] (the conversion to [double]) is not modelled: nothing uses it. *)
From S2P Require Import Prelude CLib StrUtil.

Module YamlUtil.

(** ** Definitions *)

Inductive TType := kUnknown | kLeaf | kObject | kArray.

(** An element of an array: [ValueObj] or [ValueLeaf]. *)
Inductive element :=
| EObj (nodes : list nat)
| ELeaf (data : bytes).

Record ValueArray := mkArray {
  arr : list element;
  curr : Z;
  len_of_obj_in_arr : Z
}.

Inductive AbsValue :=
| ValueLeaf (data : bytes)
| ValueObj (nodes : list nat)
| ValueArr (a : ValueArray).

Record Node := mkNode {
  key : bytes;
  value : option AbsValue
}.

Definition new_ValueArray : ValueArray := mkArray [] (-1) (-1).

Definition Type_ (v : AbsValue) : TType :=
  match v with
  | ValueLeaf _ => kLeaf
  | ValueObj _ => kObject
  | ValueArr _ => kArray
  end.

(** *** Insertion *)

Definition ValueArray_Insert (a : ValueArray) (node : nat) : res ValueArray :=
  arr' ← (if curr a =? 0 then Ok (arr a ++ [EObj [node]])
          else match last (arr a) with
               | Some (EObj l) => Ok (removelast (arr a) ++ [EObj (l ++ [node])])
               | _ => Fault Undefined
               end);
  Ok (mkArray arr' (curr a + 1) (len_of_obj_in_arr a)).

Definition InsertValueLeaf (a : ValueArray) (data : bytes) : res ValueArray :=
  _ ← assert_ (curr a =? 0);
  Ok (mkArray (arr a ++ [ELeaf data]) (curr a) (len_of_obj_in_arr a)).

Definition MarkArrStart (a : ValueArray) : res ValueArray :=
  if (len_of_obj_in_arr a =? -1) && (0 <? curr a) then Ok (mkArray (arr a) 0 (curr a))
  else if negb (len_of_obj_in_arr a =? curr a) then Fault AssertFailed
  else Ok (mkArray (arr a) 0 (len_of_obj_in_arr a)).

(** The virtual [AbsValue::Insert]. *)
Definition Insert (v : AbsValue) (node : nat) : res AbsValue :=
  match v with
  | ValueLeaf _ => Fault AssertFailed
  | ValueObj l => Ok (ValueObj (l ++ [node]))
  | ValueArr a => a ← ValueArray_Insert a node; Ok (ValueArr a)
  end.

(** *** The parser *)

Record parser := mkParser {
  nodes : list Node;
  stack : list nat;
  parent : nat;
  last_indents : Z
}.

(** The place of the descriptor, the root of the tree. *)
Definition root : nat := 0.

Definition new_parser (path : bytes) : parser :=
  mkParser [mkNode path (Some (ValueObj []))] [] root 0.

Definition deref (st : list Node) (p : nat) : res Node :=
  match st !! p with Some n => Ok n | None => Fault Undefined end.

Definition set_value (st : list Node) (p : nat) (v : AbsValue) : res (list Node) :=
  n ← deref st p;
  Ok (<[p := mkNode (key n) (Some v)]> st).

(** The [while] of [GetParentNodeByIndentDiff]. *)
Fixpoint pop_loop (fuel : nat) (st : list nat) (par : option nat) (indent_diff : Z)
    : res (option nat * list nat) :=
  if indent_diff <? 0 then
    match fuel with
    | O => Fault Hang
    | S fuel' =>
        match st with
        | [] => Fault AssertFailed
        | p :: st' => pop_loop fuel' st' (Some p) (indent_diff + 2)
        end
    end
  else Ok (par, st).

Definition GetParentNodeByIndentDiff (st : list nat) (indent_diff : Z) : res (nat * list nat) :=
  _ ← assert_ ((indent_diff <? 0) && (Z.rem indent_diff 2 =? 0));
  '(p, st) ← pop_loop (Z.to_nat (- indent_diff)) st None indent_diff;
  match p with Some p => Ok (p, st) | None => Fault Undefined end.

(** [(int) line.find_first_not_of(' ')] *)
Definition indents_of (line : bytes) : Z :=
  match find_if (fun c => negb (c =? 32)) line with
  | Some i => to_int (Z.of_nat i)
  | None => -1
  end.

(** [if (indent_diff < 0) parent = GetParentNodeByIndentDiff(...)] *)
Definition unindent (p : parser) (indent_diff : Z) : res (nat * list nat) :=
  if indent_diff <? 0 then GetParentNodeByIndentDiff (stack p) indent_diff
  else Ok (parent p, stack p).

(** A line "key: value". *)
Definition parse_leaf_line (p : parser) (indents indent_diff : Z) (f0 f1 : bytes) : res parser :=
  '(par, st) ← unindent p indent_diff;
  let node := length (nodes p) in
  let ns := nodes p ++ [mkNode (StrUtil.trim f0) (Some (ValueLeaf (StrUtil.trim f1)))] in
  pn ← deref ns par;
  v ← Insert (default (ValueObj []) (value pn)) node;
  ns ← set_value ns par v;
  Ok (mkParser ns st par indents).

(** A line "key:". *)
Definition parse_block_line (p : parser) (indents indent_diff : Z) (f0 : bytes) : res parser :=
  let node := length (nodes p) in
  let ns := nodes p ++ [mkNode (StrUtil.trim f0) None] in
  '(par, st) ← unindent p indent_diff;
  pn ← deref ns par;
  match value pn with
  | None => Fault Undefined
  | Some v =>
      v ← Insert v node;
      ns ← set_value ns par v;
      _ ← assert_ (negb ((0 <? indent_diff) && negb (indent_diff =? 2)));
      Ok (mkParser ns (par :: st) node indents)
  end.

(** A line with one field and no separator. *)
Definition parse_element_line (p : parser) (indents : Z) (f0 : bytes) : res parser :=
  pn ← deref (nodes p) (parent p);
  match value pn with
  | None => Fault Undefined
  | Some (ValueArr a) =>
      a ← InsertValueLeaf a (StrUtil.trim f0);
      ns ← set_value (nodes p) (parent p) (ValueArr a);
      Ok (mkParser ns (stack p) (parent p) indents)
  | Some _ => Fault AssertFailed
  end.

(** A line "-". *)
Definition parse_dash_line (p : parser) (indents : Z) : res parser :=
  pn ← deref (nodes p) (parent p);
  match default (ValueArr new_ValueArray) (value pn) with
  | ValueArr a =>
      a ← MarkArrStart a;
      ns ← set_value (nodes p) (parent p) (ValueArr a);
      Ok (mkParser ns (stack p) (parent p) indents)
  | _ => Fault AssertFailed
  end.

Definition colon : Z := 58.

(** One turn of the loop of [ParseYaml]. *)
Definition parse_line (p : parser) (raw : bytes) : res parser :=
  let line := StrUtil.delafter raw 35 in
  match line with
  | [] => Ok p
  | _ :: _ =>
      separate ← StrUtil.split line [colon];
      let indents := indents_of line in
      let indent_diff := indents - last_indents p in
      match separate with
      | [f0; f1] => parse_leaf_line p indents indent_diff f0 f1
      | [f0] =>
          match string_find line [colon] 0 with
          | Some _ => parse_block_line p indents indent_diff f0
          | None => parse_element_line p indents f0
          end
      | _ =>
          if bool_decide (StrUtil.trim line = str "-") then parse_dash_line p indents
          else Fault AssertFailed
      end
  end.

Fixpoint parse_lines (p : parser) (lines : list bytes) : res parser :=
  match lines with
  | [] => Ok p
  | l :: ls => p ← parse_line p l; parse_lines p ls
  end.

(** The lines [getline] delivers: the last one may lack its newline. *)
Fixpoint getlines (cur text : bytes) : list bytes :=
  match text with
  | [] => match cur with [] => [] | _ :: _ => [rev cur] end
  | c :: text' => if c =? 10 then rev cur :: getlines [] text' else getlines (c :: cur) text'
  end.

(** [ParseYaml]; [file] is the content of the file. *)
Definition ParseYaml (path file : bytes) : res (list Node) :=
  p ← parse_lines (new_parser path) (getlines [] file);
  Ok (nodes p).

(** *** The cache of descriptors *)

(** A descriptor is its address with its tree. *)
Abbreviation YamlDescriptor := (nat * list Node)%type.

Definition desc_key (d : YamlDescriptor) : option bytes := key <$> (d.2 !! root).

(** [Load]; [fopen] is the content of the file, [None] when it cannot be
    opened; [fresh] is the address of a new descriptor. *)
Definition Load (cache : list YamlDescriptor) (path : bytes) (fopen : option bytes) (fresh : nat)
    : res (option YamlDescriptor * list YamlDescriptor) :=
  match list_find (fun d => desc_key d = Some path) cache with
  | Some (_, d) => Ok (Some d, cache)
  | None =>
      match fopen with
      | Some file =>
          tree ← ParseYaml path file;
          let d := (fresh, tree) in
          Ok (Some d, if (length cache <? 10)%nat then cache ++ [d] else cache)
      | None => Ok (None, cache)
      end
  end.

Definition Close (cache : list YamlDescriptor) (d : YamlDescriptor) : list YamlDescriptor :=
  filter (fun d' => d'.1 <> d.1) cache.

Definition IsCached (cache : list YamlDescriptor) (d : YamlDescriptor) : bool :=
  existsb (fun d' => (d'.1 =? d.1)%nat) cache.

(** *** Access *)

(** [ValueObj::__Get]: the value of the first node with the key. *)
Fixpoint __Get (st : list Node) (l : list nat) (k : bytes) : res (option AbsValue) :=
  match l with
  | [] => Fault (Throw (NoSuchFieldException k))
  | i :: l' => n ← deref st i; if bool_decide (key n = k) then Ok (value n) else __Get st l' k
  end.

Definition root_nodes (st : list Node) : res (list nat) :=
  n ← deref st root;
  match value n with
  | Some (ValueObj l) => Ok l
  | Some _ => Fault AssertFailed
  | None => Fault Undefined
  end.

(** The getters of [YamlDescriptor], which do not test for a null value. *)
Definition GetLeaf (st : list Node) (k : bytes) : res bytes :=
  l ← root_nodes st;
  v ← __Get st l k;
  match v with
  | Some (ValueLeaf d) => Ok d
  | Some _ => Fault (Throw (NotAnYamlLeafException k))
  | None => Fault Undefined
  end.

Definition GetArray (st : list Node) (k : bytes) : res ValueArray :=
  l ← root_nodes st;
  v ← __Get st l k;
  match v with
  | Some (ValueArr a) => Ok a
  | Some _ => Fault (Throw (NotAnYamlArrayException k))
  | None => Fault Undefined
  end.

Definition GetYmlObj (st : list Node) (k : bytes) : res (list nat) :=
  l ← root_nodes st;
  v ← __Get st l k;
  match v with
  | Some (ValueObj o) => Ok o
  | Some _ => Fault (Throw (NotAnYamlObjectException k))
  | None => Fault Undefined
  end.

(** The getters of [ValueObj], [None] for [nullptr]. *)
Definition ValueObj_GetLeaf (st : list Node) (l : list nat) (k : bytes) : res (option bytes) :=
  v ← __Get st l k;
  match v with
  | Some (ValueLeaf d) => Ok (Some d)
  | Some _ => Fault (Throw (NotAnYamlLeafException k))
  | None => Ok None
  end.

Definition ValueObj_GetYmlObj (st : list Node) (l : list nat) (k : bytes) : res (option (list nat)) :=
  v ← __Get st l k;
  match v with
  | Some (ValueObj o) => Ok (Some o)
  | Some _ => Fault (Throw (NotAnYamlObjectException k))
  | None => Ok None
  end.

Definition ValueObj_GetArr (st : list Node) (l : list nat) (k : bytes) : res (option ValueArray) :=
  v ← __Get st l k;
  match v with
  | Some (ValueArr a) => Ok (Some a)
  | Some _ => Fault (Throw (NotAnYamlArrayException k))
  | None => Ok None
  end.

(** The elements, taken as objects or leaves by a cast. *)
Definition AsYmlObjects (a : ValueArray) : res (list element) :=
  _ ← assert_ (1 <? len_of_obj_in_arr a); Ok (arr a).

Definition AsYmlLeaves (a : ValueArray) : res (list element) :=
  _ ← assert_ (len_of_obj_in_arr a =? 1); Ok (arr a).

(** *** Conversions of a leaf: the result and the value *)

Definition To_bool (data : bytes) : Z * bool :=
  if bool_decide (data = str "true") then (0, true)
  else (if bool_decide (data = str "false") then 0 else -1, false).

Definition To_int (data : bytes) : Z * Z := (0, to_int (strtol data)).

Definition To_uint16 (data : bytes) : Z * Z := (0, wrap16 (strtol data)).

Definition To_string (data : bytes) : Z * bytes := (0, data).

End YamlUtil.
