(* ===== verification/YamlTheory.v ===== *)
(** * Theory of the configuration parser

    Configuration documents in the shape of the two shipped files (leaves,
    objects of leaves, arrays of objects of leaves), their text, the tree the
    parser builds for them, and what the accessors read back. *)
From S2P Require Import Prelude CLib StrUtil YamlUtil.

Module YamlTheory.
Import YamlUtil.

(** ** Specifications *)

Abbreviation field := (bytes * bytes)%type.

Inductive item :=
| ILeaf (v : bytes)
| IObj (fs : list field)
| IArr (objs : list (list field)).

Abbreviation doc := (list (bytes * item)).

(** A key or a value: no separator, comment sign or newline, and no space at
    either end. *)
Definition atom_ok (s : bytes) : Prop :=
  s <> [] /\ Forall (fun c => c <> colon /\ c <> 35 /\ c <> 10) s /\
  head s <> Some 32 /\ last s <> Some 32.

Definition field_ok (f : field) : Prop := atom_ok f.1 /\ atom_ok f.2.

#[export] Instance atom_ok_dec (s : bytes) : Decision (atom_ok s).
Proof. unfold atom_ok. apply _. Defined.

#[export] Instance field_ok_dec (f : field) : Decision (field_ok f).
Proof. unfold field_ok. apply _. Defined.

Definition item_ok (it : item) : Prop :=
  match it with
  | ILeaf v => atom_ok v
  | IObj fs => fs <> [] /\ Forall field_ok fs
  | IArr objs => exists m, (0 < m)%nat /\ objs <> [] /\
      Forall (fun fs => length fs = m /\ Forall field_ok fs) objs
  end.

Definition doc_ok (d : doc) : Prop := Forall (fun p => atom_ok p.1 /\ item_ok p.2) d.

Definition pad (n : nat) : bytes := replicate n 32.
Definition leaf_line (n : nat) (f : field) : bytes := pad n ++ f.1 ++ [colon; 32] ++ f.2.
Definition block_line (k : bytes) : bytes := k ++ [colon].
Definition dash_line : bytes := str "  -".

Definition obj_lines (fs : list field) : list bytes := dash_line :: (leaf_line 2 <$> fs).

Definition item_lines (k : bytes) (it : item) : list bytes :=
  match it with
  | ILeaf v => [leaf_line 0 (k, v)]
  | IObj fs => block_line k :: (leaf_line 2 <$> fs)
  | IArr objs => block_line k :: concat (obj_lines <$> objs)
  end.

Definition doc_lines (d : doc) : list bytes := concat ((fun p => item_lines p.1 p.2) <$> d).

(** The text of the file. *)
Definition render (d : doc) : bytes := concat ((fun l => l ++ [10]) <$> doc_lines d).

(** The document a tree of nodes stands for. *)
Definition read_field (st : list Node) (i : nat) : option field :=
  n ← st !! i;
  match value n with Some (ValueLeaf v) => Some (key n, v) | _ => None end.

Definition read_element (st : list Node) (e : element) : option (list field) :=
  match e with EObj l => mapM (read_field st) l | ELeaf _ => None end.

Definition read_item (st : list Node) (i : nat) : option (bytes * item) :=
  n ← st !! i;
  match value n with
  | Some (ValueLeaf v) => Some (key n, ILeaf v)
  | Some (ValueObj l) => fs ← mapM (read_field st) l; Some (key n, IObj fs)
  | Some (ValueArr a) => objs ← mapM (read_element st) (arr a); Some (key n, IArr objs)
  | None => None
  end.

Definition read_doc (st : list Node) : option doc :=
  n ← st !! root;
  match value n with Some (ValueObj l) => mapM (read_item st) l | _ => None end.

(** The first item with the key. *)
Fixpoint lookup_item (d : doc) (k : bytes) : option item :=
  match d with
  | [] => None
  | (k', it) :: d' => if bool_decide (k' = k) then Some it else lookup_item d' k
  end.

(** ** Lines *)

Lemma find_if_skip (p : Z -> bool) (l : bytes) (c : Z) (t : bytes) :
  Forall (fun x => p x = false) l -> p c = true -> find_if p (l ++ c :: t) = Some (length l).
Proof.
  intros Hl Hc. induction Hl as [|x l Hx _ IH]; cbn [app find_if]; [by rewrite Hc|].
  by rewrite Hx, IH.
Qed.

Lemma find_if_none (p : Z -> bool) (l : bytes) : Forall (fun x => p x = false) l -> find_if p l = None.
Proof. induction 1 as [|x l Hx _ IH]; cbn; [done|]. by rewrite Hx, IH. Qed.

Lemma find_last_if_none (p : Z -> bool) (l : bytes) :
  Forall (fun x => p x = false) l -> find_last_if p l = None.
Proof. induction 1 as [|x l Hx _ IH]; cbn; [done|]. by rewrite IH, Hx. Qed.

Lemma find_last_if_skip (p : Z -> bool) (t : bytes) (c : Z) (r : bytes) :
  Forall (fun x => p x = false) r -> p c = true -> find_last_if p (t ++ c :: r) = Some (length t).
Proof.
  intros Hr Hc. induction t as [|x t IH]; cbn; [by rewrite find_last_if_none, Hc|]. by rewrite IH.
Qed.

Lemma pad_spaces (n : nat) : Forall (fun c => negb (c =? 32) = false) (pad n).
Proof. by apply Forall_replicate. Qed.

Lemma trim_pad (n : nat) (s : bytes) :
  s <> [] -> head s <> Some 32 -> last s <> Some 32 -> StrUtil.trim (pad n ++ s) = s.
Proof.
  intros Hne Hh Hl. unfold StrUtil.trim. destruct (pad n ++ s) eqn:E.
  { by apply app_eq_nil in E as [_ ->]. }
  rewrite <- E. clear E. destruct s as [|c s]; [done|].
  rewrite find_if_skip; [|apply pad_spaces|].
  2: { destruct (Z.eqb_spec c 32); [|done]. subst. done. }
  rewrite drop_app_length. destruct (exists_last Hne) as (t & x & E). rewrite E in *.
  rewrite last_snoc in Hl. rewrite find_last_if_skip; [|constructor|].
  - rewrite take_ge; [done|]. rewrite length_app. simpl. lia.
  - destruct (Z.eqb_spec x 32); [|done]. subst. done.
Qed.

Lemma atom_trim (n : nat) (s : bytes) : atom_ok s -> StrUtil.trim (pad n ++ s) = s.
Proof. intros (? & _ & ? & ?). by apply trim_pad. Qed.

Lemma indents_pad (n : nat) (s : bytes) :
  (n < 10)%nat -> s <> [] -> head s <> Some 32 -> indents_of (pad n ++ s) = Z.of_nat n.
Proof.
  intros Hn Hne Hh. unfold indents_of. destruct s as [|c s]; [done|].
  rewrite find_if_skip; [|apply pad_spaces|].
  - unfold pad. rewrite length_replicate. apply to_int_id. lia.
  - destruct (Z.eqb_spec c 32); [|done]. subst. done.
Qed.

Lemma delafter_id (s : bytes) : Forall (fun c => c <> 35) s -> StrUtil.delafter s 35 = s.
Proof.
  intros Hs. unfold StrUtil.delafter. rewrite find_if_none; [done|].
  eapply Forall_impl; [apply Hs|]. intros c Hc. simpl. by apply Z.eqb_neq.
Qed.

Lemma not_occurs_1 (c : Z) (s : bytes) : Forall (fun x => x <> c) s -> ~ occurs_in [c] s.
Proof.
  intros Hs [j [t Ht]]. assert (s !! j = Some c) as Hj.
  { rewrite <- (Nat.add_0_r j), <- lookup_drop, Ht. done. }
  rewrite Forall_lookup in Hs. by apply (Hs j c Hj).
Qed.

Lemma atom_no (c : Z) (s : bytes) :
  (c = colon \/ c = 35 \/ c = 10) -> atom_ok s -> Forall (fun x => x <> c) s.
Proof.
  intros Hc (_ & Hs & _). eapply Forall_impl; [apply Hs|]. intros x ?. simpl. naive_solver.
Qed.

Lemma pad_no (c : Z) (n : nat) : c <> 32 -> Forall (fun x => x <> c) (pad n).
Proof. intros. apply Forall_replicate. done. Qed.

Lemma split_colon_2 (f g : bytes) :
  f <> [] -> g <> [] -> Forall (fun x => x <> colon) f -> Forall (fun x => x <> colon) g ->
  StrUtil.split (f ++ [colon] ++ g) [colon] = Ok [f; g].
Proof.
  intros. apply (StrUtil.split_join [colon] f g []); [done|apply StrUtil.border_free_1|].
  repeat constructor; by try apply not_occurs_1.
Qed.

Lemma split_colon_1 (f : bytes) :
  f <> [] -> Forall (fun x => x <> colon) f -> StrUtil.split (f ++ [colon]) [colon] = Ok [f].
Proof.
  intros Hf Hc.
  pose proof (StrUtil.split_join_kept [colon] ltac:(done) (StrUtil.border_free_1 _) [f; []]) as H.
  cbn [StrUtil.join StrUtil.kept_fields] in H. rewrite bool_decide_false in H by done.
  cbn [StrUtil.kept_fields andb negb] in H. rewrite (bool_decide_true ([] = [])) in H by done.
  rewrite app_nil_r in H. cbn [negb andb] in H. apply H; [done|].
  repeat constructor; [by apply not_occurs_1|]. intros [j Hj]. rewrite drop_nil in Hj.
  by apply prefix_nil_inv in Hj.
Qed.

(** What a turn of the loop does with each kind of line. *)
Lemma parse_line_split (p : parser) (line : bytes) (separate : list bytes) :
  line <> [] -> Forall (fun c => c <> 35) line -> StrUtil.split line [colon] = Ok separate ->
  parse_line p line =
  match separate with
  | [f0; f1] => parse_leaf_line p (indents_of line) (indents_of line - last_indents p) f0 f1
  | [f0] =>
      match string_find line [colon] 0 with
      | Some _ => parse_block_line p (indents_of line) (indents_of line - last_indents p) f0
      | None => parse_element_line p (indents_of line) f0
      end
  | _ =>
      if bool_decide (StrUtil.trim line = str "-") then parse_dash_line p (indents_of line)
      else Fault AssertFailed
  end.
Proof.
  intros Hne Hh Hs. unfold parse_line. rewrite delafter_id by done. destruct line; [done|].
  by rewrite Hs.
Qed.

Lemma parse_leaf (p : parser) (n : nat) (f : field) :
  (n < 10)%nat -> field_ok f ->
  parse_line p (leaf_line n f)
  = parse_leaf_line p (Z.of_nat n) (Z.of_nat n - last_indents p) (pad n ++ f.1) (pad 1 ++ f.2).
Proof.
  intros Hn [Hk Hv]. pose proof Hk as (Hne & _ & Hh & _).
  assert (leaf_line n f = (pad n ++ f.1) ++ [colon] ++ (pad 1 ++ f.2)) as E.
  { unfold leaf_line. by rewrite <- !app_assoc. }
  assert (indents_of (leaf_line n f) = Z.of_nat n) as Hi.
  { unfold leaf_line. apply indents_pad; [done|by destruct f.1|by destruct f.1]. }
  rewrite (parse_line_split _ _ [pad n ++ f.1; pad 1 ++ f.2]); [by rewrite Hi| | |].
  - rewrite E. by intros [_ ?]%app_eq_nil.
  - unfold leaf_line. rewrite !Forall_app.
    split_and!; [by apply pad_no|apply atom_no; auto|by repeat constructor|apply atom_no; auto].
  - rewrite E. apply split_colon_2; [by intros [_ ?]%app_eq_nil|done| |];
      apply Forall_app; (split; [by apply pad_no|apply atom_no; auto]).
Qed.

Lemma parse_block (p : parser) (k : bytes) :
  atom_ok k -> parse_line p (block_line k) = parse_block_line p 0 (0 - last_indents p) (pad 0 ++ k).
Proof.
  intros Hk. pose proof Hk as (Hne & _ & Hh & _). unfold block_line.
  assert (indents_of (k ++ [colon]) = 0) as Hi.
  { apply (indents_pad 0); [lia|by destruct k|by destruct k]. }
  rewrite (parse_line_split _ _ [k]), Hi.
  - unfold string_find. cbn [Nat.leb]. rewrite drop_0.
    pose proof (find_sub_sep [colon] k []) as Hf. rewrite app_nil_r in Hf. rewrite Hf; [done|done| |].
    + apply StrUtil.border_free_1.
    + apply not_occurs_1, atom_no; auto.
  - by intros [_ ?]%app_eq_nil.
  - rewrite Forall_app. split; [apply atom_no; auto|by repeat constructor].
  - apply split_colon_1; [done|apply atom_no; auto].
Qed.

Lemma parse_dash (p : parser) : parse_line p dash_line = parse_dash_line p 2.
Proof. done. Qed.

(** ** The tree *)

Definition leaf_node (f : field) : Node := mkNode f.1 (Some (ValueLeaf f.2)).

Fixpoint elements (n : nat) (objs : list (list field)) : list element :=
  match objs with
  | [] => []
  | fs :: objs' => EObj (seq n (length fs)) :: elements (n + length fs) objs'
  end.

(** The array after [objs], of [m] fields each: the length is recorded when a
    second object starts. *)
Definition array_of (n : nat) (objs : list (list field)) : ValueArray :=
  let m := Z.of_nat (default O (length <$> head objs)) in
  mkArray (elements n objs) m (if (length objs <? 2)%nat then -1 else m).

(** The value of the item whose node is at [n], and the nodes after it. *)
Definition item_value (n : nat) (it : item) : AbsValue :=
  match it with
  | ILeaf v => ValueLeaf v
  | IObj fs => ValueObj (seq (S n) (length fs))
  | IArr objs => ValueArr (array_of (S n) objs)
  end.

Definition item_nodes (it : item) : list Node :=
  match it with
  | ILeaf _ => []
  | IObj fs => leaf_node <$> fs
  | IArr objs => leaf_node <$> concat objs
  end.

Fixpoint doc_nodes (n : nat) (d : doc) : list Node :=
  match d with
  | [] => []
  | (k, it) :: d' =>
      mkNode k (Some (item_value n it)) :: item_nodes it ++ doc_nodes (S n + length (item_nodes it)) d'
  end.

Fixpoint doc_places (n : nat) (d : doc) : list nat :=
  match d with
  | [] => []
  | (_, it) :: d' => n :: doc_places (S n + length (item_nodes it)) d'
  end.

(** *** Steps of the parser *)

Lemma set_value_mid (pre post : list Node) (n : Node) (v : AbsValue) :
  set_value (pre ++ n :: post) (length pre) v = Ok (pre ++ mkNode (key n) (Some v) :: post).
Proof.
  unfold set_value, deref. rewrite list_lookup_middle by done. cbn [mbind res_bind].
  by rewrite <- (Nat.add_0_r (length pre)), insert_app_r.
Qed.

Lemma deref_mid (pre post : list Node) (n : Node) : deref (pre ++ n :: post) (length pre) = Ok n.
Proof. unfold deref. by rewrite list_lookup_middle. Qed.

(** A leaf line below the node at [length pre]. *)
Lemma leaf_step (p : parser) (n : nat) (f : field) (pre post : list Node) (b : Node) (st : list nat)
    (v : AbsValue) :
  (n < 10)%nat -> field_ok f -> nodes p = pre ++ b :: post ->
  unindent p (Z.of_nat n - last_indents p) = Ok (length pre, st) ->
  Insert (default (ValueObj []) (value b)) (length (nodes p)) = Ok v ->
  parse_line p (leaf_line n f)
  = Ok (mkParser (pre ++ mkNode (key b) (Some v) :: post ++ [leaf_node f]) st (length pre) (Z.of_nat n)).
Proof.
  intros Hn Hf Hp Hu Hi. rewrite parse_leaf by done. unfold parse_leaf_line. rewrite Hu.
  cbn [mbind res_bind]. destruct Hf. rewrite !atom_trim by done. rewrite Hp in Hi |- *.
  rewrite <- app_assoc, <- app_comm_cons, deref_mid. cbn [mbind res_bind].
  rewrite Hi. cbn [mbind res_bind]. by rewrite set_value_mid.
Qed.

(** [Insert] of the nodes from [n] on. *)
Fixpoint insert_all (v : AbsValue) (n m : nat) : res AbsValue :=
  match m with
  | O => Ok v
  | S m' => v ← Insert v n; insert_all v (S n) m'
  end.

Lemma insert_all_obj (l : list nat) (n m : nat) : insert_all (ValueObj l) n m = Ok (ValueObj (l ++ seq n m)).
Proof.
  revert l n. induction m as [|m IH]; intros l n; cbn [insert_all seq]; [by rewrite app_nil_r|].
  cbn [Insert mbind res_bind]. by rewrite IH, <- app_assoc.
Qed.

Lemma insert_all_more (es : list element) (l : list nat) (c len : Z) (n m : nat) :
  0 < c ->
  insert_all (ValueArr (mkArray (es ++ [EObj l]) c len)) n m
  = Ok (ValueArr (mkArray (es ++ [EObj (l ++ seq n m)]) (c + Z.of_nat m) len)).
Proof.
  revert l c n. induction m as [|m IH]; intros l c n Hc; cbn [insert_all seq].
  { by rewrite app_nil_r, Z.add_0_r. }
  unfold Insert, ValueArray_Insert. cbn [curr arr len_of_obj_in_arr].
  destruct (Z.eqb_spec c 0); [lia|]. rewrite last_snoc, removelast_last. cbn [mbind res_bind].
  rewrite IH by lia. rewrite <- app_assoc. do 3 f_equal. lia.
Qed.

Lemma insert_all_arr (es : list element) (len : Z) (n m : nat) :
  (0 < m)%nat ->
  insert_all (ValueArr (mkArray es 0 len)) n m
  = Ok (ValueArr (mkArray (es ++ [EObj (seq n m)]) (Z.of_nat m) len)).
Proof.
  intros Hm. destruct m as [|m]; [lia|]. cbn [insert_all].
  unfold Insert at 1, ValueArray_Insert. cbn [curr arr len_of_obj_in_arr Z.eqb mbind res_bind].
  rewrite insert_all_more by lia. do 3 f_equal. lia.
Qed.

(** The lines of the fields of a block. *)
Lemma fields_step (fs : list field) (pre post : list Node) (b : Node) (st : list nat) (ind : Z)
    (v : AbsValue) :
  fs <> [] -> Forall field_ok fs -> ind <= 2 ->
  insert_all (default (ValueObj []) (value b)) (S (length pre + length post)) (length fs) = Ok v ->
  parse_lines (mkParser (pre ++ b :: post) st (length pre) ind) (leaf_line 2 <$> fs)
  = Ok (mkParser (pre ++ mkNode (key b) (Some v) :: post ++ (leaf_node <$> fs)) st (length pre) 2).
Proof.
  revert b post ind. induction fs as [|f fs IH]; intros b post ind Hne Hok Hind Hv; [done|].
  apply Forall_cons in Hok as [Hf Hok]. cbn [insert_all length] in Hv.
  apply bind_Ok in Hv as (v1 & Hv1 & Hv). rewrite !fmap_cons. cbn [parse_lines].
  rewrite (leaf_step _ 2 f pre post b st v1).
  - cbn [mbind res_bind]. change (Z.of_nat 2) with 2. destruct fs as [|g fs].
    { cbn [insert_all length] in Hv. injection Hv as <-. done. }
    rewrite (IH (mkNode (key b) (Some v1)) (post ++ [leaf_node f]) 2); [|done|done|lia|].
    + cbn [key]. by rewrite <- app_assoc.
    + cbn [value default from_option id]. rewrite <- Hv. f_equal. rewrite length_app. simpl. lia.
  - lia.
  - done.
  - done.
  - unfold unindent. cbn [last_indents stack parent]. destruct (Z.ltb_spec (Z.of_nat 2 - ind) 0); [lia|done].
  - cbn [nodes]. rewrite length_app. simpl length. by rewrite Nat.add_succ_r.
Qed.

Lemma parse_lines_app (p : parser) (l1 l2 : list bytes) :
  parse_lines p (l1 ++ l2) = (p ← parse_lines p l1; parse_lines p l2).
Proof.
  revert p. induction l1 as [|l l1 IH]; intros p; [done|]. cbn [app parse_lines].
  destruct (parse_line p l); cbn [mbind res_bind]; [apply IH|done].
Qed.

(** The lines of one object of an array. *)
Lemma obj_step (fs : list field) (pre post : list Node) (b : Node) (st : list nat) (ind : Z)
    (a : ValueArray) (len : Z) :
  fs <> [] -> Forall field_ok fs -> default (ValueArr new_ValueArray) (value b) = ValueArr a ->
  MarkArrStart a = Ok (mkArray (arr a) 0 len) ->
  parse_lines (mkParser (pre ++ b :: post) st (length pre) ind) (obj_lines fs)
  = Ok (mkParser
          (pre ++ mkNode (key b) (Some (ValueArr
             (mkArray (arr a ++ [EObj (seq (S (length pre + length post)) (length fs))])
                (Z.of_nat (length fs)) len)))
             :: post ++ (leaf_node <$> fs)) st (length pre) 2).
Proof.
  intros Hne Hok Hb Hm. unfold obj_lines. cbn [parse_lines]. rewrite parse_dash. unfold parse_dash_line.
  cbn [nodes parent stack]. rewrite deref_mid. cbn [mbind res_bind]. rewrite Hb, Hm.
  cbn [mbind res_bind]. rewrite set_value_mid. cbn [mbind res_bind].
  assert (0 < length fs)%nat as Hlen by (by destruct fs; [|simpl; lia]).
  erewrite (fields_step fs pre post (mkNode (key b) (Some (ValueArr (mkArray (arr a) 0 len)))) st 2);
    [done|done|done|lia|by apply insert_all_arr].
Qed.

(** The objects after the first one. *)
Lemma objs_step (objs : list (list field)) (m : nat) (pre post : list Node) (k : bytes) (st : list nat)
    (es : list element) (len : Z) :
  (0 < m)%nat -> Forall (fun fs => length fs = m /\ Forall field_ok fs) objs ->
  len = -1 \/ len = Z.of_nat m ->
  parse_lines (mkParser (pre ++ mkNode k (Some (ValueArr (mkArray es (Z.of_nat m) len))) :: post)
                 st (length pre) 2) (concat (obj_lines <$> objs))
  = Ok (mkParser
          (pre ++ mkNode k (Some (ValueArr
             (mkArray (es ++ elements (S (length pre + length post)) objs) (Z.of_nat m)
                (if decide (objs = []) then len else Z.of_nat m))))
             :: post ++ (leaf_node <$> concat objs)) st (length pre) 2).
Proof.
  intros Hm Hok. revert es len post. induction Hok as [|fs objs [Hl Hf] Hok IH]; intros es len post Hlen.
  { cbn. by rewrite !app_nil_r. }
  rewrite fmap_cons. cbn [concat]. rewrite parse_lines_app.
  rewrite (obj_step fs pre post _ st 2 (mkArray es (Z.of_nat m) len) (Z.of_nat m)); [|by destruct fs; simpl in Hl; [lia|]|done|done|].
  - cbn [mbind res_bind arr key]. rewrite Hl, IH by auto.
    cbn [elements]. rewrite fmap_app, <- !app_assoc, Hl. cbn [app].
    assert (S (length pre + length (post ++ (leaf_node <$> fs))) = S (length pre + length post) + m)%nat as ->.
    { rewrite length_app, length_fmap. lia. }
    do 8 f_equal. by case_decide.
  - unfold MarkArrStart. cbn [len_of_obj_in_arr curr arr].
    destruct (Z.ltb_spec 0 (Z.of_nat m)); [|lia]. rewrite andb_true_r.
    destruct Hlen as [ -> | -> ]; [done|]. rewrite Z.eqb_refl. by destruct (_ =? -1).
Qed.

(** The parser between two items: [R cs] is the root with children [cs]. *)
Definition R (path : bytes) (cs : list nat) : Node := mkNode path (Some (ValueObj cs)).

Definition ready (path : bytes) (cs : list nat) (body : list Node) (p : parser) : Prop :=
  nodes p = R path cs :: body /\
  (parent p = root /\ stack p = [] /\ last_indents p = 0 \/ stack p = [root] /\ last_indents p = 2).

Lemma ready_unindent (path : bytes) (cs : list nat) (body : list Node) (p : parser) :
  ready path cs body p -> unindent p (0 - last_indents p) = Ok (root, []).
Proof.
  unfold unindent. intros (_ & [(-> & -> & ->)|(-> & ->)]); done.
Qed.

(** The line of a block opens its node. *)
Lemma block_step (path : bytes) (cs : list nat) (body : list Node) (p : parser) (k : bytes) :
  ready path cs body p -> atom_ok k ->
  parse_line p (block_line k)
  = Ok (mkParser ((R path (cs ++ [S (length body)]) :: body) ++ mkNode k None :: []) [root]
          (S (length body)) 0).
Proof.
  intros Hr Hk. pose proof (ready_unindent _ _ _ _ Hr) as Hu. rewrite parse_block by done.
  unfold parse_block_line. rewrite Hu, atom_trim by done. destruct Hr as [Hn Hr]. rewrite Hn.
  cbn [mbind res_bind app].
  pose proof (deref_mid [] (body ++ [mkNode k None]) (R path cs)) as Hd.
  pose proof (set_value_mid [] (body ++ [mkNode k None]) (R path cs)
                (ValueObj (cs ++ [S (length body)]))) as Hs.
  cbn [app length] in Hd, Hs. change root with O. rewrite Hd. cbn [value R mbind res_bind Insert length].
  rewrite Hs. cbn [mbind res_bind].
  destruct (Z.ltb_spec 0 (0 - last_indents p)) as [Hlt|]; [|done].
  destruct Hr as [(_ & _ & E)|(_ & E)]; lia.
Qed.

Lemma item_step (path : bytes) (cs : list nat) (body : list Node) (p : parser) (k : bytes) (it : item) :
  ready path cs body p -> atom_ok k -> item_ok it ->
  exists p', parse_lines p (item_lines k it) = Ok p' /\
    ready path (cs ++ [S (length body)])
      (body ++ mkNode k (Some (item_value (S (length body)) it)) :: item_nodes it) p'.
Proof.
  intros Hr Hk Hit. destruct it as [v|fs|objs]; cbn [item_lines item_value item_nodes].
  - pose proof (ready_unindent _ _ _ _ Hr) as Hu. destruct Hr as [Hn Hr]. cbn [parse_lines].
    rewrite (leaf_step p 0 (k, v) [] body (R path cs) [] (ValueObj (cs ++ [S (length body)])));
      [|lia|done|done|done|by rewrite Hn].
    eexists. split; [done|]. split; [done|]. by left.
  - destruct Hit as [Hne Hok]. cbn [parse_lines]. rewrite (block_step path cs body) by done.
    cbn [mbind res_bind].
    change (S (length body)) with (length (R path (cs ++ [S (length body)]) :: body)) at 2.
    erewrite (fields_step fs _ [] (mkNode k None) [root] 0); [|done|done|lia|apply insert_all_obj].
    eexists. split; [done|]. split; [|by right]. cbn. by rewrite Nat.add_0_r.
  - destruct Hit as (m & Hm & Hne & Hok). destruct objs as [|fs objs]; [done|].
    apply Forall_cons in Hok as [[Hl Hf] Hok]. cbn [parse_lines]. rewrite (block_step path cs body) by done.
    cbn [mbind res_bind]. rewrite fmap_cons. cbn [concat]. rewrite parse_lines_app.
    change (S (length body)) with (length (R path (cs ++ [S (length body)]) :: body)) at 2.
    rewrite (obj_step fs _ [] _ [root] 0 new_ValueArray (-1)); [|by destruct fs; simpl in Hl; [lia|]|done|done|done].
    cbn [mbind res_bind]. rewrite Hl, (objs_step objs m) by auto.
    eexists. split; [done|]. split; [|by right]. unfold array_of. cbn [head fmap option_fmap option_map default from_option id].
    rewrite Hl. cbn. rewrite Nat.add_0_r, length_fmap, fmap_app, Hl. do 8 f_equal.
    by destruct objs.
Qed.

Lemma doc_step (path : bytes) (d : doc) (cs : list nat) (body : list Node) (p : parser) :
  ready path cs body p -> doc_ok d ->
  exists p', parse_lines p (doc_lines d) = Ok p' /\
    ready path (cs ++ doc_places (S (length body)) d) (body ++ doc_nodes (S (length body)) d) p'.
Proof.
  intros Hr Hd. revert cs body p Hr. induction Hd as [|[k it] d [Hk Hit] _ IH]; intros cs body p Hr.
  { exists p. cbn. by rewrite !app_nil_r. }
  destruct (item_step path cs body p k it Hr Hk Hit) as (p1 & E1 & H1).
  destruct (IH _ _ _ H1) as (p2 & E2 & H2). exists p2. split.
  - unfold doc_lines. rewrite fmap_cons. cbn [concat fst snd]. by rewrite parse_lines_app, E1.
  - cbn [doc_places doc_nodes]. rewrite <- !app_assoc, <- app_comm_cons in H2. cbn [app] in H2.
    rewrite length_app in H2. cbn [length] in H2.
    replace (S (length body) + S (length (item_nodes it)))%nat
      with (S (S (length body) + length (item_nodes it))) in H2 by lia.
    replace (length body + S (length (item_nodes it)))%nat
      with (S (length body) + length (item_nodes it))%nat in H2 by lia.
    done.
Qed.

(** *** The text and its lines *)

Definition no_newline (l : bytes) : Prop := Forall (fun c => c <> 10) l.

Lemma getlines_line (cur l rest : bytes) :
  no_newline l -> getlines cur (l ++ 10 :: rest) = (rev cur ++ l) :: getlines [] rest.
Proof.
  intros Hl. revert cur. induction Hl as [|c l Hc _ IH]; intros cur; cbn [app getlines].
  { by rewrite app_nil_r. }
  destruct (Z.eqb_spec c 10); [done|]. rewrite IH. cbn [rev]. by rewrite <- app_assoc.
Qed.

Lemma getlines_render (ls : list bytes) :
  Forall no_newline ls -> getlines [] (concat ((fun l => l ++ [10]) <$> ls)) = ls.
Proof.
  induction 1 as [|l ls Hl _ IH]; [done|]. rewrite fmap_cons. cbn [concat].
  rewrite <- app_assoc. cbn [app]. by rewrite getlines_line, IH.
Qed.

Lemma leaf_line_newline (n : nat) (f : field) : field_ok f -> no_newline (leaf_line n f).
Proof.
  intros [Hk Hv]. unfold no_newline, leaf_line. rewrite !Forall_app.
  split_and!; [by apply pad_no|apply atom_no; auto|by repeat constructor|apply atom_no; auto].
Qed.

Lemma fields_newline (fs : list field) :
  Forall field_ok fs -> Forall no_newline (leaf_line 2 <$> fs).
Proof. intros. apply Forall_fmap. eapply Forall_impl; [done|]. intros f ?. by apply leaf_line_newline. Qed.

Lemma block_line_newline (k : bytes) : atom_ok k -> no_newline (block_line k).
Proof.
  intros. apply Forall_app. split; [apply atom_no; auto|by repeat constructor].
Qed.

Lemma doc_newline (d : doc) : doc_ok d -> Forall no_newline (doc_lines d).
Proof.
  induction 1 as [|[k it] d [Hk Hit] _ IH]; [constructor|].
  unfold doc_lines. rewrite fmap_cons. cbn [concat]. apply Forall_app. split; [|done].
  destruct it as [v|fs|objs]; cbn [item_lines fst snd].
  - constructor; [by apply leaf_line_newline|constructor].
  - destruct Hit. constructor; [by apply block_line_newline|by apply fields_newline].
  - destruct Hit as (m & _ & _ & Hok). constructor; [by apply block_line_newline|].
    clear -Hok. induction Hok as [|fs objs [_ Hf] _ IH]; [constructor|].
    rewrite fmap_cons. cbn [concat]. apply Forall_app. split; [|done].
    constructor; [by repeat constructor|by apply fields_newline].
Qed.

Lemma ParseYaml_render (path : bytes) (d : doc) :
  doc_ok d -> ParseYaml path (render d) = Ok (R path (doc_places 1 d) :: doc_nodes 1 d).
Proof.
  intros Hd. unfold ParseYaml, render. rewrite getlines_render by (by apply doc_newline).
  destruct (doc_step path d [] [] (new_parser path)) as (p & -> & Hn & _); [split; [done|by left]|done|].
  cbn [mbind res_bind]. by rewrite Hn.
Qed.

(** *** Reading the tree *)

Lemma mapM_seq {A} (f : nat -> option A) (n : nat) (l : list A) :
  (forall i x, l !! i = Some x -> f (n + i)%nat = Some x) -> mapM f (seq n (length l)) = Some l.
Proof.
  intros H. apply mapM_Some. apply Forall2_same_length_lookup. split; [by rewrite length_seq|].
  intros i j x Hi Hx. apply lookup_seq in Hi as [-> _]. by apply H.
Qed.

Lemma read_fields (pre post : list Node) (fs : list field) (n : nat) :
  n = length pre ->
  mapM (read_field (pre ++ (leaf_node <$> fs) ++ post)) (seq n (length fs)) = Some fs.
Proof.
  intros ->. apply mapM_seq. intros i f Hf. unfold read_field.
  rewrite lookup_app_r by lia. replace (length pre + i - length pre)%nat with i by lia.
  rewrite lookup_app_l by (rewrite length_fmap; by eapply lookup_lt_Some).
  rewrite list_lookup_fmap, Hf. cbn. by destruct f.
Qed.

Lemma read_elements (objs : list (list field)) (pre post : list Node) (n : nat) :
  n = length pre ->
  mapM (read_element (pre ++ (leaf_node <$> concat objs) ++ post)) (elements n objs) = Some objs.
Proof.
  revert pre n. induction objs as [|fs objs IH]; intros pre n ->; [done|].
  cbn [elements concat mapM]. rewrite fmap_app, <- app_assoc. cbn [read_element].
  rewrite read_fields by done. cbn [mbind option_bind].
  rewrite (app_assoc pre), IH by (by rewrite length_app, length_fmap). done.
Qed.

Lemma read_items (d : doc) (pre : list Node) :
  mapM (read_item (pre ++ doc_nodes (length pre) d)) (doc_places (length pre) d) = Some d.
Proof.
  revert pre. induction d as [|[k it] d IH]; intros pre; [done|].
  cbn [doc_places doc_nodes mapM].
  set (rest := doc_nodes (S (length pre) + length (item_nodes it)) d).
  assert (read_item (pre ++ mkNode k (Some (item_value (length pre) it)) :: item_nodes it ++ rest)
            (length pre) = Some (k, it)) as ->.
  { unfold read_item. rewrite list_lookup_middle by done. cbn [mbind option_bind value key].
    destruct it as [v|fs|objs]; cbn [item_value item_nodes array_of arr]; [done| |].
    - rewrite cons_middle, app_assoc, read_fields; [done|]. rewrite length_app. simpl. lia.
    - rewrite cons_middle, app_assoc, read_elements; [done|]. rewrite length_app. simpl. lia. }
  cbn [mbind option_bind]. specialize (IH (pre ++ mkNode k (Some (item_value (length pre) it)) :: item_nodes it)).
  rewrite length_app in IH. cbn [length] in IH.
  replace (length pre + S (length (item_nodes it)))%nat
    with (S (length pre) + length (item_nodes it))%nat in IH by lia.
  rewrite <- app_assoc, <- app_comm_cons in IH. subst rest. by rewrite IH.
Qed.

Lemma read_doc_nodes (path : bytes) (d : doc) :
  read_doc (R path (doc_places 1 d) :: doc_nodes 1 d) = Some d.
Proof. apply (read_items d [R path (doc_places 1 d)]). Qed.

(** *** The accessors *)

Definition leaf_of (d : doc) (k : bytes) : res bytes :=
  match lookup_item d k with
  | Some (ILeaf v) => Ok v
  | Some _ => Fault (Throw (NotAnYamlLeafException k))
  | None => Fault (Throw (NoSuchFieldException k))
  end.

Fixpoint lookup_field (fs : list field) (k : bytes) : option bytes :=
  match fs with
  | [] => None
  | (k', v) :: fs' => if bool_decide (k' = k) then Some v else lookup_field fs' k
  end.

Definition field_of (fs : list field) (k : bytes) : res (option bytes) :=
  match lookup_field fs k with
  | Some v => Ok (Some v)
  | None => Fault (Throw (NoSuchFieldException k))
  end.

Lemma read_item_get (st : list Node) (i : nat) (k : bytes) (it : item) :
  read_item st i = Some (k, it) ->
  exists n, st !! i = Some n /\ key n = k /\
    match it with
    | ILeaf v => value n = Some (ValueLeaf v)
    | IObj fs => exists l, value n = Some (ValueObj l) /\ mapM (read_field st) l = Some fs
    | IArr objs => exists a, value n = Some (ValueArr a) /\ mapM (read_element st) (arr a) = Some objs
    end.
Proof.
  unfold read_item. intros (n & Hn & H)%bind_Some. exists n. split; [done|].
  destruct (value n) as [[v|l|a]|]; [by simplify_eq| | |done].
  - apply bind_Some in H as (fs & Hfs & H). simplify_eq. eauto.
  - apply bind_Some in H as (objs & Hobjs & H). simplify_eq. eauto.
Qed.

(** [__Get] finds the first item with the key. *)
Lemma get_item (st : list Node) (l : list nat) (d : doc) (k : bytes) :
  mapM (read_item st) l = Some d ->
  match lookup_item d k with
  | Some it => exists i n, read_item st i = Some (k, it) /\ st !! i = Some n /\ __Get st l k = Ok (value n)
  | None => __Get st l k = Fault (Throw (NoSuchFieldException k))
  end.
Proof.
  revert d. induction l as [|i l IH]; intros d H; cbn [mapM] in H.
  { by injection H as <-. }
  apply bind_Some in H as ([k' it] & Hi & H). apply bind_Some in H as (d' & Hd & H). injection H as <-.
  destruct (read_item_get _ _ _ _ Hi) as (n & Hn & Hk & _).
  assert (__Get st (i :: l) k = if bool_decide (k' = k) then Ok (value n) else __Get st l k) as ->.
  { cbn [__Get]. unfold deref. rewrite Hn. cbn [mbind res_bind]. by rewrite Hk. }
  cbn [lookup_item]. case_bool_decide as Ek; [|by apply IH].
  exists i, n. by rewrite <- Ek.
Qed.

Lemma get_field (st : list Node) (l : list nat) (fs : list field) (k : bytes) :
  mapM (read_field st) l = Some fs -> ValueObj_GetLeaf st l k = field_of fs k.
Proof.
  unfold ValueObj_GetLeaf, field_of. revert fs. induction l as [|i l IH]; intros fs H; cbn [mapM] in H.
  { by injection H as <-. }
  apply bind_Some in H as ([k' v] & Hi & H). apply bind_Some in H as (fs' & Hd & H). injection H as <-.
  unfold read_field in Hi. apply bind_Some in Hi as (n & Hn & Hi).
  destruct (value n) as [[x| |]|] eqn:Ev; simplify_eq. cbn [lookup_field __Get]. unfold deref.
  rewrite Hn. cbn [mbind res_bind]. case_bool_decide; [|by apply IH]. by rewrite Ev.
Qed.

Lemma read_doc_root (st : list Node) (d : doc) :
  read_doc st = Some d -> exists l, root_nodes st = Ok l /\ mapM (read_item st) l = Some d.
Proof.
  unfold read_doc, root_nodes, deref. intros (n & Hn & H)%bind_Some. rewrite Hn. cbn [mbind res_bind].
  destruct (value n) as [[|l|]|]; [done|by exists l|done..].
Qed.

Lemma GetLeaf_read (st : list Node) (d : doc) (k : bytes) :
  read_doc st = Some d -> GetLeaf st k = leaf_of d k.
Proof.
  intros Hd. destruct (read_doc_root st d Hd) as (l & Hl & Hm). pose proof (get_item st l d k Hm) as Hg.
  unfold GetLeaf, leaf_of. rewrite Hl. cbn [mbind res_bind].
  destruct (lookup_item d k) as [it|]; [|by rewrite Hg].
  destruct Hg as (i & n & Hi & Hn & ->). cbn [mbind res_bind].
  apply read_item_get in Hi as (n' & Hn' & _ & Hv). simplify_eq.
  destruct it as [v|fs|objs]; [by rewrite Hv|by destruct Hv as (? & -> & _)..].
Qed.

Lemma GetYmlObj_read (st : list Node) (d : doc) (k : bytes) (fs : list field) :
  read_doc st = Some d -> lookup_item d k = Some (IObj fs) ->
  exists l, GetYmlObj st k = Ok l /\ forall k', ValueObj_GetLeaf st l k' = field_of fs k'.
Proof.
  intros Hd Hk. destruct (read_doc_root st d Hd) as (l & Hl & Hm). pose proof (get_item st l d k Hm) as Hg.
  unfold GetYmlObj. rewrite Hl. cbn [mbind res_bind]. rewrite Hk in Hg.
  destruct Hg as (i & n & Hi & Hn & ->). cbn [mbind res_bind].
  apply read_item_get in Hi as (n' & Hn' & _ & o & Hv & Ho). simplify_eq. rewrite Hv.
  exists o. split; [done|]. intros k'. by apply get_field.
Qed.

Lemma GetArray_read (st : list Node) (d : doc) (k : bytes) (objs : list (list field)) :
  read_doc st = Some d -> lookup_item d k = Some (IArr objs) ->
  exists a, GetArray st k = Ok a /\ mapM (read_element st) (arr a) = Some objs.
Proof.
  intros Hd Hk. destruct (read_doc_root st d Hd) as (l & Hl & Hm). pose proof (get_item st l d k Hm) as Hg.
  unfold GetArray. rewrite Hl. cbn [mbind res_bind]. rewrite Hk in Hg.
  destruct Hg as (i & n & Hi & Hn & ->). cbn [mbind res_bind].
  apply read_item_get in Hi as (n' & Hn' & _ & a & Hv & Ha). simplify_eq. rewrite Hv. eauto.
Qed.

(** The array node of a parsed document. *)
Lemma nodes_item (d : doc) (pre : list Node) (k : bytes) (it : item) :
  lookup_item d k = Some it ->
  exists n, __Get (pre ++ doc_nodes (length pre) d) (doc_places (length pre) d) k
            = Ok (Some (item_value n it)).
Proof.
  revert pre. induction d as [|[k' it'] d IH]; intros pre Hk; [done|].
  cbn [lookup_item doc_nodes doc_places __Get] in *. unfold deref at 1.
  rewrite list_lookup_middle by done. cbn [mbind res_bind key]. case_bool_decide; [simplify_eq; eauto|].
  destruct (IH (pre ++ mkNode k' (Some (item_value (length pre) it')) :: item_nodes it') Hk) as [n Hn].
  exists n. rewrite length_app in Hn. cbn [length] in Hn.
  replace (length pre + S (length (item_nodes it')))%nat
    with (S (length pre) + length (item_nodes it'))%nat in Hn by lia.
  by rewrite <- app_assoc, <- app_comm_cons in Hn.
Qed.

Lemma array_parsed (path : bytes) (d : doc) (k : bytes) (fs : list field) (objs : list (list field)) :
  lookup_item d k = Some (IArr (fs :: objs)) ->
  exists a, GetArray (R path (doc_places 1 d) :: doc_nodes 1 d) k = Ok a /\
    AsYmlObjects a = if decide (objs <> [] /\ (2 <= length fs)%nat) then Ok (arr a) else Fault AssertFailed.
Proof.
  intros Hk. destruct (nodes_item d [R path (doc_places 1 d)] k _ Hk) as [n Hn]. cbn [app length] in Hn.
  unfold GetArray, root_nodes, deref. cbn [lookup list_lookup root mbind res_bind value R]. rewrite Hn.
  cbn [mbind res_bind item_value]. eexists. split; [done|].
  unfold AsYmlObjects, array_of. cbn [len_of_obj_in_arr arr head fmap option_fmap option_map default from_option id length].
  destruct objs as [|fs' objs]; cbn [length Nat.ltb Nat.leb].
  - rewrite decide_False by naive_solver. done.
  - destruct (Z.ltb_spec 1 (Z.of_nat (length fs))); cbn [assert_ mbind res_bind].
    + rewrite decide_True; [done|]. split; [done|lia].
    + rewrite decide_False; [done|]. intros []. lia.
Qed.

Lemma doc_ready (path : bytes) (d : doc) :
  doc_ok d -> exists p cs body, parse_lines (new_parser path) (doc_lines d) = Ok p /\ ready path cs body p.
Proof.
  intros Hd. destruct (doc_step path d [] [] (new_parser path)) as (p & E & Hr); [split; [done|by left]|done|].
  eauto.
Qed.

(** An indented block line right after the line of its block. *)
Lemma nested_block (ns : list Node) (st : list nat) (k1 k2 : bytes) :
  atom_ok k2 ->
  parse_line (mkParser (ns ++ [mkNode k1 None]) st (length ns) 0) (pad 2 ++ block_line k2) = Fault Undefined.
Proof.
  intros Hk. pose proof Hk as (Hne & _ & Hh & _). unfold block_line.
  assert (indents_of (pad 2 ++ k2 ++ [colon]) = 2) as Hi.
  { apply (indents_pad 2); [lia|by destruct k2|by destruct k2]. }
  rewrite (parse_line_split _ _ [pad 2 ++ k2]), Hi.
  - pose proof (find_sub_sep [colon] (pad 2 ++ k2) []) as Hf. rewrite app_nil_r, <- app_assoc in Hf.
    unfold string_find. cbn [Nat.leb]. rewrite drop_0, Hf; [|done|apply StrUtil.border_free_1|].
    + cbn [fmap option_fmap option_map last_indents]. unfold parse_block_line, unindent.
      cbn [last_indents stack parent nodes]. change (2 - 0 <? 0) with false. cbn [mbind res_bind].
      unfold deref. rewrite <- app_assoc. cbn [app]. by rewrite list_lookup_middle.
    + apply not_occurs_1, Forall_app. split; [by apply pad_no|apply atom_no; auto].
  - done.
  - rewrite !Forall_app. split_and!; [by apply pad_no|apply atom_no; auto|by repeat constructor].
  - rewrite app_assoc. apply split_colon_1; [done|]. apply Forall_app.
    split; [by apply pad_no|apply atom_no; auto].
Qed.

(** A line with nothing but a comment after spaces. *)
Lemma comment_line (p : parser) (n : nat) (comment : bytes) :
  (0 < n)%nat -> parse_line p (pad n ++ 35 :: comment) = Fault AssertFailed.
Proof.
  intros Hn. unfold parse_line.
  assert (StrUtil.delafter (pad n ++ 35 :: comment) 35 = pad n) as ->.
  { unfold StrUtil.delafter. rewrite find_if_skip; [by rewrite take_app_length| |done].
    by apply Forall_replicate. }
  destruct n as [|n]; [lia|]. cbn [pad replicate]. change (32 :: replicate n 32) with (pad (S n)).
  rewrite StrUtil.split_no_sep; [|done|apply StrUtil.border_free_1|by apply not_occurs_1, pad_no].
  cbn [mbind res_bind]. rewrite bool_decide_false; [done|].
  unfold StrUtil.trim. cbn [pad replicate]. change (32 :: replicate n 32) with (pad (S n)).
  by rewrite find_if_none by apply pad_spaces.
Qed.

(** What follows the text of a document. *)
Lemma parse_after (path : bytes) (d : doc) (ls : list bytes) (f : fault) :
  doc_ok d -> Forall no_newline ls ->
  (forall cs body p, ready path cs body p -> parse_lines p ls = Fault f) ->
  ParseYaml path (render d ++ concat ((fun l => l ++ [10]) <$> ls)) = Fault f.
Proof.
  intros Hd Hls H. unfold ParseYaml, render. rewrite <- concat_app, <- fmap_app, getlines_render.
  - rewrite parse_lines_app. destruct (doc_ready path d Hd) as (p & cs & body & -> & Hr).
    cbn [mbind res_bind]. by rewrite (H cs body).
  - apply Forall_app. split; [by apply doc_newline|done].
Qed.

(** ** Properties *)

(** C32: parsing the text of a configuration document (leaves, objects of leaves and arrays of
    objects of leaves, the shape of the shipped files) succeeds, and the tree the parser builds is
    that document: every key, every value and every array element, in order. *)
Theorem yaml_render_parse (path : bytes) (d : doc) (Hd : doc_ok d) :
  exists st, ParseYaml path (render d) = Ok st /\ read_doc st = Some d.
Proof.
  eexists. split; [by apply ParseYaml_render|]. apply read_doc_nodes.
Qed.

(** On the tree of a document the accessors find the first item with the key: [GetLeaf] returns
    its value or throws that the key is missing or is not a leaf; [GetYmlObj] returns an object whose
    own [GetLeaf] finds its fields; [GetArray] returns the array of the objects. *)
Theorem yaml_getters (st : list Node) (d : doc) (k : bytes) (Hd : read_doc st = Some d) :
  GetLeaf st k = leaf_of d k /\
  (forall fs, lookup_item d k = Some (IObj fs) ->
     exists l, GetYmlObj st k = Ok l /\ forall k', ValueObj_GetLeaf st l k' = field_of fs k') /\
  (forall objs, lookup_item d k = Some (IArr objs) ->
     exists a, GetArray st k = Ok a /\ mapM (read_element st) (arr a) = Some objs).
Proof.
  split_and!; [by apply GetLeaf_read|intros fs; by apply GetYmlObj_read|intros objs; by apply GetArray_read].
Qed.

Definition demo_server (port : string) : list field :=
  [(str "ip", str "127.0.0.1"); (str "port", str port); (str "weight", str "1")].

Definition demo_doc : doc :=
  [(str "port", ILeaf (str "80"));
   (str "reverse_proxy", IObj [(str "ip", str "127.0.0.1"); (str "send_heartbeat", str "true")]);
   (str "webservers", IArr [demo_server "5002"; demo_server "5003"]);
   (str "load_balance_rule", ILeaf (str "poll"))].

Lemma demo_doc_ok : doc_ok demo_doc.
Proof.
  repeat constructor; cbn [fst snd item_ok]; try (apply (bool_decide_unpack _); vm_compute; exact I).
  exists 3%nat. split; [lia|]. apply (bool_decide_unpack _). vm_compute. exact I.
Qed.

Lemma yaml_render_parse_witness :
  exists st, ParseYaml (str "p.yml") (render demo_doc) = Ok st /\ read_doc st = Some demo_doc.
Proof. apply (yaml_render_parse (str "p.yml") demo_doc). apply demo_doc_ok. Defined.

Definition demo_tree : list Node := R (str "p.yml") (doc_places 1 demo_doc) :: doc_nodes 1 demo_doc.

Lemma yaml_getters_witness :
  GetLeaf demo_tree (str "webservers") = Fault (Throw (NotAnYamlLeafException (str "webservers"))) /\
  GetLeaf demo_tree (str "load_balance_rule") = Ok (str "poll").
Proof.
  split; apply (yaml_getters demo_tree demo_doc); vm_compute; reflexivity.
Defined.

(** The objects of an array are accessible exactly when the array has at least two objects of
    at least two fields: [AsYmlObjects] fails its assertion on an array with a single object, because
    the length is recorded only when a second object starts. *)
Theorem yaml_array_objects (path : bytes) (d : doc) (k : bytes) (fs : list field) (objs : list (list field))
    (Hd : doc_ok d) (Hk : lookup_item d k = Some (IArr (fs :: objs))) :
  exists st a, ParseYaml path (render d) = Ok st /\ GetArray st k = Ok a /\
    AsYmlObjects a = if decide (objs <> [] /\ (2 <= length fs)%nat) then Ok (arr a) else Fault AssertFailed.
Proof.
  destruct (array_parsed path d k fs objs Hk) as (a & Ha & Hobjs).
  eexists _, a. split; [by apply ParseYaml_render|done].
Qed.

Lemma yaml_array_objects_witness :
  exists st a, ParseYaml (str "p.yml") (render demo_doc) = Ok st /\
    GetArray st (str "webservers") = Ok a /\ AsYmlObjects a = Ok (arr a).
Proof.
  refine (yaml_array_objects (str "p.yml") demo_doc (str "webservers") (demo_server "5002")
            [demo_server "5003"] demo_doc_ok _). vm_compute. reflexivity.
Defined.

(** Two inputs that YAML allows stop the process. An object whose first entry is itself an object
    dereferences a null pointer, and a line that holds only an indented comment fails an assertion,
    wherever in the file it stands. *)
Theorem yaml_rejected_inputs (path : bytes) (d : doc) (k1 k2 comment : bytes) (rest : list bytes) (n : nat)
    (Hd : doc_ok d) (H1 : atom_ok k1) (H2 : atom_ok k2) (Hn : (0 < n)%nat)
    (Hc : no_newline comment) (Hr : Forall no_newline rest) :
  ParseYaml path (render d ++ concat ((fun l => l ++ [10]) <$>
    block_line k1 :: (pad 2 ++ block_line k2) :: rest)) = Fault Undefined /\
  ParseYaml path (render d ++ concat ((fun l => l ++ [10]) <$>
    (pad n ++ 35 :: comment) :: rest)) = Fault AssertFailed.
Proof.
  split; (apply parse_after; [done| |]).
  - constructor; [by apply block_line_newline|]. constructor; [|done].
    apply Forall_app. split; [by apply pad_no|by apply block_line_newline].
  - intros cs body p Hp. cbn [parse_lines]. rewrite (block_step path cs body) by done.
    cbn [mbind res_bind]. by rewrite nested_block.
  - constructor; [|done]. apply Forall_app. split; [by apply pad_no|by constructor].
  - intros cs body p _. cbn [parse_lines]. by rewrite comment_line.
Qed.

Lemma yaml_rejected_inputs_witness :
  ParseYaml (str "p.yml") (render demo_doc ++ concat ((fun l => l ++ [10]) <$>
    [block_line (str "aaa"); pad 2 ++ block_line (str "ccc"); str "    ddd: 1"])) = Fault Undefined /\
  ParseYaml (str "p.yml") (render demo_doc ++ concat ((fun l => l ++ [10]) <$>
    [pad 2 ++ 35 :: str " note"; str "    ddd: 1"])) = Fault AssertFailed.
Proof.
  refine (yaml_rejected_inputs (str "p.yml") demo_doc (str "aaa") (str "ccc") (str " note") [str "    ddd: 1"] 2
            demo_doc_ok _ _ _ _ _);
    try (apply (bool_decide_unpack _); vm_compute; exact I); lia.
Defined.

(** The sample file in the comment of utils/yamlutil.h: it indents by four blanks, the parser leaves
    one enclosing node for every two, and the assertion that the stack is not empty fails. The same
    file with two blanks is read. *)
Example yaml_sample_rejected :
  let file indent := concat ((fun l => l ++ [10]) <$>
    [str "port: 80"; str "net_thread_cnt: 4"; str "xxx:"; indent ++ str "yyy: 123"; indent ++ str "zzz: 456";
     str "webservers:"; indent ++ str "-"; indent ++ str "ip: 127.0.0.1"; indent ++ str "port: 5002";
     indent ++ str "weight: 1"; indent ++ str "-"; indent ++ str "ip: 127.0.0.1"; indent ++ str "port: 5003";
     indent ++ str "weight: 2"]) in
  ParseYaml [] (file (str "    ")) = Fault AssertFailed /\
  exists st, ParseYaml [] (file (str "  ")) = Ok st.
Proof. split; vm_compute; [reflexivity|by eexists]. Qed.

End YamlTheory.
