(* ===== verification/YamlMemory.v ===== *)
(** * Ownership in the configuration tree (utils/yamlutil.cc)

    The destructors of the nodes and values, [Close] and [PrintNode]. The parser
    keeps bare pointers to nodes in the tree, in [parent] and in its stack, and
    the destructors delete along the tree: that this releases every node exactly
    once is a property of the trees [ParseYaml] builds, for any file. *)
From Stdlib Require Import Permutation.
From stdpp Require Import gmap.
From S2P Require Import Prelude CLib StrUtil YamlUtil.

Module YamlMemory.
Import YamlUtil.

(** ** Definitions *)

(** The nodes in memory: [None] is the place of a node that was deleted. *)
Abbreviation heap := (list (option Node)).

(** The access through a [Node *]. *)
Definition deref_heap (h : heap) (p : nat) : res Node :=
  match h !! p with
  | Some (Some n) => Ok n
  | Some None => Fault Dangling
  | None => Fault Undefined
  end.

(** [for (auto & node : nodes) delete node] *)
Fixpoint delete_nodes (delete : heap -> nat -> res heap) (h : heap) (l : list nat) : res heap :=
  match l with
  | [] => Ok h
  | p :: l => h ← delete h p; delete_nodes delete h l
  end.

(** [~ValueObj] and [~ValueLeaf] of the elements of an array. *)
Definition delete_element (delete : heap -> nat -> res heap) (h : heap) (e : element) : res heap :=
  match e with
  | EObj l => delete_nodes delete h l
  | ELeaf _ => Ok h
  end.

Fixpoint delete_elements (delete : heap -> nat -> res heap) (h : heap) (es : list element) : res heap :=
  match es with
  | [] => Ok h
  | e :: es => h ← delete_element delete h e; delete_elements delete h es
  end.

(** The virtual destructor of a value. *)
Definition delete_value (delete : heap -> nat -> res heap) (h : heap) (v : AbsValue) : res heap :=
  match v with
  | ValueLeaf _ => Ok h
  | ValueObj l => delete_nodes delete h l
  | ValueArr a => delete_elements delete h (arr a)
  end.

(** [delete node]: [~Node], then the memory is released. *)
Fixpoint delete_Node (fuel : nat) (h : heap) (p : nat) : res heap :=
  match fuel with
  | O => Fault Hang
  | S fuel =>
      n ← deref_heap h p;
      h ← match value n with
          | None => Ok h
          | Some v => delete_value (delete_Node fuel) h v
          end;
      Ok (<[p := None]> h)
  end.

(** A line of the debugging output. *)
Inductive log_line := LogKey (k : bytes) | LogValue (v : bytes).

Fixpoint print_nodes (print : nat -> res (list log_line)) (l : list nat) : res (list log_line) :=
  match l with
  | [] => Ok []
  | p :: l => a ← print p; b ← print_nodes print l; Ok (a ++ b)
  end.

Fixpoint print_elements (print : nat -> res (list log_line)) (es : list element) : res (list log_line) :=
  match es with
  | [] => Ok []
  | e :: es =>
      a ← match e with
          | ELeaf d => Ok [LogValue d]
          | EObj l => print_nodes print l
          end;
      b ← print_elements print es;
      Ok (a ++ b)
  end.

(** [PrintNode]; a node whose value is null is dereferenced. *)
Fixpoint PrintNode (fuel : nat) (st : list Node) (p : nat) : res (list log_line) :=
  match fuel with
  | O => Fault Hang
  | S fuel =>
      n ← deref st p;
      ls ← match value n with
           | None => Fault Undefined
           | Some (ValueLeaf d) => Ok [LogValue d]
           | Some (ValueObj l) => print_nodes (PrintNode fuel st) l
           | Some (ValueArr a) => print_elements (PrintNode fuel st) (arr a)
           end;
      Ok (LogKey (key n) :: ls)
  end.

(** [PrintYamlTree] of a descriptor; its depth is below the number of its nodes. *)
Definition PrintYamlTree (st : list Node) : res (list log_line) := PrintNode (length st) st root.

(** *** Descriptors in memory *)

(** A descriptor: the memory of its tree, and the [FILE] opened by [Load]. *)
Record descriptor := mkDescriptor { tree : heap; fp : nat }.

(** [sg_yaml_cache] holds addresses; the descriptors that exist, the files that
    are open. *)
Record yaml_world := mkWorld {
  sg_yaml_cache : list nat;
  descs : gmap nat descriptor;
  open_files : list nat
}.

(** [_desc->...] *)
Definition deref_desc (w : yaml_world) (d : nat) : res descriptor :=
  match descs w !! d with Some x => Ok x | None => Fault Dangling end.

(** The [for] of [Load] over the cache. *)
Fixpoint find_cached (w : yaml_world) (cache : list nat) (path : bytes) : res (option nat) :=
  match cache with
  | [] => Ok None
  | d :: cache =>
      x ← deref_desc w d;
      n ← deref_heap (tree x) root;
      if bool_decide (key n = path) then Ok (Some d) else find_cached w cache path
  end.

(** [Load]; [file] is what [fopen] finds, with the address of the [FILE]; [addr]
    is the address [new YamlDescriptor] returns. *)
Definition Load (w : yaml_world) (path : bytes) (file : option (bytes * nat)) (addr : nat)
    : res (option nat * yaml_world) :=
  hit ← find_cached w (sg_yaml_cache w) path;
  match hit with
  | Some d => Ok (Some d, w)
  | None =>
      match file with
      | Some (content, f) =>
          st ← ParseYaml path content;
          Ok (Some addr,
              mkWorld (if (length (sg_yaml_cache w) <? 10)%nat then sg_yaml_cache w ++ [addr] else sg_yaml_cache w)
                (<[addr := mkDescriptor (Some <$> st) f]> (descs w)) (f :: open_files w))
      | None => Ok (None, w)
      end
  end.

(** [fclose] *)
Definition fclose (files : list nat) (f : nat) : res (list nat) :=
  if decide (f ∈ files) then Ok (filter (fun g => g <> f) files) else Fault Dangling.

(** [Close]: erase from the cache, [fclose], [delete]; first, what remains of the
    memory of the tree. *)
Definition Close (w : yaml_world) (d : nat) : res (heap * yaml_world) :=
  let cache := filter (fun d' => d' <> d) (sg_yaml_cache w) in
  x ← deref_desc w d;
  files ← fclose (open_files w) (fp x);
  h ← delete_Node (length (tree x)) (tree x) root;
  Ok (h, mkWorld cache (delete d (descs w)) files).

(** [GetLeaf(...)->To(...)] on an object of the tree: a null leaf is dereferenced. *)
Definition obj_leaf (st : list Node) (l : list nat) (k : bytes) : res bytes :=
  o ← ValueObj_GetLeaf st l k;
  match o with Some d => Ok d | None => Fault Undefined end.

(** The loop of [UnitTest] over the objects of an array; a leaf taken as an object
    is a bad cast. *)
Fixpoint unit_test_servers (st : list Node) (es : list element) : res (list (bytes * Z * Z)) :=
  match es with
  | [] => Ok []
  | EObj l :: es =>
      ip ← obj_leaf st l (str "ip");
      port ← obj_leaf st l (str "port");
      weight ← obj_leaf st l (str "weight");
      rest ← unit_test_servers st es;
      Ok (((To_string ip).2, (To_uint16 port).2, (To_uint16 weight).2) :: rest)
  | ELeaf _ :: _ => Fault Undefined
  end.

(** [UnitTest] between [Load] and [Close]: what it logs. *)
Definition UnitTest (st : list Node) : res (list (bytes * Z * Z) * bytes) :=
  a ← GetArray st (str "webservers");
  es ← AsYmlObjects a;
  servers ← unit_test_servers st es;
  aaa ← GetYmlObj st (str "aaa");
  _ ← ValueObj_GetYmlObj st aaa (str "oops");
  aaa ← GetYmlObj st (str "aaa");
  ccc ← ValueObj_GetYmlObj st aaa (str "ccc");
  match ccc with
  | Some ccc => ddd ← obj_leaf st ccc (str "ddd"); Ok (servers, (To_string ddd).2)
  | None => Fault Undefined
  end.

(** ** Lemmas *)

(** *** The tree as a relation between places *)

Definition element_children (e : element) : list nat :=
  match e with EObj l => l | ELeaf _ => [] end.

Definition value_children (v : AbsValue) : list nat :=
  match v with
  | ValueLeaf _ => []
  | ValueObj l => l
  | ValueArr a => arr a ≫= element_children
  end.

Definition node_children (n : Node) : list nat := from_option value_children [] (value n).

Definition children (st : list Node) (p : nat) : list nat := from_option node_children [] (st !! p).

(** The subtree below a place, in the order in which [PrintNode] visits it. *)
Fixpoint subtree (fuel : nat) (st : list Node) (p : nat) : list nat :=
  match fuel with
  | O => []
  | S fuel => p :: (children st p ≫= subtree fuel st)
  end.

(** Every node but the root is the child of one node, which was created before. *)
Record owned (st : list Node) : Prop := {
  ow_root : st <> [];
  ow_all : seq 1 (length st - 1) ≡ₚ st ≫= node_children;
  ow_order : forall p c, c ∈ children st p -> (p < c)%nat
}.

(** *** The parser keeps the ownership *)

Lemma elements_snoc (es : list element) (l : list nat) (x : nat) :
  last es = Some (EObj l) ->
  (removelast es ++ [EObj (l ++ [x])]) ≫= element_children = (es ≫= element_children) ++ [x].
Proof.
  intros Hl. apply last_Some in Hl as (es' & ->).
  rewrite removelast_last, !bind_app. cbn. by rewrite !app_nil_r, app_assoc.
Qed.

Lemma Insert_children (v v' : AbsValue) (x : nat) :
  Insert v x = Ok v' -> value_children v' = value_children v ++ [x].
Proof.
  destruct v as [d|l|a]; cbn; [done|by intros [= <-]|]. unfold ValueArray_Insert. intros H. res_inv.
  cbn. destruct (curr a =? 0); [res_inv; by rewrite bind_app|].
  destruct (last (arr a)) as [[l|d]|] eqn:E; try done. res_inv. by apply elements_snoc.
Qed.

Lemma bind_insert (ns : list Node) (p : nat) (n n' : Node) (x : nat) :
  ns !! p = Some n -> node_children n' = node_children n ++ [x] ->
  <[p := n']> ns ≫= node_children ≡ₚ x :: (ns ≫= node_children).
Proof.
  intros Hp Hc. rewrite <- (take_drop_middle ns p n) at 2 by done.
  rewrite insert_take_drop by by eapply lookup_lt_Some. rewrite !bind_app. cbn. rewrite Hc.
  rewrite <- (app_assoc _ [x]). symmetry. rewrite !(app_assoc _ (node_children n)). apply Permutation_middle.
Qed.

Lemma children_lookup (st : list Node) (p : nat) (n : Node) : st !! p = Some n -> children st p = node_children n.
Proof. unfold children. by intros ->. Qed.

(** A new node below an existing one. *)
Lemma owned_new (st : list Node) (p : nat) (n new : Node) (v' : AbsValue) :
  owned st -> st !! p = Some n -> node_children new = [] ->
  value_children v' = node_children n ++ [length st] ->
  owned (<[p := mkNode (key n) (Some v')]> (st ++ [new])).
Proof.
  intros [Hr Ha Ho] Hp Hnew Hv. assert (Hlt : (p < length st)%nat) by by eapply lookup_lt_Some.
  assert (Hp' : (st ++ [new]) !! p = Some n) by by apply lookup_app_l_Some.
  split.
  - intros E%(f_equal length). rewrite length_insert, length_app in E. cbn in E. lia.
  - rewrite length_insert, length_app. cbn.
    rewrite (bind_insert _ _ n _ (length st)) by done.
    rewrite bind_app. cbn. rewrite Hnew, !app_nil_r, <- Ha.
    replace (length st + 1 - 1)%nat with (length st - 1 + 1)%nat by lia.
    rewrite seq_app. cbn. replace (S (length st - 1)) with (length st) by lia.
    symmetry. apply Permutation_cons_append.
  - intros q c. unfold children. destruct (decide (q = p)) as [->|Hq].
    + rewrite list_lookup_insert_eq by by rewrite length_app; cbn; lia. cbn.
      rewrite Hv, elem_of_app, list_elem_of_singleton. intros [Hc| ->]; [|done].
      apply Ho. by rewrite (children_lookup _ _ n).
    + rewrite list_lookup_insert_ne by done.
      destruct (decide (q < length st)%nat).
      * rewrite lookup_app_l by done. apply Ho.
      * rewrite lookup_app_r by lia. destruct (q - length st)%nat; cbn; [rewrite Hnew|]; by intros ?%elem_of_nil.
Qed.

Lemma bind_concat {A B} (f : A -> list B) (l : list A) : l ≫= f = concat (f <$> l).
Proof. induction l as [|x l IH]; cbn; [done|]. by rewrite <- IH. Qed.

(** A value that gains no node. *)
Lemma owned_same (st : list Node) (p : nat) (n : Node) (v' : AbsValue) :
  owned st -> st !! p = Some n -> value_children v' = node_children n ->
  owned (<[p := mkNode (key n) (Some v')]> st).
Proof.
  intros [Hr Ha Ho] Hp Hv. assert (Hlt : (p < length st)%nat) by by eapply lookup_lt_Some.
  assert (E : node_children <$> <[p := mkNode (key n) (Some v')]> st = node_children <$> st).
  { rewrite list_fmap_insert. apply list_insert_id. rewrite list_lookup_fmap, Hp. cbn. by rewrite <- Hv. }
  split.
  - intros F%(f_equal length). rewrite length_insert in F. cbn in F. lia.
  - rewrite length_insert. rewrite Ha, !bind_concat. by rewrite E.
  - intros q c. unfold children. intros Hc. apply Ho. unfold children. revert Hc.
    apply (f_equal (.!! q)) in E. rewrite !list_lookup_fmap in E.
    destruct (_ !! q), (st !! q); cbn in *; congruence.
Qed.

(** What the parser keeps: the tree is owned, and the pointers of the parser are
    to nodes of it. *)
Record parser_ok (p : parser) : Prop := {
  po_owned : owned (nodes p);
  po_parent : (parent p < length (nodes p))%nat;
  po_stack : Forall (fun q => (q < length (nodes p))%nat) (stack p)
}.

Lemma new_parser_ok (path : bytes) : parser_ok (new_parser path).
Proof.
  split; [|cbn; unfold root; lia|constructor]. split; [done|done|].
  intros [|p] c; cbn; by intros ?%elem_of_nil.
Qed.

Lemma pop_loop_ok (P : nat -> Prop) (fuel : nat) (st st' : list nat) (par par' : option nat) (d : Z) :
  Forall P st -> (forall q, par = Some q -> P q) -> pop_loop fuel st par d = Ok (par', st') ->
  Forall P st' /\ forall q, par' = Some q -> P q.
Proof.
  revert st par d. induction fuel as [|fuel IH]; intros st par d Hs Hp; cbn;
    (destruct (d <? 0); [|by intros [= <- <-]]); [done|].
  destruct st as [|q st]; [done|]. intros H. apply Forall_cons in Hs as [Hq Hs].
  eapply IH; [done| |done]. naive_solver.
Qed.

Lemma unindent_ok (p : parser) (d : Z) (par : nat) (st : list nat) :
  parser_ok p -> unindent p d = Ok (par, st) ->
  (par < length (nodes p))%nat /\ Forall (fun q => (q < length (nodes p))%nat) st.
Proof.
  intros [_ Hp Hs]. unfold unindent, GetParentNodeByIndentDiff. destruct (d <? 0); [|by intros [= <- <-]].
  intros H. res_inv. destruct a0 as [[q|] st0]; [|done]. res_inv.
  apply (pop_loop_ok (fun q => (q < length (nodes p))%nat)) in E0 as [Hst Hq]; naive_solver.
Qed.

Lemma deref_Ok (st : list Node) (p : nat) (n : Node) : deref st p = Ok n <-> st !! p = Some n.
Proof. unfold deref. destruct (st !! p); naive_solver. Qed.

Lemma set_value_Ok (st st' : list Node) (p : nat) (v : AbsValue) :
  set_value st p v = Ok st' <-> exists n, st !! p = Some n /\ st' = <[p := mkNode (key n) (Some v)]> st.
Proof.
  unfold set_value. rewrite bind_Ok. setoid_rewrite deref_Ok. naive_solver.
Qed.

(** A node inserted below a node of the tree. *)
Lemma inserted (p : parser) (par : nat) (new pn : Node) (v v' : AbsValue) (ns : list Node) :
  parser_ok p -> (par < length (nodes p))%nat -> node_children new = [] ->
  deref (nodes p ++ [new]) par = Ok pn -> node_children pn = value_children v ->
  Insert v (length (nodes p)) = Ok v' -> set_value (nodes p ++ [new]) par v' = Ok ns ->
  owned ns /\ length ns = S (length (nodes p)).
Proof.
  intros [Ho _ _] Hpar Hnew Hd Hc Hi%Insert_children Hs.
  apply deref_Ok in Hd. apply set_value_Ok in Hs as (n & Hn & ->). rewrite Hd in Hn. injection Hn as <-.
  split; [|rewrite length_insert, length_app; cbn; lia].
  rewrite lookup_app_l in Hd by done. eapply owned_new; [done..|]. by rewrite Hi, Hc.
Qed.

Lemma parse_leaf_ok (p p' : parser) (i d : Z) (f0 f1 : bytes) :
  parser_ok p -> parse_leaf_line p i d f0 f1 = Ok p' -> parser_ok p'.
Proof.
  intros Hok H. unfold parse_leaf_line in H. res_inv. destruct a as [par st]. cbv zeta in H. res_inv.
  apply (unindent_ok p) in E as [Hpar Hst]; [|done].
  eapply inserted in E2 as [Ho Hl]; [|done..| |done]; [|unfold node_children; by destruct (value a)].
  split; cbn; [done|lia|]. eapply Forall_impl; [done|]. cbn. lia.
Qed.

Lemma parse_block_ok (p p' : parser) (i d : Z) (f0 : bytes) :
  parser_ok p -> parse_block_line p i d f0 = Ok p' -> parser_ok p'.
Proof.
  intros Hok H. unfold parse_block_line in H. cbv zeta in H. res_inv. destruct a as [par st]. res_inv.
  destruct (value a) as [v|] eqn:Ev; [|done]. res_inv.
  apply (unindent_ok p) in E as [Hpar Hst]; [|done].
  eapply inserted in E2 as [Ho Hl]; [|done..| |done]; [|unfold node_children; by rewrite Ev].
  split; cbn; [done|lia|]. constructor; [lia|]. eapply Forall_impl; [done|]. cbn. lia.
Qed.

(** An array that gains no node. *)
Lemma updated (p : parser) (n : Node) (a : ValueArray) (i : Z) (ns : list Node) :
  parser_ok p -> deref (nodes p) (parent p) = Ok n -> arr a ≫= element_children = node_children n ->
  set_value (nodes p) (parent p) (ValueArr a) = Ok ns -> parser_ok (mkParser ns (stack p) (parent p) i).
Proof.
  intros [Ho Hp Hs] Hd%deref_Ok Hc (n' & Hn & ->)%set_value_Ok. rewrite Hd in Hn. injection Hn as <-.
  split; cbn; rewrite ?length_insert; [|done|done]. by apply owned_same.
Qed.

Lemma parse_element_ok (p p' : parser) (i : Z) (f0 : bytes) :
  parser_ok p -> parse_element_line p i f0 = Ok p' -> parser_ok p'.
Proof.
  intros Hok H. unfold parse_element_line in H. res_inv. destruct (value a) as [[| |r]|] eqn:Ev; try done.
  unfold InsertValueLeaf in H. res_inv. eapply updated; [done|done| |done].
  cbn. unfold node_children. rewrite Ev, bind_app. cbn. by rewrite app_nil_r.
Qed.

Lemma parse_dash_ok (p p' : parser) (i : Z) :
  parser_ok p -> parse_dash_line p i = Ok p' -> parser_ok p'.
Proof.
  intros Hok H. unfold parse_dash_line in H. res_inv.
  destruct (default _ (value a)) as [| |r] eqn:Ev; try done. res_inv. eapply updated; [done|done| |done].
  assert (arr a0 = arr r) as ->.
  { unfold MarkArrStart in E0. repeat case_match; res_inv; done. }
  unfold node_children. destruct (value a); cbn in *; [by subst|by injection Ev as <-].
Qed.

Lemma parse_line_ok (p p' : parser) (raw : bytes) : parser_ok p -> parse_line p raw = Ok p' -> parser_ok p'.
Proof.
  intros Hok. unfold parse_line. destruct (StrUtil.delafter raw 35) as [|c line]; [by intros [= <-]|].
  intros H. res_inv. cbv zeta in H.
  destruct a as [|f0 [|f1 [|f2 rest]]]; [| | |];
    repeat match type of H with context [match ?x with _ => _ end] => destruct x end;
    eauto using parse_leaf_ok, parse_block_ok, parse_element_ok, parse_dash_ok; done.
Qed.

Lemma yaml_lines_ok (lines : list bytes) (p p' : parser) :
  parser_ok p -> parse_lines p lines = Ok p' -> parser_ok p'.
Proof.
  revert p. induction lines as [|l lines IH]; intros p Hok H; cbn in H; [by injection H as <-|].
  res_inv. eauto using parse_line_ok.
Qed.

Lemma ParseYaml_owned (path file : bytes) (st : list Node) : ParseYaml path file = Ok st -> owned st.
Proof.
  unfold ParseYaml. intros H. res_inv. eapply po_owned, yaml_lines_ok; [apply new_parser_ok|done].
Qed.

(** *** The subtree of the root is the whole store *)

Lemma owned_range (st : list Node) (p c : nat) : owned st -> c ∈ children st p -> (p < c < length st)%nat.
Proof.
  intros [Hr Ha Ho] Hc. split; [by apply Ho|].
  assert (c ∈ st ≫= node_children) as Hin.
  { unfold children in Hc. destruct (st !! p) as [n|] eqn:E; cbn in Hc; [|by apply elem_of_nil in Hc].
    apply list_elem_of_bind. exists n. by split; [|eapply list_elem_of_lookup_2]. }
  rewrite <- Ha, elem_of_seq in Hin. destruct st; [done|]. cbn in *. lia.
Qed.

(** A subtree is its root and the children of its nodes. *)
Lemma subtree_children (st : list Node) (fuel p : nat) :
  owned st -> (p < length st)%nat -> (length st - p <= fuel)%nat ->
  subtree fuel st p ≡ₚ p :: (subtree fuel st p ≫= children st).
Proof.
  intros Ho. revert p. induction fuel as [|fuel IH]; intros p Hp Hf; [lia|]. cbn. constructor.
  assert (H : Forall (fun c => subtree fuel st c ≡ₚ c :: (subtree fuel st c ≫= children st)) (children st p)).
  { apply Forall_forall. intros c Hc. apply owned_range in Hc; [|done]. apply IH; lia. }
  induction H as [|c l Hc _ IHl]; [done|]. cbn. rewrite Hc at 1. rewrite bind_app, IHl at 1. cbn.
  constructor. rewrite !app_assoc. f_equiv. apply Permutation_app_comm.
Qed.

Abbreviation cnt l x := (count_occ Nat.eq_dec l x).

Lemma count_bind (f : nat -> list nat) (l : list nat) (x par : nat) :
  (forall q, cnt (f q) x = if decide (q = par) then 1%nat else 0%nat) -> cnt (l ≫= f) x = cnt l par.
Proof.
  intros H. induction l as [|q l IH]; [done|]. cbn. rewrite count_occ_app, IH, H.
  destruct (Nat.eq_dec q par), (decide (q = par)); lia.
Qed.

Lemma one_owner (ns : list Node) (x : nat) :
  cnt (ns ≫= node_children) x = 1%nat ->
  exists par, forall q, cnt (children ns q) x = if decide (q = par) then 1%nat else 0%nat.
Proof.
  induction ns as [|n ns IH]; [done|]. cbn. rewrite count_occ_app. intros H.
  destruct (decide (cnt (node_children n) x = 0%nat)) as [Hn|Hn].
  - destruct IH as (par & Hpar); [lia|]. exists (S par). intros [|q]; [done|].
    change (children (n :: ns) (S q)) with (children ns q). rewrite Hpar. by repeat case_decide; try lia.
  - exists 0%nat. intros [|q]; [change (children (n :: ns) 0) with (node_children n); case_decide; lia|].
    assert (Hz : ~ In x (ns ≫= node_children)) by (rewrite (count_occ_not_In Nat.eq_dec); lia).
    apply count_occ_not_In. intros Hin. apply Hz. rewrite <- list_elem_of_In in *. unfold children in Hin.
    cbn in Hin. destruct (ns !! q) as [m|] eqn:E; [|by apply elem_of_nil in Hin].
    apply list_elem_of_bind. exists m. by split; [|eapply list_elem_of_lookup_2].
Qed.

Lemma count_seq (a n x : nat) : (a <= x < a + n)%nat -> cnt (seq a n) x = 1%nat.
Proof. intros H. apply NoDup_count_occ'; [apply seq_NoDup|]. apply in_seq. lia. Qed.

Lemma subtree_counts (st : list Node) (D : list nat) :
  owned st -> D ≡ₚ root :: (D ≫= children st) -> forall x, cnt D x = if decide (x < length st)%nat then 1%nat else 0%nat.
Proof.
  intros Ho HD x. induction (lt_wf x) as [x _ IH].
  assert (Hlen : (0 < length st)%nat) by (destruct Ho as [Hr _ _]; destruct st; [done|cbn; lia]).
  pose proof (proj1 (Permutation_count_occ Nat.eq_dec _ _) HD x) as Hx. rewrite Hx.
  assert (Hno : (x = 0%nat \/ length st <= x)%nat -> cnt (D ≫= children st) x = 0%nat).
  { intros Hr. apply count_occ_not_In. rewrite <- list_elem_of_In, list_elem_of_bind.
    intros (q & Hq & _). apply owned_range in Hq; [lia|done]. }
  unfold root in *. destruct (decide (0%nat = x)) as [<-|Hx0].
  { rewrite count_occ_cons_eq, Hno by auto. by case_decide; [|lia]. }
  rewrite count_occ_cons_neq by done.
  case_decide as Hlt; [|apply Hno; lia].
  destruct (one_owner st x) as (par & Hpar).
  { rewrite <- (proj1 (Permutation_count_occ Nat.eq_dec _ _) (ow_all _ Ho) x). apply count_seq. lia. }
  rewrite (count_bind _ _ _ par) by done.
  assert (par < x)%nat.
  { eapply ow_order; [done|]. rewrite list_elem_of_In. apply (count_occ_In Nat.eq_dec). rewrite Hpar. case_decide; lia. }
  rewrite IH by done. case_decide; lia.
Qed.

Lemma subtree_root (st : list Node) : owned st -> subtree (length st) st root ≡ₚ seq 0 (length st).
Proof.
  intros Ho. apply (Permutation_count_occ Nat.eq_dec). intros x.
  assert (0 < length st)%nat by (destruct Ho as [Hr _ _]; destruct st; [done|cbn; lia]).
  rewrite (subtree_counts st); [|done|apply subtree_children; unfold root; [done|lia..]].
  case_decide; symmetry; [by apply count_seq; lia|]. apply count_occ_not_In. rewrite in_seq. lia.
Qed.

(** *** Deleting along the tree *)

Lemma delete_nodes_app (del : heap -> nat -> res heap) (h : heap) (l1 l2 : list nat) :
  delete_nodes del h (l1 ++ l2) = h ← delete_nodes del h l1; delete_nodes del h l2.
Proof.
  revert h. induction l1 as [|p l1 IH]; intros h; [done|]. cbn. destruct (del h p); cbn; [apply IH|done].
Qed.

(** The destructor of a value deletes its children in order. *)
Lemma delete_value_children (del : heap -> nat -> res heap) (h : heap) (v : AbsValue) :
  delete_value del h v = delete_nodes del h (value_children v).
Proof.
  destruct v as [d|l|a]; cbn; [done..|]. revert h. induction (arr a) as [|e es IH]; intros h; [done|]. cbn.
  rewrite delete_nodes_app. destruct e as [l|d]; cbn; [|apply IH]. destruct (delete_nodes del h l); cbn; [apply IH|done].
Qed.

Lemma delete_Node_unfold (fuel : nat) (h : heap) (p : nat) :
  delete_Node (S fuel) h p =
    n ← deref_heap h p; h ← delete_nodes (delete_Node fuel) h (node_children n); Ok (<[p := None]> h).
Proof.
  cbn. destruct (deref_heap h p) as [n|f]; [|done]. cbn. unfold node_children.
  destruct (value n); [by rewrite delete_value_children|done].
Qed.

(** The memory still holds these nodes; these places, and no others, were released. *)
Definition holds (st : list Node) (l : list nat) (h : heap) : Prop := forall x, x ∈ l -> h !! x = Some (st !! x).
Definition released (l : list nat) (h h' : heap) : Prop :=
  forall x, h' !! x = if decide (x ∈ l) then Some None else h !! x.

Definition deletes (st : list Node) (fuel p : nat) : Prop :=
  forall h, NoDup (subtree fuel st p) -> holds st (subtree fuel st p) h ->
    exists h', delete_Node fuel h p = Ok h' /\ released (subtree fuel st p) h h'.

Lemma delete_nodes_released (st : list Node) (fuel : nat) (l : list nat) (h : heap) :
  Forall (deletes st fuel) l -> NoDup (l ≫= subtree fuel st) -> holds st (l ≫= subtree fuel st) h ->
  exists h', delete_nodes (delete_Node fuel) h l = Ok h' /\ released (l ≫= subtree fuel st) h h'.
Proof.
  intros Hl. revert h. induction Hl as [|p l Hp _ IH]; intros h Hn Hh.
  { exists h. split; [done|]. intros x. by case_decide as Hx; [apply elem_of_nil in Hx|]. }
  cbn in Hn, Hh |- *. apply NoDup_app in Hn as (Hn1 & Hd & Hn2).
  destruct (Hp h Hn1) as (h1 & -> & Hr1). { intros x Hx. apply Hh, elem_of_app. by left. }
  cbn. destruct (IH h1 Hn2) as (h2 & -> & Hr2).
  { intros x Hx. rewrite Hr1. case_decide as Hx1; [by destruct (Hd x)|]. apply Hh, elem_of_app. by right. }
  exists h2. split; [done|]. intros x. rewrite Hr2, Hr1.
  repeat case_decide; rewrite ?elem_of_app in *; naive_solver.
Qed.

Lemma delete_Node_released (st : list Node) (fuel p : nat) :
  owned st -> (p < length st)%nat -> (length st - p <= fuel)%nat -> deletes st fuel p.
Proof.
  intros Ho. revert p. induction fuel as [|fuel IH]; intros p Hp Hf h Hn Hh; [lia|].
  assert (Hl : Forall (deletes st fuel) (children st p)).
  { apply Forall_forall. intros c Hc. apply owned_range in Hc; [|done]. apply IH; lia. }
  destruct (lookup_lt_is_Some_2 st p Hp) as (n & En).
  assert (Hhp : h !! p = Some (Some n)) by (rewrite Hh, En; [done|cbn; apply elem_of_cons; by left]).
  rewrite delete_Node_unfold. unfold deref_heap. rewrite Hhp. cbn.
  cbn [subtree] in Hn, Hh |- *. rewrite (children_lookup _ _ n) in * by done.
  apply NoDup_cons in Hn as [Hni Hn].
  destruct (delete_nodes_released st fuel _ h Hl Hn) as (h' & -> & Hr).
  { intros x Hx. apply Hh, elem_of_cons. by right. }
  cbn. eexists. split; [done|]. intros x. destruct (decide (x = p)) as [->|Hx].
  - rewrite list_lookup_insert_eq; [by case_decide as H; [|destruct H; apply elem_of_cons; left]|].
    apply (lookup_lt_Some _ _ (Some n)). rewrite Hr. by case_decide.
  - rewrite list_lookup_insert_ne by done. rewrite Hr. repeat case_decide; rewrite ?elem_of_cons in *; naive_solver.
Qed.

(** Deleting the root of an owned tree releases every node, once. *)
Lemma delete_root (st : list Node) :
  owned st -> delete_Node (length st) (Some <$> st) root = Ok (replicate (length st) None).
Proof.
  intros Ho. pose proof (subtree_root st Ho) as HP.
  assert (Hlen : (0 < length st)%nat) by (destruct Ho as [Hr _ _]; destruct st; [done|cbn; lia]).
  destruct (delete_Node_released st (length st) root Ho Hlen ltac:(unfold root; lia) (Some <$> st)) as (h & -> & Hr).
  - rewrite HP. apply NoDup_seq.
  - intros x Hx. rewrite HP, elem_of_seq in Hx. rewrite list_lookup_fmap.
    destruct (lookup_lt_is_Some_2 st x) as (n & ->); [lia|done].
  - f_equal. apply list_eq. intros x. rewrite Hr, list_lookup_fmap.
    case_decide as Hx; rewrite HP, elem_of_seq in Hx.
    + rewrite lookup_replicate_2 by lia. done.
    + rewrite (lookup_ge_None_2 st), lookup_ge_None_2; rewrite ?length_replicate; (done || lia).
Qed.

(** *** Printing along the tree *)

Definition is_key (l : log_line) : option bytes := match l with LogKey k => Some k | LogValue _ => None end.

(** The keys among the lines. *)
Definition keys_of (ls : list log_line) : list bytes := omap is_key ls.

Definition key_at (st : list Node) (p : nat) : bytes := from_option key [] (st !! p).

Lemma keys_of_app (l1 l2 : list log_line) : keys_of (l1 ++ l2) = keys_of l1 ++ keys_of l2.
Proof. apply omap_app. Qed.

Lemma keys_of_key (k : bytes) (ls : list log_line) : keys_of (LogKey k :: ls) = k :: keys_of ls.
Proof. done. Qed.

(** What printing one place delivers. *)
Definition prints (st : list Node) (fuel p : nat) : Prop :=
  exists ls, PrintNode fuel st p = Ok ls /\ keys_of ls = key_at st <$> subtree fuel st p.

Lemma print_nodes_keys (st : list Node) (fuel : nat) (l : list nat) :
  Forall (prints st fuel) l ->
  exists ls, print_nodes (PrintNode fuel st) l = Ok ls /\ keys_of ls = key_at st <$> (l ≫= subtree fuel st).
Proof.
  induction 1 as [|p l (a & Ea & Ha) _ (b & Eb & Hb)]; [by exists []|]. cbn. rewrite Ea, Eb. cbn.
  eexists. split; [done|]. by rewrite keys_of_app, fmap_app, Ha, Hb.
Qed.

Lemma print_elements_keys (st : list Node) (fuel : nat) (es : list element) :
  Forall (prints st fuel) (es ≫= element_children) ->
  exists ls, print_elements (PrintNode fuel st) es = Ok ls /\
    keys_of ls = key_at st <$> ((es ≫= element_children) ≫= subtree fuel st).
Proof.
  induction es as [|e es IH]; [by exists []|]. cbn. intros [He Hes]%Forall_app.
  destruct (IH Hes) as (b & Eb & Hb). destruct e as [l|d]; cbn in *.
  - destruct (print_nodes_keys st fuel l He) as (a & -> & Ha). cbn. rewrite Eb. cbn. eexists. split; [done|].
    by rewrite keys_of_app, bind_app, fmap_app, Ha, Hb.
  - rewrite Eb. cbn. eexists. split; [done|]. by cbn.
Qed.

Lemma PrintNode_keys (st : list Node) (fuel p : nat) :
  owned st -> Forall (fun n => value n <> None) st -> (p < length st)%nat -> (length st - p <= fuel)%nat ->
  prints st fuel p.
Proof.
  intros Ho Hv. revert p. induction fuel as [|fuel IH]; intros p Hp Hf; [lia|].
  assert (Hl : Forall (prints st fuel) (children st p)).
  { apply Forall_forall. intros c Hc. apply owned_range in Hc; [|done]. apply IH; lia. }
  destruct (lookup_lt_is_Some_2 st p Hp) as (n & En). rewrite (children_lookup _ _ n) in Hl by done.
  assert (Hn : value n <> None) by by eapply Forall_lookup_1 in Hv.
  unfold prints. cbn. unfold deref. rewrite En. cbn. rewrite (children_lookup _ _ n) by done.
  assert (Hk : key_at st p = key n) by (unfold key_at; by rewrite En). rewrite Hk.
  unfold node_children in *. destruct (value n) as [[d|l|a]|]; [..|done]; cbn in *.
  - by eexists.
  - destruct (print_nodes_keys st fuel l Hl) as (ls & -> & Hls). cbn. eexists. split; [done|]. by rewrite keys_of_key, Hls.
  - destruct (print_elements_keys st fuel (arr a) Hl) as (ls & -> & Hls). cbn. eexists. split; [done|].
    by rewrite keys_of_key, Hls.
Qed.

(** *** The key of the root *)

(** No line changes the keys of the nodes there are. *)
Definition keys (st : list Node) : list bytes := key <$> st.

Lemma set_value_keys (st st' : list Node) (p : nat) (v : AbsValue) : set_value st p v = Ok st' -> keys st' = keys st.
Proof.
  intros (n & Hn & ->)%set_value_Ok. unfold keys. rewrite list_fmap_insert. apply list_insert_id.
  by rewrite list_lookup_fmap, Hn.
Qed.

Lemma parse_line_keys (p p' : parser) (raw : bytes) :
  parse_line p raw = Ok p' -> keys (nodes p) `prefix_of` keys (nodes p').
Proof.
  unfold parse_line. destruct (StrUtil.delafter raw 35) as [|c line]; [by intros [= <-]|].
  intros H. res_inv. cbv zeta in H. unfold parse_leaf_line, parse_block_line, parse_element_line, parse_dash_line in H.
  repeat (cbv zeta in H; res_inv; match type of H with context [match ?x with _ => _ end] => destruct x end); try done;
    res_inv; cbn [nodes];
    match goal with
    | E : set_value _ _ _ = Ok _ |- _ => apply set_value_keys in E as ->
    end; unfold keys; rewrite ?fmap_app; first [done | by apply prefix_app_r].
Qed.

Lemma ParseYaml_root (path file : bytes) (st : list Node) :
  ParseYaml path file = Ok st -> exists n, st !! root = Some n /\ key n = path.
Proof.
  unfold ParseYaml. intros H. res_inv.
  assert (Hp : [path] `prefix_of` keys (nodes a)).
  { revert E. generalize (getlines [] file). change [path] with (keys (nodes (new_parser path))).
    generalize (new_parser path). intros p ls. revert p. induction ls as [|l ls IH]; intros p H; cbn in H.
    - by injection H as ->.
    - res_inv. etrans; [by eapply parse_line_keys|by apply IH]. }
  destruct Hp as (rest & Hrest). unfold keys in Hrest. destruct (nodes a) as [|n ns]; [done|].
  exists n. split; [done|]. by injection Hrest.
Qed.

(** *** Worlds *)

(** Every descriptor is whole, with a file of its own that is open, and the cache
    holds descriptors that exist. *)
Record world_ok (w : yaml_world) : Prop := {
  wo_descs : forall d x, descs w !! d = Some x -> exists st, tree x = Some <$> st /\ owned st;
  wo_cache : forall d, d ∈ sg_yaml_cache w -> is_Some (descs w !! d);
  wo_open : forall d x, descs w !! d = Some x -> fp x ∈ open_files w;
  wo_files : forall d e x y, descs w !! d = Some x -> descs w !! e = Some y -> fp x = fp y -> d = e
}.

Definition empty_world : yaml_world := mkWorld [] ∅ [].

Lemma empty_world_ok : world_ok empty_world.
Proof. split; cbn; [by intros ??|by intros ? ?%elem_of_nil|by intros ??|by intros ????]. Qed.

(** The key of a descriptor. *)
Definition desc_path (w : yaml_world) (d : nat) : res bytes :=
  x ← deref_desc w d; n ← deref_heap (tree x) root; Ok (key n).

Lemma find_cached_ok (w : yaml_world) (path : bytes) :
  world_ok w -> exists hit, find_cached w (sg_yaml_cache w) path = Ok hit /\
    forall d, hit = Some d -> is_Some (descs w !! d) /\ desc_path w d = Ok path.
Proof.
  intros Hw. assert (Hc : Forall (fun d => is_Some (descs w !! d)) (sg_yaml_cache w)).
  { apply Forall_forall, (wo_cache w Hw). }
  induction Hc as [|d l (x & Hx) _ IH]; cbn; [by exists None|].
  unfold deref_desc at 1. rewrite Hx. cbn. destruct (wo_descs w Hw d x Hx) as (st & Ht & [Hr _ _]).
  unfold deref_heap at 1. rewrite Ht, list_lookup_fmap. destruct st as [|n st]; [done|]. cbn.
  case_bool_decide as Hk; [|done]. exists (Some d). split; [done|]. intros e [= <-]. split; [done|].
  unfold desc_path, deref_desc. rewrite Hx. cbn. rewrite Ht. cbn. by rewrite Hk.
Qed.

Lemma Load_ok (w w' : yaml_world) (path content : bytes) (f addr d : nat) :
  world_ok w -> descs w !! addr = None -> f ∉ open_files w ->
  Load w path (Some (content, f)) addr = Ok (Some d, w') ->
  world_ok w' /\ is_Some (descs w' !! d) /\ desc_path w' d = Ok path.
Proof.
  intros Hw Ha Hf. unfold Load. destruct (find_cached_ok w path Hw) as (hit & -> & Hhit). cbn.
  destruct hit as [e|]; [intros [= <- <-]; by split; [|apply Hhit]|].
  destruct (ParseYaml path content) as [st|] eqn:Ep; [|done]. cbn. intros [= <- <-]. repeat split; cbn.
  - intros e x. rewrite lookup_insert_Some. intros [[_ <-]|[_ He]]; [|by eapply wo_descs].
    exists st. by split; [|eapply ParseYaml_owned].
  - intros e He. rewrite lookup_insert_is_Some'.
    case_match; [apply elem_of_app in He as [He| ->%list_elem_of_singleton]; [|by left]|];
      right; by apply wo_cache.
  - intros e x. rewrite lookup_insert_Some, elem_of_cons. intros [[_ <-]|[_ He]]; [by left|].
    right. by eapply wo_open.
  - intros e1 e2 x y. rewrite !lookup_insert_Some.
    intros [[<- <-]|[_ H1]] [[<- <-]|[_ H2]] Hfp; [done| | |by eapply wo_files].
    + destruct Hf. cbn in Hfp. rewrite Hfp. by eapply wo_open.
    + destruct Hf. cbn in Hfp. rewrite <- Hfp. by eapply wo_open.
  - by rewrite lookup_insert_eq.
  - apply ParseYaml_root in Ep as (n & Hn & Hk). unfold desc_path, deref_desc. cbn. rewrite lookup_insert_eq. cbn.
    unfold deref_heap. rewrite list_lookup_fmap, Hn. cbn. by rewrite Hk.
Qed.

Lemma Close_ok (w : yaml_world) (d : nat) (x : descriptor) :
  world_ok w -> descs w !! d = Some x ->
  exists w', Close w d = Ok (replicate (length (tree x)) None, w') /\ world_ok w' /\
    descs w' = delete d (descs w) /\ d ∉ sg_yaml_cache w' /\ fp x ∉ open_files w'.
Proof.
  intros Hw Hd. unfold Close. cbv zeta. unfold deref_desc. rewrite Hd. cbn.
  unfold fclose. rewrite decide_True by by eapply wo_open. cbn.
  destruct (wo_descs w Hw d x Hd) as (st & -> & Ho). rewrite length_fmap, delete_root by done. cbn.
  eexists. split; [done|]. split; [|cbn; rewrite !list_elem_of_filter; naive_solver].
  split; cbn.
  - intros e y [_ He]%lookup_delete_Some. by eapply wo_descs.
  - intros e [Hne He]%list_elem_of_filter. rewrite lookup_delete_ne by done. by apply wo_cache.
  - intros e y [Hne He]%lookup_delete_Some. apply list_elem_of_filter. split; [|by eapply wo_open].
    intros E. by destruct Hne, (wo_files w Hw d e x y).
  - intros e1 e2 y z [_ H1]%lookup_delete_Some [_ H2]%lookup_delete_Some. by eapply wo_files.
Qed.

(** The search through the cache, when one more descriptor exists at its end. *)
Lemma find_cached_new (w : yaml_world) (cache c' : list nat) (path : bytes) (addr : nat) (x : descriptor) (files : list nat) :
  (forall d, d ∈ cache -> d <> addr) -> find_cached w cache path = Ok None ->
  find_cached (mkWorld c' (<[addr := x]> (descs w)) files) (cache ++ [addr]) path =
    n ← deref_heap (tree x) root; Ok (if bool_decide (key n = path) then Some addr else None).
Proof.
  intros Hc. induction cache as [|d cache IH]; intros H; cbn in H |- *.
  - unfold deref_desc. cbn. rewrite lookup_insert_eq. cbn. destruct (deref_heap _ _); cbn; [|done]. by case_bool_decide.
  - assert (d <> addr) by (apply Hc, elem_of_cons; by left). unfold deref_desc in H |- * at 1. cbn.
    rewrite lookup_insert_ne by done. destruct (descs w !! d) as [y|]; [|done]. cbn in H |- *.
    destruct (deref_heap (tree y) root) as [n|]; [|done]. cbn in H |- *. case_bool_decide; [done|].
    apply IH; [|done]. intros e He. apply Hc, elem_of_cons. by right.
Qed.

(** *** The cache of values *)

(** The nodes of a descriptor, and the cache as a list of descriptors. *)
Definition nodes_of (x : descriptor) : list Node := omap id (tree x).

Definition desc_value (w : yaml_world) (d : nat) : option YamlDescriptor :=
  (fun x => (d, nodes_of x)) <$> descs w !! d.

Definition cache_value (w : yaml_world) : list YamlDescriptor := omap (desc_value w) (sg_yaml_cache w).

Lemma nodes_of_whole (st : list Node) (f : nat) : nodes_of (mkDescriptor (Some <$> st) f) = st.
Proof. unfold nodes_of. cbn. induction st as [|n st IH]; cbn; [done|]. by rewrite IH. Qed.

Lemma find_cached_value (w : yaml_world) (path : bytes) :
  world_ok w -> find_cached w (sg_yaml_cache w) path =
    Ok ((fun p => p.2.1) <$> list_find (fun d => desc_key d = Some path) (cache_value w)).
Proof.
  intros Hw. unfold cache_value. assert (Hc : Forall (fun d => is_Some (descs w !! d)) (sg_yaml_cache w)).
  { apply Forall_forall, (wo_cache w Hw). }
  induction Hc as [|d l (x & Hx) _ IH]; cbn; [done|].
  unfold deref_desc, desc_value at 1. rewrite Hx. cbn. destruct (wo_descs w Hw d x Hx) as (st & Ht & [Hr _ _]).
  destruct x as [tr f]. cbn in Ht. subst tr. rewrite nodes_of_whole.
  destruct st as [|n st]; [done|]. cbn.
  case_bool_decide as Hk; case_decide as Hd; unfold desc_key in Hd; cbn in Hd; try congruence; [done|].
  rewrite IH. by destruct (list_find _ _) as [[??]|].
Qed.

Lemma cache_value_length (w : yaml_world) : world_ok w -> length (cache_value w) = length (sg_yaml_cache w).
Proof.
  intros Hw. unfold cache_value. assert (Hc : Forall (fun d => is_Some (descs w !! d)) (sg_yaml_cache w)).
  { apply Forall_forall, (wo_cache w Hw). }
  induction Hc as [|d l (x & Hx) _ IH]; cbn; [done|]. unfold desc_value at 1. rewrite Hx. cbn. by rewrite IH.
Qed.

Lemma cache_value_new (w : yaml_world) (addr f : nat) (st : list Node) (files : list nat) :
  world_ok w -> descs w !! addr = None ->
  (if (length (cache_value w) <? 10)%nat then cache_value w ++ [(addr, st)] else cache_value w) =
  cache_value (mkWorld (if (length (sg_yaml_cache w) <? 10)%nat then sg_yaml_cache w ++ [addr] else sg_yaml_cache w)
                 (<[addr := mkDescriptor (Some <$> st) f]> (descs w)) files).
Proof.
  intros Hw Ha. rewrite cache_value_length by done. set (w' := mkWorld _ _ _).
  assert (Hs : omap (desc_value w') (sg_yaml_cache w) = cache_value w).
  { unfold cache_value. assert (Hc : Forall (fun d => d <> addr) (sg_yaml_cache w)).
    { apply Forall_forall. intros d Hd ->. apply (wo_cache w Hw) in Hd as [??]. congruence. }
    assert (Hd : descs w' = <[addr := mkDescriptor (Some <$> st) f]> (descs w)) by done. clearbody w'.
    induction Hc as [|d l Hne _ IH]; cbn; [done|]. rewrite IH. unfold desc_value at 1 3.
    by rewrite Hd, lookup_insert_ne by congruence. }
  unfold cache_value at 3. cbn [sg_yaml_cache w'].
  destruct (length (sg_yaml_cache w) <? 10)%nat; [|done]. rewrite omap_app, Hs. f_equal. cbn. unfold desc_value. cbn [descs w'].
  rewrite lookup_insert_eq. cbn [fmap option_fmap option_map]. by rewrite nodes_of_whole.
Qed.

Lemma omap_filter_ne (w : yaml_world) (d : nat) (l : list nat) (x : descriptor) :
  descs w !! d = Some x ->
  omap (fun d' => (fun y => (d', nodes_of y)) <$> delete d (descs w) !! d') (filter (fun d' => d' <> d) l) =
  filter (fun d' => d'.1 <> d) (omap (desc_value w) l).
Proof.
  intros Hd. induction l as [|e l IH]; [done|]. rewrite filter_cons.
  assert (Hc : forall f : nat -> option YamlDescriptor, forall l, omap f (e :: l) = match f e with Some y => y :: omap f l | None => omap f l end) by done.
  rewrite (Hc (desc_value w)). unfold desc_value at 1. case_decide as He.
  - rewrite Hc, lookup_delete_ne by done. destruct (descs w !! e); cbn [fmap option_fmap option_map]; [|done].
    rewrite filter_cons_True by done. by rewrite IH.
  - assert (e = d) as -> by (destruct (decide (e = d)); tauto). rewrite Hd. cbn [fmap option_fmap option_map].
    rewrite filter_cons_False by (cbn; tauto). exact IH.
Qed.

(** ** Theorems *)

(** C22: Memory of configurations. In a world where every descriptor is whole, [Load]
    of any file either fails as the parser does or gives a descriptor of that
    path in such a world, never following a deleted one; [Close] of a descriptor
    that exists closes its file, takes it out of the cache and deletes every node
    of its tree exactly once, whatever the file said. *)
Theorem yaml_memory_safe (w : yaml_world) (Hw : world_ok w) :
  (forall path content f addr, descs w !! addr = None -> f ∉ open_files w ->
     match Load w path (Some (content, f)) addr with
     | Ok (Some d, w') => world_ok w' /\ is_Some (descs w' !! d) /\ desc_path w' d = Ok path
     | Ok (None, _) => False
     | Fault e => ParseYaml path content = Fault e
     end) /\
  (forall d x, descs w !! d = Some x ->
     exists w', Close w d = Ok (replicate (length (tree x)) None, w') /\ world_ok w' /\
       descs w' = delete d (descs w) /\ d ∉ sg_yaml_cache w' /\ fp x ∉ open_files w').
Proof.
  split; [|intros d x; by apply Close_ok]. intros path content f addr Ha Hf.
  destruct (Load w path (Some (content, f)) addr) as [[[d|] w']|e] eqn:E.
  - by eapply Load_ok.
  - revert E. unfold Load. destruct (find_cached_ok w path Hw) as ([e|] & -> & _); [done|]. cbn.
    by destruct (ParseYaml path content).
  - revert E. unfold Load. destruct (find_cached_ok w path Hw) as ([d|] & -> & _); [done|]. cbn.
    destruct (ParseYaml path content); cbn; [done|congruence].
Qed.

(** Descriptors as values. As long as no descriptor is used after it was closed,
    [Load] and [Close] on descriptors in memory are [Load] and [Close] on descriptors that are
    values, in which the configuration of the servers is read. *)
Theorem yaml_memory_refines (w w' : yaml_world) (path : bytes) (file : option (bytes * nat)) (addr : nat)
    (o : option nat) (Hw : world_ok w) (Ha : descs w !! addr = None)
    (HL : Load w path file addr = Ok (o, w')) :
  (exists v, YamlUtil.Load (cache_value w) path (fst <$> file) addr = Ok (v, cache_value w') /\
     o = fst <$> v /\ (forall d, o = Some d -> v = desc_value w' d)) /\
  (forall d x h w2, descs w !! d = Some x -> Close w d = Ok (h, w2) ->
     cache_value w2 = YamlUtil.Close (cache_value w) (d, nodes_of x)).
Proof.
  split.
  - revert HL. unfold Load, YamlUtil.Load. rewrite find_cached_value by done. cbn -[ParseYaml Nat.ltb].
    destruct (list_find _ (cache_value w)) as [[i [d st]]|] eqn:E; cbn -[ParseYaml Nat.ltb].
    + intros [= <- <-]. exists (Some (d, st)). split_and!; [done|done|]. intros e [= <-].
      apply list_find_Some in E as (Hi & _ & _). apply list_elem_of_lookup_2 in Hi.
      apply list_elem_of_omap in Hi as (e & _ & He). unfold desc_value in *.
      destruct (descs w !! e) as [x|] eqn:Ex; [|done]. cbn in He. injection He as -> <-. by rewrite Ex.
    + destruct file as [[content f]|]; cbn -[ParseYaml Nat.ltb]; [|by intros [= <- <-]; exists None].
      destruct (ParseYaml path content) as [st|] eqn:Ep; [|done]. cbn -[Nat.ltb]. intros [= <- <-].
      exists (Some (addr, st)). split_and!; [|done|].
      * do 2 f_equal. cbn -[Nat.ltb]. by apply cache_value_new.
      * intros d [= <-]. unfold desc_value. cbn [descs]. rewrite lookup_insert_eq. cbn [fmap option_fmap option_map].
        by rewrite nodes_of_whole.
  - intros d x h w2 Hd HC. unfold Close, deref_desc in HC. cbv zeta in HC. rewrite Hd in HC. res_inv.
    unfold cache_value, YamlUtil.Close. cbn. unfold desc_value at 1. cbn. by eapply omap_filter_ne.
Qed.

(** The debugging output of a configuration without empty values has the key of
    every node exactly once, and printing ends. *)
Theorem PrintYamlTree_keys (path file : bytes) (st : list Node) (Hp : ParseYaml path file = Ok st) :
  Forall (fun n => value n <> None) st ->
  exists ls l, PrintYamlTree st = Ok ls /\ l ≡ₚ seq 0 (length st) /\ keys_of ls = key_at st <$> l.
Proof.
  intros Hv. apply ParseYaml_owned in Hp as Ho. pose proof (subtree_root st Ho) as HP.
  assert (Hlen : (0 < length st)%nat) by (destruct Ho as [Hr _ _]; destruct st; [done|cbn; lia]).
  destruct (PrintNode_keys st (length st) root) as (ls & E & Hls); [done|done|done|unfold root; lia|].
  by exists ls, (subtree (length st) st root).
Qed.

(** A second user of a cached path shares the descriptor: after one of them has
    closed it, the other holds a pointer to a deleted object, and closing it is a
    second deletion. *)
Theorem yaml_shared_close (w w1 : yaml_world) (path content : bytes) (f addr g addr2 d : nat)
    (Hw : world_ok w) (Ha : descs w !! addr = None) (Hf : f ∉ open_files w)
    (Hroom : (length (sg_yaml_cache w) < 10)%nat)
    (H1 : Load w path (Some (content, f)) addr = Ok (Some d, w1)) :
  Load w1 path (Some (content, g)) addr2 = Ok (Some d, w1) /\
  exists h w2, Close w1 d = Ok (h, w2) /\ desc_path w2 d = Fault Dangling /\ Close w2 d = Fault Dangling.
Proof.
  destruct (Load_ok w w1 path content f addr d Hw Ha Hf H1) as (Hw1 & (x & Hx) & _).
  split.
  - revert H1. unfold Load. destruct (find_cached_ok w path Hw) as (hit & E & _). rewrite E. cbn.
    destruct hit as [e|]; [intros [= <- <-]; by rewrite E|].
    destruct (ParseYaml path content) as [st|] eqn:Ep; [|done]. cbn. intros [= <- <-].
    cbn. destruct (Nat.leb_spec (length (sg_yaml_cache w)) 9); [|lia]. rewrite find_cached_new; [|..|done].
    + apply ParseYaml_root in Ep as (n & Hn & Hk). cbn. unfold deref_heap. rewrite list_lookup_fmap, Hn. cbn.
      by rewrite bool_decide_true.
    + intros e H' ->. apply (wo_cache w Hw) in H' as [??]. congruence.
  - destruct (Close_ok w1 d x Hw1 Hx) as (w2 & Hc & _ & Hdel & _). eexists _, w2. split; [done|].
    unfold desc_path, Close, deref_desc. cbv zeta. by rewrite Hdel, lookup_delete_eq.
Qed.

(** *** Examples *)

(** The shipped configuration of the proxy, its comments left out. *)
Definition proxy_conf : bytes :=
  concat ((fun l => str l ++ [10]) <$>
    ["port: 80"; "load_balance_rule: poll"; "net_thread_cnt: 4"; "max_connections: 10000"; "webservers:";
     "  -"; "  ip: 127.0.0.1"; "  port: 5002"; "  weight: 1     # from 0 to 10";
     "  -"; "  ip: 127.0.0.1"; "  port: 5003"; "  weight: 0";
     "  -"; "  ip: 127.0.0.1"; "  port: 5004"; "  weight: 0"]%string).

Definition proxy_tree : list Node :=
  match ParseYaml (str "p.yml") proxy_conf with Ok st => st | Fault _ => [] end.

Lemma proxy_parses : ParseYaml (str "p.yml") proxy_conf = Ok proxy_tree.
Proof. by vm_compute. Qed.

(** The world after [Load] of that file. *)
Definition proxy_world : yaml_world := mkWorld [7%nat] {[ 7%nat := mkDescriptor (Some <$> proxy_tree) 3 ]} [3%nat].

Lemma proxy_loaded : Load empty_world (str "p.yml") (Some (proxy_conf, 3%nat)) 7 = Ok (Some 7%nat, proxy_world).
Proof. by vm_compute. Qed.

Lemma yaml_memory_safe_witness :
  length proxy_tree = 15%nat /\
  exists w', Close proxy_world 7 = Ok (replicate 15 None, w') /\ world_ok w'.
Proof.
  split; [by vm_compute|].
  assert (Hw : world_ok proxy_world).
  { assert (H := proj1 (yaml_memory_safe empty_world empty_world_ok) (str "p.yml") proxy_conf 3%nat 7%nat
      eq_refl (not_elem_of_nil _)). rewrite proxy_loaded in H. apply H. }
  destruct (proj2 (yaml_memory_safe proxy_world Hw) 7%nat (mkDescriptor (Some <$> proxy_tree) 3)) as (w' & Hc & Hw' & _).
  - by vm_compute.
  - exists w'. split; [|done]. revert Hc. by vm_compute.
Defined.

Lemma PrintYamlTree_keys_witness :
  Forall (fun n => value n <> None) proxy_tree /\
  exists ls l, PrintYamlTree proxy_tree = Ok ls /\ l ≡ₚ seq 0 15 /\ keys_of ls = key_at proxy_tree <$> l.
Proof.
  assert (H : Forall (fun n => value n <> None) proxy_tree).
  { apply (bool_decide_unpack _). by vm_compute. }
  split; [done|]. exact (PrintYamlTree_keys (str "p.yml") proxy_conf proxy_tree proxy_parses H).
Defined.

Lemma yaml_shared_close_witness :
  Load proxy_world (str "p.yml") (Some (proxy_conf, 4%nat)) 8 = Ok (Some 7%nat, proxy_world) /\
  exists h w2, Close proxy_world 7 = Ok (h, w2) /\ desc_path w2 7 = Fault Dangling /\ Close w2 7 = Fault Dangling.
Proof.
  apply (yaml_shared_close empty_world proxy_world (str "p.yml") proxy_conf 3 7 4 8 7 empty_world_ok eq_refl
    (not_elem_of_nil _)); [cbn; lia|apply proxy_loaded].
Defined.

(** The unit test reads fields the shipped file does not have. *)
Lemma UnitTest_shipped : UnitTest proxy_tree = Fault (Throw (NoSuchFieldException (str "aaa"))).
Proof. by vm_compute. Qed.

End YamlMemory.
