(* ===== verification/FirstLine.v ===== *)
(** * Request line and status line (http/firstline.h, http/firstline.cc)

    The first line of an HTTP message: the method and version tables, the
    two line classes with their printers and parsers, and the round trips
    between them. *)
From S2P Require Import Prelude CLib StrUtil AutoBuffer.
Import StrUtil.

Module FirstLine.
Import AutoBuffer.

(** ** Definitions *)

Inductive THttpMethod := kUnknownMethod | kGET | kPOST | kDELETE.
Inductive THttpVersion := kUnknownVer | kHTTP_0_9 | kHTTP_1_0 | kHTTP_1_1 | kHTTP_2_0.

#[export] Instance THttpMethod_eq_dec : EqDecision THttpMethod.
Proof. solve_decision. Defined.
#[export] Instance THttpVersion_eq_dec : EqDecision THttpVersion.
Proof. solve_decision. Defined.

Definition method2string (m : THttpMethod) : bytes :=
  match m with
  | kUnknownMethod => str "unknown"
  | kGET => str "GET"
  | kPOST => str "POST"
  | kDELETE => str "DELETE"
  end.

Definition version2string (v : THttpVersion) : bytes :=
  match v with
  | kUnknownVer => str "unknown"
  | kHTTP_0_9 => str "HTTP/0.9"
  | kHTTP_1_0 => str "HTTP/1.0"
  | kHTTP_1_1 => str "HTTP/1.1"
  | kHTTP_2_0 => str "HTTP/2.0"
  end.

(** The values below [kMethodMax] and [kVersionMax], in the order of the loops. *)
Definition all_methods : list THttpMethod := [kUnknownMethod; kGET; kPOST; kDELETE].
Definition all_versions : list THttpVersion :=
  [kUnknownVer; kHTTP_0_9; kHTTP_1_0; kHTTP_1_1; kHTTP_2_0].

(** The first entry of a table whose text equals the string. *)
Fixpoint lookup_name {A} (name : A -> bytes) (l : list A) (s : bytes) (dflt : A) : A :=
  match l with
  | [] => dflt
  | a :: l' => if strcmp0 s (name a) then a else lookup_name name l' s dflt
  end.

Definition GetHttpMethod (s : bytes) : THttpMethod :=
  lookup_name method2string all_methods s kUnknownMethod.

Definition GetHttpVersion (s : bytes) : THttpVersion :=
  lookup_name version2string all_versions s kUnknownVer.

Record RequestLine := mkRequestLine {
  method_ : THttpMethod;
  url_ : bytes;
  version_ : THttpVersion
}.

Definition new_RequestLine : RequestLine := mkRequestLine kPOST [] kHTTP_1_1.

Definition SetMethod (l : RequestLine) (m : THttpMethod) : RequestLine :=
  mkRequestLine m (url_ l) (version_ l).
Definition SetUrl (l : RequestLine) (u : bytes) : RequestLine :=
  mkRequestLine (method_ l) u (version_ l).
Definition SetVersion (l : RequestLine) (v : THttpVersion) : RequestLine :=
  mkRequestLine (method_ l) (url_ l) v.

Definition RequestLine_ToString (l : RequestLine) : bytes :=
  method2string (method_ l) ++ str " " ++ url_ l ++ str " " ++ version2string (version_ l) ++ crlf.

(** The line is left as it was when the result is [false]. *)
Definition RequestLine_ParseFromString (l : RequestLine) (from : bytes) : res (bool * RequestLine) :=
  res ← split from (str " ");
  match res with
  | [m; u; v] => Ok (true, mkRequestLine (GetHttpMethod m) u (GetHttpVersion v))
  | _ => Ok (false, l)
  end.

Definition RequestLine_AppendToBuffer (l : RequestLine) (b : AutoBuffer) : res AutoBuffer :=
  WriteString b (RequestLine_ToString l).

Record StatusLine := mkStatusLine {
  sl_version_ : THttpVersion;
  status_code_ : Z;
  status_desc_ : bytes
}.

Definition kStatusDescOk : bytes := str "OK".
Definition kStatusDescSwitchProtocol : bytes := str "Switching Protocols".

Definition new_StatusLine : StatusLine := mkStatusLine kHTTP_1_1 200 [].

Definition SetStatusVersion (l : StatusLine) (v : THttpVersion) : StatusLine :=
  mkStatusLine v (status_code_ l) (status_desc_ l).
Definition SetStatusCode (l : StatusLine) (c : Z) : StatusLine :=
  mkStatusLine (sl_version_ l) c (status_desc_ l).
Definition SetStatusDesc (l : StatusLine) (d : bytes) : StatusLine :=
  mkStatusLine (sl_version_ l) (status_code_ l) d.

(** The code is printed with ["%u"] into four bytes. *)
Definition StatusLine_ToString (l : StatusLine) : bytes :=
  version2string (sl_version_ l) ++ str " "
  ++ snprintf 4 (dec (wrap32 (status_code_ l))) ++ str " " ++ status_desc_ l ++ crlf.

(** Version and description are assigned before [std::stoi] can throw. *)
Definition StatusLine_ParseFromString (l : StatusLine) (from : bytes) : res (bool * StatusLine) :=
  res ← split from (str " ");
  match res with
  | [v; c; d] =>
      code ← stoi c;
      Ok (negb ((code <? 0) || (1000 <? code)), mkStatusLine (GetHttpVersion v) code d)
  | _ => Ok (false, l)
  end.

Definition StatusLine_AppendToBuffer (l : StatusLine) (b : AutoBuffer) : res AutoBuffer :=
  WriteString b (StatusLine_ToString l).

(** ** Specifications *)

(** A word of a first line: nonempty, without spaces. *)
Definition word (s : bytes) : Prop := s <> [] /\ 32 ∉ s.

(** A request line that can be printed and read back. *)
Definition request_line_ok (l : RequestLine) : Prop := word (url_ l).

Definition status_line_ok (l : StatusLine) : Prop :=
  word (status_desc_ l) /\ 0 <= status_code_ l < 1000.

(** The text the HTTP parsers hand over: the line without its CRLF. *)
Definition request_text (l : RequestLine) : bytes :=
  method2string (method_ l) ++ str " " ++ url_ l ++ str " " ++ version2string (version_ l).

Definition status_text (l : StatusLine) : bytes :=
  version2string (sl_version_ l) ++ str " " ++ dec (status_code_ l) ++ str " " ++ status_desc_ l.

(** ** Lemmas *)

Lemma word_no_space (s : bytes) : word s -> ~ occurs_in (str " ") s /\ s <> [].
Proof.
  intros [Hn Hs]. split; [|done]. intros [i [t Ht]]. apply Hs.
  rewrite <- (take_drop i s), Ht. set_solver.
Qed.

Lemma str_word (s : bytes) : bool_decide (s <> []) && bool_decide (32 ∉ s) = true -> word s.
Proof. rewrite andb_true_iff, !bool_decide_eq_true. done. Qed.

Lemma method2string_word (m : THttpMethod) : word (method2string m).
Proof. apply str_word. by destruct m. Qed.

Lemma version2string_word (v : THttpVersion) : word (version2string v).
Proof. apply str_word. by destruct v. Qed.

Lemma dec_word (z : Z) : word (dec z).
Proof.
  split; [apply dec_nonnil|]. intros H.
  pose proof (dec_digit z) as Hd. rewrite Forall_forall in Hd. apply Hd in H. done.
Qed.

Lemma GetHttpMethod_name (m : THttpMethod) : GetHttpMethod (method2string m) = m.
Proof. by destruct m. Qed.

Lemma GetHttpVersion_name (v : THttpVersion) : GetHttpVersion (version2string v) = v.
Proof. by destruct v. Qed.

#[export] Hint Resolve method2string_word version2string_word dec_word : unixtar.
#[export] Hint Rewrite GetHttpMethod_name GetHttpVersion_name : unixtar.

(** Three words separated by single spaces are the three fields. *)
Lemma split_words3 (a b c : bytes) :
  word a -> word b -> word c ->
  split (a ++ str " " ++ b ++ str " " ++ c) (str " ") = Ok [a; b; c].
Proof.
  intros Ha Hb Hc.
  assert (a ++ str " " ++ b ++ str " " ++ c = join (str " ") [a; b; c]) as -> by done.
  apply split_join; [done|apply border_free_1|].
  repeat constructor; by apply word_no_space.
Qed.

Lemma RequestLine_Parse_text (l l0 : RequestLine) :
  request_line_ok l -> RequestLine_ParseFromString l0 (request_text l) = Ok (true, l).
Proof.
  intros Hu. unfold RequestLine_ParseFromString, request_text.
  rewrite split_words3 by auto with unixtar. cbn [mbind res_bind].
  autorewrite with unixtar. by destruct l.
Qed.

Lemma StatusLine_Parse_text (l l0 : StatusLine) :
  status_line_ok l -> StatusLine_ParseFromString l0 (status_text l) = Ok (true, l).
Proof.
  intros [Hd Hc]. unfold StatusLine_ParseFromString, status_text.
  rewrite split_words3 by auto with unixtar. cbn [mbind res_bind].
  rewrite stoi_dec by lia. cbn [mbind res_bind]. autorewrite with unixtar.
  destruct (Z.ltb_spec (status_code_ l) 0); [lia|].
  destruct (Z.ltb_spec 1000 (status_code_ l)); [lia|]. by destruct l.
Qed.

Lemma RequestLine_ToString_text (l : RequestLine) :
  RequestLine_ToString l = request_text l ++ crlf.
Proof. unfold RequestLine_ToString, request_text. by rewrite <- !app_assoc. Qed.

Lemma StatusLine_ToString_text (l : StatusLine) :
  0 <= status_code_ l < 1000 -> StatusLine_ToString l = status_text l ++ crlf.
Proof.
  intros Hc. unfold StatusLine_ToString, status_text, wrap32.
  rewrite Z.mod_small by lia.
  rewrite snprintf_short.
  - by rewrite <- !app_assoc.
  - pose proof (dec_length 3 (status_code_ l)). lia.
Qed.

(** The parsers of a line, by the fields [split] finds: [true] needs three. *)
Lemma RequestLine_Parse_cases (l : RequestLine) (from : bytes) :
  exists b l', RequestLine_ParseFromString l from = Ok (b, l') /\
    (b = false -> l' = l) /\
    (b = true <-> exists m u v, split from (str " ") = Ok [m; u; v]).
Proof.
  unfold RequestLine_ParseFromString.
  destruct (fields_exist (str " ") ltac:(done) from) as (fs & Hne & <- & Hf).
  rewrite split_join_kept by (done || apply border_free_1).
  cbn [mbind res_bind].
  destruct (kept_fields false fs) as [|m [|u [|v [|? ?]]]]; eexists _, _; (split; [done|]);
    naive_solver.
Qed.

Lemma StatusLine_Parse_words (l : StatusLine) (v c d e : bytes) :
  word v -> word c -> word d -> word e ->
  StatusLine_ParseFromString l (v ++ str " " ++ c ++ str " " ++ d ++ str " " ++ e) = Ok (false, l).
Proof.
  intros Hv Hc Hd He. unfold StatusLine_ParseFromString.
  assert (v ++ str " " ++ c ++ str " " ++ d ++ str " " ++ e = join (str " ") [v; c; d; e]) as -> by done.
  rewrite split_join; [done|done|apply border_free_1|].
  repeat constructor; by apply word_no_space.
Qed.

(** ** Properties *)

(** A request line printed by [ToString] and read back, without its CRLF, by
    [ParseFromString] is the same line, for every method, version and URL without spaces;
    whatever the parsing object held before is overwritten. *)
Theorem RequestLine_roundtrip (l l0 : RequestLine) (Hurl : request_line_ok l) :
  exists text, RequestLine_ToString l = text ++ crlf /\
               RequestLine_ParseFromString l0 text = Ok (true, l).
Proof.
  exists (request_text l). split; [apply RequestLine_ToString_text|by apply RequestLine_Parse_text].
Qed.

Lemma RequestLine_roundtrip_witness :
  exists text, RequestLine_ToString (mkRequestLine kGET (str "/a/b") kHTTP_1_1) = text ++ crlf /\
               RequestLine_ParseFromString new_RequestLine text
               = Ok (true, mkRequestLine kGET (str "/a/b") kHTTP_1_1).
Proof.
  refine (RequestLine_roundtrip (mkRequestLine kGET (str "/a/b") kHTTP_1_1) new_RequestLine _).
  by apply str_word.
Defined.

(** A status line with a code below 1000 and a one-word reason phrase survives printing
    and parsing. *)
Theorem StatusLine_roundtrip (l l0 : StatusLine) (Hl : status_line_ok l) :
  exists text, StatusLine_ToString l = text ++ crlf /\
               StatusLine_ParseFromString l0 text = Ok (true, l).
Proof.
  exists (status_text l). split; [apply StatusLine_ToString_text, Hl|by apply StatusLine_Parse_text].
Qed.

Lemma StatusLine_roundtrip_witness :
  exists text, StatusLine_ToString (mkStatusLine kHTTP_1_1 404 (str "Missing")) = text ++ crlf /\
               StatusLine_ParseFromString new_StatusLine text
               = Ok (true, mkStatusLine kHTTP_1_1 404 (str "Missing")).
Proof.
  refine (StatusLine_roundtrip (mkStatusLine kHTTP_1_1 404 (str "Missing")) new_StatusLine _).
  split; [by apply str_word|simpl; lia].
Defined.

(** The status line the server itself prints for a protocol switch is refused by its own
    parser: the reason phrase has two words. *)
Theorem StatusLine_rejects_switch (code : Z) (v : THttpVersion) (l0 : StatusLine)
    (Hcode : 0 <= code < 1000) :
  exists text,
    StatusLine_ToString (mkStatusLine v code kStatusDescSwitchProtocol) = text ++ crlf /\
    StatusLine_ParseFromString l0 text = Ok (false, l0).
Proof.
  exists (status_text (mkStatusLine v code kStatusDescSwitchProtocol)). split.
  - by apply StatusLine_ToString_text.
  - apply (StatusLine_Parse_words l0 _ _ (str "Switching") (str "Protocols"));
      auto with unixtar; by apply str_word.
Qed.

Lemma StatusLine_rejects_switch_witness :
  exists text,
    StatusLine_ToString (mkStatusLine kHTTP_1_1 101 kStatusDescSwitchProtocol) = text ++ crlf /\
    StatusLine_ParseFromString new_StatusLine text = Ok (false, new_StatusLine).
Proof. refine (StatusLine_rejects_switch 101 kHTTP_1_1 new_StatusLine _). lia. Defined.

End FirstLine.
