(* ===== verification/HeaderField.v ===== *)
(** * Header fields (http/headerfield.h, http/headerfield.cc)

    The ordered map of header fields, its lookups, its printer and its
    parser. Two or more well-formed fields survive printing and parsing; a
    block of exactly one field comes back empty. *)
From S2P Require Import Prelude CLib StrUtil StdMap AutoBuffer.
Import StrUtil.

Module HeaderField.
Import AutoBuffer.

(** ** Definitions *)

Definition kHost : bytes := str "Host".
Definition kContentLength : bytes := str "Content-Length".
Definition kContentType : bytes := str "Content-Type".
Definition kConnection : bytes := str "Connection".
Definition kAccessControlAllowOrigin : bytes := str "Access-Control-Allow-Origin".
Definition kUpgrade : bytes := str "Upgrade".
Definition kSecWebSocketVersion : bytes := str "Sec-WebSocket-Version".
Definition kSecWebSocketKey : bytes := str "Sec-WebSocket-Key".
Definition kSecWebSocketAccept : bytes := str "Sec-WebSocket-Accept".
Definition kOctetStream : bytes := str "application/octet-stream".
Definition kTextPlain : bytes := str "text/plain".
Definition kConnectionClose : bytes := str "close".
Definition kKeepAlive : bytes := str "keep-alive".
Definition kConnectionUpgrade : bytes := str "Upgrade".
Definition kAccessControlOriginAll : bytes := str "*".
Definition kWebSocket : bytes := str "websocket".
Definition kSecWebSocketVersion13 : bytes := str "13".

(** The object is its one member [header_fields_]. *)
Abbreviation HeaderField := (smap bytes).

Definition InsertOrUpdate (h : HeaderField) (key value : bytes) : HeaderField := map_set key value h.

Definition HeaderSize (h : HeaderField) : Z :=
  fold_left (fun ret p => add64 (add64 (add64 ret (zlen p.1)) (zlen p.2)) 4) h 0.

(** The value as a C string, [None] for [nullptr]. *)
Fixpoint Get (h : HeaderField) (field : bytes) : option bytes :=
  match h with
  | [] => None
  | (k, v) :: h' => if strcmp0 k field then Some (cstr v) else Get h' field
  end.

Fixpoint ContentLength (h : HeaderField) : Z :=
  match h with
  | [] => 0
  | (k, v) :: h' => if strcmp0 k kContentLength then strtoul v else ContentLength h'
  end.

Definition __IsConnection (h : HeaderField) (value : bytes) : bool :=
  match Get h kConnection with
  | Some connection => strcmp0 connection value
  | None => false
  end.

Definition IsKeepAlive (h : HeaderField) : bool := __IsConnection h kKeepAlive.
Definition IsConnectionClose (h : HeaderField) : bool := __IsConnection h kConnectionClose.
Definition IsConnectionUpgrade (h : HeaderField) : bool := __IsConnection h kConnectionUpgrade.

Definition ToString (h : HeaderField) : bytes :=
  fold_left (fun target p => target ++ p.1 ++ str ": " ++ p.2 ++ crlf) h [] ++ crlf.

(** The loop of [ParseFromString]: the fields before a bad one stay inserted. *)
Fixpoint parse_lines (h : HeaderField) (headers : list bytes) : res (bool * HeaderField) :=
  match headers with
  | [] => Ok (true, h)
  | header_str :: headers' =>
      header_pair ← split header_str (str ": ");
      match header_pair with
      | [k; v] => parse_lines (InsertOrUpdate h k v) headers'
      | _ => Ok (false, h)
      end
  end.

Definition ParseFromString (h : HeaderField) (from : bytes) : res (bool * HeaderField) :=
  headers ← split from crlf;
  parse_lines h headers.

Definition Reset (h : HeaderField) : HeaderField := [].

Definition AppendToBuffer (h : HeaderField) (b : AutoBuffer) : res AutoBuffer :=
  WriteString b (ToString h).

(** ** Specifications *)

(** A name or a value that can be printed and read back: no NUL, no CR, no
    ": ", not empty. *)
Definition token (s : bytes) : Prop :=
  (s <> []) /\ (0 ∉ s) /\ (13 ∉ s) /\ ~ occurs_in (str ": ") s.

Definition field_ok (p : bytes * bytes) : Prop := token p.1 /\ token p.2.
Definition fields_ok (h : HeaderField) : Prop := map_sorted h /\ Forall field_ok h.

Definition line (p : bytes * bytes) : bytes := p.1 ++ str ": " ++ p.2.

(** The header block as the HTTP parsers hand it over: without the CRLFCRLF. *)
Definition block (h : HeaderField) : bytes := join crlf (line <$> h).

(** Decidable forms, for concrete fields. *)
Definition token_b (s : bytes) : bool :=
  bool_decide (s <> []) && bool_decide (0 ∉ s) && bool_decide (13 ∉ s) &&
  bool_decide (find_sub (str ": ") s = None).

(** ** Lemmas *)

Lemma token_dec (s : bytes) : token_b s = true -> token s.
Proof.
  unfold token_b. rewrite !andb_true_iff, !bool_decide_eq_true. intros (((? & ?) & ?) & ?).
  split_and!; try done. by apply find_sub_not_occurs.
Qed.

Lemma digits_token (s : bytes) :
  Forall (fun c => is_digit c = true) s -> s <> [] -> token s.
Proof.
  intros Hd Hn. rewrite Forall_forall in Hd. split_and!; [done|..].
  - intros H. by apply Hd in H.
  - intros H. by apply Hd in H.
  - intros [i [t Ht]]. assert (58 ∈ s) as H; [|by apply Hd in H].
    rewrite <- (take_drop i s), Ht. set_solver.
Qed.

Lemma not_occurs_elem (c : Z) (n s : bytes) : c ∉ s -> ~ occurs_in (c :: n) s.
Proof. intros H [i [t Ht]]. apply H. rewrite <- (take_drop i s), Ht. set_solver. Qed.

Lemma line_no_cr (p : bytes * bytes) : field_ok p -> 13 ∉ line p.
Proof. intros [(_ & _ & H1 & _) (_ & _ & H2 & _)]. unfold line. set_solver. Qed.

Lemma line_no_nul (p : bytes * bytes) : field_ok p -> 0 ∉ line p.
Proof. intros [(_ & H1 & _ & _) (_ & H2 & _ & _)]. unfold line. set_solver. Qed.

Lemma line_nonnil (p : bytes * bytes) : field_ok p -> line p <> [].
Proof. intros [(H1 & _) _]. unfold line. by destruct p.1. Qed.

Lemma split_line (p : bytes * bytes) :
  field_ok p -> split (line p) (str ": ") = Ok [p.1; p.2].
Proof.
  intros [(K1 & _ & _ & K2) (V1 & _ & _ & V2)].
  apply (split_join (str ": ") p.1 p.2 []); [done|by apply border_free_2|by repeat constructor].
Qed.

Lemma parse_lines_ok (h l : HeaderField) :
  Forall field_ok l -> parse_lines h (line <$> l) = Ok (true, map_insert_all h l).
Proof.
  intros Hl. revert h. induction Hl as [|p l Hp _ IH]; intros h; [done|]. simpl.
  rewrite split_line by done. cbn [mbind res_bind]. apply IH.
Qed.

Lemma split_block (p q : bytes * bytes) (h : HeaderField) :
  Forall field_ok (p :: q :: h) -> split (block (p :: q :: h)) crlf = Ok (line <$> p :: q :: h).
Proof.
  intros H. unfold block. rewrite !fmap_cons. apply split_join; [done|by apply border_free_2|].
  rewrite <- !fmap_cons. apply Forall_fmap. eapply Forall_impl; [exact H|]. intros x Hx. split.
  - by apply not_occurs_elem, line_no_cr.
  - by apply line_nonnil.
Qed.

(** The text of two or more fields parses back into them. *)
Lemma Parse_block (h : HeaderField) :
  fields_ok h -> (2 <= length h)%nat -> ParseFromString [] (block h) = Ok (true, h).
Proof.
  intros [Hs Hf] Hl. unfold ParseFromString. destruct h as [|p [|q h]]; simpl in Hl; [lia|lia|].
  rewrite split_block by done. cbn [mbind res_bind]. rewrite parse_lines_ok by done.
  by rewrite map_insert_all_id.
Qed.

Lemma fold_ToString (h : HeaderField) (acc : bytes) :
  fold_left (fun target p => target ++ p.1 ++ str ": " ++ p.2 ++ crlf) h acc
  = acc ++ concat ((fun p => line p ++ crlf) <$> h).
Proof.
  revert acc. induction h as [|p h IH]; intros acc; [by rewrite app_nil_r|].
  cbn [fold_left]. rewrite IH, fmap_cons. cbn [concat]. unfold line at 2.
  by rewrite <- !app_assoc.
Qed.

Lemma ToString_block (h : HeaderField) : h <> [] -> ToString h = block h ++ crlf ++ crlf.
Proof.
  intros Hn. unfold ToString. rewrite fold_ToString. rewrite app_nil_l, app_assoc. f_equal.
  induction h as [|p [|q h] IH]; [done|simpl; by rewrite app_nil_r|].
  change (concat ((fun p => line p ++ crlf) <$> p :: q :: h)) with
    ((line p ++ crlf) ++ concat ((fun p => line p ++ crlf) <$> q :: h)).
  rewrite IH by done. unfold block. simpl. by rewrite <- !app_assoc.
Qed.

(** Lookups in a map whose keys hold no NUL. *)
Lemma Get_find (h : HeaderField) (field : bytes) :
  Forall field_ok h -> 0 ∉ field -> Get h field = map_find field h.
Proof.
  intros Hf H0. assert (forall s, 0 ∉ s -> cstr s = s) as Hc.
  { intros s Hs. apply cstr_id, Forall_forall. by intros c Hin ->. }
  induction Hf as [|[k v] h [(_ & Hk & _) (_ & Hv & _)] _ IH]; [done|]. simpl in *.
  unfold strcmp0. rewrite !Hc by done.
  destruct (str_cmp field k) eqn:E; case_bool_decide as Hd; try done.
  - by apply str_cmp_eq in E as ->.
  - subst. by rewrite str_cmp_refl in E.
  - subst. by rewrite str_cmp_refl in E.
Qed.

Lemma ContentLength_Get (h : HeaderField) :
  ContentLength h = match Get h kContentLength with Some v => strtoul v | None => 0 end.
Proof.
  induction h as [|[k v] h IH]; simpl; [done|].
  destruct (strcmp0 k kContentLength); [|done].
  unfold strtoul, scan_number. rewrite (cstr_id (cstr v)); [done|].
  clear. induction v as [|c v IH]; simpl; [constructor|].
  destruct (Z.eqb_spec c 0); constructor; done.
Qed.

Lemma field_ok_set (k v : bytes) (h : HeaderField) :
  token k -> token v -> Forall field_ok h -> Forall field_ok (InsertOrUpdate h k v).
Proof.
  intros Hk Hv. unfold InsertOrUpdate. induction 1 as [|[k' v'] h Hp Hh IH]; simpl.
  - constructor; [by split|done].
  - assert (field_ok (k, v)) by (by split). destruct (str_cmp k k'); auto.
Qed.

Lemma fields_ok_set (k v : bytes) (h : HeaderField) :
  token k -> token v -> fields_ok h -> fields_ok (InsertOrUpdate h k v).
Proof. intros ? ? []. split; [by apply map_set_sorted|by apply field_ok_set]. Qed.

Lemma fields_ok_insert_all (l h : HeaderField) :
  Forall field_ok l -> fields_ok h -> fields_ok (map_insert_all h l).
Proof.
  intros Hl. revert h. induction Hl as [|[k v] l [] _ IH]; intros h Hh; [done|].
  by apply IH, fields_ok_set.
Qed.

Lemma set_length (k v : bytes) (h : HeaderField) :
  (length h <= length (InsertOrUpdate h k v) <= S (length h))%nat.
Proof.
  unfold InsertOrUpdate. induction h as [|[k' v'] h IH]; simpl; [lia|].
  destruct (str_cmp k k'); simpl; lia.
Qed.

Lemma line_length (p : bytes * bytes) : zlen (line p ++ crlf) = zlen p.1 + zlen p.2 + 4.
Proof. unfold line. rewrite !length_app. simpl. lia. Qed.

Lemma HeaderSize_sum (h : HeaderField) (acc : Z) :
  0 <= acc -> acc + zlen (concat ((fun p => line p ++ crlf) <$> h)) < 2 ^ 64 ->
  fold_left (fun ret p => add64 (add64 (add64 ret (zlen p.1)) (zlen p.2)) 4) h acc
  = acc + zlen (concat ((fun p => line p ++ crlf) <$> h)).
Proof.
  revert acc. induction h as [|[k v] h IH]; intros acc Ha Hl; [simpl; lia|].
  rewrite fmap_cons in *. cbn [concat fold_left fst snd] in *.
  rewrite (length_app (line _ ++ _)), Nat2Z.inj_add, line_length in *. cbn [fst snd] in *.
  rewrite (add64_id acc) by lia. rewrite (add64_id (acc + _)) by lia.
  rewrite add64_id by lia. rewrite IH by lia. lia.
Qed.

(** ** Properties *)

(** Two or more well-formed header fields printed by [ToString] and read back, up to the
    empty line, by [ParseFromString] give the same map. *)
Theorem HeaderField_roundtrip (h : HeaderField) (Hok : fields_ok h) (Hlen : (2 <= length h)%nat) :
  exists text, ToString h = text ++ crlf ++ crlf /\ ParseFromString [] text = Ok (true, h).
Proof.
  exists (block h). split; [|by apply Parse_block].
  apply ToString_block. destruct h; simpl in Hlen; [lia|done].
Qed.

Lemma HeaderField_roundtrip_witness :
  exists text,
    ToString [(str "Accept", str "*/*"); (str "Host", str "a:80")] = text ++ crlf ++ crlf /\
    ParseFromString [] text = Ok (true, [(str "Accept", str "*/*"); (str "Host", str "a:80")]).
Proof.
  refine (HeaderField_roundtrip [(str "Accept", str "*/*"); (str "Host", str "a:80")] _ _).
  - split; [by repeat constructor|]. repeat constructor; by apply token_dec.
  - simpl. lia.
Defined.

(** A header block of exactly one well-formed field is read back as no field at all, with
    the result [true]. *)
Theorem HeaderField_single_lost (k v : bytes) (h : HeaderField) (Hok : field_ok (k, v)) :
  exists text, ToString [(k, v)] = text ++ crlf ++ crlf /\ ParseFromString h text = Ok (true, h).
Proof.
  exists (block [(k, v)]). split; [by apply ToString_block|].
  unfold ParseFromString, block. simpl. rewrite split_no_sep; [done|done|by apply border_free_2|].
  by apply not_occurs_elem, line_no_cr.
Qed.

Lemma HeaderField_single_lost_witness :
  exists text, ToString [(kHost, str "a")] = text ++ crlf ++ crlf /\
               ParseFromString [] text = Ok (true, []).
Proof.
  refine (HeaderField_single_lost kHost (str "a") [] _). split; by apply token_dec.
Defined.

(** [HeaderSize] is the number of bytes [ToString] writes before the empty line. *)
Theorem HeaderSize_ToString (h : HeaderField) (Hsize : zlen (ToString h) < 2 ^ 64) :
  HeaderSize h = zlen (ToString h) - 2.
Proof.
  unfold HeaderSize, ToString in *. rewrite fold_ToString in *.
  rewrite length_app in *. simpl length in *. rewrite HeaderSize_sum; simpl; lia.
Qed.

Lemma HeaderSize_ToString_witness : HeaderSize [(kHost, str "a")] = 9.
Proof. refine (HeaderSize_ToString [(kHost, str "a")] _). vm_compute. reflexivity. Defined.

End HeaderField.
