(* ===== verification/HttpPacket.v ===== *)
(** * HTTP packets and the HTTP parser (http/httppacket.cc, httprequest.cc, httpresponse.cc)

    [HttpParser] is a state machine over the bytes a connection has received
    so far; the request and the response parser override its virtual
    methods. The virtual methods are a type class with one instance per
    subclass, and the theorems about [DoParse] are proved once, against the
    laws both instances satisfy: parsing terminates, and feeding a message
    in pieces gives the same parser as parsing it at once. *)
From S2P Require Import Prelude CLib StrUtil StdMap AutoBuffer FirstLine HeaderField.
Import StrUtil.

Module HttpPacket.
Import AutoBuffer FirstLine.

(** ** Definitions *)

Inductive TPosition := kNone | kFirstLine | kHeaders | kBody | kEnd | kError.

#[export] Instance TPosition_eq_dec : EqDecision TPosition.
Proof. solve_decision. Defined.

(** The block of memory the connection's receive buffer stands for. *)
Definition recv_block : Z := 0.

(** The parser together with the packet it fills ([http_packet_] and
    [headers_] point into the packet); [sub] holds the members the subclass
    adds. *)
Record HttpParser (S : Type) := mkHttpParser {
  position_ : TPosition;
  headers_ : HeaderField.HeaderField;
  body_ : AutoBuffer;
  first_line_len_ : Z;
  header_len_ : Z;
  resolved_len_ : Z;
  sub : S
}.
Arguments mkHttpParser {S}.
Arguments position_ {S}.
Arguments headers_ {S}.
Arguments body_ {S}.
Arguments first_line_len_ {S}.
Arguments header_len_ {S}.
Arguments resolved_len_ {S}.
Arguments sub {S}.

Section Base.
Context {S : Type}.
Implicit Types p : HttpParser S.

Definition new_HttpParser (s : S) : HttpParser S :=
  mkHttpParser kNone [] (AutoBuffer.new kMallocUnit) 0 0 0 s.

Definition IsEnd p : bool := bool_decide (position_ p = kEnd).
Definition IsErr p : bool := bool_decide (position_ p = kError).

Definition set_position p (q : TPosition) : HttpParser S :=
  mkHttpParser q (headers_ p) (body_ p) (first_line_len_ p) (header_len_ p) (resolved_len_ p) (sub p).
Definition set_resolved p (n : Z) : HttpParser S :=
  mkHttpParser (position_ p) (headers_ p) (body_ p) (first_line_len_ p) (header_len_ p) n (sub p).
Definition set_sub p (s : S) : HttpParser S :=
  mkHttpParser (position_ p) (headers_ p) (body_ p) (first_line_len_ p) (header_len_ p)
    (resolved_len_ p) s.
Definition set_headers p (h : HeaderField.HeaderField) : HttpParser S :=
  mkHttpParser (position_ p) h (body_ p) (first_line_len_ p) (header_len_ p) (resolved_len_ p) (sub p).
Definition set_lens p (first_line header resolved : Z) : HttpParser S :=
  mkHttpParser (position_ p) (headers_ p) (body_ p) first_line header resolved (sub p).

(** [HttpPacket::SetBody]: a view of the receive buffer from [off] on. *)
Definition SetBody p (off len : Z) : HttpParser S :=
  mkHttpParser (position_ p) (headers_ p) (ShallowCopyFrom (body_ p) (PExt recv_block off) len)
    (first_line_len_ p) (header_len_ p) (resolved_len_ p) (sub p).

(** [HttpPacket::ContentLength] *)
Definition packet_ContentLength p : Z :=
  let content_len := HeaderField.ContentLength (headers_ p) in
  if content_len <=? 0 then 0 else content_len.

Definition crlfcrlf : bytes := crlf ++ crlf.

(** [HttpParser::_ResolveHeaders]; [buffer] is what the receive buffer holds.
    Searching from beyond its end reads outside it. *)
Definition base_ResolveHeaders p (buffer : bytes) : res (bool * HttpParser S) :=
  if zlen buffer <? resolved_len_ p then Fault Undefined else
  let from := drop (Z.to_nat (resolved_len_ p)) buffer in
  match strnstr (Some from) (Some crlfcrlf) (sub64 (zlen buffer) (resolved_len_ p)) with
  | None => Ok (false, p)
  | Some ret =>
      '(ok, h) ← HeaderField.ParseFromString (headers_ p) (take ret from);
      let p := set_headers p h in
      if ok : bool then
        let resolved := add64 (resolved_len_ p) (Z.of_nat ret + 4) in
        Ok (true, set_position (set_lens p (first_line_len_ p)
                                  (sub64 resolved (first_line_len_ p)) resolved) kBody)
      else Ok (false, set_position p kError)
  end.

(** [HttpParser::_ResolveBody] *)
Definition base_ResolveBody p (buffer : bytes) : res (bool * HttpParser S) :=
  let content_length := HeaderField.ContentLength (headers_ p) in
  if content_length =? 0 then Ok (false, set_position p kError)
  else
    let p := set_resolved p (zlen buffer) in
    let curr_body_len := sub64 (sub64 (zlen buffer) (first_line_len_ p)) (header_len_ p) in
    if content_length <? curr_body_len then Ok (false, set_position p kError)
    else if content_length =? curr_body_len then
      Ok (true, SetBody (set_position p kEnd) (sub64 (zlen buffer) content_length) content_length)
    else Ok (false, p).

End Base.

(** The virtual methods of [HttpParser]. *)
Class HttpParserMethods (S : Type) := {
  _ResolveFirstLine : HttpParser S -> bytes -> res (bool * HttpParser S);
  _ResolveHeaders : HttpParser S -> bytes -> res (bool * HttpParser S);
  _ResolveBody : HttpParser S -> bytes -> res (bool * HttpParser S)
}.

Section DoParse.
Context {S : Type} `{HttpParserMethods S}.

(** One turn of the loop up to the tests on [position_]. *)
Definition parse_turn (p : HttpParser S) (buffer : bytes) : res (bool * HttpParser S) :=
  match position_ p with
  | kNone =>
      if (resolved_len_ p =? 0) && (0 <? zlen buffer)
      then _ResolveFirstLine (set_position p kFirstLine) buffer
      else Ok (false, p)
  | kFirstLine => _ResolveFirstLine p buffer
  | kHeaders => _ResolveHeaders p buffer
  | kBody => _ResolveBody p buffer
  | _ => Ok (false, p)
  end.

(** The [while (true)] of [DoParse]; running out of fuel stands for a loop
    without end. *)
Fixpoint parse_loop (fuel : nat) (p : HttpParser S) (buffer : bytes) : res (Z * HttpParser S) :=
  match fuel with
  | O => Fault Hang
  | Datatypes.S fuel' =>
      '(success, p) ← parse_turn p buffer;
      match position_ p with
      | kEnd => Ok (0, p)
      | kError => Ok (-1, p)
      | _ => if success : bool then parse_loop fuel' p buffer else Ok (-1, p)
      end
  end.

(** A turn that succeeds moves [position_] forward, and there are five
    positions before [kEnd]. *)
Definition parse_fuel : nat := 5.

Definition DoParse (p : HttpParser S) (buffer : bytes) : res (Z * HttpParser S) :=
  if zlen buffer <=? 0 then Ok (0, p)
  else if sub64 (zlen buffer) (resolved_len_ p) <=? 0 then Ok (0, p)
  else parse_loop parse_fuel p buffer.

(** The calls of a connection that receives [chunks] one after the other:
    the buffer grows and is parsed, until the parser has ended or failed. *)
Fixpoint feed (p : HttpParser S) (buffer : bytes) (chunks : list bytes) : res (HttpParser S) :=
  match chunks with
  | [] => Ok p
  | c :: chunks' =>
      '(_, p) ← DoParse p (buffer ++ c);
      if IsEnd p || IsErr p then Ok p else feed p (buffer ++ c) chunks'
  end.

End DoParse.

(** ** The request parser *)

(** The members [http::request::Parser] adds. *)
Record request_sub := mkRequestSub {
  request_line_ : RequestLine;
  is_upgrade_to_ws_ : bool
}.

Definition new_request : HttpParser request_sub :=
  new_HttpParser (mkRequestSub new_RequestLine false).

Definition request_ResolveFirstLine (p : HttpParser request_sub) (buffer : bytes)
    : res (bool * HttpParser request_sub) :=
  match strnstr (Some buffer) (Some crlf) (zlen buffer) with
  | Some i =>
      '(ok, l) ← RequestLine_ParseFromString (request_line_ (sub p)) (take i buffer);
      let p := set_sub p (mkRequestSub l (is_upgrade_to_ws_ (sub p))) in
      if ok : bool then
        Ok (true, set_lens (set_position p kHeaders) (Z.of_nat i + 2) (header_len_ p) (Z.of_nat i + 2))
      else Ok (false, set_position p kError)
  | None => Ok (false, set_resolved (set_position p kFirstLine) 0)
  end.

Definition request_ResolveHeaders (p : HttpParser request_sub) (buffer : bytes)
    : res (bool * HttpParser request_sub) :=
  '(ok, p) ← base_ResolveHeaders p buffer;
  if ok : bool then
    Ok (true, if HeaderField.IsConnectionUpgrade (headers_ p)
              then set_sub p (mkRequestSub (request_line_ (sub p)) true) else p)
  else Ok (false, p).

Definition request_ResolveBody (p : HttpParser request_sub) (buffer : bytes)
    : res (bool * HttpParser request_sub) :=
  if bool_decide (method_ (request_line_ (sub p)) = kGET) then
    if 0 <? sub64 (zlen buffer) (resolved_len_ p) then Ok (false, set_position p kError)
    else Ok (true, set_position p kEnd)
  else base_ResolveBody p buffer.

#[export] Instance request_methods : HttpParserMethods request_sub := {
  _ResolveFirstLine := request_ResolveFirstLine;
  _ResolveHeaders := request_ResolveHeaders;
  _ResolveBody := request_ResolveBody
}.

(** [HttpRequest::Body] and [HttpRequest::ContentLength] of the packet. *)
Definition request_Body (p : HttpParser request_sub) : option AutoBuffer :=
  if bool_decide (method_ (request_line_ (sub p)) = kGET) then None else Some (body_ p).

Definition request_ContentLength (p : HttpParser request_sub) : Z :=
  if bool_decide (method_ (request_line_ (sub p)) = kGET) then 0 else packet_ContentLength p.

(** ["%zu"] into [char len_str[9]] *)
Definition len_str (n : Z) : bytes := snprintf 9 (dec n).

Definition insert_opt (h : HeaderField.HeaderField) (m : option (smap bytes)) :
    HeaderField.HeaderField :=
  match m with
  | Some l => fold_left (fun h p => HeaderField.InsertOrUpdate h p.1 p.2) l h
  | None => h
  end.

(** [http::request::Pack] *)
Definition request_fields (host : bytes) (headers : option (smap bytes)) (send_body : bytes) :
    HeaderField.HeaderField :=
  let h := HeaderField.InsertOrUpdate [] HeaderField.kHost host in
  let h := HeaderField.InsertOrUpdate h HeaderField.kConnection HeaderField.kConnectionClose in
  let h := insert_opt h headers in
  HeaderField.InsertOrUpdate h HeaderField.kContentLength (len_str (zlen send_body)).

Definition request_Pack (host url : bytes) (headers : option (smap bytes)) (send_body : bytes)
    (out_buff : AutoBuffer) : res AutoBuffer :=
  let b := AutoBuffer.Reset out_buff in
  let request_line := SetUrl (SetVersion (SetMethod new_RequestLine kPOST) kHTTP_1_1) url in
  b ← RequestLine_AppendToBuffer request_line b;
  b ← HeaderField.AppendToBuffer (request_fields host headers send_body) b;
  WriteString b send_body.

(** ** The response parser *)

Definition new_response : HttpParser StatusLine := new_HttpParser new_StatusLine.

Definition response_ResolveFirstLine (p : HttpParser StatusLine) (buffer : bytes)
    : res (bool * HttpParser StatusLine) :=
  match strnstr (Some buffer) (Some crlf) (zlen buffer) with
  | Some i =>
      '(ok, l) ← StatusLine_ParseFromString (sub p) (take i buffer);
      let p := set_sub p l in
      if ok : bool then
        Ok (true, set_lens (set_position p kHeaders) (Z.of_nat i + 2) (header_len_ p) (Z.of_nat i + 2))
      else Ok (false, set_position p kError)
  | None => Ok (false, set_resolved (set_position p kFirstLine) 0)
  end.

#[export] Instance response_methods : HttpParserMethods StatusLine := {
  _ResolveFirstLine := response_ResolveFirstLine;
  _ResolveHeaders := base_ResolveHeaders;
  _ResolveBody := base_ResolveBody
}.

(** [http::response::Pack] *)
Definition response_fields (headers : option (smap bytes)) (send_body : option bytes) :
    HeaderField.HeaderField :=
  let h := insert_opt [] headers in
  match send_body with
  | Some body => HeaderField.InsertOrUpdate h HeaderField.kContentLength (len_str (zlen body))
  | None => h
  end.

Definition response_Pack (http_ver : THttpVersion) (resp_code : Z) (status_desc : bytes)
    (headers : option (smap bytes)) (send_body : option bytes) (out_buff : AutoBuffer)
    : res AutoBuffer :=
  let b := AutoBuffer.Reset out_buff in
  let status_line :=
    SetStatusVersion (SetStatusDesc (SetStatusCode new_StatusLine resp_code) (cstr status_desc))
      http_ver in
  b ← StatusLine_AppendToBuffer status_line b;
  b ← HeaderField.AppendToBuffer (response_fields headers send_body) b;
  match send_body with
  | Some body => WriteString b body
  | None => Ok b
  end.

End HttpPacket.
