(* ===== verification/HttpTheory.v ===== *)
(** * Theory of the HTTP parser

    The laws both subclasses of [HttpParser] satisfy, as a type class with
    an instance for requests and one for responses, and the theorems proved
    from the laws: [DoParse] returns, a message fed in pieces is parsed like
    the whole message, and what [Pack] writes is read back. *)
From S2P Require Import Prelude CLib StrUtil StdMap AutoBuffer FirstLine HeaderField HttpPacket.
Import StrUtil.

Module HttpTheory.
Import AutoBuffer FirstLine HttpPacket.

(** ** The interface of a subclass *)

(** The common shape of the two [_ResolveFirstLine] methods. *)
Definition resolve_line {S} (parse : S -> bytes -> res (bool * S)) (p : HttpParser S)
    (buffer : bytes) : res (bool * HttpParser S) :=
  match strnstr (Some buffer) (Some crlf) (zlen buffer) with
  | Some i =>
      '(ok, s) ← parse (sub p) (take i buffer);
      let p := set_sub p s in
      if ok : bool then
        Ok (true, set_lens (set_position p kHeaders) (Z.of_nat i + 2) (header_len_ p) (Z.of_nat i + 2))
      else Ok (false, set_position p kError)
  | None => Ok (false, set_resolved (set_position p kFirstLine) 0)
  end.

(** What a subclass decides: how it reads its first line, what it notes when
    the headers are complete, and whether the message has no body. *)
Class HttpParserLaws (S : Type) `{HttpParserMethods S} := {
  parse_line : S -> bytes -> res (bool * S);
  note_headers : S -> HeaderField.HeaderField -> S;
  bodyless : S -> bool;
  first_line_law : forall p buffer, _ResolveFirstLine p buffer = resolve_line parse_line p buffer;
  headers_law : forall p buffer,
    _ResolveHeaders p buffer =
    ('(ok, p) ← base_ResolveHeaders p buffer;
     Ok (ok, if ok : bool then set_sub p (note_headers (sub p) (headers_ p)) else p));
  body_law : forall p buffer,
    _ResolveBody p buffer =
    if bodyless (sub p) then
      if 0 <? sub64 (zlen buffer) (resolved_len_ p) then Ok (false, set_position p kError)
      else Ok (true, set_position p kEnd)
    else base_ResolveBody p buffer;
  parse_line_faults : forall s l f, parse_line s l = Fault f -> f <> Hang
}.

Lemma split_total (s sep : bytes) :
  sep <> [] -> border_free sep -> exists fs, split s sep = Ok fs.
Proof.
  intros Hs Hb. destruct (fields_exist sep Hs s) as (fs & Hne & <- & Hf).
  eexists. by apply split_join_kept.
Qed.

#[export, refine] Instance request_laws : HttpParserLaws request_sub := {
  parse_line := fun s line =>
    '(ok, l) ← RequestLine_ParseFromString (request_line_ s) line;
    Ok (ok, mkRequestSub l (is_upgrade_to_ws_ s));
  note_headers := fun s h =>
    if HeaderField.IsConnectionUpgrade h then mkRequestSub (request_line_ s) true else s;
  bodyless := fun s => bool_decide (method_ (request_line_ s) = kGET)
}.
Proof.
  - intros p buffer. cbn [_ResolveFirstLine request_methods].
    unfold request_ResolveFirstLine, resolve_line. case_match; [|done].
    by destruct (RequestLine_ParseFromString _ _) as [[[] ?]|].
  - intros p buffer. cbn [_ResolveHeaders request_methods]. unfold request_ResolveHeaders.
    destruct (base_ResolveHeaders p buffer) as [[[] p']|]; cbn; [|done..].
    destruct (HeaderField.IsConnectionUpgrade (headers_ p')); [done|by destruct p'].
  - done.
  - intros s l f. unfold RequestLine_ParseFromString.
    destruct (split_total l (str " ")) as [fs ->]; [done|apply border_free_1|].
    cbn [mbind res_bind]. by repeat case_match.
Defined.

#[export, refine] Instance response_laws : HttpParserLaws StatusLine := {
  parse_line := StatusLine_ParseFromString;
  note_headers := fun s _ => s;
  bodyless := fun _ => false
}.
Proof.
  - done.
  - intros p buffer. cbn [_ResolveHeaders response_methods].
    destruct (base_ResolveHeaders p buffer) as [[[] p']|]; cbn; [|done..]. by destruct p'.
  - done.
  - intros s l f. unfold StatusLine_ParseFromString.
    destruct (split_total l (str " ")) as [fs ->]; [done|apply border_free_1|].
    cbn [mbind res_bind]. unfold stoi. repeat case_match; simplify_eq; cbn in *; congruence.
Defined.

(** ** Searching in a growing buffer *)

Lemma cstr_app_prefix (a b : bytes) : cstr a `prefix_of` cstr (a ++ b).
Proof.
  induction a as [|c a IH]; simpl; [apply prefix_nil|].
  destruct (c =? 0); [done|]. by apply prefix_cons.
Qed.

Lemma cstr_app_nonul (a b : bytes) : 0 ∉ a -> cstr (a ++ b) = a ++ cstr b.
Proof.
  induction a as [|c a IH]; simpl; intros H; [done|].
  destruct (Z.eqb_spec c 0); [set_solver|]. rewrite IH; set_solver.
Qed.

Lemma find_sub_prefix_stable (n s t : bytes) (i : nat) :
  find_sub n s = Some i -> s `prefix_of` t -> find_sub n t = Some i.
Proof.
  intros Hf [u ->]. apply find_sub_Some in Hf as (H1 & H2 & H3).
  assert (length n + i <= length s)%nat as Hl.
  { destruct H1 as [v Hv]. apply (f_equal length) in Hv.
    rewrite length_drop, length_app in Hv. lia. }
  apply find_sub_first.
  - rewrite drop_app_le by lia. by apply prefix_app_r.
  - rewrite length_app. lia.
  - intros j Hj Hp. rewrite drop_app_le in Hp by lia. apply (H3 j Hj).
    eapply prefix_app_short; [exact Hp|]. rewrite length_drop. lia.
Qed.

Lemma crlf_no_nul : 0 ∉ crlf.
Proof. by eapply bool_decide_unpack; vm_compute. Qed.

Lemma crlfcrlf_no_nul : 0 ∉ crlfcrlf.
Proof. by eapply bool_decide_unpack; vm_compute. Qed.

(** The search the parser makes from position [r] of the buffer. *)
Definition find_at (n buffer : bytes) (r : Z) : option nat :=
  strnstr (Some (drop (Z.to_nat r) buffer)) (Some n) (sub64 (zlen buffer) r).

Lemma find_at_spec (n buffer : bytes) (r : Z) :
  n <> [] -> 0 ∉ n -> zlen n < 2 ^ 31 -> zlen buffer < 2 ^ 31 -> 0 <= r <= zlen buffer ->
  find_at n buffer r = find_sub n (cstr (drop (Z.to_nat r) buffer)).
Proof.
  intros Hn H0 Hl Hb Hr. unfold find_at. rewrite sub64_id by lia.
  rewrite strnstr_find; [|done| |done|lia|].
  - rewrite take_ge; [done|]. rewrite length_drop. lia.
  - apply Forall_forall. by intros c Hc ->.
  - rewrite length_drop. lia.
Qed.

Lemma find_at_stable (n a b : bytes) (r : Z) (i : nat) :
  n <> [] -> 0 ∉ n -> zlen n < 2 ^ 31 -> zlen (a ++ b) < 2 ^ 31 -> 0 <= r <= zlen a ->
  find_at n a r = Some i -> find_at n (a ++ b) r = Some i.
Proof.
  intros Hn H0 Hl Hb Hr. rewrite length_app in Hb.
  rewrite !find_at_spec by (rewrite ?length_app; done || lia).
  intros Hi. eapply find_sub_prefix_stable; [done|].
  rewrite drop_app_le by lia. apply cstr_app_prefix.
Qed.

Lemma find_at_bound (n buffer : bytes) (r : Z) (i : nat) :
  n <> [] -> 0 ∉ n -> zlen n < 2 ^ 31 -> zlen buffer < 2 ^ 31 -> 0 <= r <= zlen buffer ->
  find_at n buffer r = Some i -> r + Z.of_nat i + zlen n <= zlen buffer.
Proof.
  intros Hn H0 Hl Hb Hr. rewrite find_at_spec by done. intros (H1 & H2 & _)%find_sub_Some.
  pose proof (cstr_length (drop (Z.to_nat r) buffer)) as Hc.
  destruct H1 as [v Hv]. apply (f_equal length) in Hv.
  rewrite length_drop, length_app in *. lia.
Qed.

(** ** Termination *)

Section Theory.
Context {S : Type} `{HttpParserLaws S}.
Implicit Types p q : HttpParser S.

(** The turns left before [kEnd]. *)
Definition rank (pos : TPosition) : nat :=
  match pos with
  | kNone => 4 | kFirstLine => 3 | kHeaders => 2 | kBody => 1 | kEnd | kError => 0
  end.

Lemma parse_lines_total (l : list bytes) (h : HeaderField.HeaderField) :
  exists r, HeaderField.parse_lines h l = Ok r.
Proof.
  revert h. induction l as [|x l IH]; intros h; [by eexists|].
  cbn [HeaderField.parse_lines].
  destruct (split_total x (str ": ")) as [fs ->]; [done|by apply border_free_2|].
  cbn [mbind res_bind]. repeat case_match; eauto.
Qed.

Lemma HeaderParse_total (h : HeaderField.HeaderField) (s : bytes) :
  exists r, HeaderField.ParseFromString h s = Ok r.
Proof.
  unfold HeaderField.ParseFromString.
  destruct (split_total s crlf) as [fs ->]; [done|by apply border_free_2|]. apply parse_lines_total.
Qed.

(** The parser of the first line faults. *)
Definition line_fault (f : fault) : Prop := exists s l, parse_line s l = Fault f.

(** The parser has not gone past the bytes received. *)
Definition in_range p (buffer : bytes) : Prop := 0 <= resolved_len_ p <= zlen buffer /\ zlen buffer < 2 ^ 31.

(** A turn faults only through the parser of the first line, or from a
    parser that is past the end of the buffer. *)
Definition turn_fault p (buffer : bytes) (f : fault) : Prop :=
  line_fault f \/ f = Undefined /\ ~ in_range p buffer.

(** The buffer is searched for [n] from [r] on: what is found lies in it. *)
Lemma found_range (n buffer : bytes) (r : Z) (i : nat) :
  n <> [] -> 0 ∉ n -> zlen n < 2 ^ 31 -> zlen buffer < 2 ^ 31 -> 0 <= r <= zlen buffer ->
  strnstr (Some (drop (Z.to_nat r) buffer)) (Some n) (sub64 (zlen buffer) r) = Some i ->
  r + Z.of_nat i + zlen n <= zlen buffer.
Proof. apply find_at_bound. Qed.

Lemma resolve_line_cases q (buffer : bytes) :
  (exists f, resolve_line parse_line q buffer = Fault f /\ line_fault f) \/
  (exists b q', resolve_line parse_line q buffer = Ok (b, q') /\
    (b = true -> (rank (position_ q') < 3)%nat) /\ (in_range q buffer -> in_range q' buffer)).
Proof.
  unfold resolve_line. case_match eqn:Ef; [|right; eexists _, _; split_and!; [done..|]; unfold in_range; cbn; lia].
  destruct (parse_line _ _) as [[[] s]|f] eqn:E; cbn.
  - right. eexists _, _. split; [done|]. split; [simpl; lia|]. intros [Hr Hb]. split; [|done]. cbn.
    pose proof (found_range crlf buffer 0 n) as Hn. change (Z.to_nat 0) with O in Hn. rewrite drop_0, sub64_id, Z.sub_0_r in Hn by lia.
    assert (0 + Z.of_nat n + zlen crlf <= zlen buffer) as Hl by (apply Hn; [done|apply crlf_no_nul|done|lia|lia|done]).
    change (zlen crlf) with 2 in Hl. lia.
  - right. by eexists _, _.
  - left. exists f. split; [done|]. by eexists _, _.
Qed.

Lemma base_ResolveHeaders_cases p (buffer : bytes) :
  (base_ResolveHeaders p buffer = Fault Undefined /\ ~ in_range p buffer) \/
  (exists b q, base_ResolveHeaders p buffer = Ok (b, q) /\ (b = true -> position_ q = kBody) /\
    (in_range p buffer -> in_range q buffer)).
Proof.
  unfold base_ResolveHeaders. destruct (Z.ltb_spec (zlen buffer) (resolved_len_ p)).
  { left. split; [done|]. intros [? _]. lia. }
  right. case_match eqn:Ef; [|by eexists _, _].
  destruct (HeaderParse_total (headers_ p) (take n (drop (Z.to_nat (resolved_len_ p)) buffer))) as [[[] h] ->]; cbn.
  - eexists _, _. split; [done|]. split; [done|]. intros [Hr Hb]. split; [|done]. cbn.
    apply found_range in Ef; [|done|apply crlfcrlf_no_nul|done..]. change (zlen crlfcrlf) with 4 in Ef.
    rewrite add64_id by lia. lia.
  - by eexists _, _.
Qed.

Lemma parse_turn_cases p (buffer : bytes) :
  (exists f, parse_turn p buffer = Fault f /\ turn_fault p buffer f) \/
  (exists b q, parse_turn p buffer = Ok (b, q) /\
    (b = true -> (rank (position_ q) < rank (position_ p))%nat) /\ (in_range p buffer -> in_range q buffer)).
Proof.
  unfold parse_turn. destruct (position_ p) eqn:Hp; simpl.
  - case_match; [|by right; eexists _, _]. rewrite first_line_law.
    destruct (resolve_line_cases (set_position p kFirstLine) buffer) as [(f & -> & Hf)|(b & q & -> & Hb & Hq)];
      [left; exists f; split; [done|by left]|].
    right. eexists _, _. split; [done|]. split; [|exact Hq]. intros ?%Hb. lia.
  - rewrite first_line_law. destruct (resolve_line_cases p buffer) as [(f & -> & Hf)|(b & q & -> & Hb & Hq)];
      [left; exists f; split; [done|by left]|right; eauto].
  - rewrite headers_law. destruct (base_ResolveHeaders_cases p buffer) as [[-> Hn]|(b & q & -> & Hb & Hq)]; cbn [mbind res_bind].
    { left. eexists. split; [done|by right]. }
    right. destruct b; eexists _, _; (split; [done|]); (split; [|exact Hq]); [|done].
    cbn. rewrite (Hb eq_refl). simpl. lia.
  - rewrite body_law. unfold base_ResolveBody.
    repeat case_match; right; eexists _, _; (split; [done|]); (split; [simpl; lia|]);
      unfold in_range; cbn; lia.
  - right. by eexists _, _.
  - right. by eexists _, _.
Qed.

Lemma parse_loop_returns (fuel : nat) p (buffer : bytes) :
  (rank (position_ p) < fuel)%nat ->
  (exists f, parse_loop fuel p buffer = Fault f /\ turn_fault p buffer f) \/
  (exists r q, parse_loop fuel p buffer = Ok (r, q) /\ (in_range p buffer -> in_range q buffer)).
Proof.
  revert p. induction fuel as [|fuel IH]; intros p Hr; [lia|]. cbn [parse_loop].
  destruct (parse_turn_cases p buffer) as [(f & -> & Hf)|(b & q & -> & Hb & Hq)].
  { left. by exists f. }
  cbn [mbind res_bind]. destruct b; [|destruct (position_ q); eauto].
  specialize (Hb eq_refl).
  assert (rank (position_ q) < fuel)%nat as Hr' by lia.
  destruct (position_ q) eqn:E; eauto; (destruct (IH q) as [(f & -> & [Hf|[Hf Hn]])|(r & q' & -> & Hq')];
    [by rewrite E|left; exists f; split; [done|by left]|left; exists f; split; [done|right; auto]|right; eauto 10]).
Qed.

Lemma DoParse_returns p (buffer : bytes) :
  (exists f, DoParse p buffer = Fault f /\ turn_fault p buffer f) \/
  (exists r q, DoParse p buffer = Ok (r, q) /\ (in_range p buffer -> in_range q buffer)).
Proof.
  unfold DoParse. destruct (zlen buffer <=? 0); [eauto|]. case_match; [eauto|].
  apply parse_loop_returns. destruct (position_ p); simpl; unfold parse_fuel; lia.
Qed.

(** More fuel than needed changes nothing. *)
Lemma parse_loop_more (fuel : nat) p (buffer : bytes) :
  parse_loop fuel p buffer <> Fault Hang ->
  parse_loop (Datatypes.S fuel) p buffer = parse_loop fuel p buffer.
Proof.
  revert p. induction fuel as [|fuel IH]; intros p Hn; [done|].
  change (parse_loop (Datatypes.S (Datatypes.S fuel)) p buffer) with
    ('(success, p) ← parse_turn p buffer;
     match position_ p with
     | kEnd => Ok (0, p)
     | kError => Ok (-1, p)
     | _ => if success : bool then parse_loop (Datatypes.S fuel) p buffer else Ok (-1, p)
     end).
  cbn [parse_loop] in Hn |- *. destruct (parse_turn p buffer) as [[b q]|f]; [|done].
  cbn [mbind res_bind] in Hn |- *.
  destruct (position_ q), b; try done; by apply IH.
Qed.

(** ** The stages of a parse *)

(** The parser of a message whose subclass starts in state [s], after a
    buffer without a CRLF, after the first line, and after the headers. *)
Definition line_state (s : S) : HttpParser S := set_position (new_HttpParser s) kFirstLine.

Definition headers_state (s : S) (i : nat) : HttpParser S :=
  mkHttpParser kHeaders [] (AutoBuffer.new kMallocUnit) (Z.of_nat i + 2) 0 (Z.of_nat i + 2) s.

Definition body_state (s : S) (i j : nat) (h : HeaderField.HeaderField) (resolved : Z) :
    HttpParser S :=
  mkHttpParser kBody h (AutoBuffer.new kMallocUnit) (Z.of_nat i + 2) (Z.of_nat j + 4) resolved
    (note_headers s h).

Definition end_state (s : S) (i j : nat) (h : HeaderField.HeaderField) (len body_len : Z) :
    HttpParser S :=
  mkHttpParser kEnd h
    (ShallowCopyFrom (AutoBuffer.new kMallocUnit) (PExt recv_block (len - body_len)) body_len)
    (Z.of_nat i + 2) (Z.of_nat j + 4) len (note_headers s h).

(** The end of the first line and of the headers. *)
Definition line_end (buffer : bytes) : option nat := find_at crlf buffer 0.
Definition headers_end (buffer : bytes) (i : nat) : option nat :=
  find_at crlfcrlf buffer (Z.of_nat i + 2).

Lemma line_end_strnstr (buffer : bytes) :
  zlen buffer < 2 ^ 31 -> strnstr (Some buffer) (Some crlf) (zlen buffer) = line_end buffer.
Proof.
  intros Hb. unfold line_end, find_at. change (Z.to_nat 0) with O. rewrite drop_0, sub64_id by lia.
  by rewrite Z.sub_0_r.
Qed.

Lemma line_end_bound (buffer : bytes) (i : nat) :
  zlen buffer < 2 ^ 31 -> line_end buffer = Some i -> Z.of_nat i + 2 <= zlen buffer.
Proof.
  intros Hb Hi. unfold line_end in Hi. apply find_at_bound in Hi; [|done|apply crlf_no_nul|done|done|lia]. simpl in Hi. lia.
Qed.

Lemma headers_end_bound (buffer : bytes) (i j : nat) :
  zlen buffer < 2 ^ 31 -> Z.of_nat i + 2 <= zlen buffer -> headers_end buffer i = Some j ->
  Z.of_nat i + Z.of_nat j + 6 <= zlen buffer.
Proof.
  intros Hb Hi Hj. apply find_at_bound in Hj; [|done|apply crlfcrlf_no_nul|done|done|lia].
  simpl in Hj. lia.
Qed.

Lemma line_end_stable (a b : bytes) (i : nat) :
  zlen (a ++ b) < 2 ^ 31 -> line_end a = Some i ->
  line_end (a ++ b) = Some i /\ take i (a ++ b) = take i a.
Proof.
  intros Hb Hi. split.
  - unfold line_end in *. apply find_at_stable; [done|apply crlf_no_nul|done|done|lia|done].
  - rewrite length_app in Hb. apply line_end_bound in Hi; [|lia]. apply take_app_le. lia.
Qed.

Lemma headers_end_stable (a b : bytes) (i j : nat) :
  zlen (a ++ b) < 2 ^ 31 -> Z.of_nat i + 2 <= zlen a -> headers_end a i = Some j ->
  headers_end (a ++ b) i = Some j /\
  take j (drop (i + 2) (a ++ b)) = take j (drop (i + 2) a).
Proof.
  intros Hb Hi Hj. split.
  - apply find_at_stable; [done|apply crlfcrlf_no_nul|done|done|lia|done].
  - rewrite length_app in Hb. apply headers_end_bound in Hj; [|lia|done].
    rewrite drop_app_le by lia. apply take_app_le. rewrite length_drop. lia.
Qed.

(** The turn of each stage. *)
Lemma turn_line (s : S) (buffer : bytes) :
  zlen buffer < 2 ^ 31 ->
  parse_turn (line_state s) buffer =
  match line_end buffer with
  | None => Ok (false, line_state s)
  | Some i =>
      '(ok, s1) ← parse_line s (take i buffer);
      Ok (ok, if ok : bool then headers_state s1 i else set_position (set_sub (line_state s) s1) kError)
  end.
Proof.
  intros Hb. unfold parse_turn. cbn [position_ line_state set_position].
  rewrite first_line_law. unfold resolve_line. rewrite line_end_strnstr by done.
  destruct (line_end buffer) as [i|]; [|done]. cbn [sub line_state set_position new_HttpParser].
  by destruct (parse_line s (take i buffer)) as [[[] s1]|].
Qed.

Lemma turn_headers (s : S) (i : nat) (buffer : bytes) :
  zlen buffer < 2 ^ 31 -> Z.of_nat i + 2 <= zlen buffer ->
  parse_turn (headers_state s i) buffer =
  match headers_end buffer i with
  | None => Ok (false, headers_state s i)
  | Some j =>
      '(ok, h) ← HeaderField.ParseFromString [] (take j (drop (i + 2) buffer));
      Ok (ok, if ok : bool then body_state s i j h (Z.of_nat i + Z.of_nat j + 6)
              else set_position (set_headers (headers_state s i) h) kError)
  end.
Proof.
  intros Hb Hi. unfold parse_turn. cbn [position_ headers_state].
  rewrite headers_law. unfold base_ResolveHeaders. cbn [resolved_len_ headers_ headers_state].
  destruct (Z.ltb_spec (zlen buffer) (Z.of_nat i + 2)); [lia|].
  change (strnstr _ _ _) with (headers_end buffer i).
  destruct (headers_end buffer i) as [j|] eqn:Ej; [|done].
  replace (Z.to_nat (Z.of_nat i + 2)) with (i + 2)%nat by lia.
  destruct (HeaderField.ParseFromString [] _) as [[[] h]|]; cbn; [|done..].
  apply headers_end_bound in Ej; [|done..].
  rewrite add64_id, sub64_id by lia. unfold body_state, set_sub, set_position, set_lens. cbn.
  do 2 f_equal. f_equal; lia.
Qed.

Lemma turn_body (s : S) (i j : nat) (h : HeaderField.HeaderField) (r : Z) (buffer : bytes) :
  zlen buffer < 2 ^ 31 -> Z.of_nat i + Z.of_nat j + 6 <= zlen buffer ->
  bodyless (note_headers s h) = false -> HeaderField.ContentLength h <> 0 ->
  parse_turn (body_state s i j h r) buffer =
  let cl := HeaderField.ContentLength h in
  let cur := zlen buffer - (Z.of_nat i + Z.of_nat j + 6) in
  if cl <? cur then Ok (false, set_position (body_state s i j h (zlen buffer)) kError)
  else if cl =? cur then Ok (true, end_state s i j h (zlen buffer) cl)
  else Ok (false, body_state s i j h (zlen buffer)).
Proof.
  intros Hb Hi Hs Hc. unfold parse_turn. cbn [position_ body_state].
  rewrite body_law. cbn [sub body_state]. rewrite Hs. unfold base_ResolveBody.
  cbn [headers_ body_state first_line_len_ header_len_ set_resolved].
  destruct (Z.eqb_spec (HeaderField.ContentLength h) 0); [done|].
  rewrite (sub64_id _ (Z.of_nat i + 2)), sub64_id by lia.
  replace (zlen buffer - (Z.of_nat i + 2) - (Z.of_nat j + 4))
    with (zlen buffer - (Z.of_nat i + Z.of_nat j + 6)) by lia.
  cbv zeta. destruct (_ <? _); [done|]. destruct (Z.eqb_spec (HeaderField.ContentLength h)
    (zlen buffer - (Z.of_nat i + Z.of_nat j + 6))); [|done].
  rewrite sub64_id by lia. done.
Qed.

(** ** Incremental parsing *)

(** What a parse of [buffer] that neither ends nor fails leaves behind. *)
Inductive reached (s : S) (buffer : bytes) : HttpParser S -> Prop :=
| reached_none : buffer = [] -> reached s buffer (new_HttpParser s)
| reached_line : line_end buffer = None -> reached s buffer (line_state s)
| reached_headers i s1 :
    line_end buffer = Some i -> parse_line s (take i buffer) = Ok (true, s1) ->
    headers_end buffer i = None -> reached s buffer (headers_state s1 i)
| reached_body i s1 j h :
    line_end buffer = Some i -> parse_line s (take i buffer) = Ok (true, s1) ->
    headers_end buffer i = Some j ->
    HeaderField.ParseFromString [] (take j (drop (i + 2) buffer)) = Ok (true, h) ->
    bodyless (note_headers s1 h) = false ->
    zlen buffer - (Z.of_nat i + Z.of_nat j + 6) < HeaderField.ContentLength h ->
    reached s buffer (body_state s1 i j h (zlen buffer)).

Lemma parse_loop_step (fuel : nat) p q (buffer : bytes) :
  parse_turn p buffer = Ok (true, q) -> position_ q <> kEnd -> position_ q <> kError ->
  parse_loop (Datatypes.S fuel) p buffer = parse_loop fuel q buffer.
Proof.
  intros Ht He Hr. cbn [parse_loop]. rewrite Ht. cbn [mbind res_bind].
  by destruct (position_ q).
Qed.

Lemma DoParse_loop p (buffer : bytes) :
  0 <= resolved_len_ p < zlen buffer -> zlen buffer < 2 ^ 31 ->
  DoParse p buffer = parse_loop parse_fuel p buffer.
Proof.
  intros Hr Hb. unfold DoParse. rewrite sub64_id by lia.
  destruct (Z.leb_spec (zlen buffer) 0); [lia|].
  by destruct (Z.leb_spec (zlen buffer - resolved_len_ p) 0); [lia|].
Qed.

Lemma parse_new_line (fuel : nat) (s : S) (buffer : bytes) :
  buffer <> [] ->
  parse_loop fuel (new_HttpParser s) buffer = parse_loop fuel (line_state s) buffer.
Proof.
  intros Hn. destruct fuel; [done|]. cbn [parse_loop]. unfold parse_turn at 1.
  cbn [position_ new_HttpParser resolved_len_].
  destruct (Z.ltb_spec 0 (zlen buffer)); [done|]. destruct buffer; [done|simpl in *; lia].
Qed.

Lemma DoParse_new (s : S) (buffer : bytes) :
  buffer <> [] -> zlen buffer < 2 ^ 31 ->
  DoParse (new_HttpParser s) buffer = parse_loop parse_fuel (line_state s) buffer.
Proof.
  intros Hn Hb. rewrite DoParse_loop; [by apply parse_new_line| |done].
  cbn. destruct buffer; [done|simpl; lia].
Qed.

Lemma parse_loop_fuel (f1 f2 : nat) p (buffer : bytes) :
  (rank (position_ p) < f1 <= f2)%nat -> parse_loop f2 p buffer = parse_loop f1 p buffer.
Proof.
  intros [Hr Hf]. induction Hf as [|f2 Hf IH]; [done|]. rewrite parse_loop_more; [done|].
  rewrite IH. destruct (parse_loop_returns f1 p buffer Hr) as [(f & -> & [(s & l & Hl)|[-> _]])|(r & q & -> & _)]; [|done..].
  intros [= ->]. by apply parse_line_faults in Hl.
Qed.

(** Resuming a parse is parsing from the start. *)
Lemma resume (s : S) (a b : bytes) p :
  reached s a p -> b <> [] -> zlen (a ++ b) < 2 ^ 31 ->
  DoParse p (a ++ b) = DoParse (new_HttpParser s) (a ++ b).
Proof.
  intros Hr Hb Hl. assert (a ++ b <> []) as Hab by (by intros [_ ?]%app_nil).
  assert (0 < zlen b) by (destruct b; [done|simpl; lia]).
  pose proof Hl as Hl'. rewrite length_app in Hl'.
  destruct Hr as [->|Hi|i s1 Hi Hp Hj|i s1 j h Hi Hp Hj Hh Hbl Hc]; [done|..];
    rewrite DoParse_new by done.
  - rewrite DoParse_loop; [done| |done]. cbn. rewrite length_app. lia.
  - assert (Z.of_nat i + 2 <= zlen a) by (apply line_end_bound in Hi; lia).
    apply (line_end_stable a b) in Hi as [Hi Ht]; [|done].
    rewrite DoParse_loop; [|cbn; rewrite length_app; lia|done].
    unfold parse_fuel at 2. rewrite (parse_loop_step _ _ (headers_state s1 i)); [|..|done|done].
    + apply parse_loop_fuel. simpl. unfold parse_fuel. lia.
    + rewrite turn_line, Hi, Ht, Hp by done. done.
  - assert (Z.of_nat i + 2 <= zlen a) as Hia
      by (apply line_end_bound in Hi; lia).
    assert (Z.of_nat i + Z.of_nat j + 6 <= zlen a)
      by (apply headers_end_bound in Hj; lia).
    apply (line_end_stable a b) in Hi as [Hi Ht]; [|done].
    apply (headers_end_stable a b) in Hj as [Hj Hd]; [|done|done].
    rewrite DoParse_loop; [|cbn; rewrite length_app; lia|done].
    unfold parse_fuel at 2. rewrite (parse_loop_step _ _ (headers_state s1 i)); [|..|done|done].
    2: { rewrite turn_line, Hi, Ht, Hp by done. done. }
    rewrite (parse_loop_step _ _ (body_state s1 i j h (Z.of_nat i + Z.of_nat j + 6))); [|..|done|done].
    2: { rewrite turn_headers, Hj, Hd, Hh by (rewrite ?length_app; done || lia). done. }
    rewrite (parse_loop_fuel 3) by (simpl; unfold parse_fuel; lia).
    cbn [parse_loop]. rewrite !turn_body by (rewrite ?length_app; done || lia). done.
Qed.

(** ** The outcome of a parse from the start *)

Definition body_outcome (s : S) (i j : nat) (h : HeaderField.HeaderField) (len : Z) :
    Z * HttpParser S :=
  let headers_done := Z.of_nat i + Z.of_nat j + 6 in
  let cl := HeaderField.ContentLength h in
  if bodyless (note_headers s h) then
    if headers_done <? len then (-1, set_position (body_state s i j h headers_done) kError)
    else (0, set_position (body_state s i j h headers_done) kEnd)
  else if cl =? 0 then (-1, set_position (body_state s i j h headers_done) kError)
  else if cl <? len - headers_done then (-1, set_position (body_state s i j h len) kError)
  else if cl =? len - headers_done then (0, end_state s i j h len cl)
  else (-1, body_state s i j h len).

Definition outcome (s : S) (buffer : bytes) : res (Z * HttpParser S) :=
  match line_end buffer with
  | None => Ok (-1, line_state s)
  | Some i =>
      '(ok, s1) ← parse_line s (take i buffer);
      if ok : bool then
        match headers_end buffer i with
        | None => Ok (-1, headers_state s1 i)
        | Some j =>
            '(ok, h) ← HeaderField.ParseFromString [] (take j (drop (i + 2) buffer));
            if ok : bool then Ok (body_outcome s1 i j h (zlen buffer))
            else Ok (-1, set_position (set_headers (headers_state s1 i) h) kError)
        end
      else Ok (-1, set_position (set_sub (line_state s) s1) kError)
  end.

Lemma parse_body_outcome (fuel : nat) (s : S) (i j : nat) (h : HeaderField.HeaderField)
    (buffer : bytes) :
  zlen buffer < 2 ^ 31 -> Z.of_nat i + Z.of_nat j + 6 <= zlen buffer ->
  parse_loop (Datatypes.S fuel) (body_state s i j h (Z.of_nat i + Z.of_nat j + 6)) buffer
  = Ok (body_outcome s i j h (zlen buffer)).
Proof.
  intros Hb Hi. cbn [parse_loop]. unfold body_outcome.
  destruct (bodyless (note_headers s h)) eqn:Hbl.
  { unfold parse_turn. cbn [position_ body_state]. rewrite body_law.
    cbn [sub body_state resolved_len_]. rewrite Hbl, sub64_id by lia.
    destruct (Z.ltb_spec (Z.of_nat i + Z.of_nat j + 6) (zlen buffer)),
      (Z.ltb_spec 0 (zlen buffer - (Z.of_nat i + Z.of_nat j + 6))); done || lia. }
  destruct (Z.eqb_spec (HeaderField.ContentLength h) 0) as [Hc|Hc].
  { unfold parse_turn. cbn [position_ body_state]. rewrite body_law.
    cbn [sub body_state]. rewrite Hbl. unfold base_ResolveBody. cbn [headers_ body_state].
    by rewrite Hc. }
  rewrite turn_body by done. cbv zeta. destruct (_ <? _); [done|]. by destruct (_ =? _).
Qed.

Lemma DoParse_outcome (s : S) (buffer : bytes) :
  buffer <> [] -> zlen buffer < 2 ^ 31 -> DoParse (new_HttpParser s) buffer = outcome s buffer.
Proof.
  intros Hn Hb. rewrite DoParse_new by done. unfold outcome, parse_fuel.
  cbn [parse_loop]. rewrite turn_line by done.
  destruct (line_end buffer) as [i|] eqn:Hi; [|done]. apply line_end_bound in Hi as Hib; [|done].
  destruct (parse_line s (take i buffer)) as [[[] s1]|]; [|done..]. cbn [mbind res_bind position_ headers_state].
  rewrite turn_headers by done.
  destruct (headers_end buffer i) as [j|] eqn:Hj; [|done].
  apply headers_end_bound in Hj as Hjb; [|done..].
  destruct (HeaderField.ParseFromString [] _) as [[[] h]|]; [|done..].
  cbn [mbind res_bind position_ body_state]. by apply (parse_body_outcome 2).
Qed.

Definition stopped p : bool := IsEnd p || IsErr p.

Lemma outcome_reached (s : S) (buffer : bytes) (r : Z) p :
  outcome s buffer = Ok (r, p) -> stopped p = false -> reached s buffer p.
Proof.
  unfold outcome. destruct (line_end buffer) as [i|] eqn:Hi.
  2: { intros [= <- <-] _. by apply reached_line. }
  destruct (parse_line s (take i buffer)) as [[[] s1]|] eqn:Hp; cbn [mbind res_bind]; [|by intros [= <- <-]|done].
  destruct (headers_end buffer i) as [j|] eqn:Hj.
  2: { intros [= <- <-] _. by apply reached_headers. }
  destruct (HeaderField.ParseFromString [] _) as [[[] h]|] eqn:Hh; cbn [mbind res_bind];
    [|by intros [= <- <-]|done].
  unfold body_outcome. intros [= Heq] Hs.
  destruct (bodyless (note_headers s1 h)) eqn:Hbl; [destruct (_ <? _); simplify_eq; done|].
  destruct (Z.eqb_spec (HeaderField.ContentLength h) 0); [simplify_eq; done|].
  destruct (Z.ltb_spec (HeaderField.ContentLength h) (zlen buffer - (Z.of_nat i + Z.of_nat j + 6)));
    [simplify_eq; done|].
  destruct (Z.eqb_spec (HeaderField.ContentLength h) (zlen buffer - (Z.of_nat i + Z.of_nat j + 6)));
    [simplify_eq; done|].
  simplify_eq. eapply reached_body; eauto. lia.
Qed.

(** A proper prefix of a complete message neither ends nor fails. *)
Lemma outcome_prefix (s : S) (a b : bytes) (r : Z) p :
  b <> [] -> zlen (a ++ b) < 2 ^ 31 -> outcome s (a ++ b) = Ok (r, p) -> IsEnd p = true ->
  exists r' p', outcome s a = Ok (r', p') /\ stopped p' = false.
Proof.
  intros Hb Hl. assert (0 < zlen b) by (destruct b; [done|simpl; lia]).
  pose proof Hl as Hl'. rewrite length_app in Hl'. unfold outcome.
  destruct (line_end a) as [i|] eqn:Hi; [|by eauto].
  pose proof (line_end_bound a i ltac:(lia) Hi).
  apply (line_end_stable a b) in Hi as [-> ->]; [|done].
  destruct (parse_line s (take i a)) as [[[] s1]|]; cbn [mbind res_bind];
    [|by intros [= <- <-]|done].
  destruct (headers_end a i) as [j|] eqn:Hj; [|by eauto].
  pose proof (headers_end_bound a i j ltac:(lia) ltac:(lia) Hj).
  apply (headers_end_stable a b) in Hj as [-> ->]; [|done|done].
  destruct (HeaderField.ParseFromString [] _) as [[[] h]|]; cbn [mbind res_bind];
    [|by intros [= <- <-]|done].
  intros [= Heq] He. destruct (body_outcome s1 i j h (zlen a)) as [r' p'] eqn:E.
  exists r', p'. split; [done|]. unfold body_outcome in *. rewrite length_app in Heq.
  destruct (bodyless (note_headers s1 h)).
  { destruct (Z.ltb_spec (Z.of_nat i + Z.of_nat j + 6) (Z.of_nat (length a + length b)));
      [by simplify_eq|lia]. }
  revert Heq E. bool_cases; intros; simplify_eq; try done; lia.
Qed.

(** Feeding a complete message in nonempty pieces, from any state reached so far. *)
Lemma feed_from (s : S) (chunks : list bytes) (a : bytes) p (r : Z) q :
  reached s a p -> Forall (fun c => c <> []) chunks -> chunks <> [] ->
  zlen (a ++ concat chunks) < 2 ^ 31 ->
  outcome s (a ++ concat chunks) = Ok (r, q) -> IsEnd q = true -> feed p a chunks = Ok q.
Proof.
  intros Hr Hc. revert a p Hr. induction Hc as [|c cs Hc Hcs IH]; intros a p Hr Hne Hl Ho He; [done|].
  cbn [feed]. cbn [concat] in *. rewrite app_assoc in Ho, Hl.
  assert (a ++ c <> []) by (by intros [_ ?]%app_nil).
  assert (zlen (a ++ c) < 2 ^ 31) by (rewrite length_app in Hl; lia).
  rewrite (resume s) by done. rewrite DoParse_outcome by done.
  destruct cs as [|c' cs].
  { cbn [concat] in Ho. rewrite app_nil_r in Ho. rewrite Ho. cbn [mbind res_bind]. by rewrite He. }
  destruct (outcome_prefix s (a ++ c) (concat (c' :: cs)) r q) as (r' & p' & Ho' & Hs); [|done..|].
  { inversion Hcs; subst. cbn. by intros [? _]%app_nil. }
  rewrite Ho'. cbn [mbind res_bind]. unfold stopped in Hs. rewrite Hs.
  apply IH; try done. by eapply outcome_reached.
Qed.

End Theory.

(** ** Printed messages *)

Lemma find_sub_skip (n l t : bytes) (c : Z) :
  c ∉ l -> find_sub (c :: n) (l ++ t) = (Nat.add (length l)) <$> find_sub (c :: n) t.
Proof.
  induction l as [|d l IH]; intros Hc; [simpl; by destruct (find_sub _ t)|].
  change ((d :: l) ++ t) with (d :: (l ++ t)). rewrite find_sub_cons.
  assert (starts_with (c :: n) (d :: l ++ t) = false) as ->.
  { simpl. destruct (Z.eqb_spec c d); [set_solver|done]. }
  rewrite IH by set_solver. by destruct (find_sub _ t).
Qed.

Lemma find_crlfcrlf_line (c : Z) (t : bytes) :
  c <> 13 -> find_sub crlfcrlf (crlf ++ c :: t) = (Nat.add 2) <$> find_sub crlfcrlf (c :: t).
Proof.
  intros Hc. change (crlf ++ c :: t) with (13 :: 10 :: c :: t).
  rewrite find_sub_cons. assert (starts_with crlfcrlf (13 :: 10 :: c :: t) = false) as ->.
  { unfold crlfcrlf, crlf. cbn [app starts_with]. rewrite (proj2 (Z.eqb_neq 13 c)) by congruence. done. }
  rewrite find_sub_cons. change (starts_with crlfcrlf (10 :: c :: t)) with false.
  by destruct (find_sub crlfcrlf (c :: t)).
Qed.

(** The first empty line of a printed header block is the one at its end. *)
Lemma find_block_end (h : HeaderField.HeaderField) (t : bytes) :
  Forall HeaderField.field_ok h -> h <> [] ->
  find_sub crlfcrlf (HeaderField.block h ++ crlfcrlf ++ t) = Some (length (HeaderField.block h)).
Proof.
  intros Hf Hn. induction Hf as [|p h Hp Hf IH]; [done|]. unfold HeaderField.block.
  rewrite fmap_cons. destruct h as [|q h].
  - cbn [fmap list_fmap join]. unfold crlfcrlf at 1. change (crlf ++ crlf) with (13 :: 10 :: crlf).
    rewrite find_sub_skip by (by apply HeaderField.line_no_cr). simpl. by rewrite Nat.add_0_r.
  - rewrite fmap_cons. change (join crlf (?x :: ?y :: ?l)) with (x ++ crlf ++ join crlf (y :: l)).
    rewrite <- fmap_cons. fold (HeaderField.block (q :: h)). rewrite <- !app_assoc.
    unfold crlfcrlf at 1. change (crlf ++ crlf) with (13 :: 10 :: crlf).
    rewrite find_sub_skip by (by apply HeaderField.line_no_cr).
    change (13 :: 10 :: crlf) with crlfcrlf. specialize (IH ltac:(done)).
    destruct (HeaderField.block (q :: h) ++ crlfcrlf ++ t) as [|c u] eqn:E.
    { by apply app_nil in E as [_ [? _]%app_nil]. }
    rewrite find_crlfcrlf_line, IH; [simpl; f_equal; rewrite !length_app; simpl; lia|].
    intros ->. apply Forall_cons in Hf as [Hq _]. pose proof (HeaderField.line_nonnil q Hq) as Hl.
    pose proof (HeaderField.line_no_cr q Hq) as Hcr. unfold HeaderField.block in E.
    rewrite fmap_cons in E.
    destruct (HeaderField.line q) as [|d l]; [done|]. destruct h; simpl in E; simplify_eq; set_solver.
Qed.

Lemma block_no_nul (h : HeaderField.HeaderField) :
  Forall HeaderField.field_ok h -> 0 ∉ HeaderField.block h.
Proof.
  induction 1 as [|p h Hp Hf IH]; [set_solver|]. unfold HeaderField.block in *.
  apply HeaderField.line_no_nul in Hp. pose proof crlf_no_nul. rewrite fmap_cons.
  destruct h as [|q h]; [done|]. rewrite fmap_cons in *.
  change (join crlf (?x :: ?y :: ?l)) with (x ++ crlf ++ join crlf (y :: l)).
  rewrite !not_elem_of_app. done.
Qed.

(** A message: first line, header block, empty line, body. *)
Definition message (line : bytes) (h : HeaderField.HeaderField) (body : bytes) : bytes :=
  line ++ crlf ++ HeaderField.block h ++ crlfcrlf ++ body.

Section Message.
Context (line : bytes) (h : HeaderField.HeaderField) (body : bytes).
Context (Hline : 13 ∉ line) (Hline0 : 0 ∉ line).
Context (Hh : HeaderField.fields_ok h) (Hh2 : (2 <= length h)%nat).
Context (Hlen : zlen (message line h body) < 2 ^ 31).

Lemma message_line_end : line_end (message line h body) = Some (length line).
Proof using Hline Hline0 Hlen.
  clear Hh Hh2. unfold line_end. rewrite find_at_spec; [|done|apply crlf_no_nul|done|done|lia].
  change (Z.to_nat 0) with O. rewrite drop_0. unfold message.
  rewrite cstr_app_nonul by done. unfold crlf at 1. rewrite find_sub_skip by done.
  rewrite (cstr_app_nonul crlf) by apply crlf_no_nul. simpl. by rewrite Nat.add_0_r.
Qed.

Lemma message_drop :
  drop (length line + 2) (message line h body) = HeaderField.block h ++ crlfcrlf ++ body.
Proof using.
  clear. unfold message. rewrite app_assoc. apply drop_app_length'. rewrite length_app. simpl. lia.
Qed.

Lemma message_headers_end :
  headers_end (message line h body) (length line) = Some (length (HeaderField.block h)).
Proof using Hh Hh2 Hlen.
  destruct Hh as [_ Hf]. unfold headers_end.
  assert (zlen line + 2 <= zlen (message line h body))
    by (unfold message; rewrite !length_app; simpl; lia).
  rewrite find_at_spec; [|done|apply crlfcrlf_no_nul|done|done|lia].
  replace (Z.to_nat (zlen line + 2)) with (length line + 2)%nat by lia.
  rewrite message_drop, cstr_app_nonul by (by apply block_no_nul).
  rewrite cstr_app_nonul by apply crlfcrlf_no_nul. apply find_block_end; [done|].
  destruct h; simpl in Hh2; [lia|done].
Qed.

Lemma message_length :
  zlen (message line h body) = zlen line + zlen (HeaderField.block h) + 6 + zlen body.
Proof using. clear. unfold message. rewrite !length_app. simpl. lia. Qed.

(** The outcome on a printed message. *)
Lemma message_outcome {S} `{HttpParserLaws S} (s s1 : S) :
  parse_line s line = Ok (true, s1) ->
  outcome s (message line h body) =
  Ok (body_outcome s1 (length line) (length (HeaderField.block h)) h (zlen (message line h body))).
Proof using Hline Hline0 Hh Hh2 Hlen.
  intros Hp. unfold outcome. rewrite message_line_end, message_headers_end, message_drop.
  assert (take (length line) (message line h body) = line) as ->
    by (unfold message; by rewrite take_app_length).
  rewrite Hp, take_app_length. cbn [mbind res_bind].
  by rewrite HeaderField.Parse_block.
Qed.

(** A body as long as its [Content-Length]: the parser ends, its body is a view of the
    last bytes of the buffer. *)
Lemma message_complete {S} `{HttpParserLaws S} (s s1 : S) :
  parse_line s line = Ok (true, s1) -> bodyless (note_headers s1 h) = false ->
  HeaderField.ContentLength h = zlen body -> body <> [] ->
  outcome s (message line h body) =
  Ok (0, end_state s1 (length line) (length (HeaderField.block h)) h
           (zlen (message line h body)) (zlen body)).
Proof using Hline Hline0 Hh Hh2 Hlen.
  intros Hp Hb Hc Hn. rewrite (message_outcome s s1 Hp). unfold body_outcome. rewrite Hb, Hc.
  assert (0 < zlen body) by (destruct body; [done|simpl; lia]).
  rewrite message_length in *. bool_cases; done || lia.
Qed.

Lemma message_empty {S} `{HttpParserLaws S} (s s1 : S) :
  parse_line s line = Ok (true, s1) -> bodyless (note_headers s1 h) = false ->
  HeaderField.ContentLength h = 0 ->
  exists q, outcome s (message line h body) = Ok (-1, q) /\ IsErr q = true.
Proof using Hline Hline0 Hh Hh2 Hlen.
  intros Hp Hb Hc. rewrite (message_outcome s s1 Hp). unfold body_outcome. rewrite Hb, Hc.
  by eexists.
Qed.

End Message.

End HttpTheory.
