(* ===== verification/HttpProps.v ===== *)
(** * Properties of the HTTP layer

    [Pack] and [DoParse] composed: what one side packs the other side reads,
    in any segmentation; and the messages the parser does not accept. *)
From S2P Require Import Prelude CLib StrUtil StdMap AutoBuffer FirstLine HeaderField HttpPacket HttpTheory.
Import StrUtil.

Module HttpProps.
Import AutoBuffer FirstLine HttpPacket HttpTheory.

(** ** Specifications *)

(** The bytes a body view designates in the receive buffer. *)
Definition view (b : AutoBuffer) (buffer : bytes) : option bytes :=
  match byte_array_p_ b with
  | PExt _ off => Some (take (Z.to_nat (length_ b)) (drop (Z.to_nat off) buffer))
  | _ => None
  end.

(** A text without the bytes that end a line or a C string. *)
Definition plain (s : bytes) : Prop := 13 ∉ s /\ 0 ∉ s.

Definition fields_of (m : option (smap bytes)) : smap bytes := default [] m.

Record request_ok (host url : bytes) (headers : option (smap bytes)) (body : bytes) : Prop := {
  rq_url : word url;
  rq_plain : plain url;
  rq_host : HeaderField.token host;
  rq_headers : Forall HeaderField.field_ok (fields_of headers);
  rq_body : zlen body < 10 ^ 8
}.

(** The message [request_Pack] writes. *)
Definition request_message (host url : bytes) (headers : option (smap bytes)) (body : bytes) : bytes :=
  message (request_text (mkRequestLine kPOST url kHTTP_1_1)) (request_fields host headers body) body.

Record response_ok (code : Z) (desc : bytes) (headers : smap bytes) (body : bytes) : Prop := {
  rs_code : 0 <= code < 1000;
  rs_desc : word desc;
  rs_plain : plain desc;
  rs_headers : Forall HeaderField.field_ok headers;
  rs_other : exists p, p ∈ headers /\ p.1 <> HeaderField.kContentLength;
  rs_body : zlen body < 10 ^ 8
}.

Definition response_message (ver : THttpVersion) (code : Z) (desc : bytes) (headers : smap bytes)
    (body : bytes) : bytes :=
  message (status_text (mkStatusLine ver code desc)) (response_fields (Some headers) (Some body)) body.

(** ** Lemmas *)

Lemma len_str_dec (n : Z) : 0 <= n < 10 ^ 8 -> len_str n = dec n.
Proof.
  intros Hn. apply snprintf_short. pose proof (dec_length 8 n). lia.
Qed.

Lemma len_str_token (n : Z) : 0 <= n < 10 ^ 8 -> HeaderField.token (len_str n).
Proof.
  intros. rewrite len_str_dec by done. apply HeaderField.digits_token; [apply dec_digit|apply dec_nonnil].
Qed.

Lemma insert_opt_all (h : HeaderField.HeaderField) (m : option (smap bytes)) :
  insert_opt h m = map_insert_all h (fields_of m).
Proof. by destruct m. Qed.

Lemma ContentLength_set (h : HeaderField.HeaderField) (n : Z) :
  HeaderField.fields_ok h -> 0 <= n < 10 ^ 8 ->
  HeaderField.ContentLength (HeaderField.InsertOrUpdate h HeaderField.kContentLength (len_str n)) = n.
Proof.
  intros Hh Hn. rewrite HeaderField.ContentLength_Get, HeaderField.Get_find.
  - unfold HeaderField.InsertOrUpdate. rewrite map_find_set_eq, len_str_dec by done.
    apply strtoul_dec. lia.
  - apply HeaderField.field_ok_set; [by apply HeaderField.token_dec|by apply len_str_token|apply Hh].
  - by eapply bool_decide_unpack; vm_compute.
Qed.

Lemma map_find_In (k v : bytes) (h : HeaderField.HeaderField) : map_find k h = Some v -> (k, v) ∈ h.
Proof.
  induction h as [|[k' v'] h IH]; simpl; [done|].
  destruct (str_cmp k k') eqn:E; [|intros ?%IH; set_solver..].
  apply str_cmp_eq in E as ->. intros [= ->]. set_solver.
Qed.

(** Two keys make two fields. *)
Lemma two_fields (h : HeaderField.HeaderField) (k1 k2 v1 v2 : bytes) :
  map_find k1 h = Some v1 -> map_find k2 h = Some v2 -> k1 <> k2 -> (2 <= length h)%nat.
Proof.
  intros H1%map_find_In H2%map_find_In Hne. destruct h as [|p [|q h]]; simpl; [set_solver| |lia].
  apply list_elem_of_singleton in H1, H2. congruence.
Qed.

Lemma map_find_insert_all (l h : smap bytes) (k : bytes) :
  (exists v, map_find k h = Some v) -> exists v, map_find k (map_insert_all h l) = Some v.
Proof.
  revert h. induction l as [|[k' v'] l IH]; intros h [v Hh]; [by exists v|]. apply IH.
  destruct (decide (k = k')) as [->|]; [exists v'; apply map_find_set_eq|].
  exists v. by rewrite map_find_set_ne.
Qed.

Lemma map_find_inserted (l h : smap bytes) (p : bytes * bytes) :
  p ∈ l -> exists v, map_find p.1 (map_insert_all h l) = Some v.
Proof.
  intros Hp. revert h. induction l as [|[k' v'] l IH]; intros h; [set_solver|].
  apply elem_of_cons in Hp as [->|Hp]; [|by apply IH].
  change (map_insert_all h ((k', v') :: l)) with (map_insert_all (map_set k' v' h) l).
  apply map_find_insert_all. exists v'. apply map_find_set_eq.
Qed.

Lemma request_fields_ok (host : bytes) (headers : option (smap bytes)) (body : bytes) :
  HeaderField.token host -> Forall HeaderField.field_ok (fields_of headers) -> zlen body < 10 ^ 8 ->
  HeaderField.fields_ok (request_fields host headers body) /\
  (2 <= length (request_fields host headers body))%nat /\
  HeaderField.ContentLength (request_fields host headers body) = zlen body.
Proof.
  intros Hh Hf Hb. unfold request_fields. rewrite insert_opt_all.
  set (h0 := HeaderField.InsertOrUpdate (HeaderField.InsertOrUpdate [] _ _) _ _).
  assert (HeaderField.fields_ok (map_insert_all h0 (fields_of headers))) as Hok.
  { apply HeaderField.fields_ok_insert_all; [done|].
    apply HeaderField.fields_ok_set; [by apply HeaderField.token_dec..|].
    apply HeaderField.fields_ok_set; [by apply HeaderField.token_dec|done|]. by split; constructor. }
  split_and!.
  - apply HeaderField.fields_ok_set; [by apply HeaderField.token_dec|apply len_str_token; lia|done].
  - destruct (map_find_insert_all (fields_of headers) h0 HeaderField.kHost) as [v Hv].
    { exists host. unfold h0, HeaderField.InsertOrUpdate. rewrite map_find_set_ne by done.
      by rewrite map_find_set_eq. }
    eapply (two_fields _ HeaderField.kHost HeaderField.kContentLength); [|apply map_find_set_eq|done].
    unfold HeaderField.InsertOrUpdate. rewrite map_find_set_ne by done. done.
  - apply ContentLength_set; [done|lia].
Qed.

Lemma response_fields_ok (headers : smap bytes) (body : bytes) :
  Forall HeaderField.field_ok headers ->
  (exists p, p ∈ headers /\ p.1 <> HeaderField.kContentLength) -> zlen body < 10 ^ 8 ->
  HeaderField.fields_ok (response_fields (Some headers) (Some body)) /\
  (2 <= length (response_fields (Some headers) (Some body)))%nat /\
  HeaderField.ContentLength (response_fields (Some headers) (Some body)) = zlen body.
Proof.
  intros Hf (p & Hp & Hpk) Hb. unfold response_fields. rewrite insert_opt_all. cbn [fields_of default].
  assert (HeaderField.fields_ok (map_insert_all [] headers)) as Hok.
  { apply HeaderField.fields_ok_insert_all; [done|]. by split; constructor. }
  split_and!.
  - apply HeaderField.fields_ok_set; [by apply HeaderField.token_dec|apply len_str_token; lia|done].
  - destruct (map_find_inserted headers [] p Hp) as [v Hv].
    eapply (two_fields _ p.1 HeaderField.kContentLength); [|apply map_find_set_eq|done].
    unfold HeaderField.InsertOrUpdate. rewrite map_find_set_ne by done. done.
  - apply ContentLength_set; [done|lia].
Qed.

Lemma plain_app (a b : bytes) : plain a -> plain b -> plain (a ++ b).
Proof. intros [] []. split; set_solver. Qed.

Lemma plain_dec (s : bytes) : bool_decide (13 ∉ s) && bool_decide (0 ∉ s) = true -> plain s.
Proof. by rewrite andb_true_iff, !bool_decide_eq_true. Qed.

Lemma plain_name (m : THttpMethod) : plain (method2string m).
Proof. apply plain_dec. by destruct m. Qed.

Lemma plain_version (v : THttpVersion) : plain (version2string v).
Proof. apply plain_dec. by destruct v. Qed.

Lemma plain_digits (z : Z) : plain (dec z).
Proof.
  pose proof (dec_digit z) as H. rewrite Forall_forall in H. split; intros Hc; by apply H in Hc.
Qed.

Lemma plain_space : plain (str " ").
Proof. by apply plain_dec. Qed.

#[local] Hint Resolve plain_app plain_name plain_version plain_digits plain_space : unixtar.

Lemma request_text_plain (l : RequestLine) : plain (url_ l) -> plain (request_text l).
Proof. intros. unfold request_text. auto 10 with unixtar. Qed.

Lemma status_text_plain (l : StatusLine) : plain (status_desc_ l) -> plain (status_text l).
Proof. intros. unfold status_text. auto 10 with unixtar. Qed.

Lemma message_nonnil (line : bytes) (h : HeaderField.HeaderField) (body : bytes) :
  message line h body <> [].
Proof. unfold message. by intros [_ [? _]%app_nil]%app_nil. Qed.

(** First line and headers written one after the other. *)
Lemma write_message (b : AutoBuffer) (line : bytes) (h : HeaderField.HeaderField) (body : bytes) :
  0 < malloc_unit_size_ b < 2 ^ 32 -> h <> [] -> zlen (message line h body) < 2 ^ 31 ->
  exists b', (b ← WriteString (AutoBuffer.Reset b) (line ++ crlf);
              b ← HeaderField.AppendToBuffer h b; WriteString b body) = Ok b' /\
             holds b' (message line h body).
Proof.
  intros Hu Hn Hl. pose proof Hl as Hl'. rewrite message_length in Hl'.
  destruct (WriteString_holds (AutoBuffer.Reset b) [] (line ++ crlf)) as (b1 & -> & H1).
  { by apply holds_Reset. }
  { rewrite app_nil_l, length_app. simpl. lia. }
  cbn [mbind res_bind]. unfold HeaderField.AppendToBuffer. rewrite HeaderField.ToString_block by done.
  destruct (WriteString_holds b1 _ (HeaderField.block h ++ crlf ++ crlf) H1) as (b2 & -> & H2).
  { rewrite app_nil_l, !length_app. simpl. lia. }
  cbn [mbind res_bind]. destruct (WriteString_holds b2 _ body H2) as (b3 & -> & H3).
  { rewrite app_nil_l, !length_app. simpl. lia. }
  exists b3. split; [done|]. by rewrite app_nil_l, <- !app_assoc in H3.
Qed.

Lemma request_Pack_holds (host url : bytes) (headers : option (smap bytes)) (body : bytes)
    (out : AutoBuffer) :
  0 < malloc_unit_size_ out < 2 ^ 32 -> zlen (request_message host url headers body) < 2 ^ 31 ->
  exists b, request_Pack host url headers body out = Ok b /\
            holds b (request_message host url headers body).
Proof.
  intros Hu Hl. unfold request_Pack, RequestLine_AppendToBuffer. rewrite RequestLine_ToString_text.
  apply (write_message out); [done| |done]. unfold request_fields, HeaderField.InsertOrUpdate.
  intros E. pose proof (map_find_set_eq HeaderField.kContentLength (len_str (zlen body))
    (insert_opt (map_set HeaderField.kConnection HeaderField.kConnectionClose
       (map_set HeaderField.kHost host [])) headers)) as Hf.
  by rewrite E in Hf.
Qed.

Lemma response_Pack_holds (ver : THttpVersion) (code : Z) (desc : bytes) (headers : smap bytes)
    (body : bytes) (out : AutoBuffer) :
  0 < malloc_unit_size_ out < 2 ^ 32 -> 0 <= code < 1000 -> plain desc ->
  zlen (response_message ver code desc headers body) < 2 ^ 31 ->
  exists b, response_Pack ver code desc (Some headers) (Some body) out = Ok b /\
            holds b (response_message ver code desc headers body).
Proof.
  intros Hu Hc Hd Hl. unfold response_Pack, StatusLine_AppendToBuffer.
  rewrite (cstr_id desc) by (apply Forall_forall; intros c Hin ->; by apply Hd).
  rewrite StatusLine_ToString_text by done.
  apply (write_message out); [done| |done]. unfold response_fields, HeaderField.InsertOrUpdate.
  intros E. pose proof (map_find_set_eq HeaderField.kContentLength (len_str (zlen body))
    (insert_opt [] (Some headers))) as Hf. by rewrite E in Hf.
Qed.

(** The view of a parser that ended is the body of the message. *)
Lemma view_end_state {S} `{HttpParserLaws S} (s : S) (i j : nat) (line : bytes)
    (h : HeaderField.HeaderField) (body : bytes) :
  view (body_ (end_state s i j h (zlen (message line h body)) (zlen body))) (message line h body)
  = Some body.
Proof.
  unfold view. cbn. f_equal. rewrite message_length. rewrite Nat2Z.id.
  unfold message. rewrite !app_assoc. rewrite drop_app_length'.
  - apply take_ge. lia.
  - rewrite !length_app. simpl. lia.
Qed.

Lemma bytes_end_state {S} `{HttpParserLaws S} (s : S) (i j : nat) (line : bytes)
    (h : HeaderField.HeaderField) (body : bytes) :
  bytes_of (fun _ => Some (message line h body)) (body_ (end_state s i j h (zlen (message line h body)) (zlen body))) = Ok body.
Proof.
  pose proof (view_end_state s i j line h body) as Hv. unfold view, bytes_of in *. cbn in *. injection Hv as Hv.
  pose proof (message_length line h body) as Hl.
  destruct (Z.leb_spec 0 (zlen (message line h body) - zlen body)); [|lia].
  destruct (Z.leb_spec (zlen (message line h body) - zlen body + zlen body) (zlen (message line h body))); [|lia].
  cbn [andb]. by rewrite Hv.
Qed.

(** What a parser holds after a request packed by [request_Pack]. *)
Definition request_read (q : HttpParser request_sub) (host url : bytes)
    (headers : option (smap bytes)) (body buffer : bytes) : Prop :=
  IsEnd q = true /\ request_line_ (sub q) = mkRequestLine kPOST url kHTTP_1_1 /\
  headers_ q = request_fields host headers body /\ view (body_ q) buffer = Some body.

Lemma request_line_parsed (url : bytes) :
  word url ->
  parse_line (mkRequestSub new_RequestLine false) (request_text (mkRequestLine kPOST url kHTTP_1_1))
  = Ok (true, mkRequestSub (mkRequestLine kPOST url kHTTP_1_1) false).
Proof. intros Hu. cbn [parse_line request_laws]. by rewrite RequestLine_Parse_text. Qed.

Lemma request_message_outcome (host url : bytes) (headers : option (smap bytes)) (body : bytes) :
  request_ok host url headers body -> body <> [] ->
  zlen (request_message host url headers body) < 2 ^ 31 ->
  exists q, outcome (mkRequestSub new_RequestLine false) (request_message host url headers body)
            = Ok (0, q) /\
            request_read q host url headers body (request_message host url headers body) /\
            is_upgrade_to_ws_ (sub q) = HeaderField.IsConnectionUpgrade (request_fields host headers body) /\
            bytes_of (fun _ => Some (request_message host url headers body)) (body_ q) = Ok body.
Proof.
  intros [Hu Hp Hh Hf Hb] Hn Hl.
  destruct (request_fields_ok host headers body Hh Hf Hb) as (Hok & H2 & Hc).
  apply (request_text_plain (mkRequestLine kPOST url kHTTP_1_1)) in Hp as [Hcr H0].
  set (s1 := mkRequestSub (mkRequestLine kPOST url kHTTP_1_1) false).
  assert (request_line_ (note_headers s1 (request_fields host headers body))
          = mkRequestLine kPOST url kHTTP_1_1) as Hnote by (cbn; by case_match).
  eexists. split.
  - apply (message_complete _ _ _ Hcr H0 Hok H2 Hl _ s1);
      [by apply request_line_parsed| |done|done].
    cbn [bodyless request_laws]. by rewrite Hnote.
  - split; [split_and!; [done|exact Hnote|done|apply view_end_state]|]. split; [cbn; by case_match|apply bytes_end_state].
Qed.

(** ** Properties *)

(** C1: a parser that has seen part of a message and has neither ended nor failed continues
    on the longer buffer exactly as a new parser started on the whole buffer would, errors
    and exceptions included; for requests and responses alike. *)
Theorem DoParse_incremental {S : Type} `{HttpParserLaws S} (s : S) (a b : bytes) (r : Z)
    (p : HttpParser S)
    (Ha : DoParse (new_HttpParser s) a = Ok (r, p)) (Hp : IsEnd p || IsErr p = false)
    (Hb : b <> []) (Hsize : zlen (a ++ b) < 2 ^ 31) :
  DoParse p (a ++ b) = DoParse (new_HttpParser s) (a ++ b).
Proof.
  apply resume; [|done|done]. destruct (decide (a = [])) as [->|Hn].
  - injection Ha as _ <-. by apply reached_none.
  - rewrite DoParse_outcome in Ha; [|done|rewrite length_app in Hsize; lia].
    by eapply outcome_reached.
Qed.

Lemma DoParse_incremental_witness :
  exists p, DoParse new_request (str "GET / HT") = Ok (-1, p) /\
    DoParse p (str "GET / HT" ++ str "TP/1.1") = DoParse new_request (str "GET / HTTP/1.1").
Proof.
  eexists. split; [reflexivity|].
  refine (DoParse_incremental (mkRequestSub new_RequestLine false) (str "GET / HT") (str "TP/1.1")
            (-1) _ _ _ _ _); [reflexivity|reflexivity|done|vm_compute; reflexivity].
Defined.

(** C15: whatever the segmentation of a complete message into nonempty pieces, feeding the
    pieces to the parser as they arrive ends in exactly the parser state of parsing the whole
    message at once: no earlier call ends or fails. *)
Theorem feed_complete {S : Type} `{HttpParserLaws S} (s : S) (chunks : list bytes) (r : Z)
    (q : HttpParser S)
    (Hmsg : DoParse (new_HttpParser s) (concat chunks) = Ok (r, q)) (Hend : IsEnd q = true)
    (Hchunks : Forall (fun c => c <> []) chunks) (Hsize : zlen (concat chunks) < 2 ^ 31) :
  feed (new_HttpParser s) [] chunks = Ok q.
Proof.
  destruct chunks as [|c cs]; [by injection Hmsg as _ <-|].
  assert (concat (c :: cs) <> []).
  { inversion Hchunks; subst. cbn. by intros [? _]%app_nil. }
  apply (feed_from s _ [] _ r); [by apply reached_none|done|done|done| |done].
  by rewrite app_nil_l, <- DoParse_outcome.
Qed.

Lemma feed_complete_witness :
  let c := [str "GET /a HTTP/1.1"; crlf; str "Host: h"; crlf ++ str "Accept: x" ++ [13]; [10; 13]; [10]] in
  exists q, IsEnd q = true /\ feed new_request [] c = Ok q.
Proof.
  intros c. eexists. split.
  2: refine (feed_complete (mkRequestSub new_RequestLine false) c 0 _ _ _ _ _);
       [vm_compute; reflexivity|reflexivity|by repeat constructor|vm_compute; reflexivity].
  reflexivity.
Defined.

Lemma request_returns (p : HttpParser request_sub) (buffer : bytes) :
  (DoParse p buffer = Fault Undefined /\ ~ in_range p buffer) \/
  (exists r q, DoParse p buffer = Ok (r, q) /\ (in_range p buffer -> in_range q buffer)).
Proof.
  destruct (DoParse_returns p buffer) as [(f & E & [(s & l & Hf)|[-> Hn]])|?]; [|by left|by right].
  cbn [parse_line request_laws] in Hf.
  destruct (RequestLine_Parse_cases (request_line_ s) l) as (b & l' & E' & _).
  by rewrite E' in Hf.
Qed.

Lemma response_returns (p : HttpParser StatusLine) (buffer : bytes) :
  (DoParse p buffer = Fault Undefined /\ ~ in_range p buffer) \/
  (exists r q, DoParse p buffer = Ok (r, q) /\ (in_range p buffer -> in_range q buffer)) \/
  exists e, DoParse p buffer = Fault (Throw e) /\ (e = InvalidArgument \/ e = OutOfRange).
Proof.
  destruct (DoParse_returns p buffer) as [(f & Hp & [(s & l & Hf)|[-> Hn]])|?]; [|by left|by right; left].
  right; right. rewrite Hp. cbn [parse_line response_laws] in Hf. unfold StatusLine_ParseFromString in Hf.
  destruct (split_total l (str " ")) as [fs E]; [done|apply border_free_1|]. rewrite E in Hf.
  cbn [mbind res_bind] in Hf. unfold stoi in Hf.
  repeat case_match; simplify_eq; cbn in *; simplify_eq; eauto.
Qed.

Lemma in_range_app {S} (p : HttpParser S) (a b : bytes) :
  in_range p a -> zlen (a ++ b) < 2 ^ 31 -> in_range p (a ++ b).
Proof. intros [Hr _] Hb. split; [|done]. rewrite length_app. lia. Qed.

Lemma request_feed_returns (chunks : list bytes) (p : HttpParser request_sub) (a : bytes) :
  in_range p a -> zlen (a ++ concat chunks) < 2 ^ 31 ->
  exists q, feed p a chunks = Ok q /\ resolved_len_ q <= zlen (a ++ concat chunks).
Proof.
  revert p a. induction chunks as [|c cs IH]; intros p a Hp Hl.
  { exists p. split; [done|]. destruct Hp as [Hr _]. rewrite length_app. lia. }
  cbn [feed concat] in *. rewrite app_assoc in Hl |- *. pose proof Hl as Hl'. rewrite length_app in Hl'.
  assert (in_range p (a ++ c)) as Hr by (apply in_range_app; [done|lia]).
  destruct (request_returns p (a ++ c)) as [[_ Hn]|(r & q & -> & Hq)]; [done|]. cbn [mbind res_bind].
  destruct (IsEnd q || IsErr q); [|apply IH; auto].
  exists q. split; [done|]. destruct (Hq Hr) as [Hr' _]. rewrite length_app. lia.
Qed.

(** C36: the request parser returns whatever it is sent: a new parser that is fed any bytes, below
    2^31 in all, in any pieces (empty ones too), comes back from every call, so no loop runs forever,
    nothing outside the buffer is read, no assertion fails and no exception escapes; and it never
    claims to have read more than was received. *)
Theorem request_DoParse_total (chunks : list bytes) (Hsize : zlen (concat chunks) < 2 ^ 31) :
  exists q, feed new_request [] chunks = Ok q /\ resolved_len_ q <= zlen (concat chunks).
Proof. by apply (request_feed_returns chunks new_request []). Qed.

Lemma request_DoParse_total_witness :
  exists q, feed new_request [] [str "GET"; []; [13; 10; 0]; str "?"] = Ok q /\ resolved_len_ q <= 7.
Proof. refine (request_DoParse_total [str "GET"; []; [13; 10; 0]; str "?"] _). reflexivity. Defined.

(** The response parser returns when it has not gone past the buffer, or lets through the exception
    of [std::stoi] on a malformed status code; nothing else can stop it. *)
Theorem response_DoParse_total (p : HttpParser StatusLine) (buffer : bytes) (Hp : in_range p buffer) :
  (exists r q, DoParse p buffer = Ok (r, q) /\ in_range q buffer) \/
  DoParse p buffer = Fault (Throw InvalidArgument) \/
  DoParse p buffer = Fault (Throw OutOfRange).
Proof. destruct (response_returns p buffer) as [[_ ?]|[(r & q & -> & Hq)|(e & -> & [->| ->])]]; eauto 10. done. Qed.

(** C13: a POST request written by [http::request::Pack] is read back by the request parser, in whatever
    nonempty pieces it arrives: the same URL, the headers [Pack] set, and a body view of exactly the
    bytes sent. It holds when the body has between 1 and 10^8 - 1 bytes and the whole message fewer than
    2^31; the URL is one word, not empty and without space, CR or NUL; and the host and every header name
    and value given are tokens: not empty, without CR and NUL, and without the separator of name and
    value, a colon followed by a space. *)
Theorem request_Pack_parse (host url : bytes) (headers : option (smap bytes)) (body : bytes)
    (out : AutoBuffer) (chunks : list bytes)
    (Hok : request_ok host url headers body) (Hbody : body <> [])
    (Hsize : zlen (request_message host url headers body) < 2 ^ 31)
    (Hout : 0 < malloc_unit_size_ out < 2 ^ 32)
    (Hchunks : Forall (fun c => c <> []) chunks)
    (Hsent : (contents <$> request_Pack host url headers body out) = Ok (concat chunks)) :
  exists q, feed new_request [] chunks = Ok q /\
            request_read q host url headers body (concat chunks).
Proof.
  destruct (request_Pack_holds host url headers body out Hout Hsize) as (b & Hb & _ & Hc & _).
  rewrite Hb in Hsent. cbn in Hsent. injection Hsent as Hsent. rewrite Hc in Hsent.
  destruct (request_message_outcome host url headers body Hok Hbody Hsize) as (q & Hq & Hr & _).
  rewrite Hsent in *. exists q. split; [|done].
  apply (feed_from (mkRequestSub new_RequestLine false) chunks [] _ 0); [by apply reached_none|done| |done|done|by apply Hr].
  intros ->. by apply message_nonnil in Hsent.
Qed.

Lemma request_Pack_parse_witness :
  exists q, feed new_request []
      [str "POST /up HTTP/1.1" ++ crlf ++ str "Connection: close" ++ crlf ++ str "Content-Len";
       str "gth: 2" ++ crlf ++ str "Host: h" ++ crlf ++ [13]; [10]; str "o"; str "k"] = Ok q /\
    request_read q (str "h") (str "/up") None (str "ok")
      (str "POST /up HTTP/1.1" ++ crlf ++ str "Connection: close" ++ crlf
       ++ str "Content-Length: 2" ++ crlf ++ str "Host: h" ++ crlf ++ crlf ++ str "ok").
Proof.
  refine (request_Pack_parse (str "h") (str "/up") None (str "ok") (AutoBuffer.new 128)
            [str "POST /up HTTP/1.1" ++ crlf ++ str "Connection: close" ++ crlf ++ str "Content-Len";
             str "gth: 2" ++ crlf ++ str "Host: h" ++ crlf ++ [13]; [10]; str "o"; str "k"]
            _ _ _ _ _ _); [|done|vm_compute; reflexivity|simpl; lia|by repeat constructor|vm_compute; reflexivity].
  split; [by apply str_word|by apply plain_dec|by apply HeaderField.token_dec|constructor|].
  vm_compute. reflexivity.
Defined.

(** A response message is read back in any segmentation. *)
Lemma response_feed (ver : THttpVersion) (code : Z) (desc : bytes) (headers : smap bytes)
    (body : bytes) (chunks : list bytes) :
  response_ok code desc headers body -> body <> [] ->
  zlen (response_message ver code desc headers body) < 2 ^ 31 ->
  Forall (fun c => c <> []) chunks -> response_message ver code desc headers body = concat chunks ->
  exists q, feed new_response [] chunks = Ok q /\ IsEnd q = true /\
    sub q = mkStatusLine ver code desc /\
    headers_ q = response_fields (Some headers) (Some body) /\
    view (body_ q) (concat chunks) = Some body.
Proof.
  intros [Hc Hd Hp Hf Ho Hb] Hbody Hsize Hchunks Hsent. rewrite <- Hsent.
  destruct (response_fields_ok headers body Hf Ho Hb) as (Hok & H2 & Hcl).
  apply (status_text_plain (mkStatusLine ver code desc)) in Hp as [Hcr H0].
  eexists. split; [|split_and!; [..|apply view_end_state]; done].
  apply (feed_from new_StatusLine chunks [] _ 0); [by apply reached_none|done| |by rewrite app_nil_l, <- Hsent| |done].
  - intros ->. by apply message_nonnil in Hsent.
  - rewrite app_nil_l, <- Hsent. apply message_complete; try done.
    by apply StatusLine_Parse_text.
Qed.

(** C14: a response written by [http::response::Pack] is read back by the response parser, in whatever
    nonempty pieces it arrives: status line, headers and body. It holds when the status code is between 0
    and 999 and the reason phrase one word, not empty and without space, CR or NUL; there is at least one
    header besides Content-Length, and every header name and value is a token: not empty, without CR and
    NUL, and without the separator of name and value, a colon followed by a space; and the body has between
    1 and 10^8 - 1 bytes (its length is written into eight digits) and the whole message fewer than 2^31. *)
Theorem response_Pack_parse (ver : THttpVersion) (code : Z) (desc : bytes) (headers : smap bytes)
    (body : bytes) (out : AutoBuffer) (chunks : list bytes)
    (Hok : response_ok code desc headers body) (Hbody : body <> [])
    (Hsize : zlen (response_message ver code desc headers body) < 2 ^ 31)
    (Hout : 0 < malloc_unit_size_ out < 2 ^ 32)
    (Hchunks : Forall (fun c => c <> []) chunks)
    (Hsent : (contents <$> response_Pack ver code desc (Some headers) (Some body) out)
             = Ok (concat chunks)) :
  exists q, feed new_response [] chunks = Ok q /\ IsEnd q = true /\
    sub q = mkStatusLine ver code desc /\
    headers_ q = response_fields (Some headers) (Some body) /\
    view (body_ q) (concat chunks) = Some body.
Proof.
  pose proof Hok as [Hc _ Hp _ _ _].
  destruct (response_Pack_holds ver code desc headers body out Hout Hc Hp Hsize) as (b & Eb & _ & Ec & _).
  rewrite Eb in Hsent. cbn in Hsent. injection Hsent as Hsent. rewrite Ec in Hsent.
  by apply response_feed.
Qed.

Lemma response_Pack_parse_witness :
  exists q, feed new_response []
      [str "HTTP/1.1 200 OK" ++ crlf ++ str "Content-Length: 2" ++ crlf;
       str "Content-Type: text/plain" ++ crlf ++ crlf ++ str "h"; str "i"] = Ok q /\
    IsEnd q = true /\ sub q = mkStatusLine kHTTP_1_1 200 (str "OK") /\
    headers_ q = [(str "Content-Length", str "2"); (str "Content-Type", str "text/plain")] /\
    view (body_ q) (str "HTTP/1.1 200 OK" ++ crlf ++ str "Content-Length: 2" ++ crlf
       ++ str "Content-Type: text/plain" ++ crlf ++ crlf ++ str "hi") = Some (str "hi").
Proof.
  refine (response_Pack_parse kHTTP_1_1 200 (str "OK")
            [(HeaderField.kContentType, HeaderField.kTextPlain)] (str "hi") (AutoBuffer.new 128)
      [str "HTTP/1.1 200 OK" ++ crlf ++ str "Content-Length: 2" ++ crlf;
       str "Content-Type: text/plain" ++ crlf ++ crlf ++ str "h"; str "i"] _ _ _ _ _ _);
    [|done|vm_compute; reflexivity|simpl; lia|by repeat constructor|vm_compute; reflexivity].
  split; [lia|by apply str_word|by apply plain_dec| | |vm_compute; reflexivity].
  - repeat constructor; by apply HeaderField.token_dec.
  - exists (HeaderField.kContentType, HeaderField.kTextPlain). split; [set_solver|done].
Defined.

(** The request [Pack] writes for an empty body is refused by the request parser as soon
    as its headers are complete: Content-Length 0 counts as an error. *)
Theorem request_empty_body_rejected (host url : bytes) (headers : option (smap bytes))
    (out : AutoBuffer) (Hok : request_ok host url headers [])
    (Hsize : zlen (request_message host url headers []) < 2 ^ 31)
    (Hout : 0 < malloc_unit_size_ out < 2 ^ 32) :
  exists b q, request_Pack host url headers [] out = Ok b /\
              DoParse new_request (contents b) = Ok (-1, q) /\ IsErr q = true.
Proof.
  destruct (request_Pack_holds host url headers [] out Hout Hsize) as (b & Hb & _ & Hc & _).
  destruct Hok as [Hu Hp Hh Hf Hl].
  destruct (request_fields_ok host headers [] Hh Hf Hl) as (Hok & H2 & Hcl).
  apply (request_text_plain (mkRequestLine kPOST url kHTTP_1_1)) in Hp as [Hcr H0].
  destruct (message_empty _ _ [] Hcr H0 Hok H2 Hsize _ _ (request_line_parsed url Hu)) as (q & Hq & Hr).
  { cbn. by case_match. }
  { done. }
  exists b, q. split; [done|]. rewrite Hc. split; [|done].
  rewrite <- Hq. apply DoParse_outcome; [apply message_nonnil|done].
Qed.

Lemma request_empty_body_rejected_witness :
  exists b q, request_Pack (str "h") (str "/") None [] (AutoBuffer.new 128) = Ok b /\
              DoParse new_request (contents b) = Ok (-1, q) /\ IsErr q = true.
Proof.
  refine (request_empty_body_rejected (str "h") (str "/") None (AutoBuffer.new 128) _ _ _);
    [|vm_compute; reflexivity|simpl; lia].
  split; [by apply str_word|by apply plain_dec|by apply HeaderField.token_dec|constructor|done].
Defined.

(** A request without header fields is never recognised: after the request line and the
    empty line the parser still waits for headers, whatever the method. *)
Theorem no_headers_stalls (l : RequestLine) (Hl : request_line_ok l) (Hp : plain (url_ l))
    (Hsize : zlen (RequestLine_ToString l ++ crlf) < 2 ^ 31) :
  exists q, DoParse new_request (RequestLine_ToString l ++ crlf) = Ok (-1, q) /\
            position_ q = kHeaders /\ request_line_ (sub q) = l.
Proof.
  apply request_text_plain in Hp as [Hcr H0]. rewrite RequestLine_ToString_text in *.
  rewrite <- app_assoc in *. set (t := request_text l) in *.
  exists (headers_state (mkRequestSub l false) (length t)). split; [|done].
  unfold new_request. rewrite DoParse_outcome; [|by intros [_ ?]%app_nil|done].
  pose proof Hsize as Hs. rewrite !length_app in Hs.
  assert (line_end (t ++ crlf ++ crlf) = Some (length t)) as Hi.
  { unfold line_end. rewrite find_at_spec; [|done|apply crlf_no_nul|done|done|lia].
    change (Z.to_nat 0) with O. rewrite drop_0, cstr_app_nonul by done.
    unfold crlf at 1. rewrite find_sub_skip by done. simpl. by rewrite Nat.add_0_r. }
  assert (headers_end (t ++ crlf ++ crlf) (length t) = None) as Hj.
  { unfold headers_end. rewrite find_at_spec;
      [|done|apply crlfcrlf_no_nul|done|done|rewrite !length_app; simpl; lia].
    rewrite app_assoc, drop_app_length'; [done|]. rewrite length_app. simpl. lia. }
  unfold outcome. rewrite Hi, Hj. rewrite take_app_length. cbn [parse_line request_laws].
  unfold t. cbn [request_line_]. by rewrite RequestLine_Parse_text.
Qed.

Lemma no_headers_stalls_witness :
  exists q, DoParse new_request (str "GET / HTTP/1.1" ++ crlf ++ crlf) = Ok (-1, q) /\
            position_ q = kHeaders /\ request_line_ (sub q) = mkRequestLine kGET (str "/") kHTTP_1_1.
Proof.
  refine (no_headers_stalls (mkRequestLine kGET (str "/") kHTTP_1_1) _ _ _);
    [by apply str_word|by apply plain_dec|vm_compute; reflexivity].
Defined.

End HttpProps.
