(* ===== verification/WebSocket.v ===== *)
(** * WebSocket packets and parser (longlink/websocketpacket.h, websocketpacket.cc)

    The frame writer [ws::Pack], the packet with its opening handshake, and
    the parser, a state machine over the bytes received so far. *)
From S2P Require Import Prelude CLib StdMap AutoBuffer Base64 MessageDigest HeaderField.

Module WebSocket.
Import AutoBuffer.

(** ** Definitions *)

Definition kHandShakeMagicKey : bytes := str "258EAFA5-E914-47DA-95CA-C5AB0DC85B11".
Definition kOpcodeText : Z := 1.
Definition kOpcodeConnectionClose : Z := 8.

Definition kStatusCodeInvalid : Z := 0.
Definition kStatusCodeCloseNormal : Z := 1000.
Definition kStatusCodeCloseGoingAway : Z := 1001.
Definition kStatusCodeCloseProtocolError : Z := 1002.
Definition kStatusCodeCloseUnsupported : Z := 1003.
Definition kStatusCodeCloseNoStatus : Z := 1005.
Definition kStatusCodeCloseAbnormal : Z := 1006.
Definition kStatusCodeUnsupportedData : Z := 1007.
Definition kStatusCodePolicyViolation : Z := 1008.
Definition kStatusCodeCloseTooLarge : Z := 1009.
Definition kStatusCodeMissingExtension : Z := 1010.
Definition kStatusCodeInternalError : Z := 1011.
Definition kStatusCodeServiceRestart : Z := 1012.
Definition kStatusCodeTryAgainLater : Z := 1013.
Definition kStatusCodeTlsHandShake : Z := 1015.

Definition kStatusCodeInvalidInfo : bytes := str "Invalid Status Code".
Definition kStatusCodeCloseNormalInfo : bytes := str "Close Normal".
Definition kStatusCodeCloseGoingAwayInfo : bytes := str "Close Going Away".
Definition kStatusCodeCloseProtocolErrorInfo : bytes := str "Close Protocol Error".
Definition kStatusCodeCloseUnsupportedInfo : bytes := str "Close Unsupported".
Definition kStatusCodeCloseNoStatusInfo : bytes := str "Close No Status".
Definition kStatusCodeCloseAbnormalInfo : bytes := str "Close Abnormal".
Definition kStatusCodeUnsupportedDataInfo : bytes := str "Unsupported Data".
Definition kStatusCodePolicyViolationInfo : bytes := str "Policy Violation".
Definition kStatusCodeCloseTooLargeInfo : bytes := str "Close Too Large".
Definition kStatusCodeMissingExtensionInfo : bytes := str "Missing Extension".
Definition kStatusCodeInternalErrorInfo : bytes := str "Internal Error".
Definition kStatusCodeServiceRestartInfo : bytes := str "Service Restart".
Definition kStatusCodeTryAgainLaterInfo : bytes := str "TryAgain Later".
Definition kStatusCodeTlsHandShakeInfo : bytes := str "TlsHand Shake".

(** The bytes of an integer in memory, on the little-endian machines the
    server runs on. *)
Fixpoint host_bytes (n : nat) (z : Z) : bytes :=
  match n with
  | O => []
  | S n' => z mod 256 :: host_bytes n' (z / 256)
  end.

(** [ws::Pack] *)
Definition Pack (content : bytes) (out : AutoBuffer) : res AutoBuffer :=
  out ← WriteString out [wrap8 (128 + kOpcodeText)];
  let length := zlen content in
  out ← (if length <? 126 then WriteString out (host_bytes 1 length)
         else if length <=? 65535 then
           out ← WriteString out (host_bytes 1 126);
           WriteString out (host_bytes 2 length)
         else
           out ← WriteString out (host_bytes 1 127);
           WriteString out (host_bytes 8 length));
  WriteString out content.

Record WebSocketPacket := mkPacket {
  is_hand_shaken_ : bool;
  handshake_req_ : HeaderField.HeaderField;
  handshake_resp_ : HeaderField.HeaderField;
  first_byte_ : Z;
  fin_ : bool;
  rsv_ : list bool;
  op_code_ : Z;
  mask_ : bool;
  payload_len_ : Z;
  extended_payload_len_ : Z;
  masking_key_ : bytes;
  payload_ : bytes
}.

Definition new_packet : WebSocketPacket :=
  mkPacket false [] [] 129 false [false; false; false] 0 false 0 0 [0; 0; 0; 0] [].

(** [md::Sha1::Digest] fills [sha1], of which 20 bytes are encoded; a failed
    handshake leaves [handshake_resp_] empty. *)
Definition DoHandShake (w : WebSocketPacket) : res (bool * WebSocketPacket) :=
  _ ← assert_ (negb (is_hand_shaken_ w));
  let w := mkPacket (is_hand_shaken_ w) (handshake_req_ w) (HeaderField.Reset (handshake_resp_ w))
             (first_byte_ w) (fin_ w) (rsv_ w) (op_code_ w) (mask_ w) (payload_len_ w)
             (extended_payload_len_ w) (masking_key_ w) (payload_ w) in
  match HeaderField.Get (handshake_req_ w) HeaderField.kSecWebSocketKey with
  | None => Ok (false, w)
  | Some sec_ws_key =>
      let sec_key := sec_ws_key ++ kHandShakeMagicKey in
      '(sha1, _) ← Sha1.Digest sec_key;
      base64 ← Base64.Encode (take 20 sha1);
      let resp := HeaderField.InsertOrUpdate (handshake_resp_ w) HeaderField.kSecWebSocketAccept base64 in
      let resp := HeaderField.InsertOrUpdate resp HeaderField.kConnection HeaderField.kUpgrade in
      let resp := HeaderField.InsertOrUpdate resp HeaderField.kUpgrade HeaderField.kWebSocket in
      Ok (true, mkPacket true (handshake_req_ w) resp (first_byte_ w) (fin_ w) (rsv_ w) (op_code_ w)
                  (mask_ w) (payload_len_ w) (extended_payload_len_ w) (masking_key_ w) (payload_ w))
  end.

Definition SetHandShakeReqHeader (w : WebSocketPacket) (h : HeaderField.HeaderField) : WebSocketPacket :=
  mkPacket (is_hand_shaken_ w) h (handshake_resp_ w) (first_byte_ w) (fin_ w) (rsv_ w) (op_code_ w)
    (mask_ w) (payload_len_ w) (extended_payload_len_ w) (masking_key_ w) (payload_ w).

(** [b & m] as a condition *)
Definition has_bit (b m : Z) : bool := negb (Z.land b m =? 0).

Definition SetFirstByte (w : WebSocketPacket) (first : Z) : WebSocketPacket :=
  mkPacket (is_hand_shaken_ w) (handshake_req_ w) (handshake_resp_ w) first
    (has_bit first 128) [has_bit first 64; has_bit first 32; has_bit first 16]
    (Z.land first 15) (mask_ w) (payload_len_ w) (extended_payload_len_ w) (masking_key_ w) (payload_ w).

(** Two [char]s as a big-endian 16-bit number. *)
Definition be16 (hi lo : Z) : Z :=
  wrap16 (Z.land (Z.shiftl (to_char hi) 8) 65280 + Z.land (to_char lo) 255).

Definition StatusCode (w : WebSocketPacket) : Z :=
  match payload_ w with
  | hi :: lo :: _ => be16 hi lo
  | _ => kStatusCodeInvalid
  end.

Definition StatusCodeInfo (w : WebSocketPacket) : option bytes :=
  let status_code := StatusCode w in
  if status_code =? kStatusCodeInvalid then Some kStatusCodeInvalidInfo
  else if status_code =? kStatusCodeCloseNormal then Some kStatusCodeCloseNormalInfo
  else if status_code =? kStatusCodeCloseGoingAway then Some kStatusCodeCloseGoingAwayInfo
  else if status_code =? kStatusCodeCloseProtocolError then Some kStatusCodeCloseProtocolErrorInfo
  else if status_code =? kStatusCodeCloseUnsupported then Some kStatusCodeCloseUnsupportedInfo
  else if status_code =? kStatusCodeCloseNoStatus then Some kStatusCodeCloseNoStatusInfo
  else if status_code =? kStatusCodeCloseAbnormal then Some kStatusCodeCloseAbnormalInfo
  else if status_code =? kStatusCodeUnsupportedData then Some kStatusCodeUnsupportedDataInfo
  else if status_code =? kStatusCodePolicyViolation then Some kStatusCodePolicyViolationInfo
  else if status_code =? kStatusCodeCloseTooLarge then Some kStatusCodeCloseTooLargeInfo
  else if status_code =? kStatusCodeMissingExtension then Some kStatusCodeMissingExtensionInfo
  else if status_code =? kStatusCodeInternalError then Some kStatusCodeInternalErrorInfo
  else if status_code =? kStatusCodeServiceRestart then Some kStatusCodeServiceRestartInfo
  else if status_code =? kStatusCodeTryAgainLater then Some kStatusCodeTryAgainLaterInfo
  else if status_code =? kStatusCodeTlsHandShake then Some kStatusCodeTlsHandShakeInfo
  else None.

Definition Masked (w : WebSocketPacket) (m : bool) : WebSocketPacket :=
  mkPacket (is_hand_shaken_ w) (handshake_req_ w) (handshake_resp_ w) (first_byte_ w) (fin_ w) (rsv_ w)
    (op_code_ w) m (payload_len_ w) (extended_payload_len_ w) (masking_key_ w) (payload_ w).

Definition SetPayloadLen (w : WebSocketPacket) (n : Z) : WebSocketPacket :=
  mkPacket (is_hand_shaken_ w) (handshake_req_ w) (handshake_resp_ w) (first_byte_ w) (fin_ w) (rsv_ w)
    (op_code_ w) (mask_ w) n (extended_payload_len_ w) (masking_key_ w) (payload_ w).

Definition SetExtendedPayloadLen (w : WebSocketPacket) (n : Z) : WebSocketPacket :=
  mkPacket (is_hand_shaken_ w) (handshake_req_ w) (handshake_resp_ w) (first_byte_ w) (fin_ w) (rsv_ w)
    (op_code_ w) (mask_ w) (payload_len_ w) n (masking_key_ w) (payload_ w).

Definition SetMaskingKey (w : WebSocketPacket) (k : bytes) : WebSocketPacket :=
  mkPacket (is_hand_shaken_ w) (handshake_req_ w) (handshake_resp_ w) (first_byte_ w) (fin_ w) (rsv_ w)
    (op_code_ w) (mask_ w) (payload_len_ w) (extended_payload_len_ w) k (payload_ w).

Definition set_payload (w : WebSocketPacket) (s : bytes) : WebSocketPacket :=
  mkPacket (is_hand_shaken_ w) (handshake_req_ w) (handshake_resp_ w) (first_byte_ w) (fin_ w) (rsv_ w)
    (op_code_ w) (mask_ w) (payload_len_ w) (extended_payload_len_ w) (masking_key_ w) s.

Definition Reset_packet (w : WebSocketPacket) : WebSocketPacket :=
  mkPacket (is_hand_shaken_ w) (handshake_req_ w) (handshake_resp_ w) 0 (fin_ w) (rsv_ w) (op_code_ w)
    false 0 0 [0; 0; 0; 0] [].

Definition AllocNewPacket : WebSocketPacket :=
  mkPacket true [] [] 129 false [false; false; false] 0 false 0 0 [0; 0; 0; 0] [].

(** ** The parser *)

Inductive TPosition :=
| kNone | kFirstByte | kPayloadLen | kExtendedPayloadLen | kMaskingKey | kPayload | kEnd | kError.

#[export] Instance ws_TPosition_eq_dec : EqDecision TPosition.
Proof. solve_decision. Defined.

Record WebSocketParser := mkParser {
  ws_packet_ : WebSocketPacket;
  position_ : TPosition;
  resolved_len_ : Z
}.

Definition new_parser (packet : WebSocketPacket) (handshake_req : HeaderField.HeaderField) :
    WebSocketParser :=
  mkParser (SetHandShakeReqHeader packet handshake_req) kNone 0.

Definition IsErr (p : WebSocketParser) : bool := bool_decide (position_ p = kError).
Definition IsEnd (p : WebSocketParser) : bool := bool_decide (position_ p = kEnd).

Definition OnApplicationPacketChanged (p : WebSocketParser) (neo : WebSocketPacket) : WebSocketParser :=
  mkParser neo (position_ p) (resolved_len_ p).

(** [*buffer_->Ptr(i)]; reading past the bytes received is undefined. *)
Definition byte_at (buffer : bytes) (i : Z) : res Z :=
  if i <? 0 then Fault Undefined
  else match buffer !! Z.to_nat i with Some c => Ok c | None => Fault Undefined end.

(** The [n] bytes at [buffer_->Ptr(i)]. *)
Definition bytes_from (buffer : bytes) (i n : Z) : res bytes :=
  if (i <? 0) || (zlen buffer <? i + n) then Fault Undefined
  else Ok (take (Z.to_nat n) (drop (Z.to_nat i) buffer)).

Definition _ResolveFirstByte (p : WebSocketParser) (buffer : bytes) : res (bool * WebSocketParser) :=
  c ← byte_at buffer 0;
  Ok (true, mkParser (SetFirstByte (ws_packet_ p) c) kPayloadLen (add64 (resolved_len_ p) 1)).

Definition _ResolvePayloadLen (p : WebSocketParser) (buffer : bytes) : res (bool * WebSocketParser) :=
  if sub64 (zlen buffer) (resolved_len_ p) <? 1 then Ok (false, p)
  else
    c ← byte_at buffer 1;
    let is_mask := has_bit c 128 in
    let w := Masked (ws_packet_ p) is_mask in
    let payload_len := Z.land c 127 in
    if (payload_len =? 126) || (payload_len =? 127) then
      Ok (true, mkParser (SetPayloadLen w payload_len) kExtendedPayloadLen (add64 (resolved_len_ p) 1))
    else if payload_len <? 126 then
      Ok (true, mkParser (SetPayloadLen w payload_len) (if is_mask then kMaskingKey else kPayload)
                  (add64 (resolved_len_ p) 1))
    else Ok (false, mkParser w kError (resolved_len_ p)).

(** [x << s] at type [int]: a shift by the width or more is undefined. *)
Definition int_shl (x s : Z) : res Z :=
  if (s <? 0) || (32 <=? s) then Fault Undefined else Ok (to_int (Z.shiftl x s)).

(** The loop over the eight bytes of a 64-bit length, from index [i] on. *)
Fixpoint long_len_loop (n : nat) (i : Z) (buffer : bytes) (resolved len : Z) : res (Z * Z) :=
  match n with
  | O => Ok (len, resolved)
  | S n' =>
      let shift := (7 - i) * 8 in
      c ← byte_at buffer resolved;
      a ← int_shl c shift;
      m ← int_shl 255 shift;
      long_len_loop n' (i + 1) buffer (add64 resolved 1) (add64 len (wrap64 (Z.land a m)))
  end.

Definition _ResolveExtendedPayloadLen (p : WebSocketParser) (buffer : bytes) :
    res (bool * WebSocketParser) :=
  let unresolved_len := sub64 (zlen buffer) (resolved_len_ p) in
  let payload_len := payload_len_ (ws_packet_ p) in
  let next := if mask_ (ws_packet_ p) then kMaskingKey else kPayload in
  if payload_len =? 126 then
    if unresolved_len <? 2 then Ok (false, p)
    else
      hi ← byte_at buffer (resolved_len_ p);
      lo ← byte_at buffer (resolved_len_ p + 1);
      Ok (true, mkParser (SetExtendedPayloadLen (ws_packet_ p) (be16 hi lo)) next
                  (add64 (resolved_len_ p) 2))
  else if payload_len =? 127 then
    if unresolved_len <? 8 then Ok (false, p)
    else
      '(len, resolved) ← long_len_loop 8 0 buffer (resolved_len_ p) 0;
      Ok (true, mkParser (SetExtendedPayloadLen (ws_packet_ p) len) next resolved)
  else Ok (false, mkParser (ws_packet_ p) kError (resolved_len_ p)).

Definition _ResolveMaskingKey (p : WebSocketParser) (buffer : bytes) : res (bool * WebSocketParser) :=
  if sub64 (zlen buffer) (resolved_len_ p) <? 4 then Ok (false, p)
  else if mask_ (ws_packet_ p) then
    mask_key ← bytes_from buffer (resolved_len_ p) 4;
    Ok (true, mkParser (SetMaskingKey (ws_packet_ p) mask_key) kPayload (add64 (resolved_len_ p) 4))
  else Ok (true, p).

(** The decoding loop from index [i], an [int], on; [raw] is what is left. *)
Fixpoint decode_loop (i : Z) (mask : bool) (key : bytes) (raw : bytes) : res bytes :=
  match raw with
  | [] => Ok []
  | c :: raw' =>
      let decoded := if mask then Z.lxor c (nth (Z.to_nat (i mod 4)) key 0) else c in
      i' ← inc_int i;
      payload ← decode_loop i' mask key raw';
      Ok (decoded :: payload)
  end.

Definition _ResolvePayload (p : WebSocketParser) (buffer : bytes) : res (bool * WebSocketParser) :=
  let unresolved_len := sub64 (zlen buffer) (resolved_len_ p) in
  if unresolved_len <=? 0 then Ok (false, p)
  else
    let w := ws_packet_ p in
    let payload_len := payload_len_ w in
    raw ← bytes_from buffer (resolved_len_ p) unresolved_len;
    decoded ← decode_loop 0 (mask_ w) (masking_key_ w) raw;
    let payload := payload_ w ++ decoded in
    let w := set_payload w payload in
    let resolved := add64 (resolved_len_ p) unresolved_len in
    if zlen payload =? payload_len then Ok (true, mkParser w kEnd resolved)
    else if payload_len <? zlen payload then Ok (false, mkParser w kError resolved)
    else Ok (false, mkParser w kPayload resolved).

(** One turn of the loop of [DoParse]. *)
Definition parse_turn (p : WebSocketParser) (buffer : bytes) : res (bool * WebSocketParser) :=
  match position_ p with
  | kNone => _ResolveFirstByte (mkParser (ws_packet_ p) kFirstByte 0) buffer
  | kFirstByte => _ResolveFirstByte p buffer
  | kPayloadLen => _ResolvePayloadLen p buffer
  | kExtendedPayloadLen => _ResolveExtendedPayloadLen p buffer
  | kMaskingKey => _ResolveMaskingKey p buffer
  | kPayload => _ResolvePayload p buffer
  | _ => Ok (false, p)
  end.

Fixpoint parse_loop (fuel : nat) (p : WebSocketParser) (buffer : bytes) : res (Z * WebSocketParser) :=
  match fuel with
  | O => Fault Hang
  | S fuel' =>
      '(success, p) ← parse_turn p buffer;
      match position_ p with
      | kEnd => Ok (0, p)
      | kError => Ok (-1, p)
      | _ => if success : bool then parse_loop fuel' p buffer else Ok (0, p)
      end
  end.

(** There are six positions before [kEnd]. *)
Definition parse_fuel : nat := 7.

Definition DoParse (p : WebSocketParser) (buffer : bytes) : res (Z * WebSocketParser) :=
  _ ← assert_ (is_hand_shaken_ (ws_packet_ p));
  let unresolved_len := sub64 (zlen buffer) (resolved_len_ p) in
  if unresolved_len <=? 0 then Ok (0, p)
  else parse_loop parse_fuel p buffer.

(** [Reset]: the receive buffer is emptied as well. *)
Definition Reset (p : WebSocketParser) (buffer : AutoBuffer) : WebSocketParser * AutoBuffer :=
  (mkParser (ws_packet_ p) kNone 0, AutoBuffer.Reset buffer).

(** The calls of a connection that receives [chunks] one after the other. *)
Fixpoint feed (p : WebSocketParser) (buffer : bytes) (chunks : list bytes) : res WebSocketParser :=
  match chunks with
  | [] => Ok p
  | c :: chunks' =>
      '(_, p) ← DoParse p (buffer ++ c);
      if IsEnd p || IsErr p then Ok p else feed p (buffer ++ c) chunks'
  end.

(** The handshake of RFC 6455, section 1.3. *)
Example DoHandShake_rfc :
  (fun r => HeaderField.Get (handshake_resp_ r.2) HeaderField.kSecWebSocketAccept) <$>
    DoHandShake (SetHandShakeReqHeader new_packet
                   [(HeaderField.kSecWebSocketKey, str "dGhlIHNhbXBsZSBub25jZQ==")])
  = Ok (Some (str "s3pPLMBiTxaQ9kYGzzhZRbK+xOo=")).
Proof. vm_compute. reflexivity. Qed.

(** ** Specifications *)

(** What holds between two calls: the position agrees with the header bytes
    read so far, and nothing beyond the buffer has been read. *)
Definition ws_inv (p : WebSocketParser) (buffer : bytes) : Prop :=
  is_hand_shaken_ (ws_packet_ p) = true /\ 0 <= resolved_len_ p <= zlen buffer /\
  match position_ p with
  | kFirstByte => False
  | kPayloadLen => resolved_len_ p = 1
  | kExtendedPayloadLen =>
      exists c, buffer !! 1%nat = Some c /\ payload_len_ (ws_packet_ p) = Z.land c 127 /\
                (Z.land c 127 = 126 \/ Z.land c 127 = 127)
  | kMaskingKey => mask_ (ws_packet_ p) = true
  | _ => True
  end.

(** Unmasking without the bound of the index: the payload from position [i] on. *)
Fixpoint decode_from (i : nat) (mask : bool) (key : bytes) (raw : bytes) : bytes :=
  match raw with
  | [] => []
  | c :: raw' =>
      (if mask then Z.lxor c (nth (i mod 4)%nat key 0) else c) :: decode_from (S i) mask key raw'
  end.

(** The payload under the mask: byte [i] of the frame's payload is masked
    with byte [i mod 4] of the key. *)
Definition unmask (mask : bool) (key raw : bytes) : bytes :=
  imap (fun i c => if mask then Z.lxor c (nth (i mod 4)%nat key 0) else c) raw.

(** A frame with a 7-bit length. *)
Definition second_byte (mask : bool) (len : Z) : Z := if mask then 128 + len else len.

Definition frame_header (first : Z) (mask : bool) (key : bytes) (len : Z) : bytes :=
  [first; second_byte mask len] ++ (if mask then key else []).

(** The pieces of the payload when the frame arrives as [chunks]. *)
Fixpoint skip_chunks (n : nat) (chunks : list bytes) : list bytes :=
  match chunks with
  | [] => []
  | c :: cs => if (length c <=? n)%nat then skip_chunks (n - length c) cs else drop n c :: cs
  end.

(** All pieces but the last are a multiple of four bytes long. *)
Fixpoint aligned (l : list bytes) : Prop :=
  match l with
  | [] | [_] => True
  | c :: l' => (length c mod 4 = 0)%nat /\ aligned l'
  end.

End WebSocket.
