(* ===== verification/WebSocketTheory.v ===== *)
(** * Theory of the WebSocket layer

    The parser keeps its invariant and returns; frames with a 7-bit length
    are decoded whatever the segmentation when they are not masked, and up
    to the alignment of the pieces when they are; frames with a longer
    length are not handled. *)
From S2P Require Import Prelude CLib StdMap AutoBuffer Base64 MessageDigest HeaderField WebSocket.

Module WebSocketTheory.
Import AutoBuffer WebSocket.

(** ** Termination *)

Definition ws_rank (pos : TPosition) : nat :=
  match pos with
  | kNone => 6 | kFirstByte => 5 | kPayloadLen => 4 | kExtendedPayloadLen => 3
  | kMaskingKey => 2 | kPayload => 1 | kEnd | kError => 0
  end.

Lemma byte_at_ok (buffer : bytes) (i : Z) :
  0 <= i < zlen buffer -> exists c, buffer !! Z.to_nat i = Some c /\ byte_at buffer i = Ok c.
Proof.
  intros Hi. unfold byte_at. destruct (Z.ltb_spec i 0); [lia|].
  destruct (lookup_lt_is_Some_2 buffer (Z.to_nat i)) as [c ->]; [lia|]. eauto.
Qed.

Lemma decode_from_imap (i : nat) (m : bool) (key raw : bytes) :
  decode_from i m key raw
  = imap (fun j c => if m then Z.lxor c (nth ((i + j) mod 4)%nat key 0) else c) raw.
Proof.
  revert i. induction raw as [|c raw IH]; intros i; [done|]. cbn [decode_from imap].
  rewrite Nat.add_0_r. f_equal. rewrite IH. apply imap_ext. intros j x _. cbn. by rewrite Nat.add_succ_r.
Qed.

(** The loop of the parser, started at the beginning of the key, is the RFC's unmasking. *)
Lemma unmask_decode (m : bool) (key raw : bytes) : unmask m key raw = decode_from 0 m key raw.
Proof. by rewrite decode_from_imap. Qed.

Lemma decode_from_length (i : nat) (m : bool) (key raw : bytes) :
  length (decode_from i m key raw) = length raw.
Proof. revert i. induction raw as [|c raw IH]; intros i; simpl; [done|]. by rewrite IH. Qed.

Lemma decode_loop_from (m : bool) (key raw : bytes) (i : Z) :
  0 <= i -> i + zlen raw < 2 ^ 31 -> decode_loop i m key raw = Ok (decode_from (Z.to_nat i) m key raw).
Proof.
  revert i. induction raw as [|c raw IH]; intros i Hi Hl; [done|]. cbn [length] in Hl. cbn [decode_loop decode_from].
  rewrite inc_int_ok by lia. cbn [mbind res_bind]. rewrite IH by lia. cbn [mbind res_bind].
  rewrite Z2Nat.inj_mod by lia. by rewrite Z2Nat.inj_add, Nat.add_1_r by lia.
Qed.

Lemma decode_loop_overflow (m : bool) (key raw : bytes) (i : Z) :
  i < 2 ^ 31 <= i + zlen raw -> decode_loop i m key raw = Fault Undefined.
Proof.
  revert i. induction raw as [|c raw IH]; intros i Hi; cbn [length] in Hi; [simpl in Hi; lia|]. cbn [decode_loop].
  destruct (Z.lt_ge_cases i (2 ^ 31 - 1)); [|by rewrite inc_int_max].
  rewrite inc_int_ok by done. cbn [mbind res_bind]. by rewrite IH by lia.
Qed.

Lemma bytes_from_ok (buffer : bytes) (i n : Z) :
  0 <= i -> i + n <= zlen buffer -> bytes_from buffer i n = Ok (take (Z.to_nat n) (drop (Z.to_nat i) buffer)).
Proof.
  intros. unfold bytes_from. destruct (Z.ltb_spec i 0); [lia|]. by destruct (Z.ltb_spec (zlen buffer) (i + n)); [lia|].
Qed.

(** The bytes not resolved yet. *)
Lemma bytes_from_rest (buffer : bytes) (i : Z) :
  0 <= i <= zlen buffer -> bytes_from buffer i (zlen buffer - i) = Ok (drop (Z.to_nat i) buffer).
Proof. intros. rewrite bytes_from_ok by lia. f_equal. apply take_ge. rewrite length_drop. lia. Qed.

(** The frame announces a 64-bit length. *)
Definition long_frame (buffer : bytes) : Prop :=
  exists c, buffer !! 1%nat = Some c /\ Z.land c 127 = 127.

Lemma long_len_undefined (n : nat) (buffer : bytes) (r len : Z) :
  0 <= r < zlen buffer -> long_len_loop (S n) 0 buffer r len = Fault Undefined.
Proof. intros Hr. cbn [long_len_loop]. by destruct (byte_at_ok buffer r Hr) as (c & _ & ->). Qed.

(** The two inputs on which the parser is undefined. *)
Definition overlong (buffer : bytes) : Prop := long_frame buffer \/ 2 ^ 31 <= zlen buffer.

Lemma parse_turn_inv (p : WebSocketParser) (buffer : bytes) :
  ws_inv p buffer -> 0 < zlen buffer < 2 ^ 63 ->
  (parse_turn p buffer = Fault Undefined /\ overlong buffer) \/
  (exists b q, parse_turn p buffer = Ok (b, q) /\ ws_inv q buffer /\
    (b = true -> (ws_rank (position_ q) < ws_rank (position_ p))%nat)).
Proof.
  intros (Hs & Hr & Hp) Hb. unfold parse_turn.
  destruct p as [w pos r]; cbn [ws_packet_ position_ resolved_len_] in *.
  destruct pos; cbn [ws_rank]; try done.
  - unfold _ResolveFirstByte. destruct (byte_at_ok buffer 0) as (c & _ & ->); [lia|].
    right. eexists _, _. split; [done|]. split; [|simpl; lia].
    split_and!; cbn [ws_packet_ SetFirstByte is_hand_shaken_ resolved_len_ position_];
      rewrite ?add64_id; done || lia.
  - unfold _ResolvePayloadLen. cbn [resolved_len_]. rewrite sub64_id by lia.
    destruct (Z.ltb_spec (zlen buffer - r) 1); [right; eexists _, _; split_and!; done|].
    destruct (byte_at_ok buffer 1) as (c & Hc & ->); [lia|]. cbn [mbind res_bind ws_packet_].
    rewrite add64_id by lia.
    destruct ((Z.land c 127 =? 126) || (Z.land c 127 =? 127)) eqn:E.
    + right. eexists _, _. split; [done|]. split; [|simpl; lia]. split_and!; cbn; [done|lia|lia|].
      exists c. apply orb_true_iff in E as [E%Z.eqb_eq|E%Z.eqb_eq]; auto.
    + destruct (Z.land c 127 <? 126); right; eexists _, _; (split; [done|]).
      * destruct (has_bit c 128); (split; [|simpl; lia]); split_and!; cbn; done || lia.
      * split; [|done]. split_and!; cbn; done || lia.
  - unfold _ResolveExtendedPayloadLen. cbn [resolved_len_ ws_packet_]. rewrite sub64_id by lia.
    destruct Hp as (c & Hc & Hl & Hor).
    pose proof Hor as [E|E]; rewrite Hl, E; cbn -[Z.ltb long_len_loop].
    + destruct (Z.ltb_spec (zlen buffer - r) 2).
      { right. eexists _, _. split; [done|]. split; [|done]. split_and!; cbn; try done; try lia; eauto. }
      destruct (byte_at_ok buffer r) as (hi & _ & ->); [lia|].
      destruct (byte_at_ok buffer (r + 1)) as (lo & _ & ->); [lia|].
      right. eexists _, _. split; [done|]. cbn. rewrite add64_id by lia.
      destruct (mask_ w) eqn:Em; (split; [|simpl; lia]); split_and!; cbn; done || lia.
    + destruct (Z.ltb_spec (zlen buffer - r) 8).
      { right. eexists _, _. split; [done|]. split; [|done]. split_and!; cbn; try done; try lia; eauto. }
      left. rewrite long_len_undefined by lia. split; [done|]. left. by exists c.
  - unfold _ResolveMaskingKey. cbn [resolved_len_ ws_packet_]. rewrite sub64_id, Hp by lia.
    destruct (Z.ltb_spec (zlen buffer - r) 4); [|rewrite bytes_from_ok by lia]; right; eexists _, _; (split; [done|]);
      (split; [|done || (simpl; lia)]); rewrite ?add64_id by lia; split_and!; cbn; done || lia.
  - unfold _ResolvePayload. cbn [resolved_len_ ws_packet_]. rewrite sub64_id by lia.
    destruct (Z.leb_spec (zlen buffer - r) 0); [right; eexists _, _; split_and!; done|].
    rewrite add64_id, bytes_from_rest by lia. cbn [mbind res_bind].
    destruct (Z.lt_ge_cases (zlen buffer - r) (2 ^ 31)).
    2: { left. rewrite decode_loop_overflow by (rewrite length_drop; lia). split; [done|]. right. lia. }
    rewrite decode_loop_from by (rewrite ?length_drop; lia). cbn [mbind res_bind].
    repeat case_match; right; eexists _, _; (split; [done|]); (split; [|done || (simpl; lia)]);
      split_and!; cbn; done || lia.
  - right. eexists _, _. split; [done|]. split; [|done]. split_and!; cbn; done || lia.
  - right. eexists _, _. split; [done|]. split; [|done]. split_and!; cbn; done || lia.
Qed.

Lemma parse_loop_inv (fuel : nat) (p : WebSocketParser) (buffer : bytes) :
  ws_inv p buffer -> 0 < zlen buffer < 2 ^ 63 -> (ws_rank (position_ p) < fuel)%nat ->
  (parse_loop fuel p buffer = Fault Undefined /\ overlong buffer) \/
  (exists r q, parse_loop fuel p buffer = Ok (r, q) /\ ws_inv q buffer).
Proof.
  intros Hp Hb. revert p Hp. induction fuel as [|fuel IH]; intros p Hp Hr; [lia|].
  cbn [parse_loop]. destruct (parse_turn_inv p buffer Hp Hb) as [[-> Hl]|(b & q & -> & Hq & Hlt)].
  { by left. }
  cbn [mbind res_bind]. destruct b; [|right; destruct (position_ q); eauto].
  specialize (Hlt eq_refl). destruct (position_ q) eqn:E; try (right; by eauto);
    apply IH; rewrite ?E; simpl in *; done || lia.
Qed.

Lemma DoParse_inv (p : WebSocketParser) (buffer : bytes) :
  ws_inv p buffer -> zlen buffer < 2 ^ 63 ->
  (DoParse p buffer = Fault Undefined /\ overlong buffer) \/
  (exists r q, DoParse p buffer = Ok (r, q) /\ ws_inv q buffer).
Proof.
  intros Hp Hb. pose proof Hp as (Hs & Hr & _). unfold DoParse. rewrite Hs. cbn [assert_ mbind res_bind].
  rewrite sub64_id by lia.
  destruct (Z.leb_spec (zlen buffer - resolved_len_ p) 0); [right; eauto|].
  apply parse_loop_inv; [done|lia|]. unfold parse_fuel. destruct (position_ p); simpl; lia.
Qed.

(** A longer buffer keeps the invariant. *)
Lemma ws_inv_app (p : WebSocketParser) (a b : bytes) : ws_inv p a -> ws_inv p (a ++ b).
Proof.
  intros (Hs & Hr & Hp). split; [done|]. rewrite length_app. split; [lia|].
  destruct (position_ p); try done. destruct Hp as (c & Hc & Hp). exists c. split; [|done].
  by apply lookup_app_l_Some.
Qed.

Lemma loop_step (f : nat) (p q : WebSocketParser) (buffer : bytes) :
  parse_turn p buffer = Ok (true, q) -> (0 < ws_rank (position_ q))%nat ->
  parse_loop (S f) p buffer = parse_loop f q buffer.
Proof.
  intros Ht Hr. cbn [parse_loop]. rewrite Ht. cbn [mbind res_bind].
  destruct (position_ q); simpl in Hr; done || lia.
Qed.

Lemma loop_wait (f : nat) (p q : WebSocketParser) (buffer : bytes) :
  parse_turn p buffer = Ok (false, q) -> (0 < ws_rank (position_ q))%nat ->
  parse_loop (S f) p buffer = Ok (0, q).
Proof.
  intros Ht Hr. cbn [parse_loop]. rewrite Ht. cbn [mbind res_bind].
  destruct (position_ q); simpl in Hr; done || lia.
Qed.

Lemma ws_DoParse_loop (p : WebSocketParser) (buffer : bytes) :
  is_hand_shaken_ (ws_packet_ p) = true -> 0 <= resolved_len_ p < zlen buffer ->
  zlen buffer < 2 ^ 63 -> DoParse p buffer = parse_loop parse_fuel p buffer.
Proof.
  intros Hs Hr Hb. unfold DoParse. rewrite Hs. cbn [assert_ mbind res_bind]. rewrite sub64_id by lia.
  by destruct (Z.leb_spec (zlen buffer - resolved_len_ p) 0); [lia|].
Qed.

(** ** Frames with a 7-bit length *)

Lemma set_payload_id (x : WebSocketPacket) (pl : bytes) : payload_ x = pl -> set_payload x pl = x.
Proof. intros <-. by destruct x. Qed.

(** A frame that is about to arrive, and the packet that will receive it. *)
Record frame := mkFrame {
  f_packet : WebSocketPacket;
  f_first : Z;
  f_mask : bool;
  f_key : bytes;
  f_len : nat
}.

Record frame_ok (F : frame) : Prop := {
  fk_shaken : is_hand_shaken_ (f_packet F) = true;
  fk_payload : payload_ (f_packet F) = [];
  fk_key : length (f_key F) = 4%nat;
  fk_len : (0 < f_len F < 126)%nat
}.

Definition second (F : frame) : Z := second_byte (f_mask F) (Z.of_nat (f_len F)).
Definition header (F : frame) : bytes :=
  frame_header (f_first F) (f_mask F) (f_key F) (Z.of_nat (f_len F)).
Definition hlen (F : frame) : nat := if f_mask F then 6 else 2.

(** The packet after the first byte, the second byte and the key. *)
Definition packet1 (F : frame) : WebSocketPacket := SetFirstByte (f_packet F) (f_first F).
Definition packet2 (F : frame) : WebSocketPacket :=
  SetPayloadLen (Masked (packet1 F) (f_mask F)) (Z.of_nat (f_len F)).
Definition packet3 (F : frame) : WebSocketPacket :=
  if f_mask F then SetMaskingKey (packet2 F) (f_key F) else packet2 F.

(** The parser after [k] bytes of the header, inside the payload, and at the end. *)
Definition header_state (F : frame) (k : nat) : WebSocketParser :=
  match k with
  | O => mkParser (f_packet F) kNone 0
  | 1%nat => mkParser (packet1 F) kPayloadLen 1
  | _ => mkParser (packet2 F) kMaskingKey 2
  end.

Definition payload_state (F : frame) (r : nat) (pl : bytes) : WebSocketParser :=
  mkParser (set_payload (packet3 F) pl) kPayload (Z.of_nat r).

Definition end_state (F : frame) (r : nat) (pl : bytes) : WebSocketParser :=
  mkParser (set_payload (packet3 F) pl) kEnd (Z.of_nat r).

(** What a call inside the payload leaves. *)
Definition payload_next (F : frame) (r : nat) (pl : bytes) : WebSocketParser :=
  if bool_decide (length pl = f_len F) then end_state F r pl else payload_state F r pl.

Definition decoded (F : frame) (raw : bytes) : bytes := unmask (f_mask F) (f_key F) raw.

Lemma header_length (F : frame) : frame_ok F -> length (header F) = hlen F.
Proof. intros [_ _ Hk _]. unfold header, frame_header, hlen. destruct (f_mask F); simpl; lia. Qed.

Lemma second_bits (F : frame) :
  frame_ok F ->
  has_bit (second F) 128 = f_mask F /\ Z.land (second F) 127 = Z.of_nat (f_len F).
Proof.
  intros [_ _ _ Hl]. unfold second, second_byte, has_bit. revert Hl. generalize (f_len F) as n.
  intros n [_ Hn]. do 126 (destruct n as [|n]; [by destruct (f_mask F)|]). lia.
Qed.

Lemma packet3_facts (F : frame) (pl : bytes) :
  frame_ok F ->
  is_hand_shaken_ (set_payload (packet3 F) pl) = true /\
  mask_ (set_payload (packet3 F) pl) = f_mask F /\
  payload_len_ (set_payload (packet3 F) pl) = Z.of_nat (f_len F) /\
  (f_mask F = true -> masking_key_ (set_payload (packet3 F) pl) = f_key F).
Proof. intros [Hs _ _ _]. unfold packet3, packet2, packet1. by destruct (f_mask F) eqn:E. Qed.

Lemma decode_unmasked (i : nat) (k raw : bytes) : decode_from i false k raw = raw.
Proof. revert i. induction raw as [|c raw IH]; intros i; simpl; [done|]. by rewrite IH. Qed.

Lemma decoded_length (F : frame) (raw : bytes) : length (decoded F raw) = length raw.
Proof. apply length_imap. Qed.

(** The turn inside the payload. *)
Lemma turn_payload (F : frame) (r : nat) (pl buffer : bytes) :
  frame_ok F -> (r < length buffer)%nat -> zlen buffer < 2 ^ 31 ->
  let pl' := pl ++ decoded F (drop r buffer) in
  parse_turn (payload_state F r pl) buffer =
  Ok (zlen pl' =? Z.of_nat (f_len F),
      mkParser (set_payload (packet3 F) pl')
        (if zlen pl' =? Z.of_nat (f_len F) then kEnd
         else if Z.of_nat (f_len F) <? zlen pl' then kError else kPayload)
        (zlen buffer)).
Proof.
  intros HF Hr Hb pl'. unfold parse_turn, _ResolvePayload, payload_state.
  cbn [position_ resolved_len_ ws_packet_]. rewrite sub64_id by lia.
  destruct (Z.leb_spec (zlen buffer - Z.of_nat r) 0); [lia|].
  destruct (packet3_facts F pl HF) as (_ & Hm & -> & Hk). rewrite Hm, add64_id, bytes_from_rest by lia.
  cbn [mbind res_bind]. rewrite Nat2Z.id, decode_loop_from by (rewrite ?length_drop; lia). cbn [mbind res_bind].
  change (Z.to_nat 0) with O.
  assert (decode_from 0 (f_mask F) (masking_key_ (set_payload (packet3 F) pl)) (drop r buffer)
          = decoded F (drop r buffer)) as ->.
  { unfold decoded. rewrite unmask_decode. destruct (f_mask F); [by rewrite Hk|by rewrite !decode_unmasked]. }
  change (payload_ (set_payload (packet3 F) pl)) with pl. fold pl'.
  replace (Z.of_nat r + (zlen buffer - Z.of_nat r)) with (zlen buffer) by lia.
  change (set_payload (set_payload (packet3 F) pl) pl') with (set_payload (packet3 F) pl').
  destruct (zlen pl' =? _); [done|]. by destruct (_ <? zlen pl').
Qed.

(** The turns inside the header. *)
Lemma turn_header_1 (F : frame) (t : bytes) :
  frame_ok F -> zlen t < 2 ^ 30 ->
  parse_turn (header_state F 1) ([f_first F; second F] ++ t) =
  Ok (true, if f_mask F then header_state F 2 else payload_state F 2 []).
Proof.
  intros HF Ht. pose proof HF as [_ Hpay _ Hl].
  unfold parse_turn, header_state, _ResolvePayloadLen. cbn [position_ resolved_len_ ws_packet_].
  rewrite length_app. simpl length. rewrite sub64_id by lia.
  destruct (Z.ltb_spec (Z.of_nat (2 + length t) - 1) 1); [lia|].
  change (byte_at ([f_first F; second F] ++ t) 1) with (Ok (second F)).
  cbn [mbind res_bind]. destruct (second_bits F HF) as [-> ->].
  destruct (Z.eqb_spec (Z.of_nat (f_len F)) 126); [lia|].
  destruct (Z.eqb_spec (Z.of_nat (f_len F)) 127); [lia|].
  destruct (Z.ltb_spec (Z.of_nat (f_len F)) 126); [|lia]. change (add64 1 1) with 2. cbn [orb].
  fold (packet2 F). unfold payload_state, packet3. destruct (f_mask F); [done|].
  by rewrite set_payload_id.
Qed.

Lemma turn_header_2 (F : frame) (t : bytes) :
  frame_ok F -> f_mask F = true -> zlen t < 2 ^ 30 ->
  parse_turn (header_state F 2) ([f_first F; second F] ++ t) =
  if bool_decide (length t < 4)%nat then Ok (false, header_state F 2)
  else Ok (true, mkParser (SetMaskingKey (packet2 F) (take 4 t)) kPayload 6).
Proof.
  intros HF Hm Ht. unfold parse_turn, header_state, _ResolveMaskingKey.
  cbn [position_ resolved_len_ ws_packet_]. rewrite length_app. simpl length.
  rewrite sub64_id by lia. assert (mask_ (packet2 F) = true) as -> by done.
  destruct (Z.ltb_spec (Z.of_nat (2 + length t) - 2) 4).
  - by rewrite bool_decide_true by lia.
  - rewrite bool_decide_false, bytes_from_ok by (rewrite ?length_app; cbn [length]; lia). done.
Qed.

Lemma payload_run (F : frame) (f r : nat) (pl buffer : bytes) :
  frame_ok F -> (r <= length buffer)%nat -> zlen buffer < 2 ^ 31 -> (length pl < f_len F)%nat ->
  (length pl + (length buffer - r) <= f_len F)%nat ->
  parse_loop (S f) (payload_state F r pl) buffer =
  Ok (0, payload_next F (length buffer) (pl ++ decoded F (drop r buffer))).
Proof.
  intros HF Hr Hb Hpl Ht. destruct (decide (r = length buffer)) as [->|Hne].
  - rewrite drop_all. unfold decoded. rewrite unmask_decode. simpl decode_from. rewrite app_nil_r.
    unfold payload_next. rewrite bool_decide_false by lia. apply loop_wait; [|simpl; lia].
    unfold parse_turn, _ResolvePayload, payload_state. cbn [position_ resolved_len_ ws_packet_].
    rewrite sub64_id by lia. by destruct (Z.leb_spec (zlen buffer - zlen buffer) 0); [|lia].
  - cbn [parse_loop]. rewrite turn_payload by (done || lia). cbn [mbind res_bind].
    set (pl' := pl ++ decoded F (drop r buffer)).
    assert (length pl' = length pl + (length buffer - r))%nat as Hl.
    { unfold pl'. rewrite length_app, decoded_length, length_drop. lia. }
    unfold payload_next. case_bool_decide as E.
    + assert (zlen pl' =? Z.of_nat (f_len F) = true) as -> by (apply Z.eqb_eq; lia). done.
    + destruct (Z.eqb_spec (zlen pl') (Z.of_nat (f_len F))); [lia|].
      by destruct (Z.ltb_spec (Z.of_nat (f_len F)) (zlen pl')); [lia|].
Qed.

Lemma header_app (F : frame) (d : bytes) :
  header F ++ d = [f_first F; second F] ++ (if f_mask F then f_key F else []) ++ d.
Proof. unfold header, frame_header. by rewrite <- app_assoc. Qed.

(** From any point of the header to its end. *)
Lemma header_run_2 (F : frame) (f : nat) (d : bytes) :
  frame_ok F -> f_mask F = true -> zlen d < 2 ^ 29 ->
  parse_loop (S (S f)) (header_state F 2) (header F ++ d)
  = parse_loop (S f) (payload_state F (hlen F) []) (header F ++ d).
Proof.
  intros HF Hm Hd. pose proof HF as [_ Hp Hk _]. apply loop_step; [|simpl; lia].
  rewrite header_app, Hm, turn_header_2 by (done || rewrite length_app; lia).
  rewrite length_app, bool_decide_false by lia. unfold payload_state, packet3, hlen. rewrite Hm.
  by rewrite take_app_length', set_payload_id.
Qed.

Lemma header_run_1 (F : frame) (f : nat) (d : bytes) :
  frame_ok F -> zlen d < 2 ^ 29 ->
  exists f', parse_loop (S (S (S f))) (header_state F 1) (header F ++ d)
             = parse_loop (S f') (payload_state F (hlen F) []) (header F ++ d).
Proof.
  intros HF Hd. pose proof HF as [_ _ Hk _]. destruct (f_mask F) eqn:Hm.
  - exists f. etrans; [|by apply header_run_2]. apply loop_step; [|simpl; lia].
    rewrite header_app, turn_header_1, Hm by (done || rewrite Hm, length_app; lia). done.
  - exists (S f). apply loop_step; [|simpl; lia].
    rewrite header_app, turn_header_1, Hm by (done || rewrite Hm; simpl; lia).
    unfold hlen. by rewrite Hm.
Qed.

Lemma header_run (F : frame) (k : nat) (d : bytes) :
  frame_ok F -> (k < hlen F)%nat -> zlen d < 2 ^ 29 ->
  exists f, parse_loop parse_fuel (header_state F k) (header F ++ d)
            = parse_loop (S f) (payload_state F (hlen F) []) (header F ++ d).
Proof.
  intros HF Hk Hd. unfold parse_fuel. destruct k as [|[|k]].
  - destruct (header_run_1 F 3 d HF Hd) as [f Hf]. exists f. rewrite <- Hf. apply loop_step; [done|simpl; lia].
  - by apply header_run_1.
  - exists 5%nat. unfold hlen in Hk. apply (header_run_2 F 5); [done| |done]. destruct (f_mask F); [done|lia].
Qed.

(** A call that does not complete the header. *)
Lemma header_wait (F : frame) (k n : nat) :
  frame_ok F -> (k < n < hlen F)%nat ->
  parse_loop parse_fuel (header_state F k) (take n (header F)) = Ok (0, header_state F n).
Proof.
  intros HF Hn. pose proof HF as [_ _ Hk _]. unfold parse_fuel.
  destruct n as [|[|n]]; [lia| |].
  { replace k with 0%nat by lia. rewrite (loop_step _ _ (header_state F 1)); [|done|simpl; lia].
    apply loop_wait; [done|simpl; lia]. }
  change (header_state F (S (S n))) with (header_state F 2).
  destruct (f_mask F) eqn:Hm; unfold hlen in Hn; rewrite Hm in Hn; [|lia].
  assert (take (S (S n)) (header F) = [f_first F; second F] ++ take n (f_key F)) as ->
    by (unfold header, frame_header, second; by rewrite Hm).
  assert (zlen (take n (f_key F)) < 2 ^ 30) by (rewrite length_take; lia).
  assert (forall f, parse_loop (S f) (header_state F 2) ([f_first F; second F] ++ take n (f_key F))
                    = Ok (0, header_state F 2)) as H2.
  { intros f. apply loop_wait; [|simpl; lia]. rewrite turn_header_2 by done.
    rewrite bool_decide_true; [done|]. rewrite length_take. lia. }
  assert (forall f, parse_loop (S (S f)) (header_state F 1) ([f_first F; second F] ++ take n (f_key F))
                    = Ok (0, header_state F 2)) as H1.
  { intros f. rewrite (loop_step _ _ (header_state F 2)); [done| |simpl; lia].
    by rewrite turn_header_1, Hm. }
  destruct k as [|[|k]]; [|done|apply H2].
  rewrite (loop_step _ _ (header_state F 1)); [apply H1|done|simpl; lia].
Qed.

Lemma header_state_loop (F : frame) (k : nat) (buffer : bytes) :
  frame_ok F -> (k < length buffer)%nat -> zlen buffer < 2 ^ 31 ->
  DoParse (header_state F k) buffer = parse_loop parse_fuel (header_state F k) buffer.
Proof.
  intros [Hs _ _ _] Hk Hb. apply ws_DoParse_loop; [by destruct k as [|[|k]]| |lia].
  destruct k as [|[|k]]; cbn [header_state resolved_len_]; lia.
Qed.

Lemma payload_state_loop (F : frame) (pl a c : bytes) :
  frame_ok F -> c <> [] -> zlen (a ++ c) < 2 ^ 31 -> (length pl + length c <= f_len F)%nat ->
  DoParse (payload_state F (length a) pl) (a ++ c) =
  Ok (0, payload_next F (length (a ++ c)) (pl ++ decoded F c)).
Proof.
  intros HF Hc Hb Hl. assert (0 < length c)%nat by (destruct c; [done|simpl; lia]).
  pose proof Hb as Hb'. rewrite length_app in Hb'.
  rewrite ws_DoParse_loop; [|by apply packet3_facts| |lia].
  - unfold parse_fuel. rewrite payload_run, drop_app_length; rewrite ?length_app; try done; lia.
  - cbn. rewrite length_app. lia.
Qed.

Lemma payload_next_open (F : frame) (r : nat) (pl : bytes) :
  (length pl < f_len F)%nat ->
  payload_next F r pl = payload_state F r pl /\
  IsEnd (payload_next F r pl) || IsErr (payload_next F r pl) = false.
Proof. intros H. unfold payload_next. by rewrite bool_decide_false by lia. Qed.

(** Feeding the rest of the payload. *)
Lemma feed_payload (F : frame) (chunks : list bytes) (pl a : bytes) :
  frame_ok F -> Forall (fun c => c <> []) chunks -> chunks <> [] ->
  zlen (a ++ concat chunks) < 2 ^ 31 -> (length pl + length (concat chunks) = f_len F)%nat ->
  feed (payload_state F (length a) pl) a chunks =
  Ok (end_state F (length (a ++ concat chunks)) (pl ++ concat (decoded F <$> chunks))).
Proof.
  intros HF Hc. revert pl a. induction Hc as [|c cs Hc Hcs IH]; intros pl a Hne Hb Hl; [done|].
  cbn [feed]. cbn [concat] in *. rewrite app_assoc in Hb. pose proof Hb as Hb'.
  rewrite length_app in Hb', Hl. rewrite payload_state_loop by (done || lia).
  cbn [mbind res_bind]. rewrite fmap_cons. cbn [concat]. rewrite !app_assoc.
  destruct cs as [|c' cs].
  - unfold payload_next. rewrite bool_decide_true; [|rewrite length_app, decoded_length; simpl in Hl; lia].
    cbn [concat fmap list_fmap]. by rewrite !app_nil_r.
  - assert (0 < length (concat (c' :: cs)))%nat.
    { inversion Hcs as [|? ? Hc' _]; subst. cbn. rewrite length_app. destruct c'; [done|simpl; lia]. }
    destruct (payload_next_open F (length (a ++ c)) (pl ++ decoded F c)) as [-> Ho].
    { rewrite length_app, decoded_length. lia. }
    destruct (IsEnd _ || IsErr _) eqn:E; [done|]. apply IH; [done|done|].
    rewrite length_app, decoded_length. lia.
Qed.

Lemma skip_none (chunks : list bytes) :
  Forall (fun c => c <> []) chunks -> skip_chunks 0 chunks = chunks.
Proof. destruct 1 as [|[|b c] cs Hc _]; done. Qed.

Lemma chunks_nil (cs : list bytes) :
  Forall (fun c => c <> []) cs -> length (concat cs) = 0%nat -> cs = [].
Proof.
  destruct 1 as [|c cs Hc _]; [done|]. cbn. rewrite length_app. destruct c; [done|simpl; lia].
Qed.

(** After the call that completes the header: [d] is the payload it brought. *)
Lemma feed_after_header (F : frame) (d : bytes) (cs : list bytes) :
  frame_ok F -> Forall (fun c => c <> []) cs -> (length d + length (concat cs) = f_len F)%nat ->
  let buf := header F ++ d in
  let q := payload_next F (length buf) (decoded F d) in
  (if IsEnd q || IsErr q then Ok q else feed q buf cs) =
  Ok (end_state F (hlen F + f_len F)
        (concat (decoded F <$> (if bool_decide (d = []) then cs else d :: cs)))).
Proof.
  intros HF Hcs Hl buf q. pose proof HF as [_ _ _ Hlen]. pose proof (header_length F HF) as Hh.
  assert (length buf = hlen F + length d)%nat as Hbl by (unfold buf; rewrite length_app; lia).
  assert (hlen F <= 6)%nat by (unfold hlen; destruct (f_mask F); lia).
  assert (decoded F d ++ concat (decoded F <$> cs)
          = concat (decoded F <$> (if bool_decide (d = []) then cs else d :: cs))) as <-.
  { case_bool_decide as E; [by rewrite E|done]. }
  unfold q. destruct (decide (length d = f_len F)) as [E|E].
  - rewrite (chunks_nil cs) by (done || lia). unfold payload_next.
    rewrite bool_decide_true by (by rewrite decoded_length). rewrite Hbl, E, app_nil_r. done.
  - destruct (payload_next_open F (length buf) (decoded F d)) as [-> Ho].
    { rewrite decoded_length. lia. }
    destruct (IsEnd _ || IsErr _) eqn:E2; [done|]. rewrite feed_payload; [|done|done|..].
    + do 2 f_equal. rewrite length_app. lia.
    + intros ->. simpl in Hl. lia.
    + rewrite length_app. lia.
    + rewrite decoded_length. lia.
Qed.

(** The first payload piece when the header ends inside the chunk [c]. *)
Lemma skip_header (k n : nat) (h c : bytes) (cs : list bytes) :
  Forall (fun c => c <> []) cs -> (k < n)%nat -> (n <= k + length c)%nat -> (k <= length h)%nat ->
  (if (length c <=? n - k)%nat then skip_chunks (n - k - length c) cs else drop (n - k) c :: cs)
  = if bool_decide (drop n (take k h ++ c) = []) then cs else drop n (take k h ++ c) :: cs.
Proof.
  intros Hcs Hk Hc Hh. rewrite drop_app_ge by (rewrite length_take; lia).
  rewrite length_take, Nat.min_l by done.
  destruct (Nat.leb_spec (length c) (n - k)).
  - replace (n - k - length c)%nat with 0%nat by lia. rewrite skip_none by done.
    rewrite bool_decide_true; [done|]. apply drop_ge. lia.
  - rewrite bool_decide_false; [done|]. intros E%(f_equal length).
    rewrite length_drop in E. simpl in E. lia.
Qed.

(** Feeding a frame from any point of its header. *)
Lemma feed_header (F : frame) (chunks : list bytes) (k : nat) (raw : bytes) :
  frame_ok F -> Forall (fun c => c <> []) chunks -> (k < hlen F)%nat ->
  take k (header F) ++ concat chunks = header F ++ raw -> length raw = f_len F ->
  feed (header_state F k) (take k (header F)) chunks =
  Ok (end_state F (hlen F + f_len F) (concat (decoded F <$> skip_chunks (hlen F - k) chunks))).
Proof.
  intros HF Hc. pose proof HF as [_ _ _ Hlen]. pose proof (header_length F HF) as Hhl.
  assert (hlen F <= 6)%nat by (unfold hlen; destruct (f_mask F); lia).
  revert k. induction Hc as [|c cs Hc Hcs IH]; intros k Hk Heq Hraw.
  { apply (f_equal length) in Heq. rewrite !length_app, length_take in Heq. simpl in Heq. lia. }
  assert (0 < length c)%nat by (destruct c; [done|simpl; lia]).
  cbn [feed skip_chunks]. cbn [concat] in Heq. rewrite app_assoc in Heq.
  set (buf := take k (header F) ++ c) in *.
  assert (length buf = k + length c)%nat as Hbl.
  { unfold buf. rewrite length_app, length_take. lia. }
  pose proof (f_equal length Heq) as Hll. rewrite !length_app in Hll.
  rewrite header_state_loop by (done || lia).
  destruct (le_lt_dec (hlen F) (k + length c)) as [Hge|Hlt].
  - rewrite (skip_header _ _ (header F)) by (done || lia). fold buf.
    assert (buf = header F ++ drop (hlen F) buf) as Hbuf.
    { rewrite <- (take_drop (hlen F) buf) at 1. f_equal.
      rewrite <- (take_app_le buf (concat cs)) by lia. rewrite Heq. by rewrite take_app_length'. }
    assert (length (drop (hlen F) buf) = k + length c - hlen F)%nat as Hd by (rewrite length_drop; lia).
    destruct (header_run F k (drop (hlen F) buf) HF Hk) as [f Hf]; [lia|].
    rewrite <- Hbuf in Hf. rewrite Hf, payload_run; simpl length; try (done || lia).
    cbn [mbind res_bind]. rewrite app_nil_l.
    pose proof (feed_after_header F (drop (hlen F) buf) cs HF Hcs ltac:(lia)) as Hfeed.
    cbv zeta in Hfeed. by rewrite <- Hbuf in Hfeed.
  - assert (buf = take (k + length c) (header F)) as Hbuf.
    { rewrite <- (take_app_le _ raw) by lia. rewrite <- Heq. by rewrite take_app_length'. }
    rewrite Hbuf, header_wait by (done || lia). cbn [mbind res_bind].
    assert (IsEnd (header_state F (k + length c)) || IsErr (header_state F (k + length c)) = false) as ->
      by (by destruct (k + length c)%nat as [|[|?]]).
    destruct (Nat.leb_spec (length c) (hlen F - k)); [|lia].
    replace (hlen F - k - length c)%nat with (hlen F - (k + length c))%nat by lia.
    apply IH; [lia|by rewrite <- Hbuf|done].
Qed.

(** ** Alignment *)

Lemma decode_shift (i : nat) (m : bool) (key raw : bytes) :
  decode_from (i + 4) m key raw = decode_from i m key raw.
Proof.
  revert i. induction raw as [|c raw IH]; intros i; [done|]. cbn [decode_from].
  assert ((i + 4) mod 4 = i mod 4)%nat as ->
    by (rewrite <- (Nat.Div0.add_mod_idemp_r i 4 4); by rewrite Nat.Div0.mod_same, Nat.add_0_r).
  f_equal. apply (IH (S i)).
Qed.

Lemma decode_shift_mul (n i : nat) (m : bool) (key raw : bytes) :
  decode_from (i + 4 * n) m key raw = decode_from i m key raw.
Proof.
  induction n as [|n IH]; [by rewrite Nat.mul_0_r, Nat.add_0_r|].
  replace (i + 4 * S n)%nat with (i + 4 * n + 4)%nat by lia. by rewrite decode_shift.
Qed.

Lemma decode_app (i : nat) (m : bool) (key a b : bytes) :
  decode_from i m key (a ++ b) = decode_from i m key a ++ decode_from (i + length a) m key b.
Proof.
  revert i. induction a as [|c a IH]; intros i; [simpl; by rewrite Nat.add_0_r|].
  cbn [decode_from app length]. rewrite IH, Nat.add_succ_r. done.
Qed.

Lemma decode_aligned (m : bool) (key : bytes) (l : list bytes) :
  aligned l -> concat (unmask m key <$> l) = unmask m key (concat l).
Proof.
  induction l as [|c [|d l] IH]; intros Hl; [done|cbn; by rewrite !app_nil_r|].
  destruct Hl as [Hc Hl]. rewrite fmap_cons. cbn [concat] in IH |- *. rewrite IH by done.
  rewrite !unmask_decode, (decode_app 0 m key c). f_equal. apply Nat.Lcm0.mod_divide in Hc as [q Hq].
  rewrite Hq, Nat.mul_comm. symmetry. by rewrite (decode_shift_mul q 0).
Qed.

Lemma skip_chunks_concat (n : nat) (chunks : list bytes) :
  concat (skip_chunks n chunks) = drop n (concat chunks).
Proof.
  revert n. induction chunks as [|c cs IH]; intros n; [cbn; by rewrite drop_nil|]. cbn [skip_chunks concat].
  destruct (Nat.leb_spec (length c) n).
  - rewrite IH. by rewrite drop_app_ge by lia.
  - cbn [concat]. by rewrite drop_app_le by lia.
Qed.

Lemma unmask_involutive (i : nat) (m : bool) (key raw : bytes) :
  decode_from i m key (decode_from i m key raw) = raw.
Proof.
  revert i. induction raw as [|c raw IH]; intros i; [done|]. cbn [decode_from]. rewrite IH. f_equal.
  destruct m; [|done]. by rewrite Z.lxor_assoc, Z.lxor_nilpotent, Z.lxor_0_r.
Qed.

Lemma decode_pieces (m : bool) (key : bytes) (l : list bytes) :
  m = false \/ aligned l -> concat (unmask m key <$> l) = unmask m key (concat l).
Proof.
  intros [->|Ha]; [|by apply decode_aligned]. rewrite unmask_decode, decode_unmasked. f_equal.
  rewrite <- (list_fmap_id l) at 2. apply list_fmap_ext. intros _ x _. rewrite unmask_decode. apply decode_unmasked.
Qed.

(** Feeding a whole frame to a new parser. *)
Lemma feed_new (w : WebSocketPacket) (req : HeaderField.HeaderField) (first : Z) (mask : bool)
    (key raw : bytes) (chunks : list bytes) :
  is_hand_shaken_ w = true /\ payload_ w = [] -> length key = 4%nat ->
  (0 < length raw < 126)%nat -> Forall (fun c => c <> []) chunks ->
  concat chunks = frame_header first mask key (zlen raw) ++ raw ->
  exists q, feed (new_parser w req) [] chunks = Ok q /\ IsEnd q = true /\
    op_code_ (ws_packet_ q) = Z.land first 15 /\
    payload_ (ws_packet_ q) =
      concat (unmask mask key <$> skip_chunks (if mask then 6 else 2) chunks) /\
    concat (skip_chunks (if mask then 6 else 2) chunks) = raw.
Proof.
  intros Hw Hkey Hraw Hne Hchunks.
  set (F := mkFrame (SetHandShakeReqHeader w req) first mask key (length raw)).
  assert (frame_ok F) as HF by (by destruct Hw; constructor).
  exists (end_state F (hlen F + f_len F) (concat (decoded F <$> skip_chunks (hlen F - 0) chunks))).
  split_and!.
  - apply (feed_header F chunks 0 raw); [done|done| |done|done]. unfold hlen. destruct (f_mask F); lia.
  - done.
  - by destruct mask.
  - rewrite Nat.sub_0_r. by destruct mask.
  - rewrite skip_chunks_concat, Hchunks. apply drop_app_length'. symmetry. apply (header_length F HF).
Qed.

(** ** Packing *)

(** The bytes [Pack] adds to the buffer. *)
Definition packed (content : bytes) : bytes :=
  [129] ++ (if zlen content <? 126 then [zlen content]
            else if zlen content <=? 65535 then 126 :: host_bytes 2 (zlen content)
            else 127 :: host_bytes 8 (zlen content)) ++ content.

Lemma host_bytes_length (n : nat) (z : Z) : length (host_bytes n z) = n.
Proof. revert z. induction n as [|n IH]; intros z; simpl; [done|]. by rewrite IH. Qed.

Lemma Pack_holds (content s : bytes) (out : AutoBuffer) :
  holds out s -> zlen s + zlen content < 2 ^ 59 ->
  exists b, Pack content out = Ok b /\ holds b (s ++ packed content).
Proof.
  intros Ho Hl. unfold Pack, packed.
  change [wrap8 (128 + kOpcodeText)] with [129].
  destruct (WriteString_holds out s [129] Ho) as (b1 & -> & H1); [rewrite length_app; simpl; lia|].
  cbn [mbind res_bind].
  assert (exists b2, (if zlen content <? 126 then WriteString b1 (host_bytes 1 (zlen content))
         else if zlen content <=? 65535 then
           out ← WriteString b1 (host_bytes 1 126); WriteString out (host_bytes 2 (zlen content))
         else
           out ← WriteString b1 (host_bytes 1 127); WriteString out (host_bytes 8 (zlen content))) = Ok b2 /\
       holds b2 ((s ++ [129]) ++ (if zlen content <? 126 then [zlen content]
            else if zlen content <=? 65535 then 126 :: host_bytes 2 (zlen content)
            else 127 :: host_bytes 8 (zlen content)))) as (b2 & -> & H2).
  { destruct (Z.ltb_spec (zlen content) 126); [|destruct (Z.leb_spec (zlen content) 65535)].
    - assert (host_bytes 1 (zlen content) = [zlen content]) as -> by (simpl; by rewrite Z.mod_small by lia).
      apply WriteString_holds; [done|]. rewrite !length_app. simpl. lia.
    - destruct (WriteString_holds b1 _ (host_bytes 1 126) H1) as (b2 & -> & H2);
        [rewrite !length_app; simpl; lia|]. cbn [mbind res_bind].
      destruct (WriteString_holds b2 _ (host_bytes 2 (zlen content)) H2) as (b3 & -> & H3);
        [rewrite !length_app, host_bytes_length; simpl; lia|].
      exists b3. split; [done|]. by rewrite <- app_assoc in H3.
    - destruct (WriteString_holds b1 _ (host_bytes 1 127) H1) as (b2 & -> & H2);
        [rewrite !length_app; simpl; lia|]. cbn [mbind res_bind].
      destruct (WriteString_holds b2 _ (host_bytes 8 (zlen content)) H2) as (b3 & -> & H3);
        [rewrite !length_app, host_bytes_length; simpl; lia|].
      exists b3. split; [done|]. by rewrite <- app_assoc in H3. }
  cbn [mbind res_bind]. destruct (WriteString_holds b2 _ content H2) as (b3 & -> & H3).
  - rewrite !length_app. repeat case_match; cbn [length]; rewrite ?host_bytes_length; simpl; lia.
  - exists b3. split; [done|]. by rewrite <- !app_assoc in H3.
Qed.

(** ** Properties *)

(** C17: on any state the parser can be in between two calls, [DoParse] returns and keeps the
    invariant (header bytes read so far, nothing read beyond the buffer); it never loops and never reads
    outside the buffer. The exceptions, where the call is undefined, are a frame that announces a 64-bit
    length, which is computed with shifts wider than an [int], and a buffer of 2^31 bytes or more, whose
    payload is counted with an [int]; buffers are below 2^63 bytes. *)
Theorem ws_DoParse_returns (p : WebSocketParser) (buffer : bytes)
    (Hinv : ws_inv p buffer) (Hsize : zlen buffer < 2 ^ 63) :
  (DoParse p buffer = Fault Undefined /\
     ((exists c, buffer !! 1%nat = Some c /\ Z.land c 127 = 127) \/ 2 ^ 31 <= zlen buffer)) \/
  (exists r q, DoParse p buffer = Ok (r, q) /\ forall more, ws_inv q (buffer ++ more)).
Proof.
  destruct (DoParse_inv p buffer Hinv Hsize) as [?|(r & q & Hq & Hi)]; [by left|].
  right. exists r, q. split; [done|]. intros more. by apply ws_inv_app.
Qed.

Lemma ws_DoParse_returns_witness :
  (DoParse (mkParser AllocNewPacket kNone 0) [129; 5; 104] = Fault Undefined /\
     ((exists c, [129; 5; 104] !! 1%nat = Some c /\ Z.land c 127 = 127) \/ 2 ^ 31 <= 3)) \/
  (exists r q, DoParse (mkParser AllocNewPacket kNone 0) [129; 5; 104] = Ok (r, q) /\
     forall more, ws_inv q ([129; 5; 104] ++ more)).
Proof.
  refine (ws_DoParse_returns (mkParser AllocNewPacket kNone 0) [129; 5; 104] _ _);
    [split_and!; simpl; done || lia|simpl; lia].
Defined.

(** A frame with a payload of 1 to 125 bytes ends the parser exactly when its last byte
    has arrived, in whatever pieces it arrives; the payload is the concatenation of the
    pieces of the payload, each unmasked from the start of the key. *)
Theorem ws_feed_frame (w : WebSocketPacket) (req : HeaderField.HeaderField) (first : Z) (mask : bool)
    (key raw : bytes) (chunks : list bytes)
    (Hw : is_hand_shaken_ w = true /\ payload_ w = []) (Hkey : length key = 4%nat)
    (Hraw : (0 < length raw < 126)%nat) (Hne : Forall (fun c => c <> []) chunks)
    (Hchunks : concat chunks = frame_header first mask key (zlen raw) ++ raw) :
  exists q, feed (new_parser w req) [] chunks = Ok q /\ IsEnd q = true /\
    op_code_ (ws_packet_ q) = Z.land first 15 /\
    payload_ (ws_packet_ q) =
      concat (unmask mask key <$> skip_chunks (if mask then 6 else 2) chunks).
Proof.
  destruct (feed_new w req first mask key raw chunks) as (q & H1 & H2 & H3 & H4 & _); [done..|].
  by exists q.
Qed.

Lemma ws_feed_frame_witness :
  exists q, feed (new_parser AllocNewPacket []) []
      [[129]; [133; 55; 250]; [33; 61; 127]; [159; 77; 81; 88]] = Ok q /\ IsEnd q = true /\
    op_code_ (ws_packet_ q) = 1 /\ payload_ (ws_packet_ q) = [72; 168; 183; 112; 101].
Proof.
  refine (ws_feed_frame AllocNewPacket [] 129 true [55; 250; 33; 61] [127; 159; 77; 81; 88]
            [[129]; [133; 55; 250]; [33; 61; 127]; [159; 77; 81; 88]] _ _ _ _ _);
    [done|done|simpl; lia|by repeat constructor|done].
Defined.

(** C16: a frame with a payload of 1 to 125 bytes that arrives on a shaken-hands connection in nonempty
    pieces ends the parser with its last byte and is decoded to the message the peer sent, if it is not
    masked or the pieces cut the payload only at multiples of four bytes. Longer and empty frames are not
    covered: the parser does not read them (see [ws_extended_rejected] for the longer ones). *)
Theorem ws_decode_correct (w : WebSocketPacket) (req : HeaderField.HeaderField) (first : Z)
    (mask : bool) (key msg : bytes) (chunks : list bytes)
    (Hw : is_hand_shaken_ w = true /\ payload_ w = []) (Hkey : length key = 4%nat)
    (Hmsg : (0 < length msg < 126)%nat) (Hne : Forall (fun c => c <> []) chunks)
    (Hchunks : concat chunks = frame_header first mask key (zlen msg) ++ unmask mask key msg)
    (Halign : mask = false \/ aligned (skip_chunks (if mask then 6 else 2) chunks)) :
  exists q, feed (new_parser w req) [] chunks = Ok q /\ IsEnd q = true /\
            payload_ (ws_packet_ q) = msg.
Proof.
  assert (length (unmask mask key msg) = length msg) as Hl by apply length_imap.
  destruct (feed_new w req first mask key (unmask mask key msg) chunks)
    as (q & H1 & H2 & _ & H4 & H5); [done|done|lia|done|by rewrite Hl|].
  exists q. split_and!; [done|done|]. rewrite H4, decode_pieces, H5 by done.
  rewrite !unmask_decode. apply unmask_involutive.
Qed.

Lemma ws_decode_correct_witness :
  exists q, feed (new_parser AllocNewPacket []) []
      [[129]; [133; 55; 250]; [33; 61; 127; 159; 77; 81]; [88]] = Ok q /\ IsEnd q = true /\
    payload_ (ws_packet_ q) = str "Hello".
Proof.
  refine (ws_decode_correct AllocNewPacket [] 129 true [55; 250; 33; 61] (str "Hello")
            [[129]; [133; 55; 250]; [33; 61; 127; 159; 77; 81]; [88]] _ _ _ _ _ _);
    [done|done|simpl; lia|by repeat constructor|vm_compute; reflexivity|by right].
Defined.

(** A masked frame whose payload is cut after its first byte is decoded to something else
    than the message, whenever the first two bytes of the key differ: the mask index restarts
    with every call. *)
Theorem ws_mask_restarts (w : WebSocketPacket) (req : HeaderField.HeaderField) (first m0 m1 : Z)
    (k0 k1 k2 k3 : Z) (msg : bytes)
    (Hw : is_hand_shaken_ w = true /\ payload_ w = []) (Hmsg : (length msg < 124)%nat)
    (Hkey : k0 <> k1) :
  let key := [k0; k1; k2; k3] in
  let raw := unmask true key (m0 :: m1 :: msg) in
  exists q, feed (new_parser w req) []
              [frame_header first true key (zlen raw) ++ take 1 raw; drop 1 raw] = Ok q /\
            IsEnd q = true /\ payload_ (ws_packet_ q) <> m0 :: m1 :: msg.
Proof.
  intros key raw.
  assert (length raw = S (S (length msg))) as Hl by apply (length_imap _ (m0 :: m1 :: msg)).
  destruct (feed_new w req first true key raw
              [frame_header first true key (zlen raw) ++ take 1 raw; drop 1 raw])
    as (q & H1 & H2 & _ & H4 & _); [done|done|lia| |cbn [concat]; by rewrite app_nil_r, <- app_assoc, take_drop|].
  { by repeat constructor. }
  exists q. split_and!; [done|done|]. rewrite H4. clear -Hkey. unfold raw, key.
  cbn. intros [= _ Heq _]. apply Hkey. rewrite Z.lxor_assoc in Heq.
  apply (f_equal (Z.lxor m1)) in Heq. rewrite <- Z.lxor_assoc, Z.lxor_nilpotent, Z.lxor_0_l in Heq.
  symmetry. by apply Z.lxor_eq.
Qed.

Lemma ws_mask_restarts_witness :
  exists q, feed (new_parser AllocNewPacket []) []
              [[129; 133; 55; 250; 33; 61; 127]; [159; 77; 81; 88]] = Ok q /\
            IsEnd q = true /\ payload_ (ws_packet_ q) <> str "Hello".
Proof.
  refine (ws_mask_restarts AllocNewPacket [] 129 72 101 55 250 33 61 (str "llo") _ _ _);
    [done|simpl; lia|done].
Defined.

(** An unmasked frame with a 16-bit length whose payload of more than 126 bytes arrives at
    once is an error: the length compared is the code 126, not the extended length. *)
Theorem ws_extended_rejected (w : WebSocketPacket) (req : HeaderField.HeaderField)
    (first hi lo : Z) (raw : bytes)
    (Hw : is_hand_shaken_ w = true /\ payload_ w = [])
    (Hraw : 126 < zlen raw < 2 ^ 30) :
  exists q, DoParse (new_parser w req) ([first; 126; hi; lo] ++ raw) = Ok (-1, q) /\
            IsErr q = true /\ extended_payload_len_ (ws_packet_ q) = be16 hi lo.
Proof.
  destruct Hw as [Hs Hp]. set (buf := [first; 126; hi; lo] ++ raw).
  assert (zlen buf = zlen raw + 4) as Hb by (unfold buf; rewrite length_app; simpl; lia).
  rewrite ws_DoParse_loop; [|done|cbn; lia|lia]. unfold parse_fuel.
  set (w1 := SetFirstByte (SetHandShakeReqHeader w req) first).
  set (w2 := SetPayloadLen (Masked w1 false) 126).
  set (w3 := SetExtendedPayloadLen w2 (be16 hi lo)).
  rewrite (loop_step _ _ (mkParser w1 kPayloadLen 1)); [|done|simpl; lia].
  rewrite (loop_step _ _ (mkParser w2 kExtendedPayloadLen 2)); [| |simpl; lia].
  2: { unfold parse_turn, _ResolvePayloadLen. cbn [position_ resolved_len_]. rewrite Hb, sub64_id by lia.
       by destruct (Z.ltb_spec (zlen raw + 4 - 1) 1); [lia|]. }
  rewrite (loop_step _ _ (mkParser w3 kPayload 4)); [| |simpl; lia].
  2: { unfold parse_turn, _ResolveExtendedPayloadLen. cbn [position_ resolved_len_].
       rewrite Hb, sub64_id by lia. by destruct (Z.ltb_spec (zlen raw + 4 - 2) 2); [lia|]. }
  eexists. cbn [parse_loop]. unfold parse_turn, _ResolvePayload. cbn [position_ resolved_len_ ws_packet_].
  rewrite Hb, sub64_id by lia. destruct (Z.leb_spec (zlen raw + 4 - 4) 0); [lia|].
  replace (zlen raw + 4 - 4) with (zlen buf - 4) by lia. rewrite bytes_from_rest by lia. cbn [mbind res_bind].
  change (drop (Z.to_nat 4) buf) with raw. rewrite decode_loop_from by lia. cbn [mbind res_bind]. change (payload_ w3) with (payload_ w).
  change (mask_ w3) with false. change (payload_len_ w3) with 126. rewrite Hp, app_nil_l, decode_unmasked.
  destruct (Z.eqb_spec (zlen raw) 126); [lia|]. by destruct (Z.ltb_spec 126 (zlen raw)); [|lia].
Qed.

Lemma ws_extended_rejected_witness :
  exists q, DoParse (new_parser AllocNewPacket []) ([129; 126; 0; 127] ++ repeat 65 127) = Ok (-1, q) /\
            IsErr q = true /\ extended_payload_len_ (ws_packet_ q) = 127.
Proof.
  refine (ws_extended_rejected AllocNewPacket [] 129 0 127 (repeat 65 127) _ _); [done|simpl; lia].
Defined.

(** C39: a text of 1 to 125 bytes packed by [ws::Pack] into an empty buffer is read back by the
    parser in whatever pieces it arrives, as a text frame. *)
Theorem ws_Pack_parse (content : bytes) (out : AutoBuffer) (chunks : list bytes)
    (Hout : holds out []) (Hlen : (0 < length content < 126)%nat)
    (Hne : Forall (fun c => c <> []) chunks)
    (Hsent : (contents <$> Pack content out) = Ok (concat chunks)) :
  exists q, feed (new_parser AllocNewPacket []) [] chunks = Ok q /\ IsEnd q = true /\
    op_code_ (ws_packet_ q) = kOpcodeText /\ payload_ (ws_packet_ q) = content.
Proof.
  destruct (Pack_holds content [] out Hout) as (b & Hb & _ & Hc & _); [simpl; lia|].
  rewrite Hb in Hsent. injection Hsent as Hsent. rewrite Hc in Hsent.
  destruct (feed_new AllocNewPacket [] 129 false [0; 0; 0; 0] content chunks)
    as (q & H1 & H2 & H3 & H4 & H5); [done|done|done|done| |].
  - rewrite <- Hsent, app_nil_l. unfold packed. by destruct (Z.ltb_spec (zlen content) 126); [|lia].
  - exists q. split_and!; [done|done|done|]. rewrite H4, decode_pieces, H5 by (by left).
    rewrite unmask_decode. apply decode_unmasked.
Qed.

Lemma ws_Pack_parse_witness :
  exists q, feed (new_parser AllocNewPacket []) [] [[129]; [2; 104]; [105]] = Ok q /\ IsEnd q = true /\
    op_code_ (ws_packet_ q) = kOpcodeText /\ payload_ (ws_packet_ q) = str "hi".
Proof.
  refine (ws_Pack_parse (str "hi") (AutoBuffer.new 128) [[129]; [2; 104]; [105]] _ _ _ _);
    [by apply holds_new|simpl; lia|by repeat constructor|vm_compute; reflexivity].
Defined.

(** For 126 to 65535 bytes [ws::Pack] writes the 16-bit length with its low byte first, so
    that a reader of network order, this parser included, sees the two bytes swapped. *)
Theorem ws_Pack_length_swapped (content : bytes) (out : AutoBuffer)
    (Hout : holds out []) (Hlen : 126 <= zlen content <= 65535) :
  let n := zlen content in
  exists b q, Pack content out = Ok b /\ take 4 (contents b) = [129; 126; n mod 256; n / 256] /\
    DoParse (new_parser AllocNewPacket []) (take 4 (contents b)) = Ok (0, q) /\
    extended_payload_len_ (ws_packet_ q) = be16 (n mod 256) (n / 256).
Proof.
  intros n. destruct (Pack_holds content [] out Hout) as (b & Hb & _ & Hc & _); [simpl; lia|].
  assert (take 4 (contents b) = [129; 126; n mod 256; n / 256]) as Ht.
  { rewrite Hc, app_nil_l. unfold packed. fold n. destruct (Z.ltb_spec n 126); [lia|].
    destruct (Z.leb_spec n 65535); [|lia]. simpl. rewrite (Z.mod_small (n / 256)); [done|].
    split; [apply Z.div_pos|apply Z.div_lt_upper_bound]; lia. }
  exists b. rewrite Ht. eexists. split_and!; done.
Qed.

Lemma ws_Pack_length_swapped_witness :
  exists b q, Pack (repeat 65 200) (AutoBuffer.new 128) = Ok b /\
    take 4 (contents b) = [129; 126; 200; 0] /\
    DoParse (new_parser AllocNewPacket []) (take 4 (contents b)) = Ok (0, q) /\
    extended_payload_len_ (ws_packet_ q) = 51200.
Proof.
  refine (ws_Pack_length_swapped (repeat 65 200) (AutoBuffer.new 128) _ _);
    [by apply holds_new|simpl; lia].
Defined.

(** C35: the handshake answers a request with a key by the Base64 text of the SHA-1 digest of the
    key followed by the protocol's GUID, and marks the packet as shaken; the RFC's own example
    is computed in [DoHandShake_rfc]. *)
Theorem DoHandShake_accept (w : WebSocketPacket) (key : bytes)
    (Hnot : is_hand_shaken_ w = false)
    (Hget : HeaderField.Get (handshake_req_ w) HeaderField.kSecWebSocketKey = Some key)
    (Hkey : bytes_ok key) (Hlen : zlen key < 2 ^ 60) :
  exists w', DoHandShake w = Ok (true, w') /\ is_hand_shaken_ w' = true /\
    handshake_resp_ w' =
      [(HeaderField.kConnection, HeaderField.kUpgrade);
       (HeaderField.kSecWebSocketAccept,
        Base64.encode_spec (Sha1.sha1 (key ++ kHandShakeMagicKey)));
       (HeaderField.kUpgrade, HeaderField.kWebSocket)].
Proof.
  unfold DoHandShake. rewrite Hnot. cbn [negb assert_ mbind res_bind]. cbn [handshake_req_].
  rewrite Hget. destruct (Sha1.Digest_sha1 (key ++ kHandShakeMagicKey)) as (m & -> & _).
  { apply Forall_app_2; [done|]. by repeat constructor. }
  { rewrite length_app. simpl. lia. }
  destruct (Sha1.sha1_shape (key ++ kHandShakeMagicKey)) as [Hb Hl].
  cbn [mbind res_bind]. rewrite take_ge by lia. rewrite Base64.Encode_spec by (done || lia).
  cbn [mbind res_bind]. eexists. split_and!; [done|done|]. cbn. done.
Qed.

Lemma DoHandShake_accept_witness :
  exists w', DoHandShake (SetHandShakeReqHeader new_packet [(HeaderField.kSecWebSocketKey, str "k")])
             = Ok (true, w') /\ is_hand_shaken_ w' = true /\
    handshake_resp_ w' =
      [(HeaderField.kConnection, HeaderField.kUpgrade);
       (HeaderField.kSecWebSocketAccept, Base64.encode_spec (Sha1.sha1 (str "k" ++ kHandShakeMagicKey)));
       (HeaderField.kUpgrade, HeaderField.kWebSocket)].
Proof.
  refine (DoHandShake_accept
            (SetHandShakeReqHeader new_packet [(HeaderField.kSecWebSocketKey, str "k")]) (str "k") _ _ _ _);
    [done|vm_compute; reflexivity|by repeat constructor|simpl; lia].
Defined.

End WebSocketTheory.
