(* ===== verification/WebSocketFields.v ===== *)
(** * The fields of a parsed WebSocket frame (longlink/websocketpacket.cc)

    The layout of a frame, RFC 6455, section 5.2: which bits of which bytes are
    the operation code, the mask bit, the lengths, the key and the payload. The
    parser reads them in turns and over several calls; here it is shown that
    what it ends with are the fields of the bytes it was given. *)
From S2P Require Import Prelude CLib AutoBuffer WebSocket WebSocketTheory.

Module WebSocketFields.
Import WebSocket WebSocketTheory.

(** ** Specifications *)

(** The first byte: the bit FIN, the three reserved bits, four bits of code. *)
Definition code_read (w : WebSocketPacket) (f : bytes) : Prop :=
  exists c, f !! 0%nat = Some c /\ first_byte_ w = c /\ fin_ w = Z.testbit c 7 /\
    rsv_ w = [Z.testbit c 6; Z.testbit c 5; Z.testbit c 4] /\ op_code_ w = c mod 16.

(** The second byte: the mask bit and seven bits of length. *)
Definition size_read (w : WebSocketPacket) (f : bytes) : Prop :=
  exists c, f !! 1%nat = Some c /\ mask_ w = Z.testbit c 7 /\ payload_len_ w = c mod 128.

(** With the length 126 the next two bytes are a big-endian length. *)
Definition ext_read (w : WebSocketPacket) (f : bytes) : Prop :=
  payload_len_ w = 126 ->
  exists hi lo, f !! 2%nat = Some hi /\ f !! 3%nat = Some lo /\ extended_payload_len_ w = 256 * hi + lo.

(** Where the key and the payload start. *)
Definition key_at (w : WebSocketPacket) : nat := if payload_len_ w =? 126 then 4 else 2.
Definition payload_at (w : WebSocketPacket) : nat := key_at w + if mask_ w then 4 else 0.

Definition key_read (w : WebSocketPacket) (f : bytes) : Prop :=
  (payload_at w <= length f)%nat /\ (mask_ w = true -> masking_key_ w = take 4 (drop (key_at w) f)).

(** The first [n] bytes of the payload. *)
Definition payload_read (w : WebSocketPacket) (f : bytes) (n : nat) : Prop :=
  (payload_at w + n <= length f)%nat /\ length (payload_ w) = n /\
  (mask_ w = false -> payload_ w = take n (drop (payload_at w) f)).

(** The packet is the frame at the start of [f]. *)
Definition fields_read (w : WebSocketPacket) (f : bytes) : Prop :=
  code_read w f /\ size_read w f /\ ext_read w f /\ key_read w f /\
  payload_read w f (Z.to_nat (payload_len_ w)).

(** What has been read at each position. *)
Definition read_inv (p : WebSocketParser) (f : bytes) : Prop :=
  let w := ws_packet_ p in
  match position_ p with
  | kNone => payload_ w = []
  | kFirstByte => False
  | kPayloadLen => resolved_len_ p = 1 /\ payload_ w = [] /\ code_read w f
  | kExtendedPayloadLen => resolved_len_ p = 2 /\ payload_ w = [] /\ code_read w f /\ size_read w f /\
      (payload_len_ w = 126 \/ payload_len_ w = 127)
  | kMaskingKey => resolved_len_ p = Z.of_nat (key_at w) /\ payload_ w = [] /\ code_read w f /\ size_read w f /\
      ext_read w f /\ mask_ w = true
  | kPayload => code_read w f /\ size_read w f /\ ext_read w f /\ key_read w f /\
      exists n, resolved_len_ p = Z.of_nat (payload_at w + n) /\ payload_read w f n
  | kEnd => fields_read w f
  | kError => True
  end.

(** ** Lemmas *)

Lemma has_bit_testbit (c k : Z) : 0 <= k -> has_bit c (2 ^ k) = Z.testbit c k.
Proof.
  intros Hk. unfold has_bit. destruct (Z.testbit c k) eqn:E.
  - apply negb_true_iff, Z.eqb_neq. intros H. apply (f_equal (fun z => Z.testbit z k)) in H.
    rewrite Z.land_spec, Z.pow2_bits_true, E, Z.bits_0 in H by done. done.
  - apply negb_false_iff, Z.eqb_eq. apply Z.bits_inj'. intros n Hn. rewrite Z.land_spec, Z.bits_0.
    destruct (Z.eq_dec n k) as [->|Hne]; [by rewrite E|]. by rewrite Z.pow2_bits_false, andb_false_r by lia.
Qed.

Lemma be16_value (hi lo : Z) : byte_ok hi -> byte_ok lo -> be16 hi lo = 256 * hi + lo.
Proof.
  unfold byte_ok. intros Hh Hl. unfold be16, wrap16.
  change (Z.land (to_char lo) 255) with (Z.land (to_char lo) (2 ^ 8 - 1)). rewrite land_ones_mod by lia.
  assert (forall c, 0 <= c < 256 -> exists k, to_char c = c + 256 * k) as Hc.
  { intros c Hc. unfold to_char. rewrite Z.mod_small by lia. destruct (_ <? _); [exists 0|exists (-1)]; lia. }
  assert (to_char lo mod 2 ^ 8 = lo) as ->.
  { destruct (Hc lo Hl) as [k ->]. change (2 ^ 8) with 256. rewrite Z.mul_comm, Z.mod_add by lia. apply Z.mod_small. lia. }
  assert (Z.land (Z.shiftl (to_char hi) 8) 65280 = hi * 2 ^ 8) as ->.
  { change 65280 with (Z.shiftl (2 ^ 8 - 1) 8). rewrite <- Z.shiftl_land, land_ones_mod, Z.shiftl_mul_pow2 by lia.
    destruct (Hc hi Hh) as [k ->]. change (2 ^ 8) with 256. rewrite (Z.mul_comm 256 k), Z.mod_add by lia.
    by rewrite Z.mod_small. }
  change (2 ^ 8) with 256. rewrite Z.mod_small by lia. lia.
Qed.

Lemma byte_at_lookup (f : bytes) (i c : Z) : byte_at f i = Ok c -> f !! Z.to_nat i = Some c.
Proof. unfold byte_at. destruct (_ <? 0); [done|]. case_match; [|done]. by intros [= <-]. Qed.

Lemma bytes_from_inv (f s : bytes) (i n : Z) :
  0 <= n -> bytes_from f i n = Ok s ->
  0 <= i /\ i + n <= zlen f /\ s = take (Z.to_nat n) (drop (Z.to_nat i) f).
Proof.
  intros Hn. unfold bytes_from. destruct (Z.ltb_spec i 0); [done|]. destruct (Z.ltb_spec (zlen f) (i + n)); [done|].
  intros [= <-]. lia || done.
Qed.

(** The turn over the first byte. *)
Lemma first_turn (p : WebSocketParser) (f : bytes) (b : bool) (q : WebSocketParser) :
  resolved_len_ p = 0 -> payload_ (ws_packet_ p) = [] -> _ResolveFirstByte p f = Ok (b, q) -> read_inv q f.
Proof.
  intros Hr Hp H. unfold _ResolveFirstByte in H. res_inv. cbn. rewrite Hr. split_and!; [done|done|].
  exists a. apply byte_at_lookup in E. split_and!; try done; cbn.
  - apply (has_bit_testbit a 7). lia.
  - f_equal; [by apply (has_bit_testbit a 6)|f_equal; [by apply (has_bit_testbit a 5)|f_equal; by apply (has_bit_testbit a 4)]].
  - by apply (land_ones_mod a 4).
Qed.

(** The turn over the second byte. *)
Lemma second_turn (p : WebSocketParser) (f : bytes) (b : bool) (q : WebSocketParser) :
  position_ p = kPayloadLen -> read_inv p f -> _ResolvePayloadLen p f = Ok (b, q) -> read_inv q f.
Proof.
  intros Hp Hi. unfold read_inv in Hi. rewrite Hp in Hi. destruct Hi as (Hr & Hpl & Hc).
  unfold _ResolvePayloadLen. destruct (_ <? 1); [intros [= <- <-]; unfold read_inv; by rewrite Hp|].
  intros H. res_inv. apply byte_at_lookup in E. pose proof (has_bit_testbit a 7 ltac:(lia)) as Hm. change (2 ^ 7) with 128 in Hm.
  assert (Z.land a 127 = a mod 128) as Hl by (by apply (land_ones_mod a 7)).
  destruct ((Z.land a 127 =? 126) || (Z.land a 127 =? 127)) eqn:Eo.
  - res_inv. cbn. rewrite Hr. split_and!; [done|done|done|by exists a|].
    apply orb_true_iff in Eo as [?%Z.eqb_eq|?%Z.eqb_eq]; auto.
  - apply orb_false_iff in Eo as [E1%Z.eqb_neq E2%Z.eqb_neq].
    assert (size_read (SetPayloadLen (Masked (ws_packet_ p) (has_bit a 128)) (Z.land a 127)) f) as Hs by (by exists a).
    assert (ext_read (SetPayloadLen (Masked (ws_packet_ p) (has_bit a 128)) (Z.land a 127)) f) as He by (intros He; done).
    apply Z.eqb_neq in E1.
    apply lookup_lt_Some in E. change (Z.to_nat 1) with 1%nat in E.
    destruct (Z.land a 127 <? 126); res_inv; [|done].
    destruct (has_bit a 128) eqn:Eb; unfold read_inv; cbn.
    + unfold key_at. cbn. rewrite E1, Hr. by split_and!.
    + split_and!; [done|done|done| |].
      * split; [|done]. unfold payload_at, key_at. cbn. rewrite E1. lia.
      * exists 0%nat. unfold payload_read, payload_at, key_at. cbn. rewrite E1, Hr, Hpl. split_and!; [done|lia|done|done].
Qed.

(** The turn over the 16-bit length. *)
Lemma ext_turn (p : WebSocketParser) (f : bytes) (b : bool) (q : WebSocketParser) :
  position_ p = kExtendedPayloadLen -> bytes_ok f -> zlen f < 2 ^ 31 -> 2 <= zlen f -> read_inv p f ->
  _ResolveExtendedPayloadLen p f = Ok (b, q) -> read_inv q f.
Proof.
  intros Hp Hb Hz H2 Hi. unfold read_inv in Hi. rewrite Hp in Hi. destruct Hi as (Hr & Hpl & Hc & Hs & Hl).
  unfold _ResolveExtendedPayloadLen. cbv zeta. rewrite Hr, sub64_id by lia.
  assert (read_inv p f) as Hsame by (unfold read_inv; rewrite Hp; done).
  destruct Hl as [Hl|Hl]; rewrite Hl; cbn -[Z.ltb long_len_loop].
  - destruct (Z.ltb_spec (zlen f - 2) 2); [by intros [= <- <-]|]. intros H'. res_inv.
    apply byte_at_lookup in E, E0. change (Z.to_nat 2) with 2%nat in E. change (Z.to_nat (2 + 1)) with 3%nat in E0.
    pose proof (Forall_lookup_1 _ _ _ _ Hb E) as Ha. pose proof (Forall_lookup_1 _ _ _ _ Hb E0) as Ha0.
    set (w := SetExtendedPayloadLen (ws_packet_ p) (be16 a a0)).
    assert (ext_read w f) as He by (intros _; exists a, a0; split_and!; [done|done|by apply be16_value]).
    assert (key_at w = 4%nat) as Hk by (unfold key_at; cbn; by rewrite Hl).
    destruct (mask_ (ws_packet_ p)) eqn:Em; unfold read_inv; cbn [position_ ws_packet_ resolved_len_]; fold w.
    + rewrite Hk. by split_and!.
    + assert (payload_at w = 4%nat) as Hpa by (unfold payload_at; rewrite Hk; cbn; by rewrite Em).
      split_and!; [done|done|done| |].
      * split; [rewrite Hpa; lia|]. cbn. by rewrite Em.
      * exists 0%nat. unfold payload_read. rewrite Hpa. cbn. rewrite Hpl. split_and!; [done|lia|done|done].
  - destruct (Z.ltb_spec (zlen f - 2) 8); [by intros [= <- <-]|]. rewrite long_len_undefined by lia. done.
Qed.

(** The turn over the key. *)
Lemma key_turn (p : WebSocketParser) (f : bytes) (b : bool) (q : WebSocketParser) :
  position_ p = kMaskingKey -> read_inv p f -> _ResolveMaskingKey p f = Ok (b, q) -> read_inv q f.
Proof.
  intros Hp Hi. pose proof Hi as Hsame. unfold read_inv in Hi. rewrite Hp in Hi. destruct Hi as (Hr & Hpl & Hc & Hs & He & Hm).
  unfold _ResolveMaskingKey. rewrite Hm. destruct (_ <? 4); [by intros [= <- <-]|]. intros H. res_inv.
  apply bytes_from_inv in E as (_ & Hl & ->); [|lia]. rewrite Hr, Nat2Z.id in *. change (Z.to_nat 4) with 4%nat.
  assert (key_at (ws_packet_ p) <= 4)%nat by (unfold key_at; case_match; lia).
  assert (payload_at (ws_packet_ p) = key_at (ws_packet_ p) + 4)%nat as Hpa by (unfold payload_at; by rewrite Hm).
  unfold read_inv, key_read, payload_read. cbn.
  change (key_at (SetMaskingKey _ _)) with (key_at (ws_packet_ p)).
  change (payload_at (SetMaskingKey _ _)) with (payload_at (ws_packet_ p)). rewrite Hpa, Hm, Hpl. split_and!; [done|done|done|lia|done|].
  exists 0%nat. rewrite add64_id by lia. split_and!; [lia|lia|done|done].
Qed.

(** The turn over the payload. *)
Lemma payload_turn (p : WebSocketParser) (f : bytes) (b : bool) (q : WebSocketParser) :
  position_ p = kPayload -> zlen f < 2 ^ 31 -> read_inv p f -> _ResolvePayload p f = Ok (b, q) -> read_inv q f.
Proof.
  intros Hp Hz Hi. pose proof Hi as Hsame. unfold read_inv in Hi. rewrite Hp in Hi.
  destruct Hi as (Hc & Hs & He & Hk & n & Hr & Hn & Hln & Hpl).
  unfold _ResolvePayload. rewrite Hr, sub64_id by lia.
  destruct (Z.leb_spec (zlen f - Z.of_nat (payload_at (ws_packet_ p) + n)) 0); [by intros [= <- <-]|].
  rewrite bytes_from_rest by lia. cbn [mbind res_bind]. rewrite Nat2Z.id, decode_loop_from by (rewrite ?length_drop; lia).
  cbn [mbind res_bind]. set (d := decode_from _ _ _ _). set (w' := set_payload (ws_packet_ p) (payload_ (ws_packet_ p) ++ d)).
  assert (length d = length f - (payload_at (ws_packet_ p) + n))%nat as Hd.
  { unfold d. by rewrite decode_from_length, length_drop. }
  assert (length (payload_ (ws_packet_ p) ++ d) = length f - payload_at (ws_packet_ p))%nat as Hl by (rewrite length_app; lia).
  assert (payload_read w' f (length f - payload_at (ws_packet_ p))) as Hr'.
  { unfold payload_read. change (payload_at w') with (payload_at (ws_packet_ p)). cbn. split_and!; [lia|done|].
    intros Hm. unfold d. rewrite Hm, decode_unmasked, (Hpl Hm).
    rewrite <- drop_drop, take_drop. symmetry. apply take_ge. rewrite length_drop. lia. }
  rewrite add64_id by lia. destruct (Z.eqb_spec (zlen (payload_ (ws_packet_ p) ++ d)) (payload_len_ (ws_packet_ p))) as [El|El].
  { intros [= <- <-]. cbn. split_and!; try done. cbn. rewrite <- El, Nat2Z.id. fold w'. by rewrite Hl. }
  destruct (_ <? _); intros [= <- <-]; [done|]. unfold read_inv. cbn [position_ ws_packet_ resolved_len_].
  split_and!; try done. eexists. split; [|exact Hr']. change (payload_at w') with (payload_at (ws_packet_ p)). lia.
Qed.

Lemma parse_turn_read (p q : WebSocketParser) (f : bytes) (b : bool) :
  bytes_ok f -> zlen f < 2 ^ 31 -> read_inv p f -> parse_turn p f = Ok (b, q) -> read_inv q f.
Proof.
  intros Hb Hz Hp. unfold parse_turn. destruct (position_ p) eqn:E.
  - apply first_turn; [done|]. unfold read_inv in Hp. by rewrite E in Hp.
  - unfold read_inv in Hp. by rewrite E in Hp.
  - by apply second_turn.
  - apply ext_turn; [done..| |done]. unfold read_inv in Hp. rewrite E in Hp.
    destruct Hp as (_ & _ & _ & (c & Hc & _) & _). apply lookup_lt_Some in Hc. lia.
  - by apply key_turn.
  - by apply payload_turn.
  - by intros [= <- <-].
  - by intros [= <- <-].
Qed.

Lemma parse_loop_read (fuel : nat) (p q : WebSocketParser) (f : bytes) (r : Z) :
  bytes_ok f -> zlen f < 2 ^ 31 -> read_inv p f -> parse_loop fuel p f = Ok (r, q) -> read_inv q f.
Proof.
  intros Hb Hz. revert p. induction fuel as [|fuel IH]; intros p Hp H; cbn [parse_loop] in H; [done|].
  res_inv. destruct a as [b p1]. pose proof (parse_turn_read p p1 f b Hb Hz Hp E) as H1.
  destruct (position_ p1), b; res_inv; eauto.
Qed.

Lemma DoParse_read (p q : WebSocketParser) (f : bytes) (r : Z) :
  bytes_ok f -> zlen f < 2 ^ 31 -> read_inv p f -> DoParse p f = Ok (r, q) -> read_inv q f.
Proof.
  intros Hb Hz Hp H. unfold DoParse in H. res_inv. destruct (_ <=? 0); [by injection H as _ <-|]. by eapply parse_loop_read.
Qed.

Lemma fields_app (w : WebSocketPacket) (f g : bytes) :
  (code_read w f -> code_read w (f ++ g)) /\ (size_read w f -> size_read w (f ++ g)) /\
  (ext_read w f -> ext_read w (f ++ g)) /\ (key_read w f -> key_read w (f ++ g)) /\
  (forall n, payload_read w f n -> payload_read w (f ++ g) n).
Proof.
  split_and!.
  - intros (c & H & Hc). exists c. split; [by apply lookup_app_l_Some|done].
  - intros (c & H & Hc). exists c. split; [by apply lookup_app_l_Some|done].
  - intros He H. destruct (He H) as (hi & lo & H1 & H2 & H3). exists hi, lo. by split_and!; [apply lookup_app_l_Some..|].
  - intros [Hl Hk]. split; [rewrite length_app; lia|]. intros Hm. rewrite (Hk Hm). unfold payload_at in Hl. rewrite Hm in Hl.
    rewrite drop_app_le by lia. rewrite take_app_le; [done|]. rewrite length_drop. lia.
  - intros n (Hl & Hn & Hp). split_and!; [rewrite length_app; lia|done|]. intros Hm. rewrite (Hp Hm).
    rewrite drop_app_le by lia. rewrite take_app_le; [done|]. rewrite length_drop. lia.
Qed.

(** What has been read stays when more bytes arrive. *)
Lemma read_inv_app (p : WebSocketParser) (f g : bytes) : read_inv p f -> read_inv p (f ++ g).
Proof.
  unfold read_inv, fields_read. destruct (fields_app (ws_packet_ p) f g) as (H1 & H2 & H3 & H4 & H5).
  destruct (position_ p); naive_solver.
Qed.

Lemma feed_read (chunks : list bytes) (p q : WebSocketParser) (f : bytes) :
  bytes_ok (f ++ concat chunks) -> zlen (f ++ concat chunks) < 2 ^ 31 -> read_inv p f ->
  feed p f chunks = Ok q -> read_inv q (f ++ concat chunks).
Proof.
  revert p f. induction chunks as [|c cs IH]; intros p f Hb Hz Hp H; cbn [feed concat] in *.
  { injection H as <-. by rewrite app_nil_r. }
  rewrite app_assoc in *. res_inv. destruct a as [r p1].
  assert (read_inv p1 (f ++ c)) as H1.
  { apply (DoParse_read p p1 (f ++ c) r); [by apply Forall_app in Hb as [? _]|rewrite length_app in Hz; lia|by apply read_inv_app|done]. }
  destruct (IsEnd p1 || IsErr p1); [injection H as <-; by apply read_inv_app|by eapply IH].
Qed.

(** ** Theorem *)


(** ** Witness *)

(** A masked frame with the text "Hi", in two pieces. *)
Definition demo_chunks : list bytes := [[129; 130; 1; 2]; [3; 4; Z.lxor 72 1; Z.lxor 105 2]].

Definition demo_end : WebSocketParser :=
  match feed (mkParser AllocNewPacket kNone 0) [] demo_chunks with Ok q => q | Fault _ => mkParser AllocNewPacket kNone 0 end.


End WebSocketFields.
