(* ===== verification/NetSceneDispatcher.v ===== *)
(** * Scenes and their dispatcher (netscene/)

    A request is routed to a scene by its URL or by the type in its protobuf
    body; the scene makes the response body, the dispatcher packs it. Scenes
    are objects with virtual methods, so a scene is the record of its methods;
    the state they share (static members, the database) is the type [St]. The
    generated protobuf code is a parameter: what it reads from a request body
    and how it writes a response. *)
From S2P Require Import Prelude CLib StdMap AutoBuffer FirstLine HeaderField HttpPacket WebSocket.

Module NetSceneDispatcher.
Import AutoBuffer FirstLine HttpPacket.

(** ** Definitions *)

(** *** Scenes (netscenebase.h, netscenecustom.cc, netsceneprotobuf.cc) *)

Definition kReservedTypeOffset : Z := 10.
Definition kNetSceneTypeGetIndexPage : Z := 0.
Definition kNetSceneTypeHelloSvr : Z := 1.
Definition kNetSceneType404NotFound : Z := 2.
Definition kNetSceneTypeGetFavIcon : Z := 3.
Definition kOK : Z := 0.
Definition kSvrOverload : Z := 1024.

Definition kTextHtml : bytes := str "text/html".
Definition kImagePng : bytes := str "image/png".

Section Scenes.
Context {St : Type}.
(** [BaseNetSceneResp::SerializeToString] of the fields that are set. *)
Context (SerializeResp : option Z -> option bytes -> option bytes -> bytes).

(** [DoScene] gives the response buffer, [None] when an exception leaves it.
    [NewInstance] makes an object with the same methods. *)
Record NetSceneBase := mkScene {
  IsUseProtobuf : bool;
  GetType : Z;
  Route : option bytes;
  ContentType : bytes;
  CustomHttpHeaders : smap bytes -> smap bytes;
  DoScene : bytes -> St -> option bytes * St
}.

(** [NetSceneCustom]: [impl] is [DoSceneImpl], with the bytes that [Data] and
    [Length] designate afterwards. *)
Definition NetSceneCustom (type : Z) (route : option bytes) (content_type : bytes)
    (impl : bytes -> St -> option bytes * St) : NetSceneBase :=
  mkScene false type route content_type (fun h => h) impl.

(** [NetSceneProtobuf]: [impl] is [DoSceneImpl], with [errcode_], [errmsg_] and
    what [GetRespMessage] serializes to, [None] for a null message. *)
Definition NetSceneProtobuf (type : Z) (impl : bytes -> St -> option (Z * bytes * option bytes) * St)
    : NetSceneBase :=
  mkScene true type None HeaderField.kOctetStream (fun h => h)
    (fun in_buffer s =>
       match impl in_buffer s with
       | (Some (errcode, errmsg, Some resp), s) =>
           (Some (SerializeResp (Some errcode) (Some errmsg) (Some resp)), s)
       | (Some (_, _, None), s) => (Some (SerializeResp None None None), s)
       | (None, s) => (None, s)
       end).

(** *** The dispatcher *)

Record NetSceneDispatcher := mkDispatcher {
  selectors_ : list (option NetSceneBase);
  route_map_ : smap Z
}.

Definition RegisterNetScene (d : NetSceneDispatcher) (s : NetSceneBase) : res NetSceneDispatcher :=
  _ ← assert_ (zlen (selectors_ d) =? wrap64 (GetType s));
  let sel := selectors_ d ++ [Some s] in
  match IsUseProtobuf s, Route s with
  | false, Some r =>
      _ ← assert_ (bool_decide (map_find r (route_map_ d) = None));
      Ok (mkDispatcher sel (map_set r (GetType s) (route_map_ d)))
  | _, _ => Ok (mkDispatcher sel (route_map_ d))
  end.

(** The constructor, given the four scenes of the framework. *)
Definition new_dispatcher (index hello not_found icon : NetSceneBase) : res NetSceneDispatcher :=
  d ← RegisterNetScene (mkDispatcher [] []) index;
  d ← RegisterNetScene d hello;
  d ← RegisterNetScene d not_found;
  d ← RegisterNetScene d icon;
  Ok (mkDispatcher
        (selectors_ d ++ replicate (Z.to_nat (kReservedTypeOffset + 1) - length (selectors_ d)) None)
        (route_map_ d)).

(** The comparison with [size()] is unsigned. *)
Definition __MakeNetScene (d : NetSceneDispatcher) (type : Z) : res NetSceneBase :=
  if zlen (selectors_ d) <=? wrap64 type then
    match selectors_ d !! O with
    | Some (Some s) => Ok s
    | _ => Fault Undefined
    end
  else
    match selectors_ d !! Z.to_nat type with
    | Some (Some s) => _ ← assert_ (GetType s =? type); Ok s
    | _ => Fault Undefined
    end.

Fixpoint same_prefix (n : nat) (a b : bytes) : bool :=
  match n with
  | O => true
  | S n' =>
      match a, b with
      | x :: a', y :: b' => (x =? y) && same_prefix n' a' b'
      | _, _ => false
      end
  end.

Definition star : Z := 42.

Definition __DynamicRouteMatch (dynamic route : bytes) : bool :=
  match last dynamic with
  | None => false
  | Some c =>
      if negb (c =? star) then false
      else if (length route <? length dynamic)%nat then false
      else same_prefix (length dynamic - 1) dynamic route
  end.

Fixpoint dynamic_loop (m : smap Z) (route : bytes) : option Z :=
  match m with
  | [] => None
  | (dynamic, t) :: m' => if __DynamicRouteMatch dynamic route then Some t else dynamic_loop m' route
  end.

(** The part of the URL before the query. *)
Definition route_of (full_url : bytes) : bytes :=
  match string_find full_url [63] 0 with
  | None => full_url
  | Some route_end => substr full_url 0 route_end
  end.

Definition __GetNetSceneTypeByRoute (d : NetSceneDispatcher) (full_url : bytes) : Z :=
  let route := route_of full_url in
  match map_find route (route_map_ d) with
  | Some t => t
  | None => default kNetSceneType404NotFound (dynamic_loop (route_map_ d) route)
  end.

(** *** The worker *)

(** A parsed request; [body] is [None] where [Body()] is null. *)
Record HttpRequest := mkRequest {
  method : THttpMethod;
  url : bytes;
  body : option bytes
}.

Inductive ApplicationPacket :=
| AHttp (r : HttpRequest)
| AWebSocket (w : WebSocket.WebSocketPacket)
| AOther.

(** [BaseNetSceneReq::ParseFromArray]: the fields that are present. *)
Context (ParseReq : bytes -> option Z * option bytes).

Definition IsMethodPost (r : HttpRequest) : bool := bool_decide (method r = kPOST).

(** The [do ... while (false)] of [HandleHttp]: the type and the buffer. *)
Definition resolve_request (d : NetSceneDispatcher) (r : HttpRequest) : res (Z * bytes) :=
  let type := __GetNetSceneTypeByRoute d (url r) in
  if negb (IsMethodPost r) then Ok (type, [])
  else
    match body r with
    | None => Fault Undefined
    | Some http_body =>
        if negb (type =? kNetSceneType404NotFound) then Ok (type, http_body)
        else if zlen http_body <=? 0 then Ok (type, [])
        else
          match ParseReq http_body with
          | (None, _) => Ok (type, [])
          | (Some t, None) => Ok (t, [])
          | (Some t, Some buff) => Ok (t, buff)
          end
    end.

Definition PackHttpRespPacket (s : NetSceneBase) (resp_buffer : bytes) (http_msg : AutoBuffer)
    : res AutoBuffer :=
  let headers := CustomHttpHeaders s [] in
  let headers :=
    map_set HeaderField.kContentType
      (if IsUseProtobuf s then HeaderField.kOctetStream else ContentType s) headers in
  let headers := map_set HeaderField.kConnection HeaderField.kConnectionClose headers in
  response_Pack kHTTP_1_1 200 kStatusDescOk (Some headers) (Some resp_buffer) http_msg.

Definition exception_resp : bytes := str "Unixtar encounters an exception during handling net scene.".

Definition HandleNetSceneException (http_resp_msg : AutoBuffer) : res AutoBuffer :=
  let headers := map_set HeaderField.kConnection HeaderField.kConnectionClose [] in
  response_Pack kHTTP_1_1 500 kStatusDescOk (Some headers) (Some exception_resp) http_resp_msg.

Definition HandleHttp (d : NetSceneDispatcher) (r : HttpRequest) (st : St) (out : AutoBuffer)
    : res (AutoBuffer * St) :=
  '(type, req_buffer) ← resolve_request d r;
  net_scene ← __MakeNetScene d type;
  let '(resp, st) := DoScene net_scene (if IsMethodPost r then req_buffer else url r) st in
  out ← match resp with
        | Some resp_buffer => PackHttpRespPacket net_scene resp_buffer out
        | None => HandleNetSceneException out
        end;
  Ok (out, st).

(** The text of [WriteFakeWsResp]; [visit] is its static counter. *)
Definition fake_ws_resp (visit : Z) : bytes :=
  snprintf 256 ([123; 34] ++ str "msg" ++ [34; 58; 34] ++ str "This is " ++ dec visit
                ++ str " visits to Unixtar" ++ [34; 125]).

Definition WriteFakeWsResp (visit : Z) (out : AutoBuffer) : res (AutoBuffer * Z) :=
  let visit := add64 visit 1 in
  out ← WebSocket.Pack (fake_ws_resp visit) out;
  Ok (out, visit).

Definition HandleWebSocket (w : WebSocket.WebSocketPacket) (visit : Z) (out : AutoBuffer)
    : res (AutoBuffer * WebSocket.WebSocketPacket * Z) :=
  if negb (WebSocket.is_hand_shaken_ w) then
    '(success, w) ← WebSocket.DoHandShake w;
    let resp_code := if success : bool then 101 else 404 in
    out ← response_Pack kHTTP_1_1 resp_code kStatusDescSwitchProtocol
            (Some (WebSocket.handshake_resp_ w)) None out;
    Ok (out, w, visit)
  else
    '(out, visit) ← WriteFakeWsResp visit out;
    Ok (out, w, visit).

(** [HandleImpl]: the packet is shared with the connection, so it is returned. *)
Definition HandleImpl (d : NetSceneDispatcher) (p : ApplicationPacket) (st : St) (visit : Z)
    (out : AutoBuffer) : res (AutoBuffer * ApplicationPacket * St * Z) :=
  match p with
  | AWebSocket w => '(out, w, visit) ← HandleWebSocket w visit out; Ok (out, AWebSocket w, st, visit)
  | AHttp r => '(out, st) ← HandleHttp d r st out; Ok (out, p, st, visit)
  | AOther => Ok (out, p, st, visit)
  end.

Definition busy : bytes := str "Unixtar is busy now".

Definition HandleOverload (p : ApplicationPacket) (out : AutoBuffer) : res AutoBuffer :=
  let resp := SerializeResp (Some kSvrOverload) (Some busy) None in
  match p with
  | AHttp r =>
      let '(content_type, resp) :=
        if IsMethodPost r then (HeaderField.kOctetStream, resp) else (HeaderField.kTextPlain, busy) in
      response_Pack kHTTP_1_1 200 kStatusDescOk
        (Some (map_set HeaderField.kContentType content_type [])) (Some resp) out
  | AWebSocket _ => WebSocket.Pack resp out
  | AOther => Ok out
  end.

End Scenes.

Arguments NetSceneBase St : clear implicits.
Arguments NetSceneDispatcher St : clear implicits.

(** *** The scenes of the framework *)

(** [visit_times_this_boot] of [NetSceneGetIndexPage]; the other scenes keep
    no state. *)
Definition index_text (n : Z) : bytes :=
  snprintf 128 (str "If you see this, Unixtar is running normally, " ++ dec n ++ str " historical visits.").

Definition NetSceneGetIndexPage : NetSceneBase Z :=
  NetSceneCustom kNetSceneTypeGetIndexPage (Some (str "/")) HeaderField.kTextPlain
    (fun _ visits => let visits := add64 visits 1 in (Some (cstr (index_text visits)), visits)).

(** [k404Resp] and [kFavIconData] are the contents of files. *)
Definition NetScene404NotFound (k404Resp : bytes) : NetSceneBase Z :=
  NetSceneCustom kNetSceneType404NotFound None kTextHtml (fun _ st => (Some k404Resp, st)).

Definition NetSceneGetFavIcon (kFavIconData : bytes) : NetSceneBase Z :=
  NetSceneCustom kNetSceneTypeGetFavIcon (Some (str "/favicon.ico")) kImagePng
    (fun _ st => (Some kFavIconData, st)).

(** [hello_resp] is the serialized response message, the same for every request. *)
Definition NetSceneHelloSvr (SerializeResp : option Z -> option bytes -> option bytes -> bytes)
    (hello_resp : bytes) : NetSceneBase Z :=
  NetSceneProtobuf SerializeResp kNetSceneTypeHelloSvr
    (fun _ st => (Some (kOK, str "OK", Some hello_resp), st)).

End NetSceneDispatcher.
