(* ===== verification/DispatcherTheory.v ===== *)
(** * Theory of the dispatcher

    The invariant of the scene table and of the route map, what a route
    selects, and the responses the worker packs. *)
From Stdlib Require Import Sorting.Sorted.
From S2P Require Import Prelude CLib StdMap AutoBuffer FirstLine HeaderField HttpPacket HttpTheory HttpProps.
From S2P Require Import WebSocket NetSceneDispatcher.

Module DispatcherTheory.
Import AutoBuffer FirstLine HttpPacket HttpProps NetSceneDispatcher.

(** ** Specifications *)

(** "/a/b/*" matches the longer routes below "/a/b/". *)
Definition route_matches (pattern route : bytes) : Prop :=
  exists p, pattern = p ++ [star] /\ p `prefix_of` route /\ (length p < length route)%nat.

Section Theory.
Context {St : Type}.
Implicit Types (d : NetSceneDispatcher St) (s : NetSceneBase St).

Definition is_int (z : Z) : Prop := - 2 ^ 31 <= z < 2 ^ 31.

(** A scene that has a route. *)
Definition routed s (r : bytes) : Prop := IsUseProtobuf s = false /\ Route s = Some r.

Record registered d : Prop := {
  reg_types : forall i s, selectors_ d !! i = Some (Some s) -> GetType s = Z.of_nat i;
  reg_size : zlen (selectors_ d) <= 2 ^ 31;
  reg_sorted : map_sorted (route_map_ d);
  reg_routes : forall r t, map_find r (route_map_ d) = Some t <->
    exists i s, selectors_ d !! i = Some (Some s) /\ routed s r /\ t = Z.of_nat i
}.

(** The dispatchers of the program: the constructor, then registrations. *)
Inductive built : NetSceneDispatcher St -> Prop :=
| built_new index hello not_found icon d :
    Forall (fun s => is_int (GetType s)) [index; hello; not_found; icon] ->
    new_dispatcher index hello not_found icon = Ok d -> built d
| built_register d s d' :
    built d -> is_int (GetType s) -> RegisterNetScene d s = Ok d' -> built d'.

(** ** Lemmas *)

Lemma map_find_elem {V} (m : smap V) (k : bytes) (v : V) :
  map_sorted m -> map_find k m = Some v <-> (k, v) ∈ m.
Proof.
  intros Hm. induction Hm as [|[k' v'] m Hm IH Hall]; simpl; [set_solver|].
  rewrite elem_of_cons. destruct (str_cmp k k') eqn:E.
  - apply str_cmp_eq in E as ->. split; [intros [= ->]; by left|].
    intros [[= ->]|Hin]; [done|]. exfalso. rewrite Forall_forall in Hall.
    specialize (Hall (k', v) Hin). unfold map_lt in Hall. simpl in Hall. by rewrite str_cmp_refl in Hall.
  - rewrite IH. split; [by right|]. intros [[= -> ->]|?]; [|done]. by rewrite str_cmp_refl in E.
  - rewrite IH. split; [by right|]. intros [[= -> ->]|?]; [|done]. by rewrite str_cmp_refl in E.
Qed.

Lemma same_prefix_spec (p q b : bytes) : same_prefix (length p) (p ++ q) b = true <-> p `prefix_of` b.
Proof.
  revert b. induction p as [|x p IH]; intros b; cbn [length same_prefix app].
  { split; [intros _; apply prefix_nil|done]. }
  destruct b as [|y b].
  { split; [done|]. by intros ?%prefix_nil_not. }
  rewrite andb_true_iff, Z.eqb_eq, IH. split.
  - intros [-> ?]. by apply prefix_cons.
  - intros H. split; [by eapply prefix_cons_inv_1|by eapply prefix_cons_inv_2].
Qed.

Lemma DynamicRouteMatch_spec (pattern route : bytes) :
  __DynamicRouteMatch pattern route = true <-> route_matches pattern route.
Proof.
  unfold __DynamicRouteMatch, route_matches. destruct pattern as [|x l] using rev_ind.
  { split; [done|]. intros (p & H & _). by destruct p. }
  clear IHl. rewrite last_snoc, length_app. cbn [length].
  replace (length l + 1 - 1)%nat with (length l) by lia.
  destruct (Z.eqb_spec x star) as [->|Hx]; cbn [negb].
  - destruct (Nat.ltb_spec (length route) (length l + 1)) as [Hl|Hl].
    + split; [done|]. intros (p & E & _ & Hp). apply app_inj_tail in E as [-> _]. lia.
    + rewrite same_prefix_spec. split.
      * intros Hp. exists l. split_and!; [done..|lia].
      * intros (p & E & Hp & _). by apply app_inj_tail in E as [-> _].
  - split; [done|]. intros (p & E & _). by apply app_inj_tail in E as [_ E].
Qed.

Lemma dynamic_loop_Some (m : smap Z) (route : bytes) (t : Z) :
  dynamic_loop m route = Some t -> exists pattern, (pattern, t) ∈ m /\ route_matches pattern route.
Proof.
  induction m as [|[pattern t'] m IH]; cbn [dynamic_loop]; [done|].
  destruct (__DynamicRouteMatch pattern route) eqn:E.
  - intros [= ->]. exists pattern. split; [by left|by apply DynamicRouteMatch_spec].
  - intros H. destruct (IH H) as (p & ? & ?). exists p. split; [by right|done].
Qed.

Lemma dynamic_loop_None (m : smap Z) (route : bytes) :
  dynamic_loop m route = None -> forall pattern t, (pattern, t) ∈ m -> ~ route_matches pattern route.
Proof.
  induction m as [|[pattern t'] m IH]; cbn [dynamic_loop]; [set_solver|].
  destruct (__DynamicRouteMatch pattern route) eqn:E; [done|].
  intros H p t [[= -> ->]|Hin]%elem_of_cons; [|by eapply IH].
  intros Hm. apply DynamicRouteMatch_spec in Hm. congruence.
Qed.

(** *** The invariant *)

Lemma selectors_snoc d s i x :
  (selectors_ d ++ [Some s]) !! i = Some (Some x) ->
  selectors_ d !! i = Some (Some x) \/ i = length (selectors_ d) /\ x = s.
Proof.
  intros H. apply lookup_app_Some in H as [H|[Hl H]]; [by left|].
  destruct (i - length (selectors_ d))%nat as [|n] eqn:E; [|by destruct n].
  right. injection H as ->. split; [lia|done].
Qed.

Lemma register_type d s :
  zlen (selectors_ d) <= 2 ^ 31 -> is_int (GetType s) ->
  zlen (selectors_ d) =? wrap64 (GetType s) = true ->
  GetType s = Z.of_nat (length (selectors_ d)) /\ zlen (selectors_ d) < 2 ^ 31.
Proof.
  unfold is_int. intros Hs Hi H%Z.eqb_eq. unfold wrap64 in H.
  destruct (Z.ltb_spec (GetType s) 0).
  - rewrite <- (Z_mod_plus_full _ 1), Z.mod_small in H by lia. lia.
  - rewrite Z.mod_small in H by lia. lia.
Qed.

Lemma RegisterNetScene_registered d s d' :
  registered d -> is_int (GetType s) -> RegisterNetScene d s = Ok d' ->
  registered d' /\ selectors_ d' = selectors_ d ++ [Some s].
Proof.
  intros [Ht Hs Hm Hr] Hi. unfold RegisterNetScene.
  intros (u & Hsz%assert_Ok & H)%bind_Ok. destruct (register_type d s Hs Hi Hsz) as [Hty Hlt].
  assert (forall i x, (selectors_ d ++ [Some s]) !! i = Some (Some x) -> GetType x = Z.of_nat i) as Ht'.
  { intros i x [Hx|[-> ->]]%selectors_snoc; [by apply Ht|done]. }
  assert (zlen (selectors_ d ++ [Some s]) <= 2 ^ 31) as Hs' by (rewrite length_app; simpl; lia).
  assert (forall r t, ~ routed s r ->
    (exists i x, (selectors_ d ++ [Some s]) !! i = Some (Some x) /\ routed x r /\ t = Z.of_nat i) <->
    map_find r (route_map_ d) = Some t) as Hold.
  { intros r t Hnr. rewrite Hr. split; intros (i & x & Hx & ? & ?); exists i, x; split_and!; try done.
    - apply selectors_snoc in Hx as [Hx|[-> ->]]; [done|]. by destruct Hnr.
    - rewrite lookup_app_l; [done|]. by eapply lookup_lt_Some. }
  destruct (IsUseProtobuf s) eqn:Ep; [|destruct (Route s) as [r0|] eqn:Er].
  - simplify_eq. split; [|done]. split; try done. intros r t. symmetry. apply Hold.
    intros [? _]. congruence.
  - apply bind_Ok in H as (u' & Hn%assert_Ok%bool_decide_eq_true & H). simplify_eq. split; [|done].
    split; [done|done|by apply map_set_sorted|]. cbn [route_map_ selectors_]. intros r t.
    destruct (decide (r = r0)) as [->|Hne].
    + rewrite map_find_set_eq. split.
      * intros [= <-]. exists (length (selectors_ d)), s. split_and!; [by rewrite list_lookup_middle|done|done].
      * intros (i & x & Hx & Hrx & ->). apply selectors_snoc in Hx as [Hx|[-> ->]]; [|by rewrite Hty].
        assert (map_find r0 (route_map_ d) = Some (Z.of_nat i)) as E by (apply Hr; eauto). congruence.
    + rewrite map_find_set_ne by done. symmetry. apply Hold. intros [_ ?]. congruence.
  - simplify_eq. split; [|done]. split; try done. intros r t. symmetry. apply Hold.
    intros [_ ?]. congruence.
Qed.

Lemma empty_registered : registered (@mkDispatcher St [] []).
Proof.
  split; [done|simpl; lia|constructor|]. intros r t. cbn [map_find route_map_ selectors_].
  split; [done|]. by intros (i & x & Hx & _).
Qed.

(** Empty entries change nothing. *)
Lemma padded_registered d (n : nat) :
  registered d -> zlen (selectors_ d) + Z.of_nat n <= 2 ^ 31 ->
  registered (mkDispatcher (selectors_ d ++ replicate n None) (route_map_ d)).
Proof.
  intros [Ht Hs Hm Hr] Hn.
  assert (forall i x, (selectors_ d ++ replicate n None) !! i = Some (Some x) <->
                      selectors_ d !! i = Some (Some x)) as Hl.
  { intros i x. rewrite lookup_app_Some. split; [|by left].
    intros [?|[_ [? _]%lookup_replicate]]; [done|discriminate]. }
  split; cbn [selectors_ route_map_].
  - intros i x Hx. by apply Ht, Hl.
  - rewrite length_app, length_replicate. lia.
  - done.
  - intros r t. rewrite Hr. by setoid_rewrite Hl.
Qed.

(** What every dispatcher of the program looks like. *)
Record shaped d : Prop := {
  sh_registered : registered d;
  sh_size : (11 <= length (selectors_ d))%nat;
  sh_first : forall i, (i <= 3)%nat -> exists s, selectors_ d !! i = Some (Some s);
  sh_reserved : forall i, (4 <= i <= 10)%nat -> selectors_ d !! i = Some None
}.

Lemma built_shaped d : built d -> shaped d.
Proof.
  induction 1 as [index hello not_found icon d Hint H|d s d' _ IH Hi H].
  - rewrite !Forall_cons in Hint. destruct Hint as (I0 & I1 & I2 & I3 & _). unfold new_dispatcher in H.
    apply bind_Ok in H as (d0 & H0 & H). apply RegisterNetScene_registered in H0 as [R0 E0]; [|apply empty_registered|done].
    apply bind_Ok in H as (d1 & H1 & H). apply RegisterNetScene_registered in H1 as [R1 E1]; [|done..].
    apply bind_Ok in H as (d2 & H2 & H). apply RegisterNetScene_registered in H2 as [R2 E2]; [|done..].
    apply bind_Ok in H as (d3 & H3 & H). apply RegisterNetScene_registered in H3 as [R3 E3]; [|done..].
    rewrite E2, E1, E0 in E3. cbn [selectors_ app] in E3.
    assert (selectors_ d = [Some index; Some hello; Some not_found; Some icon] ++ replicate 7 None) as E.
    { injection H as <-. cbn [selectors_]. by rewrite E3. }
    split.
    + injection H as <-. apply padded_registered; [done|]. rewrite E3. vm_compute. discriminate.
    + rewrite E. simpl. lia.
    + intros i Hi. rewrite E. do 4 (destruct i as [|i]; [by eexists|]). lia.
    + intros i Hi. rewrite E. do 4 (destruct i as [|i]; [lia|]). do 7 (destruct i as [|i]; [done|]). lia.
  - destruct IH as [R Hs Hf Hr]. apply RegisterNetScene_registered in H as [R' E]; [|done..].
    split; [done| | |].
    + rewrite E, length_app. lia.
    + intros i Hle. destruct (Hf i Hle) as [x Hx]. exists x. rewrite E, lookup_app_l; [done|]. by eapply lookup_lt_Some.
    + intros i Hle. rewrite E, lookup_app_l; [by apply Hr|lia].
Qed.

Lemma MakeNetScene_registered d i s :
  registered d -> selectors_ d !! i = Some (Some s) -> __MakeNetScene d (Z.of_nat i) = Ok s.
Proof.
  intros [Ht Hs _ _] Hi. unfold __MakeNetScene. pose proof (lookup_lt_Some _ _ _ Hi) as Hl.
  rewrite wrap64_id by lia. destruct (Z.leb_spec (zlen (selectors_ d)) (Z.of_nat i)); [lia|].
  rewrite Nat2Z.id, Hi, (Ht i s Hi), Z.eqb_refl. done.
Qed.

(** *** Routes *)

(** The scene of a route: the one registered for it, else one whose pattern
    matches, else the one for unknown routes. *)
Definition selected d (route : bytes) s : Prop :=
  (exists i, selectors_ d !! i = Some (Some s) /\ routed s route) \/
  (forall i x, selectors_ d !! i = Some (Some x) -> ~ routed x route) /\
  ((exists i pattern, selectors_ d !! i = Some (Some s) /\ routed s pattern /\ route_matches pattern route) \/
   (forall i x pattern, selectors_ d !! i = Some (Some x) -> routed x pattern -> ~ route_matches pattern route) /\
   selectors_ d !! 2%nat = Some (Some s)).

Lemma route_selected d (full_url : bytes) :
  shaped d ->
  exists i s, __GetNetSceneTypeByRoute d full_url = Z.of_nat i /\ selectors_ d !! i = Some (Some s) /\
    selected d (route_of full_url) s.
Proof.
  intros [R _ Hf _]. pose proof R as [Ht Hs Hm Hr]. unfold __GetNetSceneTypeByRoute.
  destruct (map_find (route_of full_url) (route_map_ d)) as [t|] eqn:E.
  - apply Hr in E as (i & s & Hi & Hrt & ->). exists i, s. split_and!; [done..|]. left. by exists i.
  - assert (forall i x, selectors_ d !! i = Some (Some x) -> ~ routed x (route_of full_url)) as Hno.
    { intros i x Hx Hrx. assert (map_find (route_of full_url) (route_map_ d) = Some (Z.of_nat i)) by
        (apply Hr; eauto). congruence. }
    destruct (dynamic_loop (route_map_ d) (route_of full_url)) as [t|] eqn:Ed; cbn [default from_option id].
    + apply dynamic_loop_Some in Ed as (pattern & Hin & Hma). apply map_find_elem in Hin; [|done].
      apply Hr in Hin as (i & s & Hi & Hrt & ->). exists i, s. split_and!; [done..|]. right.
      split; [done|]. left. eauto 6.
    + destruct (Hf 2%nat ltac:(lia)) as [s Hs2]. exists 2%nat, s. split_and!; [done..|]. right.
      split; [done|]. right. split; [|done]. intros i x pattern Hx Hrx.
      apply (dynamic_loop_None _ _ Ed pattern (Z.of_nat i)). apply map_find_elem; [done|]. apply Hr. eauto.
Qed.

(** *** Requests *)

Context (ParseReq : bytes -> option Z * option bytes).

(** The scene and the input [HandleHttp] uses. *)
Definition serves d (r : HttpRequest) s (input : bytes) : Prop :=
  exists type buff, resolve_request ParseReq d r = Ok (type, buff) /\ __MakeNetScene d type = Ok s /\
    input = if IsMethodPost r then buff else url r.

Lemma routes_serve d (r : HttpRequest) :
  shaped d ->
  exists i s, __GetNetSceneTypeByRoute d (url r) = Z.of_nat i /\ __MakeNetScene d (Z.of_nat i) = Ok s /\
    selected d (route_of (url r)) s.
Proof.
  intros Hd. destruct (route_selected d (url r) Hd) as (i & s & Hi & Hs & Hsel). exists i, s.
  split_and!; [done| |done]. apply MakeNetScene_registered; [by destruct Hd|done].
Qed.

Lemma post_type_serves d (r : HttpRequest) (b : bytes) (t : Z) (buff : option bytes) :
  method r = kPOST -> body r = Some b -> b <> [] ->
  __GetNetSceneTypeByRoute d (url r) = kNetSceneType404NotFound -> ParseReq b = (Some t, buff) ->
  resolve_request ParseReq d r = Ok (t, default [] buff).
Proof.
  intros Hm Hb Hne Hr Hp. unfold resolve_request, IsMethodPost. rewrite Hm, Hr, Hb, Hp. cbn.
  destruct (Z.leb_spec (zlen b) 0) as [Hl|_]; [by destruct b; [|simpl in Hl; lia]|]. by destruct buff.
Qed.

Lemma MakeNetScene_first d (t : Z) s :
  is_int t -> (0 <=? t) && (t <? zlen (selectors_ d)) = false -> zlen (selectors_ d) <= 2 ^ 31 ->
  selectors_ d !! O = Some (Some s) -> __MakeNetScene d t = Ok s.
Proof.
  unfold is_int. intros Ht Hr Hs H0. unfold __MakeNetScene.
  destruct (Z.leb_spec (zlen (selectors_ d)) (wrap64 t)) as [_|Hlt]; [by rewrite H0|].
  exfalso. unfold wrap64 in Hlt. apply andb_false_iff in Hr as [Hr%Z.leb_gt|Hr%Z.ltb_ge].
  - rewrite <- (Z_mod_plus_full _ 1), Z.mod_small in Hlt by lia. lia.
  - rewrite Z.mod_small in Hlt by lia. lia.
Qed.

(** *** Responses *)

(** The headers [PackHttpRespPacket] sends. *)
Definition resp_headers s : smap bytes :=
  map_set HeaderField.kConnection HeaderField.kConnectionClose
    (map_set HeaderField.kContentType
       (if IsUseProtobuf s then HeaderField.kOctetStream else ContentType s) (CustomHttpHeaders s [])).

Definition exception_headers : smap bytes := [(HeaderField.kConnection, HeaderField.kConnectionClose)].

(** What a client must be able to read: a body with a length of at most eight
    digits and header fields that can be printed. *)
Definition sendable (headers : smap bytes) (resp : bytes) : Prop :=
  resp <> [] /\ zlen resp < 10 ^ 8 /\ Forall HeaderField.field_ok headers /\
  zlen (response_message kHTTP_1_1 200 kStatusDescOk headers resp) < 2 ^ 31.

(** A client that receives the bytes of [b], in any pieces, reads this response. *)
Definition client_reads (b : AutoBuffer) (code : Z) (headers : smap bytes) (resp : bytes) : Prop :=
  forall chunks, Forall (fun c => c <> []) chunks -> contents b = concat chunks ->
  exists q, feed new_response [] chunks = Ok q /\ IsEnd q = true /\
    sub q = mkStatusLine kHTTP_1_1 code kStatusDescOk /\
    headers_ q = response_fields (Some headers) (Some resp) /\
    view (body_ q) (concat chunks) = Some resp.

Lemma Pack_client (code : Z) (headers : smap bytes) (resp : bytes) (out : AutoBuffer) :
  0 <= code < 1000 -> (exists v, (HeaderField.kConnection, v) ∈ headers) ->
  resp <> [] -> zlen resp < 10 ^ 8 -> Forall HeaderField.field_ok headers ->
  zlen (response_message kHTTP_1_1 code kStatusDescOk headers resp) < 2 ^ 31 ->
  0 < malloc_unit_size_ out < 2 ^ 32 ->
  exists b msg, response_Pack kHTTP_1_1 code kStatusDescOk (Some headers) (Some resp) out = Ok b /\
    holds b msg /\ msg <> [] /\ zlen msg < 2 ^ 31 /\ client_reads b code headers resp.
Proof.
  intros Hc [v Hv] Hne Hl Hf Hm Ho.
  assert (plain kStatusDescOk) as Hp by (by apply plain_dec).
  destruct (response_Pack_holds kHTTP_1_1 code kStatusDescOk headers resp out Ho Hc Hp Hm)
    as (b & Eb & Hb).
  exists b, (response_message kHTTP_1_1 code kStatusDescOk headers resp).
  split_and!; [done|done|apply message_nonnil|done|]. destruct Hb as (_ & Ec & _). intros chunks Hch Hcat. rewrite Ec in Hcat.
  apply response_feed; try done. split; try done; [by apply str_word|]. exists (HeaderField.kConnection, v). done.
Qed.

Lemma map_set_elem {V} (m : smap V) (k : bytes) (v : V) : (k, v) ∈ map_set k v m.
Proof.
  induction m as [|[k' v'] m IH]; simpl; [by left|]. destruct (str_cmp k k'); [by left..|by right].
Qed.

(** What [HandleHttp] leaves in the buffer, ready to be sent. *)
Lemma HandleHttp_writes d (r : HttpRequest) s (input : bytes) (st st' : St) (resp : option bytes) (out : AutoBuffer) :
  serves d r s input -> DoScene s input st = (resp, st') -> 0 < malloc_unit_size_ out < 2 ^ 32 ->
  (forall x, resp = Some x -> sendable (resp_headers s) x) ->
  exists b msg, HandleHttp ParseReq d r st out = Ok (b, st') /\ holds b msg /\ msg <> [] /\ zlen msg < 2 ^ 31 /\
    match resp with
    | Some x => client_reads b 200 (resp_headers s) x
    | None => client_reads b 500 exception_headers exception_resp
    end.
Proof.
  intros Hs Hdo Hout Hresp.
  destruct Hs as (type & buff & Hr & Hm & ->). unfold HandleHttp. rewrite Hr. cbn [mbind res_bind].
  rewrite Hm. cbn [mbind res_bind]. rewrite Hdo. destruct resp as [x|].
  - destruct (Hresp x eq_refl) as (Hne & Hl & Hf & Hz).
    destruct (Pack_client 200 (resp_headers s) x out) as (b & msg & Hb & Hh & Hn & Hz' & Hc); try done.
    { exists HeaderField.kConnectionClose. apply map_set_elem. }
    exists b, msg. unfold PackHttpRespPacket. fold (resp_headers s). by rewrite Hb.
  - destruct (Pack_client 500 exception_headers exception_resp out) as (b & msg & Hb & Hh & Hn & Hz' & Hc); try done.
    { eexists. by left. }
    { repeat constructor; by apply HeaderField.token_dec. }
    exists b, msg. unfold HandleNetSceneException. cbn [map_set]. fold exception_headers. by rewrite Hb.
Qed.

(** ** Properties *)

(** A request that is not a POST is served by the scene its route selects, with the URL as its
    input: the scene registered for the route, else one whose pattern matches, else the one for
    unknown routes. A POST on a known route is served by that scene with the body; on an unknown
    route by the scene whose type the body names, and by the first scene when there is no such type. *)
Theorem dispatch_selects d (r : HttpRequest) (Hd : built d) :
  (method r <> kPOST -> exists s, selected d (route_of (url r)) s /\ serves d r s (url r)) /\
  (forall b, method r = kPOST -> body r = Some b ->
     __GetNetSceneTypeByRoute d (url r) <> kNetSceneType404NotFound ->
     exists s, selected d (route_of (url r)) s /\ serves d r s b) /\
  (forall b t buff, method r = kPOST -> body r = Some b -> b <> [] ->
     __GetNetSceneTypeByRoute d (url r) = kNetSceneType404NotFound ->
     ParseReq b = (Some t, Some buff) -> is_int t ->
     (forall s, 0 <= t -> selectors_ d !! Z.to_nat t = Some (Some s) -> serves d r s buff) /\
     (forall s, t < 0 \/ zlen (selectors_ d) <= t -> selectors_ d !! O = Some (Some s) -> serves d r s buff)).
Proof.
  apply built_shaped in Hd. destruct (routes_serve d r Hd) as (i & s & Hi & Hs & Hsel). split_and!.
  - intros Hm. exists s. split; [done|]. exists (Z.of_nat i), [].
    unfold resolve_request, IsMethodPost. rewrite bool_decide_false by done. by rewrite Hi.
  - intros b Hm Hb Hne. exists s. split; [done|]. exists (Z.of_nat i), b.
    unfold resolve_request, IsMethodPost. rewrite bool_decide_true, Hb, <- Hi by done. cbn [negb].
    apply Z.eqb_neq in Hne. rewrite Hne. by rewrite Hi.
  - intros b t buff Hm Hb Hne Hr Hp Ht. pose proof (post_type_serves d r b t _ Hm Hb Hne Hr Hp) as E.
    cbn [default from_option id] in E.
    split; intros x Hx Hx2; exists t, buff; (split_and!; [done| |by unfold IsMethodPost; rewrite bool_decide_true]).
    + rewrite <- (Z2Nat.id t) by lia. apply MakeNetScene_registered; [by destruct Hd|done].
    + apply MakeNetScene_first; try done; [|by destruct Hd as [[] _ _ _]].
      destruct (Z.leb_spec 0 t), (Z.ltb_spec t (zlen (selectors_ d))); try done. lia.
Qed.

(** What [HandleHttp] writes is a response the client reads back in any segmentation: status 200
    with the headers and the body of the scene that serves the request, or status 500 with the fixed
    message when the scene throws; the state of the scenes is what the scene leaves. *)
Theorem HandleHttp_responds d (r : HttpRequest) s (input : bytes) (st st' : St) (resp : option bytes)
    (out : AutoBuffer)
    (Hs : serves d r s input) (Hdo : DoScene s input st = (resp, st'))
    (Hout : 0 < malloc_unit_size_ out < 2 ^ 32)
    (Hresp : forall x, resp = Some x -> sendable (resp_headers s) x) :
  exists b, HandleHttp ParseReq d r st out = Ok (b, st') /\
    match resp with
    | Some x => client_reads b 200 (resp_headers s) x
    | None => client_reads b 500 exception_headers exception_resp
    end.
Proof.
  destruct (HandleHttp_writes d r s input st st' resp out Hs Hdo Hout Hresp) as (b & msg & E & _ & _ & _ & Hc). by exists b.
Qed.

(** A POST whose body names one of the reserved types the framework does not use (4 to 10)
    makes the server call a method of a null pointer, whatever scenes are registered. *)
Theorem reserved_type_crashes d (r : HttpRequest) (b : bytes) (t : Z) (buff : option bytes) (st : St)
    (out : AutoBuffer) (Hd : built d) (Hm : method r = kPOST) (Hb : body r = Some b) (Hne : b <> [])
    (Hr : __GetNetSceneTypeByRoute d (url r) = kNetSceneType404NotFound)
    (Hp : ParseReq b = (Some t, buff)) (Ht : 4 <= t <= 10) :
  HandleHttp ParseReq d r st out = Fault Undefined.
Proof.
  apply built_shaped in Hd as [Rg Hs _ Hres]. unfold HandleHttp.
  rewrite (post_type_serves d r b t buff) by done. cbn [mbind res_bind]. unfold __MakeNetScene.
  rewrite wrap64_id by lia. destruct (Z.leb_spec (zlen (selectors_ d)) t); [lia|].
  by rewrite Hres by lia.
Qed.

End Theory.

(** *** The dispatcher of the framework *)

Definition demo_hello : NetSceneBase Z := NetSceneHelloSvr (fun _ _ _ => str "resp") (str "hello").
Definition demo_404 : NetSceneBase Z := NetScene404NotFound (str "nothing here").
Definition demo_icon : NetSceneBase Z := NetSceneGetFavIcon (str "png").

Definition demo : NetSceneDispatcher Z :=
  mkDispatcher ([Some NetSceneGetIndexPage; Some demo_hello; Some demo_404; Some demo_icon] ++ replicate 7 None)
    [(str "/", 0); (str "/favicon.ico", 3)].

Lemma demo_built : built demo.
Proof.
  apply (built_new NetSceneGetIndexPage demo_hello demo_404 demo_icon demo); [|reflexivity].
  repeat constructor; vm_compute; done.
Qed.

(** A request body that is its own type. *)
Definition demo_parse (b : bytes) : option Z * option bytes := (head b, Some (drop 1 b)).

Definition demo_get : HttpRequest := mkRequest kGET (str "/?page=1") None.
Definition demo_post : HttpRequest := mkRequest kPOST (str "/api") (Some [7; 1]).

Lemma dispatch_selects_witness :
  exists s, selected demo (str "/") s /\ serves demo_parse demo demo_get s (str "/?page=1").
Proof.
  destruct (dispatch_selects demo_parse demo demo_get demo_built) as [H _]. exact (H ltac:(done)).
Defined.

Lemma HandleHttp_responds_witness :
  exists b, HandleHttp demo_parse demo demo_get 41 (AutoBuffer.new 128) = Ok (b, 42) /\
    client_reads b 200 (resp_headers NetSceneGetIndexPage)
      (str "If you see this, Unixtar is running normally, 42 historical visits.").
Proof.
  refine (HandleHttp_responds demo_parse demo demo_get NetSceneGetIndexPage (str "/?page=1") 41 42
            (Some (str "If you see this, Unixtar is running normally, 42 historical visits."))
            (AutoBuffer.new 128) _ _ _ _).
  - exists 0, []. split_and!; reflexivity.
  - vm_compute. reflexivity.
  - simpl. lia.
  - intros x [= <-]. split_and!; [done|vm_compute; reflexivity| |vm_compute; reflexivity].
    repeat constructor; by apply HeaderField.token_dec.
Defined.

Lemma reserved_type_crashes_witness :
  HandleHttp demo_parse demo demo_post 41 (AutoBuffer.new 128) = Fault Undefined.
Proof.
  refine (reserved_type_crashes demo_parse demo demo_post [7; 1] 7 (Some [1]) 41 (AutoBuffer.new 128)
            demo_built _ _ _ _ _ _); done || (vm_compute; done).
Defined.

End DispatcherTheory.
