(* ===== verification/SysUtil.v ===== *)
(** * Signals, files and the daemon (signalhandler.cc, utils/fileutil.cc, daemon.cc)

    The small parts around the system: the stacks of callbacks that run when a
    signal arrives, reading and writing whole files, and the calls that detach
    the process. Files are their contents, the descriptors of a process a finite
    map. *)
From stdpp Require Import gmap fin_maps.
From S2P Require Import Prelude CLib.

Module SysUtil.

(** ** Definitions *)

(** *** Signals *)

Section Signals.
(** [St]: what the callbacks change; a callback is one of [Cb], and [run] is
    what it does. *)
Context {St Cb : Type} (run : Cb -> St -> res St).

(** [installed]: the signals for which [SignalHandlerBridge] was handed to
    [signal]; [callback_map_] maps a signal to its stack, the top first. *)
Record SignalHandler := mkHandler {
  callback_map_ : gmap Z (list Cb);
  installed : gset Z
}.

Definition new_SignalHandler : SignalHandler := mkHandler ∅ ∅.

Definition RegisterCallback (h : SignalHandler) (sig : Z) (callback : Cb) : Z * SignalHandler :=
  if (sig <? 1) || (31 <? sig) then (-1, h)
  else
    let inst := match callback_map_ h !! sig with None => {[sig]} ∪ installed h | Some _ => installed h end in
    let callbacks := default [] (callback_map_ h !! sig) in
    (0, mkHandler (<[sig := callback :: callbacks]> (callback_map_ h)) inst).

(** The loop of [Handle]: the state, and the callbacks that are left if one does
    not return. *)
Fixpoint handle_loop (callbacks : list Cb) (st : St) : res St :=
  match callbacks with
  | [] => Ok st
  | c :: callbacks' => st ← run c st; handle_loop callbacks' st
  end.

Definition Handle (h : SignalHandler) (sig : Z) (st : St) : res (St * SignalHandler) :=
  match callback_map_ h !! sig with
  | None => Ok (st, h)
  | Some callbacks =>
      st ← handle_loop callbacks st;
      Ok (st, mkHandler (<[sig := []]> (callback_map_ h)) (installed h))
  end.

(** [SignalHandlerBridge], which the system calls for an installed signal. *)
Definition deliver (h : SignalHandler) (sig : Z) (st : St) : res (St * SignalHandler) :=
  if decide (sig ∈ installed h) then Handle h sig st else Ok (st, h).

End Signals.
Arguments SignalHandler : clear implicits.

(** *** Files *)

(** A file that [fopen] finds has contents; [None] when it does not open. *)
Definition kReadUnit : nat := Z.to_nat 4096.

(** The loop of [ReadFile]: [fread] takes up to 4096 of the bytes that are left. *)
Fixpoint read_loop (fuel : nat) (left acc : bytes) : res bytes :=
  match fuel with
  | O => Fault Hang
  | S fuel' =>
      let buff := take kReadUnit left in
      if 0 <? zlen buff then read_loop fuel' (drop kReadUnit left) (acc ++ buff) else Ok acc
  end.

(** [ReadFile]: whether the file could be opened, and the string. *)
Definition ReadFile (file : option bytes) (out : bytes) : res (bool * bytes) :=
  match file with
  | None => Ok (false, out)
  | Some content => out ← read_loop (S (S (length content / kReadUnit))) content out; Ok (true, out)
  end.

(** [WriteFile]: the result, the file afterwards, and whether it is still open.
    [opens] is whether [fopen] succeeds, which empties the file; [wrote] is how
    many bytes [fwrite] writes; an object of no bytes counts as not written. *)
Definition WriteFile (file : option bytes) (ptr : bytes) (len : Z) (opens : bool) (wrote : Z)
    : Z * option bytes * bool :=
  if negb opens then (0, file, false)
  else
    let nwrite := if (0 <? len) && (wrote =? len) then 1 else 0 in
    let file := Some (take (Z.to_nat wrote) ptr) in
    if nwrite <? 1 then (nwrite, file, true) else (len, file, false).

Definition GetFileSize (file : option bytes) : Z :=
  match file with None => -1 | Some content => zlen content end.

Definition IsFileExist (file : option bytes) : bool :=
  match file with None => false | Some _ => true end.

(** *** The daemon *)

Inductive open_file := DevNullRead | DevNullReadWrite | Other (id : Z).

Notation fd_table := (gmap Z open_file).

(** The least descriptor that is free, from [i] on. *)
Fixpoint least_free (fuel : nat) (t : fd_table) (i : Z) : Z :=
  match fuel with
  | O => i
  | S fuel' => match t !! i with None => i | Some _ => least_free fuel' t (i + 1) end
  end.

Definition open (t : fd_table) (f : open_file) : fd_table := <[least_free (size t) t 0 := f]> t.

(** [close(i)] for [i] below 64. *)
Definition close_all (t : fd_table) : fd_table :=
  foldl (fun t i => delete (Z.of_nat i) t) t (seq 0 64).

(** How a process leaves [Daemonize]: it returns with its descriptors, or is
    ended by [_exit(0)]. *)
Inductive daemon_end := Returned (ret : Z) (t : fd_table) | Exited.

(** [Daemonize] in one process: the results of the two calls of [fork] and of
    [setsid] there. *)
Definition Daemonize (fork1 setsid fork2 : Z) (t : fd_table) : daemon_end :=
  if fork1 <? 0 then Returned (-1) t
  else if negb (fork1 =? 0) then Exited
  else if setsid <? 0 then Returned (-1) t
  else if fork2 <? 0 then Returned (-1) t
  else if negb (fork2 =? 0) then Exited
  else
    let t := close_all t in
    let t := open t DevNullRead in
    let t := open t DevNullReadWrite in
    let t := open t DevNullReadWrite in
    Returned 0 t.

(** ** Specifications *)

(** What happens to a handler: a registration, or the arrival of a signal. *)
Inductive sig_event (Cb : Type) := Registered (sig : Z) (c : Cb) | Arrived (sig : Z).
Arguments Registered {Cb} sig c.
Arguments Arrived {Cb} sig.

Fixpoint sig_run {St Cb : Type} (run : Cb -> St -> res St) (h : SignalHandler Cb) (st : St) (es : list (sig_event Cb))
    : res (St * SignalHandler Cb) :=
  match es with
  | [] => Ok (st, h)
  | Registered sig c :: es' => sig_run run (RegisterCallback h sig c).2 st es'
  | Arrived sig :: es' => '(st, h) ← deliver run h sig st; sig_run run h st es'
  end.

(** ** Lemmas *)

Lemma kReadUnit_pos : (0 < kReadUnit)%nat.
Proof. unfold kReadUnit. lia. Qed.

#[local] Opaque kReadUnit.

Lemma read_loop_all (fuel : nat) (left acc : bytes) :
  (length left <= fuel * kReadUnit)%nat -> read_loop (S fuel) left acc = Ok (acc ++ left).
Proof.
  pose proof kReadUnit_pos as Hu. revert left acc. induction fuel as [|fuel IH]; intros left acc Hf.
  { destruct left; [|cbn [length] in Hf; lia]. unfold read_loop. by rewrite take_nil, app_nil_r. }
  remember (S fuel) as f eqn:Ef. cbn [read_loop]. subst f. rewrite length_take.
  destruct (Z.ltb_spec 0 (Z.of_nat (kReadUnit `min` length left))) as [Hlt|Hge].
  - rewrite IH; [by rewrite <- app_assoc, take_drop|]. rewrite length_drop. rewrite Nat.mul_succ_l in Hf. lia.
  - destruct left as [|c left]; [by rewrite app_nil_r|]. cbn [length] in Hge. lia.
Qed.

Lemma ReadFile_all (content out : bytes) : ReadFile (Some content) out = Ok (true, out ++ content).
Proof.
  unfold ReadFile. rewrite read_loop_all; [done|]. pose proof kReadUnit_pos as Hu.
  pose proof (Nat.div_mod (length content) kReadUnit). pose proof (Nat.mod_upper_bound (length content) kReadUnit). nia.
Qed.

(** *** Signals *)

Section Handlers.
Context {Cb : Type}.
Implicit Types (h : SignalHandler Cb).

(** The handler holds for every signal what is waiting, and is installed for it. *)
Definition holds (h : SignalHandler Cb) (w : Z -> list Cb) : Prop :=
  forall sig, default [] (callback_map_ h !! sig) = w sig /\ (w sig <> [] -> sig ∈ installed h) /\
    (sig ∈ installed h <-> is_Some (callback_map_ h !! sig)).

Lemma new_holds : holds new_SignalHandler (fun _ => []).
Proof. intros sig. cbn. split_and!; [by rewrite lookup_empty|done|]. rewrite lookup_empty. split; [set_solver|by intros [? ?]]. Qed.

Lemma register_holds h w sig c :
  holds h w -> 1 <= sig <= 31 ->
  holds (RegisterCallback h sig c).2 (fun s => if decide (sig = s) then c :: w s else w s).
Proof.
  intros Hh Hs s. unfold RegisterCallback. destruct (Z.ltb_spec sig 1); [lia|]. destruct (Z.ltb_spec 31 sig); [lia|]. cbn.
  destruct (Hh s) as (Hw & Hi & Hm). destruct (decide (sig = s)) as [->|Hne].
  - rewrite lookup_insert_eq. cbn. rewrite Hw. split_and!; [done|intros _|].
    + destruct (callback_map_ h !! s) eqn:E; [by apply Hm|set_solver].
    + split; [by eexists|intros _]. destruct (callback_map_ h !! s) eqn:E; [by apply Hm|set_solver].
  - rewrite lookup_insert_ne by done. split_and!; [done| |].
    + intros Hne'. destruct (callback_map_ h !! sig); [by apply Hi|]. apply elem_of_union. right. by apply Hi.
    + rewrite <- Hm. destruct (callback_map_ h !! sig); [done|]. set_solver.
Qed.

Lemma delivered_holds h w sig :
  holds h w ->
  holds (if decide (is_Some (callback_map_ h !! sig)) then mkHandler (<[sig := []]> (callback_map_ h)) (installed h) else h)
    (fun s => if decide (sig = s) then [] else w s).
Proof.
  intros Hh s. destruct (Hh s) as (Hw & Hi & Hm). destruct (decide (is_Some (callback_map_ h !! sig))) as [Hs|Hn]; cbn.
  - destruct (decide (sig = s)) as [->|Hne].
    + rewrite lookup_insert_eq. cbn. split_and!; [done|done|]. rewrite Hm. split; [by eexists|done].
    + by rewrite lookup_insert_ne by done.
  - destruct (decide (sig = s)) as [->|Hne]; [|done]. split_and!; [|done|done]. by destruct (callback_map_ h !! s); [destruct Hn|].
Qed.

End Handlers.

Section SignalLemmas.
Context {St Cb : Type} (run : Cb -> St -> res St).
Implicit Types (h : SignalHandler Cb).

Lemma deliver_runs h w sig st :
  holds h w ->
  deliver run h sig st = (st' ← handle_loop run (w sig) st;
    Ok (st', if decide (is_Some (callback_map_ h !! sig)) then mkHandler (<[sig := []]> (callback_map_ h)) (installed h) else h)).
Proof.
  intros Hh. destruct (Hh sig) as (Hw & Hi & Hm). unfold deliver, Handle.
  destruct (callback_map_ h !! sig) as [l|] eqn:E; cbn in Hw.
  - destruct (decide (sig ∈ installed h)) as [_|H]; [|by destruct H; apply Hm]. rewrite <- Hw.
    destruct (decide (is_Some (Some l))) as [_|H]; [done|by destruct H].
  - rewrite <- Hw. destruct (decide (sig ∈ installed h)) as [H|_]; [apply Hm in H as [? ?]; done|].
    destruct (decide (is_Some None)) as [[? ?]|_]; done.
Qed.

(** Valid numbers of signals. *)
Definition sig_ok (e : sig_event Cb) : Prop :=
  match e with Registered sig _ => 1 <= sig <= 31 | Arrived _ => True end.

(** What the arriving signals make of the state, if [w] is what waits now. *)
Fixpoint sig_spec (w : Z -> list Cb) (st : St) (es : list (sig_event Cb)) : res St :=
  match es with
  | [] => Ok st
  | Registered sig c :: es' => sig_spec (fun s => if decide (sig = s) then c :: w s else w s) st es'
  | Arrived sig :: es' => st ← handle_loop run (w sig) st; sig_spec (fun s => if decide (sig = s) then [] else w s) st es'
  end.

Lemma sig_run_spec es h w st :
  Forall sig_ok es -> holds h w -> (sig_run run h st es ≫= fun o => Ok o.1) = sig_spec w st es.
Proof.
  revert h w st. induction es as [|[sig c|sig] es IH]; intros h w st Hes Hh; [done|..]; apply Forall_cons in Hes as [He Hes]; cbn.
  - apply IH; [done|]. by apply register_holds.
  - rewrite (deliver_runs _ w) by done. destruct (handle_loop run (w sig) st) as [st'|f]; [|done]. cbn.
    apply IH; [done|]. by apply delivered_holds.
Qed.

End SignalLemmas.

(** *** The daemon *)

Lemma close_all_lookup (t : fd_table) (i : Z) :
  close_all t !! i = if decide (0 <= i < 64) then None else t !! i.
Proof.
  unfold close_all. assert (forall l (t : fd_table), foldl (fun t i => delete (Z.of_nat i) t) t l !! i
    = if decide (i ∈ (Z.of_nat <$> l)) then None else t !! i) as H.
  { induction l as [|k l IH]; intros t0; [cbn; by destruct (decide (i ∈ [])) as [Hi%elem_of_nil|]|]. cbn [foldl]. rewrite IH. cbn [fmap list_fmap].
    destruct (decide (i ∈ Z.of_nat <$> l)) as [Hi|Hi]; destruct (decide (i ∈ Z.of_nat k :: (Z.of_nat <$> l))) as [Hk|Hk]; try done.
    - destruct Hk. by apply list_elem_of_further.
    - apply elem_of_cons in Hk as [->|]; [apply lookup_delete_eq|done].
    - rewrite lookup_delete_ne; [done|]. intros E. apply Hk. rewrite E. apply list_elem_of_here. }
  rewrite H. destruct (decide (i ∈ Z.of_nat <$> seq 0 64)) as [Hi|Hi]; destruct (decide (0 <= i < 64)) as [Hr|Hr]; try done.
  - apply list_elem_of_fmap in Hi as (k & -> & Hk%elem_of_seq). lia.
  - destruct Hi. apply list_elem_of_fmap. exists (Z.to_nat i). split; [lia|]. apply elem_of_seq. lia.
Qed.

#[local] Opaque close_all.

(** [open] uses the first free descriptor when those below it are in use. *)
Lemma open_at (t : fd_table) (f : open_file) (n : nat) :
  (forall i, 0 <= i < Z.of_nat n -> is_Some (t !! i)) -> t !! Z.of_nat n = None -> (n <= size t)%nat ->
  open t f = <[Z.of_nat n := f]> t.
Proof.
  intros Hlow Hn Hs. unfold open. f_equal. remember (size t) as fuel. clear Heqfuel.
  assert (forall k fuel, (k <= n)%nat -> (n - k <= fuel)%nat -> least_free fuel t (Z.of_nat k) = Z.of_nat n) as H.
  { intros k fuel'. revert k. induction fuel' as [|fuel' IH]; intros k Hk Hf.
    - cbn. f_equal. lia.
    - cbn. destruct (decide (k = n)) as [->|Hne]; [by rewrite Hn|]. destruct (Hlow (Z.of_nat k)) as [x ->]; [lia|].
      replace (Z.of_nat k + 1) with (Z.of_nat (S k)) by lia. apply IH; lia. }
  apply (H 0%nat); lia.
Qed.

(** ** Theorems *)

(** Every callback runs exactly once: when a signal arrives, the callbacks registered for it since it
    last arrived run, the last registered first, and nothing runs for other signals. *)
Theorem signals_run_once {St Cb : Type} (run : Cb -> St -> res St) (st : St) (es : list (sig_event Cb))
    (Hes : Forall sig_ok es) :
  (sig_run run new_SignalHandler st es ≫= fun o => Ok o.1) = sig_spec run (fun _ => []) st es.
Proof. apply sig_run_spec; [done|apply new_holds]. Qed.

Lemma signals_run_once_witness :
  (sig_run (fun (c : nat) (l : list nat) => Ok (l ++ [c])) new_SignalHandler []
     [Registered 2 1%nat; Registered 2 2%nat; Registered 15 3%nat; Arrived 2; Registered 2 4%nat; Arrived 2]
   ≫= fun o => Ok o.1) = Ok [2; 1; 4]%nat.
Proof.
  rewrite (signals_run_once (fun (c : nat) (l : list nat) => Ok (l ++ [c])) []
    [Registered 2 1%nat; Registered 2 2%nat; Registered 15 3%nat; Arrived 2; Registered 2 4%nat; Arrived 2]);
    [reflexivity|repeat constructor; discriminate].
Defined.

(** What [WriteFile] reports as written, [ReadFile] reads back, after what the string already held. A
    file of no bytes is reported as not written, and stays open, although it was made. *)
Theorem WriteFile_ReadFile (file : option bytes) (data out : bytes) :
  let '(ret, file', still_open) := WriteFile file data (zlen data) true (zlen data) in
  ReadFile file' out = Ok (true, out ++ data) /\ ret = zlen data /\ GetFileSize file' = zlen data /\
  still_open = bool_decide (data = []).
Proof.
  unfold WriteFile. cbn [negb]. rewrite Nat2Z.id, firstn_all, Z.eqb_refl, andb_true_r.
  destruct (Z.ltb_spec 0 (zlen data)) as [Hlt|Hge]; cbn.
  - split_and!; [apply ReadFile_all|done|done|]. by destruct data.
  - destruct data; [|cbn in Hge; lia]. split_and!; [apply ReadFile_all|done..].
Qed.

(** [Daemonize] returns 0 exactly in a process that both calls of [fork] made and that has its own
    session. There the standard descriptors are the null device, the other descriptors below 64 are
    closed and those above are as they were. *)
Theorem Daemonize_detaches (fork1 setsid fork2 : Z) (t t' : fd_table) :
  Daemonize fork1 setsid fork2 t = Returned 0 t' <->
  fork1 = 0 /\ 0 <= setsid /\ fork2 = 0 /\
  t' = <[2 := DevNullReadWrite]> (<[1 := DevNullReadWrite]> (<[0 := DevNullRead]> (close_all t))).
Proof.
  unfold Daemonize. assert (open (open (open (close_all t) DevNullRead) DevNullReadWrite) DevNullReadWrite
    = <[2 := DevNullReadWrite]> (<[1 := DevNullReadWrite]> (<[0 := DevNullRead]> (close_all t)))) as ->.
  { set (t1 := close_all t). assert (forall i, 0 <= i < 64 -> t1 !! i = None) as H1.
    { intros i Hi. unfold t1. rewrite close_all_lookup. by destruct (decide (0 <= i < 64)). }
    rewrite (open_at t1 _ 0); [|intros; lia|by apply H1|lia]. change (Z.of_nat 0) with 0. set (t2 := <[0 := _]> t1).
    assert (size t2 = S (size t1)) as Hs2 by (apply map_size_insert_None, H1; lia).
    assert (t2 !! 1 = None) as E1. { unfold t2. rewrite lookup_insert_ne by done. by apply H1. }
    rewrite (open_at t2 _ 1); [| |done|lia].
    2:{ intros i Hi. replace i with 0 by lia. unfold t2. rewrite lookup_insert_eq. by eexists. }
    change (Z.of_nat 1) with 1. set (t3 := <[1 := _]> t2).
    assert (size t3 = S (size t2)) as Hs3 by by apply map_size_insert_None.
    rewrite (open_at t3 _ 2); [done| | |lia].
    - intros i Hi. destruct (decide (i = 1)) as [->|]; [unfold t3; rewrite lookup_insert_eq; by eexists|].
      replace i with 0 by lia. unfold t3, t2. rewrite lookup_insert_ne, lookup_insert_eq by done. by eexists.
    - unfold t3, t2. rewrite !lookup_insert_ne by done. by apply H1. }
  generalize (<[2 := DevNullReadWrite]> (<[1 := DevNullReadWrite]> (<[0 := DevNullRead]> (close_all t)))). intros t1.
  destruct (Z.ltb_spec fork1 0); [split; [done|lia]|]. destruct (Z.eqb_spec fork1 0); cbn [negb]; [|split; [done|lia]].
  destruct (Z.ltb_spec setsid 0); [split; [done|lia]|]. destruct (Z.ltb_spec fork2 0); [split; [done|lia]|].
  destruct (Z.eqb_spec fork2 0); cbn [negb]; [|split; [done|lia]]. split; [by intros [= <-]|by intros (_ & _ & _ & ->)].
Qed.

End SysUtil.
