(* ===== verification/Thread.v ===== *)
(** * Threads (utils/thread.h, utils/thread.cc)

    The base class of the network threads and the workers: an object that owns a
    [std::thread], whose function [Entry] runs on that object. The object can be
    deleted while [Entry] is still using it; the second half has the owner and
    the threads it starts side by side, and shows which owners can let this happen. *)
From stdpp Require Import gmap relations.
From S2P Require Import Prelude.

Module Thread.

(** ** Definitions *)

(** A [std::thread]: the thread it stands for, while it is joinable. *)
Record std_thread := mkStd { id : option nat }.

Definition joinable (s : std_thread) : bool := bool_decide (is_Some (id s)).

Record Thread := mkThread {
  thread_ : option std_thread;
  running_ : bool
}.

Definition set_running (t : Thread) (b : bool) : Thread := mkThread (thread_ t) b.

(** [Thread::Thread] *)
Definition new_Thread : Thread := mkThread None false.

(** [Start]; [tid] is the thread [std::thread] creates. *)
Definition Start (t : Thread) (tid : nat) : Thread := mkThread (Some (mkStd (Some tid))) true.

(** [std::thread::detach] *)
Definition detach (s : std_thread) : res std_thread :=
  if joinable s then Ok (mkStd None) else Fault (Throw SystemError).

(** What [Join] does when it is called by the thread [self]: return, or wait in
    [std::thread::join] for a thread. *)
Inductive join_result := JoinReturns | JoinWaits (tid : nat).

Definition Join (t : Thread) (self : nat) : join_result :=
  match thread_ t with
  | None => JoinReturns
  | Some s =>
      if bool_decide (id s = Some self) then JoinReturns
      else match id s with
           | Some tid => JoinWaits tid
           | None => JoinReturns
           end
  end.

(** After [std::thread::join]. *)
Definition joined (t : Thread) : Thread := mkThread (Some (mkStd None)) (running_ t).

(** [Tid]: [None] for the id that belongs to no thread. *)
Definition Tid (t : Thread) : option nat := thread_ t ≫= id.

Definition Detach (t : Thread) : res Thread :=
  match thread_ t with
  | Some s => s ← detach s; Ok (mkThread (Some s) (running_ t))
  | None => Ok t
  end.

(** [Thread::~Thread]: the object as its memory is released. Destroying a
    [std::thread] that is joinable ends the process. *)
Definition destroy (t : Thread) : res Thread :=
  match thread_ t with
  | Some s =>
      s ← (if joinable s then detach s else Ok s);
      _ ← assert_ (negb (joinable s));
      Ok (mkThread None false)
  | None => Ok t
  end.

Definition IsRunning (t : Thread) : bool := running_ t.

(** *** The function of the thread *)

(** How [Run] ends. *)
Inductive outcome := Returned | Threw (e : exn).

(** The virtual methods of a class with more fields [S]. *)
Record ThreadMethods (S : Type) := {
  OnStart : Thread * S -> res (Thread * S);
  Run : Thread * S -> res (Thread * S * outcome);
  HandleException : exn -> Thread * S -> res (Thread * S);
  OnStop : Thread * S -> res (Thread * S)
}.
Arguments OnStart {S}.
Arguments Run {S}.
Arguments HandleException {S}.
Arguments OnStop {S}.

(** Those that [Thread] itself has. *)
Definition base_OnStart {S} (t : Thread * S) : res (Thread * S) := Ok t.
Definition base_OnStop {S} (t : Thread * S) : res (Thread * S) := Ok t.
Definition base_HandleException {S} (_ : exn) (t : Thread * S) : res (Thread * S) := Ok t.

Definition with_flag {S} (t : Thread * S) (b : bool) : Thread * S := (set_running t.1 b, t.2).

Definition Entry {S} (vm : ThreadMethods S) (t : Thread * S) : res (Thread * S) :=
  t ← OnStart vm t;
  '(t, o) ← Run vm (with_flag t true);
  t ← match o with
      | Returned => Ok t
      | Threw e => HandleException vm e (with_flag t false)
      end;
  OnStop vm (with_flag t false).

(** *** An owner and the threads it starts *)

(** Where a thread is in [Entry]: before the flag is set, in [Run], in the handler
    of its exception, before [OnStop], at its end. Every place but the last has
    accesses to the object before it. *)
Inductive place := PEntry | PRun | PCatch | PStop | PEnd.

#[export] Instance place_eq_dec : EqDecision place.
Proof. solve_decision. Defined.

(** What the owner does with the object; [Notify] is any access of its own, such
    as [NotifyStop]. *)
Inductive op := OpStart | OpNotify | OpJoin | OpDetach | OpDelete.

(** The object ([None] once it is deleted), the threads started so far, and what
    the owner has still to do. *)
Record world := mkWorld {
  obj : option Thread;
  os : list place;
  prog : list op
}.

(** The threads are numbered in the order of their start; the owner is none of
    them. *)
Definition owner (w : world) : nat := S (length (os w)).

Definition deref (w : world) : res Thread :=
  match obj w with Some t => Ok t | None => Fault Dangling end.

(** One operation of the owner; [None] while it waits. *)
Definition owner_do (w : world) (o : op) (rest : list op) : res (option world) :=
  t ← deref w;
  match o with
  | OpStart => Ok (Some (mkWorld (Some (Start t (length (os w)))) (os w ++ [PEntry]) rest))
  | OpNotify => Ok (Some (mkWorld (Some (set_running t false)) (os w) rest))
  | OpJoin =>
      match Join t (owner w) with
      | JoinReturns => Ok (Some (mkWorld (Some t) (os w) rest))
      | JoinWaits i =>
          match os w !! i with
          | Some PEnd => Ok (Some (mkWorld (Some (joined t)) (os w) rest))
          | _ => Ok None
          end
      end
  | OpDetach => t ← Detach t; Ok (Some (mkWorld (Some t) (os w) rest))
  | OpDelete => _ ← destroy t; Ok (Some (mkWorld None (os w) rest))
  end.

(** One step of a thread on the object. [Run] is the subclass's: it may change
    the flag, and it may return or throw at any time or never. *)
Inductive entry_step : Thread -> place -> Thread -> place -> Prop :=
| entry_start t : entry_step t PEntry (set_running t true) PRun
| entry_turn t b : entry_step t PRun (set_running t b) PRun
| entry_returned t : entry_step t PRun (set_running t false) PStop
| entry_threw t : entry_step t PRun (set_running t false) PCatch
| entry_handled t : entry_step t PCatch (set_running t false) PStop
| entry_stopped t : entry_step t PStop t PEnd.

Inductive step : world -> world -> Prop :=
| step_thread t t' l p p' i pr :
    l !! i = Some p -> entry_step t p t' p' ->
    step (mkWorld (Some t) l pr) (mkWorld (Some t') (<[i := p']> l) pr)
| step_owner w o rest w' :
    prog w = o :: rest -> owner_do w o rest = Ok (Some w') -> step w w'.

(** A thread that has still to use an object that is gone. *)
Definition dangling (w : world) : Prop := obj w = None /\ exists i p, os w !! i = Some p /\ p <> PEnd.

(** How far the life of the object has come, by what the owner has done: made,
    its thread started, detached or joined, deleted before the thread was
    started or after it was joined, or deleted with a thread nobody has waited
    for. *)
Inductive phase := Fresh | Started | Detached | Joined | Gone | Abandoned.

#[export] Instance phase_eq_dec : EqDecision phase.
Proof. solve_decision. Defined.

(** The next phase; [None] for what is not to be done at all: to start a second
    thread, to detach one that is not joinable, to use the object after its
    deletion. *)
Definition next_phase (ph : phase) (o : op) : option phase :=
  match ph, o with
  | Fresh, OpStart => Some Started
  | Fresh, OpDelete | Joined, OpDelete => Some Gone
  | Fresh, (OpNotify | OpJoin | OpDetach) => Some Fresh
  | Started, OpNotify => Some Started
  | Started, OpDetach => Some Detached
  | Started, OpJoin => Some Joined
  | Detached, (OpNotify | OpJoin) => Some Detached
  | Joined, (OpNotify | OpJoin) => Some Joined
  | Started, OpDelete | Detached, OpDelete => Some Abandoned
  | _, _ => None
  end.

Fixpoint final_phase (ph : phase) (pr : list op) : option phase :=
  match pr with
  | [] => Some ph
  | o :: pr => match next_phase ph o with Some ph => final_phase ph pr | None => None end
  end.

Definition start_world (pr : list op) : world := mkWorld (Some new_Thread) [] pr.

(** ** Lemmas *)

(** The object and its thread, by phase. *)
Definition phase_ok (ph : phase) (w : world) : Prop :=
  match ph with
  | Fresh => (exists b, obj w = Some (mkThread None b)) /\ os w = []
  | Started => (exists b, obj w = Some (mkThread (Some (mkStd (Some 0%nat))) b)) /\ exists p, os w = [p]
  | Detached => (exists b, obj w = Some (mkThread (Some (mkStd None)) b)) /\ exists p, os w = [p]
  | Joined => (exists b, obj w = Some (mkThread (Some (mkStd None)) b)) /\ os w = [PEnd]
  | Gone => obj w = None /\ Forall (eq PEnd) (os w)
  | Abandoned => obj w = None
  end.

(** The thread of an object that waits to be joined has not ended. *)
Definition waits_for_thread (w : world) : Prop :=
  exists t p, obj w = Some t /\ Tid t = Some 0%nat /\ os w = [p] /\ p <> PEnd.

(** An operation does not fault; it waits only for the thread to end, and leads
    to the next phase. *)
Lemma owner_good (ph ph' : phase) (w : world) (o : op) (rest : list op) :
  phase_ok ph w -> next_phase ph o = Some ph' ->
  (exists w', owner_do w o rest = Ok (Some w') /\ phase_ok ph' w' /\ prog w' = rest) \/
  (o = OpJoin /\ owner_do w o rest = Ok None /\ waits_for_thread w).
Proof.
  destruct w as [ob l pr]. intros Hok Ha. destruct ph, o; try done; injection Ha as <-; cbn in Hok.
  all: try (destruct Hok as [(b & ->) ->]; left; eexists; split; [by cbn|]; split; [|done];
    by repeat first [split | eexists | constructor]).
  all: destruct Hok as [(b & ->) (p & ->)].
  2: { destruct (decide (p = PEnd)) as [->|Hp].
    - left. eexists. split; [by cbn|]. split; [|done]. split; [by eexists|done].
    - right. split; [done|]. split; [by destruct p|]. by eexists _, p. }
  all: left; eexists; (split; [by cbn|]); (split; [|done]); by repeat first [split | eexists].
Qed.

Lemma entry_keeps (t t' : Thread) (p p' : place) : entry_step t p t' p' -> thread_ t' = thread_ t /\ p <> PEnd.
Proof. by destruct 1. Qed.

(** A run of the owner and its thread goes through the phases of the program. *)
Definition good (last : phase) (w : world) : Prop :=
  exists ph, phase_ok ph w /\ final_phase ph (prog w) = Some last.

Lemma step_good (last : phase) (w w' : world) : step w w' -> good last w -> good last w'.
Proof.
  intros Hs (ph & Hok & Hd). destruct Hs as [t t' l p p' i pr Hi He|w o rest w' Hp Ho].
  - exists ph. split; [|done]. apply entry_keeps in He as [Ht Hne]. destruct t' as [th' b'], t as [th b]. cbn in Ht. subst th'.
    destruct ph; cbn in *.
    + destruct Hok as [_ ->]. done.
    + destruct Hok as [(b0 & [= -> ->]) (p0 & ->)]. split; [by eexists|]. destruct i; [|done]. by eexists.
    + destruct Hok as [(b0 & [= -> ->]) (p0 & ->)]. split; [by eexists|]. destruct i; [|done]. by eexists.
    + destruct Hok as [_ ->]. destruct i; [|done]. by injection Hi as <-.
    + by destruct Hok.
    + done.
  - rewrite Hp in Hd. cbn in Hd. destruct (next_phase ph o) as [ph'|] eqn:Ea; [|done].
    destruct (owner_good ph ph' w o rest Hok Ea) as [(w1 & E & Hok' & Hp')|(_ & E & _)]; rewrite E in Ho; [|done].
    injection Ho as <-. exists ph'. by rewrite Hp'.
Qed.

Lemma reachable_good (last : phase) (pr : list op) (w : world) :
  final_phase Fresh pr = Some last -> rtc step (start_world pr) w -> good last w.
Proof.
  intros Hd Hr. assert (Hg : good last (start_world pr)) by (exists Fresh; split; [by split; [eexists|]|done]).
  revert Hg. induction Hr as [|w1 w2 w3 Hs _ IH]; [done|]. intros Hg. by eapply IH, step_good.
Qed.

(** Once the object is deleted nothing is left to do. *)
Lemma deleted_last (ph : phase) (w : world) (last : phase) :
  obj w = None -> phase_ok ph w -> final_phase ph (prog w) = Some last ->
  last = ph /\ (ph = Gone \/ ph = Abandoned).
Proof.
  intros Ho Hok Hf. destruct ph; cbn in Hok; try (destruct Hok as [(b & E) _]; congruence);
    destruct (prog w) as [|o pr]; cbn in Hf; simplify_eq; auto; by destruct o.
Qed.

(** The worlds the owner goes through when its thread does not run. *)
Definition idle (ph : phase) (w : world) : Prop :=
  match ph with
  | Fresh => exists b, w = mkWorld (Some (mkThread None b)) [] (prog w)
  | Started => exists b, w = mkWorld (Some (mkThread (Some (mkStd (Some 0%nat))) b)) [PEntry] (prog w)
  | Detached => exists b, w = mkWorld (Some (mkThread (Some (mkStd None)) b)) [PEntry] (prog w)
  | Joined | Gone => True
  | Abandoned => w = mkWorld None [PEntry] (prog w)
  end.

Lemma joined_final (pr : list op) : final_phase Joined pr <> Some Abandoned /\ final_phase Gone pr <> Some Abandoned.
Proof. induction pr as [|[] pr [IH1 IH2]]; by cbn. Qed.

(** An operation of the owner on such a world; a [Join] is not followed by an
    abandonment. *)
Lemma idle_step (ph ph' : phase) (w : world) (o : op) (rest : list op) :
  idle ph w -> prog w = o :: rest -> next_phase ph o = Some ph' ->
  ph' = Joined \/ ph' = Gone \/ exists w', step w w' /\ prog w' = rest /\ idle ph' w'.
Proof.
  destruct w as [ob l pr]. cbn. intros Hi Hp Hn. subst pr.
  destruct ph, o; try done; injection Hn as <-; auto; cbn in Hi.
  all: try destruct Hi as (b & [= -> ->]).
  all: right; right; eexists; (split; [by eapply step_owner|]); (split; [done|]); cbn; by try eexists.
Qed.

Lemma abandons (pr : list op) (ph : phase) (w : world) :
  final_phase ph pr = Some Abandoned -> prog w = pr -> idle ph w -> exists w', rtc step w w' /\ dangling w'.
Proof.
  revert ph w. induction pr as [|o pr IH]; intros ph w Hf Hp Hi; cbn in Hf.
  { injection Hf as ->. exists w. split; [done|]. rewrite Hi. split; [done|]. by exists 0%nat, PEntry. }
  destruct (next_phase ph o) as [ph'|] eqn:En; [|done].
  destruct (idle_step ph ph' w o pr Hi Hp En) as [->|[->|(w1 & Hs & Hp1 & Hi1)]]; [by apply joined_final in Hf..|].
  destruct (IH ph' w1 Hf Hp1 Hi1) as (w' & Hr & Hd). exists w'. split; [by eapply rtc_l|done].
Qed.

(** ** Theorems *)

(** [Entry] ends the thread in one way: whether [Run] returns or throws, its flag
    is false when [OnStop] runs, and [OnStop] runs; an exception goes to
    [HandleException] and no further. *)
Theorem Entry_clears {S} (vm : ThreadMethods S) (t0 t1 t2 : Thread * S) (o : outcome)
    (Hstart : OnStart vm t0 = Ok t1) (Hrun : Run vm (with_flag t1 true) = Ok (t2, o))
    (Hex : forall e t, exists t', HandleException vm e t = Ok t') :
  exists t3, running_ t3.1 = false /\ Entry vm t0 = OnStop vm t3 /\
    match o with
    | Returned => t3 = with_flag t2 false
    | Threw e => exists t, HandleException vm e (with_flag t2 false) = Ok t /\ t3 = with_flag t false
    end.
Proof.
  unfold Entry. rewrite Hstart. cbn. rewrite Hrun. cbn. destruct o as [|e]; [by exists (with_flag t2 false)|].
  destruct (Hex e (with_flag t2 false)) as (t & E). rewrite E. cbn. exists (with_flag t false). split_and!; [done..|by exists t].
Qed.

(** C23: The life cycle. An owner makes the object, starts its thread at most once, detaches it at most
    once and only while it is joinable, and does not touch the object after deleting it; otherwise it may
    start, notify, join, detach and delete in any order. Then, whatever the interleaving with the thread:
    no operation of the owner fails, and the only one that can wait is a [Join], which waits exactly while
    the thread it joins has not come to its end; and there is an interleaving in which the thread uses the
    object after its deletion if, and only if, the owner deletes it with the thread started and not joined,
    be it detached or not. *)
Theorem thread_life_cycle (pr : list op) (last : phase) (Hd : final_phase Fresh pr = Some last) :
  (forall w o rest, rtc step (start_world pr) w -> prog w = o :: rest ->
    (exists w', owner_do w o rest = Ok (Some w')) \/ (o = OpJoin /\ owner_do w o rest = Ok None /\ waits_for_thread w)) /\
  ((exists w, rtc step (start_world pr) w /\ dangling w) <-> last = Abandoned).
Proof.
  split; [|split].
  - intros w o rest Hr Hp. destruct (reachable_good last pr w Hd Hr) as (ph & Hok & Hf).
    rewrite Hp in Hf. cbn in Hf. destruct (next_phase ph o) as [ph'|] eqn:Ea; [|done].
    destruct (owner_good ph ph' w o rest Hok Ea) as [(w1 & E & _)|?]; [left; by eexists|by right].
  - intros (w & Hr & Ho & i & p & Hi & Hne). destruct (reachable_good last pr w Hd Hr) as (ph & Hok & Hf).
    destruct (deleted_last ph w last Ho Hok Hf) as [-> [->| ->]]; [|done].
    destruct Hok as [_ Hok]. by apply (Forall_lookup_1 _ _ _ _ Hok) in Hi as <-.
  - intros ->. apply (abandons pr Fresh); [done|done|by exists false].
Qed.

(** ** Witnesses *)

(** The class as it is, with a [Run] that throws. *)
Definition throwing : ThreadMethods unit :=
  {| OnStart := base_OnStart; Run := fun t => Ok (t, Threw OutOfRange);
     HandleException := base_HandleException; OnStop := base_OnStop |}.

Lemma Entry_clears_witness :
  exists t3, running_ t3.1 = false /\ Entry throwing (new_Thread, tt) = OnStop throwing t3 /\
    exists t, HandleException throwing OutOfRange (with_flag (mkThread None true, tt) false) = Ok t /\ t3 = with_flag t false.
Proof.
  apply (Entry_clears throwing (new_Thread, tt) (new_Thread, tt) (mkThread None true, tt) (Threw OutOfRange));
    [reflexivity..|]. intros e t. by eexists.
Defined.

(** The operations of [_NotifyNetThreadsStop] on a network thread, and a
    detached one that is deleted. *)
Lemma thread_life_cycle_witness :
  (~ exists w, rtc step (start_world [OpStart; OpNotify; OpJoin; OpDelete]) w /\ dangling w) /\
  (exists w, rtc step (start_world [OpStart; OpDetach; OpJoin; OpDelete]) w /\ dangling w).
Proof.
  split.
  - intros Hw. by apply (thread_life_cycle [OpStart; OpNotify; OpJoin; OpDelete] Gone eq_refl) in Hw.
  - by apply (thread_life_cycle [OpStart; OpDetach; OpJoin; OpDelete] Abandoned eq_refl).
Defined.

(** [Detach] after [Join], or twice, throws. *)
Lemma Detach_again (t : Thread) : Detach (joined t) = Fault (Throw SystemError).
Proof. done. Qed.

End Thread.
