(* ===== verification/Support.v ===== *)
(** * Exceptions, logging, one-time initialization

    The exception class with the messages of its subclasses (utils/exception.cc,
    yamlutil.cc, base64.cc), the parts of the logger that compute something
    (utils/log.cc), the static data a scene reads once (the macros of
    netscenebase.h, with threads that construct scenes side by side), and the unit
    tests of the helpers. *)
From stdpp Require Import gmap relations.
From S2P Require Import Prelude CLib Base64 MessageDigest SysUtil.

Module Support.

(** ** Definitions *)

(** *** Exceptions *)

(** [unixtar::Exception] *)
Record Exception := mkException { msg_ : bytes }.

(** The constructors, the copy, the assignment (which copies nothing), [what]. *)
Definition new_Exception (msg : bytes) : Exception := mkException msg.
Definition copy_Exception (another : Exception) : Exception := mkException (msg_ another).
Definition assign_Exception (this another : Exception) : Exception := this.
Definition what (e : Exception) : bytes := cstr (msg_ e).

(** The subclasses. *)
Definition NoSuchFieldException_msg (field : bytes) : bytes := str "No such yaml field: " ++ field.
Definition NotAnYamlObjectException_msg (field : bytes) : bytes := field ++ str "is not a yaml object.".
Definition NotAnYamlArrayException_msg (field : bytes) : bytes := field ++ str "is not a yaml array.".
Definition NotAnYamlLeafException_msg (field : bytes) : bytes := field ++ str "is not a yaml leaf.".
Definition IllegalBase64LengthException_msg (len : Z) : bytes :=
  str "Length of base64: " ++ dec len ++ str ", Not divisible by 3.".
Definition Base64DecodeException_msg : bytes := str "Illegal base64 string given.".

(** *** Logging *)

(** [LogPrintStacktraceImpl]: the size after the two tests; [frames] is the stack,
    of which [backtrace] reports at most as many as the array holds. *)
Definition stacktrace_size (size : Z) : Z :=
  let size := if size <? 4 then 4 else size in
  if 32 <? size then 32 else size.

Definition LogPrintStacktraceImpl (size : Z) (frames : list bytes) : list (Z * bytes) :=
  imap (fun i f => (Z.of_nat i, f)) (take (Z.to_nat (stacktrace_size size)) frames).

(** [OpenLog]: closing the log is registered for SIGINT. *)
Definition OpenLog {Cb : Type} (h : SysUtil.SignalHandler Cb) (closelog : Cb) : SysUtil.SignalHandler Cb :=
  (SysUtil.RegisterCallback h 2 closelog).2.

(** *** Static data of a scene *)

(** [NETSCENE_INIT_START]: the flag and the string that [ReadFile] fills. *)
Record static_data := mkStatic { has_init : bool; data : bytes }.

(** A constructor: before the test of the flag, about to read, done. *)
Inductive ctor_place := CTest | CRead | CDone.

#[export] Instance ctor_place_eq_dec : EqDecision ctor_place.
Proof. solve_decision. Defined.

(** Threads in the constructor of one scene class; [file] is what [fopen] finds.
    A file that cannot be read ends the process. *)
Inductive ctor_step (file : option bytes) : static_data * list ctor_place -> static_data * list ctor_place -> Prop :=
| ctor_first s l i :
    l !! i = Some CTest -> has_init s = false ->
    ctor_step file (s, l) (mkStatic true (data s), <[i := CRead]> l)
| ctor_later s l i :
    l !! i = Some CTest -> has_init s = true -> ctor_step file (s, l) (s, <[i := CDone]> l)
| ctor_read s l i out :
    l !! i = Some CRead -> SysUtil.ReadFile file (data s) = Ok (true, out) ->
    ctor_step file (s, l) (mkStatic (has_init s) out, <[i := CDone]> l).

(** One constructor, from its start to its end, with no other thread. *)
Definition scene_ctor (file : option bytes) (s : static_data) : res static_data :=
  if has_init s then Ok s
  else
    '(ok, out) ← SysUtil.ReadFile file (data s);
    _ ← assert_ ok;
    Ok (mkStatic true out).

(** The constructors of the scenes of the 404 page and of the icon are alike. *)
Definition favicon_ctor (file : option bytes) (s : static_data) : res static_data := scene_ctor file s.

(** *** Unit tests *)

(** [base64::UnitTest]: whether the decoded text is the one that was encoded. *)
Definition base64_UnitTest : res bool :=
  let s := str "this is a test for base64" in
  encode ← Base64.Encode s;
  decode ← Base64.Decode encode;
  Ok (strcmp0 s decode).

(** [printf("%x")] of a byte. *)
Definition hex_digit (d : Z) : Z := if d <? 10 then 48 + d else 87 + d.
Definition print_x (b : Z) : bytes := if b <? 16 then [hex_digit b] else [hex_digit (b / 16); hex_digit (b mod 16)].

(** [Sha1::UnitTest]: what it prints for one text. *)
Definition sha1_UnitTest (s : bytes) : res bytes :=
  '(digest, _) ← Sha1.Digest s;
  Ok (concat (print_x <$> take 20 digest)).

(** ** Lemmas *)

Record ctor_inv (content : bytes) (w : static_data * list ctor_place) : Prop := {
  ct_readers : has_init w.1 = true -> forall i j, w.2 !! i = Some CRead -> w.2 !! j = Some CRead -> i = j;
  ct_start : has_init w.1 = false -> data w.1 = [] /\ Forall (eq CTest) w.2;
  ct_reading : forall i, w.2 !! i = Some CRead -> data w.1 = [];
  ct_data : has_init w.1 = true -> data w.1 = content \/ data w.1 = [] /\ exists i, w.2 !! i = Some CRead
}.

Lemma ctor_start_inv (content : bytes) (n : nat) : ctor_inv content (mkStatic false [], replicate n CTest).
Proof.
  split; cbn; [done| | |done].
  - intros _. split; [done|]. apply Forall_forall. intros x Hx. by apply elem_of_replicate in Hx as [-> _].
  - intros i Hi. by apply lookup_replicate in Hi as [? _].
Qed.

Lemma read_turns (content : bytes) : (length content <= S (length content / SysUtil.kReadUnit) * SysUtil.kReadUnit)%nat.
Proof.
  pose proof (Nat.div_mod (length content) SysUtil.kReadUnit ltac:(done)).
  pose proof (Nat.mod_upper_bound (length content) SysUtil.kReadUnit ltac:(done)). nia.
Qed.

Lemma ReadFile_content (content out : bytes) :
  SysUtil.ReadFile (Some content) [] = Ok (true, out) -> out = content.
Proof.
  unfold SysUtil.ReadFile. rewrite SysUtil.read_loop_all; [by intros [= <-]|apply read_turns].
Qed.

Lemma lookup_insert_place (l : list ctor_place) (i j : nat) (p q : ctor_place) :
  <[i := p]> l !! j = Some q -> j = i /\ q = p \/ j <> i /\ l !! j = Some q.
Proof. intros H. apply list_lookup_insert_Some in H. naive_solver. Qed.

Lemma ctor_step_inv (content : bytes) (w w' : static_data * list ctor_place) :
  ctor_step (Some content) w w' -> ctor_inv content w -> ctor_inv content w'.
Proof.
  intros Hs [Hr H0 Hg Hd]. destruct Hs as [s l i Hi Hf|s l i Hi Hf|s l i out Hi Hread]; cbn in *.
  - destruct (H0 Hf) as [Hnil Hall]. split; cbn; try done.
    + intros _ j k Hj Hk.
      apply lookup_insert_place in Hj as [[-> _]|[_ Hj]]; [|by apply (Forall_lookup_1 _ _ _ _ Hall) in Hj].
      apply lookup_insert_place in Hk as [[-> _]|[_ Hk]]; [done|by apply (Forall_lookup_1 _ _ _ _ Hall) in Hk].
    + intros _. right. split; [done|]. exists i. by apply list_lookup_insert_eq, (lookup_lt_Some _ _ _ Hi).
  - split; cbn.
    + intros Ht j k Hj Hk. apply lookup_insert_place in Hj as [[_ ?]|[_ Hj]]; [done|].
      apply lookup_insert_place in Hk as [[_ ?]|[_ Hk]]; [done|]. by apply Hr.
    + congruence.
    + intros j Hj. apply lookup_insert_place in Hj as [[_ ?]|[_ Hj]]; [done|]. by eapply Hg.
    + intros Ht. destruct (Hd Ht) as [?|[? (j & Hj)]]; [by left|]. right. split; [done|]. exists j.
      rewrite list_lookup_insert_ne; [done|]. intros ->. congruence.
  - assert (data s = []) as E by by eapply Hg. rewrite E in Hread. apply ReadFile_content in Hread as ->.
    assert (has_init s = true) as Ht.
    { destruct (has_init s) eqn:Eh; [done|]. destruct (H0 eq_refl) as [_ Hall]. by apply (Forall_lookup_1 _ _ _ _ Hall) in Hi. }
    split; cbn.
    + intros _ j k Hj Hk. apply lookup_insert_place in Hj as [[_ ?]|[_ Hj]]; [done|].
      apply lookup_insert_place in Hk as [[_ ?]|[_ Hk]]; [done|]. by apply Hr.
    + congruence.
    + intros j Hj. apply lookup_insert_place in Hj as [[_ ?]|[Hne Hj]]; [done|]. by destruct Hne, (Hr Ht j i).
    + intros _. by left.
Qed.

(** ** Theorems *)

(** The data of a scene are read once: in any interleaving of constructors, the
    string is empty or the contents of the file, never twice the contents; it is
    the contents as soon as the constructor that found the flag clear is done,
    that is, when no constructor is reading; until then another constructor may
    be done and find the string empty. *)
Theorem scene_data_once (content : bytes) (n : nat) (s : static_data) (l : list ctor_place)
    (Hr : rtc (ctor_step (Some content)) (mkStatic false [], replicate n CTest) (s, l)) :
  (data s = [] \/ data s = content) /\
  (has_init s = true -> CRead ∉ l -> data s = content).
Proof.
  assert (Hinv : ctor_inv content (s, l)).
  { assert (H0 := ctor_start_inv content n). revert H0. generalize dependent (s, l). intros w Hr.
    induction Hr as [|w1 w2 w3 Hs _ IH]; [done|]. intros H. by eapply IH, ctor_step_inv. }
  destruct Hinv as [_ H0 _ Hd]. cbn in *. split.
  - destruct (has_init s); [destruct (Hd eq_refl) as [?|[? _]]; by auto|]. left. by apply H0.
  - intros Ht Hno. destruct (Hd Ht) as [?|[_ (i & Hi)]]; [done|]. by apply list_elem_of_lookup_2 in Hi.
Qed.

(** A scene constructed while the first one is still reading has no data. *)
Theorem scene_data_early (content : bytes) :
  exists s l, rtc (ctor_step (Some content)) (mkStatic false [], [CTest; CTest]) (s, l) /\
    l !! 1%nat = Some CDone /\ data s = [].
Proof.
  eexists _, _. split_and!.
  - eapply rtc_l; [by apply (ctor_first _ _ _ 0)|]. apply rtc_once. by apply (ctor_later _ _ _ 1).
  - done.
  - done.
Qed.

(** Constructors that follow each other leave the contents of the file, read by the
    first; without the file the first one ends the process. *)
Theorem scene_ctor_twice (content : bytes) :
  scene_ctor (Some content) (mkStatic false []) = Ok (mkStatic true content) /\
  (forall file, scene_ctor file (mkStatic true content) = Ok (mkStatic true content)) /\
  scene_ctor None (mkStatic false []) = Fault AssertFailed.
Proof.
  split_and!; [|done|done]. unfold scene_ctor. cbn [has_init data].
  destruct (SysUtil.ReadFile (Some content) []) as [[ok out]|] eqn:E; cbn [mbind res_bind].
  - assert (ok = true) as -> by (revert E; unfold SysUtil.ReadFile; destruct (SysUtil.read_loop _ _ _); [by intros [= <- _]|done]).
    by apply ReadFile_content in E as ->.
  - revert E. unfold SysUtil.ReadFile. rewrite SysUtil.read_loop_all; [done|]. apply read_turns.
Qed.

(** A stack trace has as many lines as the stack is deep, but at most the number
    asked for, which is brought between 4 and 32. *)
Theorem stacktrace_lines (size : Z) (frames : list bytes) :
  4 <= stacktrace_size size <= 32 /\ (4 <= size <= 32 -> stacktrace_size size = size) /\
  zlen (LogPrintStacktraceImpl size frames) = Z.min (stacktrace_size size) (zlen frames).
Proof.
  unfold LogPrintStacktraceImpl. rewrite length_imap, length_take.
  assert (4 <= stacktrace_size size <= 32) by (unfold stacktrace_size; cbv zeta; destruct (Z.ltb_spec size 4); cbn; [lia|]; destruct (Z.ltb_spec 32 size); lia).
  split_and!; [lia|lia| |lia]. intros Hs. unfold stacktrace_size. cbv zeta.
  destruct (Z.ltb_spec size 4); [lia|]. destruct (Z.ltb_spec 32 size); lia.
Qed.

(** An exception keeps its message when it is copied, and loses the new one when
    it is assigned. *)
Theorem exception_copies (e f : Exception) :
  what (copy_Exception e) = what e /\ what (assign_Exception e f) = what e.
Proof. done. Qed.

(** *** Examples *)

Lemma base64_UnitTest_passes : base64_UnitTest = Ok true.
Proof. by vm_compute. Qed.

Lemma sha1_UnitTest_abc : sha1_UnitTest (str "abc") = Ok (str "a9993e36476816aba3e25717850c26c9cd0d89d").
Proof. by vm_compute. Qed.

(** The program of the manual opens the log before the server registers its own
    callback for SIGINT: that one runs first, and the log is closed after it. *)
Lemma stop_before_closelog :
  fst <$> SysUtil.Handle (fun (c : nat) (l : list nat) => Ok (l ++ [c]))
    (SysUtil.RegisterCallback (OpenLog SysUtil.new_SignalHandler 0%nat) 2 1%nat).2 2 [] = Ok [1%nat; 0%nat].
Proof. done. Qed.

End Support.
