(* ===== verification/Dao.v ===== *)
(** * Database access (dao/dbitem.h, dbitem.cc, connection.cc)

    The text of the lists that mysql++ puts into its statements, and the
    connection to the database: when it is tried again, which statements are
    issued, and what becomes of the exceptions of the library. What the library
    calls do are arguments. *)
From S2P Require Import Prelude CLib StrUtil StdMap YamlUtil.

Module Dao.

(** ** Definitions *)

(** *** Rows *)

(** A [DBItem]: [table] and the lists its virtual methods populate, and the
    three strings. *)
Record DBItem := mkItem {
  table : bytes;
  PopulateFieldList : list bytes;
  PopulateValueList : list bytes;
  PopulateEqualList : smap bytes;
  field_list_str_ : bytes;
  value_list_str_ : bytes;
  equal_list_str_ : bytes
}.

Definition comma : bytes := str ",".
Definition and_ : bytes := str " and ".

(** [__Format], which appends to [_out]. *)
Definition __Format (ins : list bytes) (out : bytes) : bytes :=
  match ins with
  | [] => out
  | _ =>
      let out := fold_left (fun out it => out ++ it ++ comma) ins out in
      take (length out - 1) out
  end.

Definition equal_text (kv : smap bytes) : bytes :=
  match kv with
  | [] => []
  | _ =>
      let s := fold_left (fun s it => s ++ it.1 ++ str "=" ++ it.2 ++ and_) kv [] in
      take (length s - 5) s
  end.

Definition OnDataPrepared (r : DBItem) : DBItem :=
  mkItem (table r) (PopulateFieldList r) (PopulateValueList r) (PopulateEqualList r)
    (__Format (PopulateFieldList r) []) (__Format (PopulateValueList r) []) (equal_text (PopulateEqualList r)).

(** *** The connection *)

Definition kDatabase : bytes := str "database".
Definition kServer : bytes := str "server".
Definition kUser : bytes := str "user".
Definition kPassword : bytes := str "password".

Inductive TStatus := kNotConnected | kConnected | kBusy.

#[export] Instance TStatus_eq_dec : EqDecision TStatus.
Proof. solve_decision. Defined.

(** [heartbeat_task]: whether the thread pool was given the periodic task. *)
Record _Connection := mkConnection {
  db_ : bytes;
  usr_ : bytes;
  pwd_ : bytes;
  svr_ : bytes;
  status_ : TStatus;
  heartbeat_task : bool
}.

Definition set_status (c : _Connection) (s : TStatus) : _Connection :=
  mkConnection (db_ c) (usr_ c) (pwd_ c) (svr_ c) s (heartbeat_task c).

Definition IsConnected (c : _Connection) : bool := bool_decide (status_ c = kConnected).

(** What [connect] does: it connects, and then the statement that sets the
    names succeeds or throws; it reports a failure; it throws. *)
Inductive connect_result := Connects (set_names : bool) | Refused | ConnectThrows.

(** The arguments of [connect]. *)
Definition connect_args (c : _Connection) : bytes * bytes * bytes * bytes :=
  (cstr (db_ c), match svr_ c with [] => str "localhost" | _ => cstr (svr_ c) end, cstr (usr_ c), cstr (pwd_ c)).

Fixpoint try_loop (retry : nat) (c : _Connection) (rs : list connect_result) : Z * _Connection :=
  match retry with
  | O => (-1, c)
  | S retry' =>
      match default Refused (head rs) with
      | Connects true => (0, set_status c kConnected)
      | Connects false | ConnectThrows => (-1, c)
      | Refused => try_loop retry' (set_status c kNotConnected) (tail rs)
      end
  end.

Definition __TryConnect (c : _Connection) (rs : list connect_result) : Z * _Connection := try_loop 3 c rs.

(** What the library does when a method checks the connection: the result of
    [connected], and those of the calls of [connect]. *)
Record link := mkLink { connected : bool; connects : list connect_result }.

Definition __CheckConnection (c : _Connection) (l : link) : bool * _Connection :=
  let c := set_status c (if connected l then kConnected else kNotConnected) in
  if connected l then (true, c)
  else let '(r, c) := __TryConnect c (connects l) in (r =? 0, c).

(** What a statement does: it is executed, or an exception is thrown, of which
    two classes are caught everywhere. *)
Inductive query_result (A : Type) := Done (a : A) | BadQuery | BadConversion | OtherException.
Arguments Done {A} a.
Arguments BadQuery {A}.
Arguments BadConversion {A}.
Arguments OtherException {A}.

(** The statements, as far as the program makes them: what is handed to the
    library. *)
Inductive statement :=
| InsertStmt (table fields values : bytes)
| UpdateStmt (table set_list where_list : bytes)
| TextStmt (sql : bytes).

Definition conn_Insert (c : _Connection) (row : DBItem) (l : link) (exec : query_result Z)
    : res (Z * _Connection * list statement) :=
  let '(ok, c) := __CheckConnection c l in
  if negb ok then Ok (-1, c, [])
  else
    let q := [InsertStmt (table row) (field_list_str_ row) (value_list_str_ row)] in
    match exec with
    | Done insert_id => Ok (to_int insert_id, c, q)
    | BadQuery | BadConversion => Ok (-1, c, q)
    | OtherException => Fault (Throw MysqlppException)
    end.

Definition conn_Update (c : _Connection) (o n : DBItem) (l : link) (exec : query_result unit)
    : res (Z * _Connection * list statement) :=
  let '(ok, c) := __CheckConnection c l in
  if negb ok then Ok (-1, c, [])
  else
    let q := [UpdateStmt (table o) (equal_list_str_ n) (equal_list_str_ o)] in
    match exec with
    | Done _ => Ok (0, c, q)
    | BadQuery | BadConversion => Ok (-1, c, q)
    | OtherException => Fault (Throw MysqlppException)
    end.

(** [Query]: the rows of the result, [None] for a result that tests false; the
    columns are appended to [_res]. *)
Definition conn_Query (c : _Connection) (sql : bytes) (out : list bytes) (l : link)
    (store : query_result (option (list (list bytes)))) : Z * _Connection * list bytes * list statement :=
  let '(ok, c) := __CheckConnection c l in
  if negb ok then (-1, c, out, [])
  else
    match store with
    | Done (Some rows) => (0, c, out ++ concat rows, [TextStmt sql])
    | Done None => (0, c, out, [TextStmt sql])
    | _ => (-1, c, out, [TextStmt sql])
    end.

Definition exist_sql (row : DBItem) : bytes :=
  snprintf 512 (str "select 1 from " ++ cstr (table row) ++ str " where " ++ cstr (equal_list_str_ row) ++ str " limit 1").

Definition conn_QueryExist (c : _Connection) (row : DBItem) (exist : bool) (l : link)
    (store : query_result (option (list (list bytes)))) : Z * _Connection * bool * list statement :=
  let '(ok, c) := __CheckConnection c l in
  if negb ok then (-1, c, exist, [])
  else
    match store with
    | Done (Some rows) => (0, c, negb (bool_decide (rows = [])), [TextStmt (exist_sql row)])
    | _ => (-1, c, exist, [TextStmt (exist_sql row)])
    end.

Definition __SendHeartbeat (c : _Connection) (l : link) : bool * _Connection := __CheckConnection c l.

(** [Config]: [fopen] is the content of dbconfig.yml if there is one. *)
Definition config_file : bytes := str "/etc/unixtar/dbconfig.yml".

Definition new_Connection : _Connection := mkConnection [] [] [] [] kNotConnected false.

Definition Config (c : _Connection) (cache : list YamlUtil.YamlDescriptor) (fopen : option bytes) (fresh : nat)
    (rs : list connect_result) : res (_Connection * list YamlUtil.YamlDescriptor) :=
  '(desc, cache) ← YamlUtil.Load cache config_file fopen fresh;
  match desc with
  | None => Ok (c, cache)
  | Some d =>
      db ← YamlUtil.GetLeaf d.2 kDatabase;
      svr ← YamlUtil.GetLeaf d.2 kServer;
      usr ← YamlUtil.GetLeaf d.2 kUser;
      pwd ← YamlUtil.GetLeaf d.2 kPassword;
      let c := mkConnection (YamlUtil.To_string db).2 (YamlUtil.To_string usr).2 (YamlUtil.To_string pwd).2
                 (YamlUtil.To_string svr).2 (status_ c) (heartbeat_task c) in
      let cache := YamlUtil.Close cache d in
      let '(_, c) := __TryConnect c rs in
      Ok (mkConnection (db_ c) (usr_ c) (pwd_ c) (svr_ c) (status_ c) true, cache)
  end.

(** *** The functions of the namespace *)

Definition Insert (c : _Connection) (row : DBItem) (l : link) (exec : query_result Z)
    : res (Z * DBItem * _Connection * list statement) :=
  let row := OnDataPrepared row in
  '(r, c, q) ← conn_Insert c row l exec;
  Ok (r, row, c, q).

Definition Update (c : _Connection) (o n : DBItem) (l : link) (exec : query_result unit)
    : res (Z * _Connection * list statement) :=
  conn_Update c (OnDataPrepared o) (OnDataPrepared n) l exec.

Definition Query (c : _Connection) (sql : bytes) (out : list bytes) (l : link)
    (store : query_result (option (list (list bytes)))) : Z * _Connection * list bytes * list statement :=
  conn_Query c sql out l store.

Definition QueryExist (c : _Connection) (row : DBItem) (exist : bool) (l : link)
    (store : query_result (option (list (list bytes)))) : Z * _Connection * bool * list statement :=
  conn_QueryExist c (OnDataPrepared row) exist l store.

(** ** Lemmas *)

(** Appending each element with its separator and cutting the last separator
    joins the elements. *)
Lemma fold_sep {A : Type} (f : A -> bytes) (sep : bytes) (l : list A) (acc : bytes) :
  l <> [] -> fold_left (fun s x => s ++ f x ++ sep) l acc = acc ++ StrUtil.join sep (f <$> l) ++ sep.
Proof.
  revert acc. induction l as [|x [|y l] IH]; intros acc Hl; [done| |].
  - done.
  - transitivity (fold_left (fun s x => s ++ f x ++ sep) (y :: l) (acc ++ f x ++ sep)); [done|]. rewrite IH by done.
    cbn [fmap list_fmap]. change (StrUtil.join sep (f x :: f y :: (f <$> l))) with (f x ++ sep ++ StrUtil.join sep (f y :: (f <$> l))).
    by rewrite <- !app_assoc.
Qed.

Lemma take_sep (s sep : bytes) (n : nat) : length sep = n -> take (length (s ++ sep) - n) (s ++ sep) = s.
Proof. intros <-. rewrite length_app, Nat.add_sub. by rewrite take_app_length. Qed.

Lemma Format_join (l : list bytes) : __Format l [] = StrUtil.join comma l.
Proof.
  destruct l as [|x l]; [done|]. unfold __Format.
  rewrite (fold_sep (fun x => x)) by done. cbn [app]. rewrite list_fmap_id. by apply take_sep.
Qed.

Definition equation (kv : bytes * bytes) : bytes := kv.1 ++ str "=" ++ kv.2.

Lemma equal_join (kv : smap bytes) : equal_text kv = StrUtil.join and_ (equation <$> kv).
Proof.
  destruct kv as [|x kv]; [done|]. unfold equal_text.
  assert (forall l acc, fold_left (fun s (it : bytes * bytes) => s ++ it.1 ++ str "=" ++ it.2 ++ and_) l acc
    = fold_left (fun s it => s ++ equation it ++ and_) l acc) as ->.
  { induction l as [|y l IH]; intros acc; [done|]. cbn [fold_left]. rewrite IH. unfold equation. by rewrite <- !app_assoc. }
  rewrite fold_sep by done. cbn [app]. by apply take_sep.
Qed.

(** *** The connection *)

Lemma try_loop_status (retry : nat) (c : _Connection) (rs : list connect_result) :
  status_ c = kNotConnected ->
  let '(r, c') := try_loop retry c rs in
  (r = 0 \/ r = -1) /\ (r = 0 <-> status_ c' = kConnected) /\ connect_args c' = connect_args c.
Proof.
  revert c rs. induction retry as [|retry IH]; intros c rs Hs; cbn.
  { split_and!; [by right| |done]. split; [done|by rewrite Hs]. }
  destruct (default Refused (head rs)) as [[]| |]; cbn.
  - split_and!; [by left|done|done].
  - split_and!; [by right| |done]. split; [done|by rewrite Hs].
  - specialize (IH (set_status c kNotConnected) (tail rs) eq_refl). destruct (try_loop _ _ _) as [r c']. done.
  - split_and!; [by right| |done]. split; [done|by rewrite Hs].
Qed.

Lemma CheckConnection_status (c : _Connection) (l : link) :
  let '(ok, c') := __CheckConnection c l in ok = IsConnected c' /\ connect_args c' = connect_args c.
Proof.
  unfold __CheckConnection. destruct (connected l); [done|].
  pose proof (try_loop_status 3 (set_status c kNotConnected) (connects l) eq_refl) as H. unfold __TryConnect.
  destruct (try_loop _ _ _) as [r c']. destruct H as ([-> | ->] & Hs & Ha); (split; [|done]); unfold IsConnected.
  - symmetry. apply bool_decide_eq_true. by apply Hs.
  - symmetry. apply bool_decide_eq_false. intros E. by apply Hs in E.
Qed.

(** A method that has checked the connection goes on exactly when it is connected. *)
Lemma checked {A : Type} (c : _Connection) (l : link) (P : A -> Prop) (no yes : _Connection -> A) :
  (forall c', IsConnected c' = false -> P (no c')) -> (forall c', IsConnected c' = true -> P (yes c')) ->
  P (let '(ok, c') := __CheckConnection c l in if negb ok then no c' else yes c').
Proof.
  intros Hno Hyes. pose proof (CheckConnection_status c l) as H. destruct (__CheckConnection c l) as [ok c'].
  destruct H as [-> _]. destruct (IsConnected c') eqn:E; cbn; auto.
Qed.

(** ** Theorems *)

(** [OnDataPrepared] writes the lists that go into the statements: the fields and the values joined by
    commas, the equations of the keys in their order joined by [and]; whatever was there before. *)
Theorem OnDataPrepared_joins (r : DBItem) :
  field_list_str_ (OnDataPrepared r) = StrUtil.join comma (PopulateFieldList r) /\
  value_list_str_ (OnDataPrepared r) = StrUtil.join comma (PopulateValueList r) /\
  equal_list_str_ (OnDataPrepared r) = StrUtil.join and_ (equation <$> PopulateEqualList r) /\
  OnDataPrepared (OnDataPrepared r) = OnDataPrepared r.
Proof. cbn. rewrite !Format_join, equal_join. by split_and!. Qed.

(** [dao::Update] either issues exactly one statement, over a connection that is up, which sets the
    equations of the new row where those of the old one hold, and reports success exactly when it was
    executed; or, when the connection is down and three attempts do not bring it up, issues none and
    reports failure. Only an exception of the library that is neither a bad query nor a bad conversion
    leaves it. *)
Theorem Update_issues (c : _Connection) (o n : DBItem) (l : link) (exec : query_result unit) :
  match Update c o n l exec with
  | Ok (r, c', q) =>
      if IsConnected c'
      then q = [UpdateStmt (table o) (StrUtil.join and_ (equation <$> PopulateEqualList n))
                  (StrUtil.join and_ (equation <$> PopulateEqualList o))] /\
           (r = 0 <-> exec = Done tt)
      else q = [] /\ r = -1
  | Fault f => f = Throw MysqlppException /\ exec = OtherException
  end.
Proof.
  unfold Update, conn_Update. rewrite <- !equal_join.
  apply (checked (A := res _) c l (fun o => match o with Ok _ => _ | Fault _ => _ end)); intros c' Hc'.
  - by rewrite Hc'.
  - destruct exec as [[]| | |]; cbn; rewrite ?Hc'; done.
Qed.

(** [dao::Query] appends the columns of the rows, row by row, and fails without changing the result
    when the connection cannot be made or the library throws. *)
Theorem Query_appends (c : _Connection) (sql : bytes) (out : list bytes) (l : link)
    (store : query_result (option (list (list bytes)))) :
  let '(r, c', out', q) := Query c sql out l store in
  if IsConnected c'
  then q = [TextStmt sql] /\
       match store with
       | Done rows => r = 0 /\ out' = out ++ concat (default [] rows)
       | _ => r = -1 /\ out' = out
       end
  else q = [] /\ r = -1 /\ out' = out.
Proof.
  unfold Query, conn_Query. apply (checked c l (fun o => let '(r, c', out', q) := o in _)); intros c' Hc'.
  - by rewrite Hc'.
  - destruct store as [[rows|]| | |]; cbn; rewrite Hc'; try done. by rewrite app_nil_r.
Qed.

(** The statement of [QueryExist] is cut to 511 bytes, so that a long condition is issued without its
    end, and without the limit. *)
Theorem exist_sql_cut (row : DBItem) :
  let text := str "select 1 from " ++ cstr (table row) ++ str " where " ++ cstr (equal_list_str_ row) ++ str " limit 1" in
  exist_sql row = take 511 text /\ (exist_sql row = text <-> (length text <= 511)%nat).
Proof.
  cbv zeta. unfold exist_sql, snprintf. change (512 - 1)%nat with 511%nat. split; [done|]. split.
  - intros E. rewrite <- E, length_take. lia.
  - intros Hl. by apply take_ge.
Qed.

End Dao.
