(* ===== verification/VisitTimes.v ===== *)
(** * The visit counter (netscene/netscene_getindexpage.cc)

    The counter of the index page is read from the database when the scene is
    first made, counts the visits, and is written back by a callback when the
    process is interrupted. The database is a parameter with the behaviour of a
    table of one row. *)
From S2P Require Import Prelude CLib StrUtil StdMap NetSceneDispatcher SysUtil Dao.

Module VisitTimes.

(** ** Definitions *)

Definition kTable : bytes := str "visit_times".
Definition kFieldNameVisitTimes : bytes := str "visit_times".
Definition SIGINT : Z := 2.

(** A [DBItemVisit]. *)
Record DBItemVisit := mkVisit { visit_times : Z; has_visit_times : bool }.

Definition new_DBItemVisit : DBItemVisit := mkVisit 0 false.
Definition SetVisitTimes (v : DBItemVisit) (times : Z) : DBItemVisit := mkVisit times true.
Definition GetVisitTimes (v : DBItemVisit) : Z := visit_times v.

(** The row with its virtual methods. *)
Definition visit_item (v : DBItemVisit) : Dao.DBItem :=
  Dao.mkItem kTable
    (if has_visit_times v then [kFieldNameVisitTimes] else [])
    (if has_visit_times v then [dec (visit_times v)] else [])
    (if has_visit_times v then [(kFieldNameVisitTimes, dec (visit_times v))] else [])
    [] [] [].

Definition select_sql : bytes :=
  snprintf 256 (str "select " ++ kFieldNameVisitTimes ++ str " from " ++ kTable ++ str ";").

Section Counter.
(** The database: what the library answers to a query, and what a statement
    does to the tables. *)
Context {Db : Type}.
Context (select : Db -> bytes -> Dao.query_result (option (list (list bytes)))).
Context (update : Db -> Dao.statement -> Dao.query_result unit * Db).

(** The connection and the database, and the static members of the scene. *)
Record app := mkApp {
  conn : Dao._Connection;
  db : Db;
  visit_times_start : Z;
  visit_times_this_boot : Z;
  has_init : bool
}.

(** The callbacks of the process: that of the scene, and those of the server
    and of the log, which change other objects. *)
Inductive callback := SaveVisits | Others (id : nat).

(** The callback: the row with the old count gets the new one; the result of
    [dao::Update] is not looked at. *)
Definition save_visits (a : app) (l : Dao.link) : res app :=
  let old := visit_item (SetVisitTimes new_DBItemVisit (visit_times_start a)) in
  let neo := visit_item (SetVisitTimes new_DBItemVisit (visit_times_this_boot a)) in
  let stmt := Dao.UpdateStmt kTable (Dao.equal_text (Dao.PopulateEqualList neo)) (Dao.equal_text (Dao.PopulateEqualList old)) in
  let '(exec, d) := update (db a) stmt in
  '(_, c, q) ← Dao.Update (conn a) old neo l exec;
  Ok (mkApp c (if bool_decide (length q = 0%nat) then db a else d) (visit_times_start a) (visit_times_this_boot a) (has_init a)).

Definition run_callback (l : Dao.link) (c : callback) (a : app) : res app :=
  match c with SaveVisits => save_visits a l | Others _ => Ok a end.

(** The constructor of [NetSceneGetIndexPage]; the flag lets its body run once
    in the life of the process. *)
Definition new_NetSceneGetIndexPage (h : SysUtil.SignalHandler callback) (a : app) (l : Dao.link)
    : res (SysUtil.SignalHandler callback * app) :=
  if has_init a then Ok (h, a)
  else
    let '(db_ret, c, visits, _) := Dao.Query (conn a) select_sql [] l (select (db a) select_sql) in
    let a := mkApp c (db a) (visit_times_start a) (visit_times_this_boot a) true in
    if db_ret <? 0 then Ok (h, a)
    else
      match visits with
      | [v] =>
          n ← stoull v;
          let h := (SysUtil.RegisterCallback h SIGINT SaveVisits).2 in
          Ok (h, mkApp (conn a) (db a) n n (has_init a))
      | _ => Ok (h, a)
      end.

(** A visit of the index page. *)
Definition visit (a : app) (input : bytes) : app :=
  let '(_, n) := NetSceneDispatcher.DoScene NetSceneDispatcher.NetSceneGetIndexPage input (visit_times_this_boot a) in
  mkApp (conn a) (db a) (visit_times_start a) n (has_init a).

(** ** Lemmas *)

(** What the table of visits promises: the query returns its count in decimal,
    and the update of the row with the old count stores the new one. *)
Context (count : Db -> Z).
Hypothesis count_range : forall d, 0 <= count d < 2 ^ 64.
Hypothesis select_count : forall d, select d select_sql = Dao.Done (Some [[dec (count d)]]).
Hypothesis update_count : forall d n, 0 <= n < 2 ^ 64 ->
  let '(r, d') := update d (Dao.UpdateStmt kTable (kFieldNameVisitTimes ++ str "=" ++ dec n)
                              (kFieldNameVisitTimes ++ str "=" ++ dec (count d))) in
  r = Dao.Done tt /\ count d' = n.

(** The database can be reached: it is connected or one of three attempts succeeds. *)
Definition reachable (c : Dao._Connection) (l : Dao.link) : Prop := (Dao.__CheckConnection c l).1 = true.

Lemma boot_reads h a l :
  has_init a = false -> reachable (conn a) l ->
  new_NetSceneGetIndexPage h a l =
    Ok ((SysUtil.RegisterCallback h SIGINT SaveVisits).2,
        mkApp (Dao.__CheckConnection (conn a) l).2 (db a) (count (db a)) (count (db a)) true).
Proof.
  intros Hi Hr. unfold new_NetSceneGetIndexPage. rewrite Hi. unfold Dao.Query, Dao.conn_Query. unfold reachable in Hr.
  destruct (Dao.__CheckConnection (conn a) l) as [ok c]. cbn in Hr. subst ok. cbn [negb]. rewrite select_count.
  cbn -[dec]. rewrite stoull_dec by apply count_range. done.
Qed.

Lemma visits_count inputs a :
  0 <= visit_times_this_boot a < 2 ^ 64 ->
  foldl visit a inputs = mkApp (conn a) (db a) (visit_times_start a) (wrap64 (visit_times_this_boot a + zlen inputs)) (has_init a).
Proof.
  revert a. induction inputs as [|i inputs IH]; intros a Ha; cbn [foldl].
  { cbn [length]. rewrite Z.add_0_r, wrap64_id by done. by destruct a. }
  rewrite IH by apply wrap64_range. cbn -[wrap64]. f_equal. unfold add64, wrap64. rewrite Zplus_mod_idemp_l. f_equal. lia.
Qed.

Lemma save_stores a l :
  0 <= visit_times_this_boot a < 2 ^ 64 -> visit_times_start a = count (db a) -> reachable (conn a) l ->
  exists d c, save_visits a l = Ok (mkApp c d (visit_times_start a) (visit_times_this_boot a) (has_init a)) /\
    count d = visit_times_this_boot a.
Proof.
  intros Hn Hs Hr. unfold save_visits. rewrite !Dao.equal_join. cbn -[dec kTable kFieldNameVisitTimes].
  rewrite Hs. pose proof (update_count (db a) _ Hn) as Hu. unfold Dao.equation. cbn [fst snd].
  destruct (update _ _) as [r d]. destruct Hu as [-> Hd]. unfold Dao.Update, Dao.conn_Update, reachable in *.
  destruct (Dao.__CheckConnection (conn a) l) as [ok c]. cbn in Hr. subst ok. cbn. by eexists d, c.
Qed.

Lemma others_keep l cs a : SaveVisits ∉ cs -> SysUtil.handle_loop (run_callback l) cs a = Ok a.
Proof.
  induction cs as [|[|id] cs IH]; intros Hn; [done|by destruct Hn; apply list_elem_of_here|]. cbn. apply IH.
  intros H. apply Hn. by apply list_elem_of_further.
Qed.

Lemma interrupted_stores h w a l :
  SysUtil.holds h w -> SaveVisits ∉ w SIGINT -> 0 <= visit_times_this_boot a < 2 ^ 64 ->
  visit_times_start a = count (db a) -> reachable (conn a) l ->
  exists a' h', SysUtil.deliver (run_callback l) (SysUtil.RegisterCallback h SIGINT SaveVisits).2 SIGINT a = Ok (a', h') /\
    count (db a') = visit_times_this_boot a.
Proof.
  intros Hh Hw Hn Hs Hr. pose proof (SysUtil.register_holds h w SIGINT SaveVisits Hh) as Hh'.
  rewrite (SysUtil.deliver_runs (run_callback l) _ _ SIGINT a (Hh' ltac:(unfold SIGINT; lia))).
  destruct (decide (SIGINT = SIGINT)); [|done]. cbn [SysUtil.handle_loop run_callback].
  destruct (save_stores a l Hn Hs Hr) as (d & c & -> & Hd). cbn [mbind res_bind]. rewrite others_keep by done.
  cbn [mbind res_bind]. by eexists _, _.
Qed.

End Counter.

(** ** Theorem *)


(** A table that holds one number and reads its statements. *)
Definition one_select (z : Z) (_ : bytes) : Dao.query_result (option (list (list bytes))) := Dao.Done (Some [[dec (wrap64 z)]]).

Definition one_update (z : Z) (s : Dao.statement) : Dao.query_result unit * Z :=
  match s with
  | Dao.UpdateStmt _ set_list where_list =>
      if bool_decide (where_list = kFieldNameVisitTimes ++ str "=" ++ dec (wrap64 z))
      then (Dao.Done tt, strtoul (drop 12 set_list)) else (Dao.Done tt, z)
  | _ => (Dao.BadQuery, z)
  end.


End VisitTimes.
