(* ===== verification/MessageQueue.v ===== *)
(** * The blocking queue between threads (utils/messagequeue.h)

    [ThreadSafeDeque] is a bounded double-ended queue protected by a mutex,
    on which threads wait with a condition variable. Each method runs under
    the lock except while it waits, so a method is one step, or a step that
    goes to sleep and a step that finishes after a wake-up. The steps of any
    number of threads interleave freely. *)
From S2P Require Import Prelude.

Module MessageQueue.

Section Queue.
Context {T : Type}.

(** ** Definitions *)

Record ThreadSafeDeque := mkQueue {
  max_size_ : Z;
  container_ : list T;
  terminated_ : bool
}.

Definition new_queue (max_size : Z) : ThreadSafeDeque := mkQueue max_size [] false.

(** The part of each method that runs under the lock, [cond_] apart. *)
Definition push_front (q : ThreadSafeDeque) (v : T) : bool * ThreadSafeDeque :=
  if max_size_ q <? zlen (container_ q) then (false, q)
  else (true, mkQueue (max_size_ q) (v :: container_ q) (terminated_ q)).

Definition push_back (q : ThreadSafeDeque) (v : T) : bool * ThreadSafeDeque :=
  if max_size_ q <? zlen (container_ q) then (false, q)
  else (true, mkQueue (max_size_ q) (container_ q ++ [v]) (terminated_ q)).

(** The methods that read return the value they assign to [_t]; [None] is [false]. *)
Definition pop_front_to (q : ThreadSafeDeque) : option T * ThreadSafeDeque :=
  match container_ q with
  | v :: c' => if terminated_ q then (None, q) else (Some v, mkQueue (max_size_ q) c' (terminated_ q))
  | [] => (None, q)
  end.

Definition pop_front (q : ThreadSafeDeque) : bool * ThreadSafeDeque :=
  match container_ q with
  | _ :: c' => if terminated_ q then (false, q) else (true, mkQueue (max_size_ q) c' (terminated_ q))
  | [] => (false, q)
  end.

Definition pop_back_to (q : ThreadSafeDeque) : option T * ThreadSafeDeque :=
  match last (container_ q) with
  | Some v =>
      if terminated_ q then (None, q)
      else (Some v, mkQueue (max_size_ q) (removelast (container_ q)) (terminated_ q))
  | None => (None, q)
  end.

Definition pop_back (q : ThreadSafeDeque) : bool * ThreadSafeDeque :=
  match container_ q with
  | _ :: _ =>
      if terminated_ q then (false, q)
      else (true, mkQueue (max_size_ q) (removelast (container_ q)) (terminated_ q))
  | [] => (false, q)
  end.

Definition front (q : ThreadSafeDeque) : option T :=
  if terminated_ q then None else head (container_ q).

Definition back (q : ThreadSafeDeque) : option T :=
  if terminated_ q then None else last (container_ q).

Definition get (q : ThreadSafeDeque) (pos : nat) : option T :=
  if (zlen (container_ q) <=? Z.of_nat pos) || terminated_ q then None else container_ q !! pos.

Definition clear (q : ThreadSafeDeque) : ThreadSafeDeque :=
  mkQueue (max_size_ q) [] (terminated_ q).

Definition Terminate (q : ThreadSafeDeque) : ThreadSafeDeque :=
  mkQueue (max_size_ q) (container_ q) true.

(** The predicate of [__WaitSizeGreaterThan]. *)
Definition wait_done (q : ThreadSafeDeque) (than : nat) : bool :=
  (Z.of_nat than <? zlen (container_ q)) || terminated_ q.

(** A call of a method that may wait. *)
Inductive request :=
| PopFront
| PopBack
| PopFrontTo
| PopBackTo
| Front
| Back
| Get (pos : nat).

Definition threshold (r : request) : nat := match r with Get pos => pos | _ => 0 end.

(** What the call returns, a value for the methods that assign one. *)
Inductive reply :=
| ReplyBool (b : bool)
| ReplyVal (o : option T).

(** The rest of the call, once it holds the lock and no longer waits. *)
Definition finish (r : request) (q : ThreadSafeDeque) : reply * ThreadSafeDeque :=
  match r with
  | PopFront => let '(b, q') := pop_front q in (ReplyBool b, q')
  | PopBack => let '(b, q') := pop_back q in (ReplyBool b, q')
  | PopFrontTo => let '(o, q') := pop_front_to q in (ReplyVal o, q')
  | PopBackTo => let '(o, q') := pop_back_to q in (ReplyVal o, q')
  | Front => (ReplyVal (front q), q)
  | Back => (ReplyVal (back q), q)
  | Get pos => (ReplyVal (get q pos), q)
  end.

(** ** The threads around a queue *)

(** A thread inside [cond_.wait] or [cond_.wait_for]. *)
Record waiter := mkWaiter { w_tid : nat; w_req : request; w_timed : bool }.

(** The queue, the threads asleep on [cond_], and the threads a notification
    has woken that have not got the lock back yet. *)
Record system := mkSystem {
  queue : ThreadSafeDeque;
  asleep : list waiter;
  woken : list waiter
}.

Inductive event :=
| Pushed (back notify : bool) (v : T) (ok : bool)
| Slept (w : waiter)
| Returned (tid : nat) (r : request) (rep : reply)
| Moved
| Cleared
| Terminated.

(** [notify_one] wakes one sleeping thread, whichever, or none if none sleeps. *)
Inductive notify_one : list waiter -> list waiter -> list waiter -> list waiter -> Prop :=
| notify_none wk : notify_one [] wk [] wk
| notify_some a w b wk : notify_one (a ++ w :: b) wk (a ++ b) (w :: wk).

Inductive step : system -> event -> system -> Prop :=
| step_push (bk nf : bool) q al wk v q' al' wk' :
    (if bk then push_back q v else push_front q v) = (true, q') ->
    (if nf then notify_one al wk al' wk' else al' = al /\ wk' = wk) ->
    step (mkSystem q al wk) (Pushed bk nf v true) (mkSystem q' al' wk')
| step_push_full (bk nf : bool) q al wk v q' :
    (if bk then push_back q v else push_front q v) = (false, q') ->
    step (mkSystem q al wk) (Pushed bk nf v false) (mkSystem q' al wk)
| step_call tid r (wait : bool) q al wk rep q' :
    wait = false \/ wait_done q (threshold r) = true -> finish r q = (rep, q') ->
    step (mkSystem q al wk) (Returned tid r rep) (mkSystem q' al wk)
| step_sleep tid r timed q al wk :
    wait_done q (threshold r) = false ->
    step (mkSystem q al wk) (Slept (mkWaiter tid r timed)) (mkSystem q (mkWaiter tid r timed :: al) wk)
| step_wake a w b q al rep q' :
    wait_done q (threshold (w_req w)) = true -> finish (w_req w) q = (rep, q') ->
    step (mkSystem q al (a ++ w :: b)) (Returned (w_tid w) (w_req w) rep) (mkSystem q' al (a ++ b))
| step_wake_again a w b q al :
    wait_done q (threshold (w_req w)) = false ->
    step (mkSystem q al (a ++ w :: b)) (Slept w) (mkSystem q (w :: al) (a ++ b))
| step_timeout a w b q wk rep q' :
    w_timed w = true -> finish (w_req w) q = (rep, q') ->
    step (mkSystem q (a ++ w :: b) wk) (Returned (w_tid w) (w_req w) rep) (mkSystem q' (a ++ b) wk)
| step_spurious a w b q wk :
    step (mkSystem q (a ++ w :: b) wk) Moved (mkSystem q (a ++ b) (w :: wk))
| step_clear q al wk : step (mkSystem q al wk) Cleared (mkSystem (clear q) al wk)
| step_terminate q al wk :
    step (mkSystem q al wk) Terminated (mkSystem (Terminate q) [] (al ++ wk)).

(** A run and its events, in order. *)
Inductive run : system -> list event -> system -> Prop :=
| run_nil s : run s [] s
| run_snoc s es s1 e s2 : run s es s1 -> step s1 e s2 -> run s (es ++ [e]) s2.

Definition initial (max_size : Z) : system := mkSystem (new_queue max_size) [] [].

(** ** Specifications *)

(** A client that only pushes at the back and pops at the front. *)
Definition fifo_event (e : event) : Prop :=
  match e with
  | Pushed bk _ _ _ => bk = true
  | Returned _ r _ => r = PopFrontTo
  | Cleared => False
  | _ => True
  end.

(** The values that entered and left, in order. *)
Definition pushed (es : list event) : list T :=
  omap (fun e => match e with Pushed _ _ v true => Some v | _ => None end) es.
Definition popped (es : list event) : list T :=
  omap (fun e => match e with Returned _ _ (ReplyVal (Some v)) => Some v | _ => None end) es.

(** A client whose pushes notify and whose waiting calls all consume. *)
Definition consumes (r : request) : Prop :=
  match r with PopFront | PopBack | PopFrontTo | PopBackTo => True | _ => False end.

Definition consumer_event (e : event) : Prop :=
  match e with
  | Pushed _ nf _ _ => nf = true
  | Slept w => consumes (w_req w)
  | Returned _ r _ => consumes r
  | _ => True
  end.

Definition negative (rep : reply) : Prop := rep = ReplyBool false \/ rep = ReplyVal None.

(** ** Lemmas *)

Lemma push_cases (bk : bool) (q : ThreadSafeDeque) (v : T) (ok : bool) (q' : ThreadSafeDeque) :
  (if bk then push_back q v else push_front q v) = (ok, q') ->
  max_size_ q' = max_size_ q /\ terminated_ q' = terminated_ q /\
  (ok = true -> zlen (container_ q) <= max_size_ q /\
     container_ q' = if bk then container_ q ++ [v] else v :: container_ q) /\
  (ok = false -> q' = q).
Proof.
  unfold push_back, push_front.
  destruct bk, (Z.ltb_spec (max_size_ q) (zlen (container_ q))); intros [= <- <-]; naive_solver.
Qed.

Lemma removelast_length (l : list T) : length (removelast l) = Nat.pred (length l).
Proof.
  induction l as [|x [|y l] IH]; [done|done|]. cbn [removelast length] in *. rewrite IH. done.
Qed.

(** A finished call leaves the bound and the flag alone, and removes at most
    one element: exactly one when it consumes and there is one to take. *)
Lemma finish_facts (r : request) (q : ThreadSafeDeque) (rep : reply) (q' : ThreadSafeDeque) :
  finish r q = (rep, q') ->
  max_size_ q' = max_size_ q /\ terminated_ q' = terminated_ q /\
  (length (container_ q') <= length (container_ q))%nat /\
  (consumes r -> terminated_ q = false -> length (container_ q') = Nat.pred (length (container_ q))).
Proof.
  destruct r; cbn [finish consumes]; unfold pop_front, pop_back, pop_front_to, pop_back_to;
    try (intros [= <- <-]; split_and!; done).
  - destruct (container_ q) as [|v c] eqn:E, (terminated_ q) eqn:Et; intros [= <- <-];
      cbn [container_ max_size_ terminated_]; rewrite ?E; cbn; split_and!; done || lia.
  - pose proof (removelast_length (container_ q)) as Hr.
    destruct (container_ q) as [|v c] eqn:E, (terminated_ q) eqn:Et; intros [= <- <-];
      cbn [container_ max_size_ terminated_]; rewrite ?E; cbn in *; split_and!; done || lia.
  - destruct (container_ q) as [|v c] eqn:E, (terminated_ q) eqn:Et; intros [= <- <-];
      cbn [container_ max_size_ terminated_]; rewrite ?E; cbn; split_and!; done || lia.
  - destruct (last (container_ q)) as [v|] eqn:E, (terminated_ q) eqn:Et; intros [= <- <-];
      cbn [container_ max_size_ terminated_]; rewrite ?removelast_length; try apply last_None in E;
      rewrite ?E; cbn; split_and!; done || lia.
Qed.

Lemma wait_done_false (q : ThreadSafeDeque) (n : nat) :
  wait_done q n = false -> zlen (container_ q) <= Z.of_nat n /\ terminated_ q = false.
Proof. unfold wait_done. rewrite orb_false_iff, Z.ltb_ge. done. Qed.

Lemma run_inv (P : system -> Prop) (ok : event -> Prop) (s0 : system) (es : list event) (s : system) :
  P s0 -> (forall s1 e s2, P s1 -> ok e -> step s1 e s2 -> P s2) ->
  run s0 es s -> Forall ok es -> P s.
Proof.
  intros H0 Hstep Hrun. induction Hrun as [s|s es s1 e s2 Hr IH Hs]; intros Hok; [done|].
  apply Forall_app in Hok as [H1 H2]. inversion H2; subst. eauto.
Qed.

Lemma step_size (s1 : system) (e : event) (s2 : system) :
  step s1 e s2 ->
  max_size_ (queue s2) = max_size_ (queue s1) /\
  (zlen (container_ (queue s1)) <= Z.max 0 (max_size_ (queue s1) + 1) ->
   zlen (container_ (queue s2)) <= Z.max 0 (max_size_ (queue s1) + 1)).
Proof.
  intros Hs. destruct Hs; cbn [queue]; try (split; [done|simpl; lia]).
  - destruct (push_cases bk q v true q') as (? & ? & Hc & ?); [done|].
    destruct (Hc eq_refl) as [? ->]. split; [done|]. intros _.
    destruct bk; rewrite ?length_app; simpl; lia.
  - destruct (push_cases bk q v false q') as (? & ? & ? & Hc); [done|]. by rewrite (Hc eq_refl).
  - destruct (finish_facts r q rep q') as (? & ? & ? & ?); [done|]. split; [done|lia].
  - destruct (finish_facts (w_req w) q rep q') as (? & ? & ? & ?); [done|]. split; [done|lia].
  - destruct (finish_facts (w_req w) q rep q') as (? & ? & ? & ?); [done|]. split; [done|lia].
Qed.

(** No thread sleeps on a terminated queue. *)
Definition term_inv (s : system) : Prop := terminated_ (queue s) = true -> asleep s = [].

Lemma step_term (s1 : system) (e : event) (s2 : system) : term_inv s1 -> step s1 e s2 -> term_inv s2.
Proof.
  unfold term_inv. intros H Hs. destruct Hs; cbn [queue asleep] in *; try done.
  - destruct (push_cases bk q v true q') as (? & Ht & _); [done|]. rewrite Ht.
    intros E. specialize (H E). subst al. destruct nf; [|by destruct H1 as [-> _]].
    inversion H1 as [|? ? ? ? E']; [done|]. by destruct a.
  - destruct (push_cases bk q v false q') as (? & Ht & _); [done|]. by rewrite Ht.
  - destruct (finish_facts r q rep q') as (_ & -> & _); done.
  - apply wait_done_false in H0 as [_ H0]. congruence.
  - destruct (finish_facts (w_req w) q rep q') as (_ & -> & _); done.
  - apply wait_done_false in H0 as [_ H0]. congruence.
  - destruct (finish_facts (w_req w) q rep q') as (_ & -> & _); [done|]. intros E. specialize (H E).
    by destruct a.
  - intros E. specialize (H E). by destruct a.
Qed.

(** As long as a thread sleeps, enough woken threads are on their way to
    take every element. *)
Definition wakeup_inv (s : system) : Prop :=
  term_inv s /\
  (asleep s <> [] -> (length (container_ (queue s)) <= length (woken s))%nat) /\
  Forall (fun w => consumes (w_req w)) (asleep s ++ woken s).

Lemma step_wakeup (s1 : system) (e : event) (s2 : system) :
  wakeup_inv s1 -> consumer_event e -> step s1 e s2 -> wakeup_inv s2.
Proof.
  intros (Ht & Hi & Hw) He Hs. split; [by eapply step_term|].
  pose proof Ht as Ht'. unfold term_inv in Ht.
  destruct Hs as [bk nf q al wk v q' al' wk' Hp Hn|bk nf q al wk v q' Hp|tid r wait q al wk rep q' Hd Hf
    |tid r timed q al wk Hd|a w b q al rep q' Hd Hf|a w b q al Hd|a w b q wk rep q' Hd Hf|a w b q wk
    |q al wk|q al wk]; cbn [queue asleep woken consumer_event] in *.
  - subst nf. destruct (push_cases bk q v true q') as (_ & _ & Hc & _); [done|].
    destruct (Hc eq_refl) as [_ ->].
    destruct Hn as [wk|a w b wk]; [done|]. split.
    + intros _. specialize (Hi ltac:(by destruct a)).
      destruct bk; rewrite ?length_app; simpl; lia.
    + rewrite !Forall_app in *. rewrite Forall_cons in *. naive_solver.
  - destruct (push_cases bk q v false q') as (_ & _ & _ & Hc); [done|]. by rewrite (Hc eq_refl).
  - destruct (finish_facts r q rep q') as (_ & _ & Hl & _); [done|]. split; [|done].
    intros Hne. specialize (Hi Hne). lia.
  - apply wait_done_false in Hd as [Hd _]. assert (threshold r = 0%nat) by (by destruct r).
    split; [intros _; lia|]. by constructor.
  - destruct (finish_facts (w_req w) q rep q') as (_ & _ & Hl & Hc); [done|].
    rewrite !Forall_app, Forall_cons in *. split; [|naive_solver]. intros Hne. specialize (Hi Hne).
    rewrite !length_app in *. cbn [length] in Hi.
    destruct (terminated_ q) eqn:E; [by specialize (Ht eq_refl)|].
    rewrite Hc by done. lia.
  - apply wait_done_false in Hd as [Hd _]. assert (threshold (w_req w) = 0%nat) by (by destruct (w_req w)).
    split; [intros _; lia|]. rewrite !Forall_app, !Forall_cons, ?Forall_app in *. naive_solver.
  - destruct (finish_facts (w_req w) q rep q') as (_ & _ & Hl & _); [done|].
    split; [|rewrite !Forall_app, Forall_cons in *; naive_solver].
    intros _. specialize (Hi ltac:(by destruct a)). lia.
  - split; [|rewrite !Forall_app, ?Forall_cons in *; naive_solver].
    intros _. specialize (Hi ltac:(by destruct a)). simpl. lia.
  - split; [simpl; lia|done].
  - split; [done|]. by rewrite app_nil_l.
Qed.

Lemma fifo_step (s1 : system) (e : event) (s2 : system) (ins outs : list T) :
  fifo_event e -> step s1 e s2 -> ins = outs ++ container_ (queue s1) ->
  ins ++ pushed [e] = (outs ++ popped [e]) ++ container_ (queue s2).
Proof.
  intros He Hs ->. unfold pushed, popped.
  destruct Hs as [bk nf q al wk v q' al' wk' Hp Hn|bk nf q al wk v q' Hp|tid r wait q al wk rep q' Hd Hf
    |tid r timed q al wk Hd|a w b q al rep q' Hd Hf|a w b q al Hd|a w b q wk rep q' Hd Hf|a w b q wk
    |q al wk|q al wk]; cbn [queue fifo_event omap list_omap] in *; rewrite ?app_nil_r; try done.
  - subst bk. destruct (push_cases true q v true q') as (_ & _ & Hc & _); [done|].
    destruct (Hc eq_refl) as [_ ->]. by rewrite app_assoc.
  - destruct (push_cases bk q v false q') as (_ & _ & _ & Hc); [done|]. by rewrite (Hc eq_refl).
  - subst r. cbn in Hf. unfold pop_front_to in Hf.
    destruct (container_ q) as [|v c] eqn:E, (terminated_ q); simplify_eq; simpl; rewrite ?E, ?app_nil_r; try done.
    by rewrite <- app_assoc.
  - rewrite He in Hf. cbn in Hf. unfold pop_front_to in Hf.
    destruct (container_ q) as [|v c] eqn:E, (terminated_ q); simplify_eq; simpl; rewrite ?E, ?app_nil_r; try done.
    by rewrite <- app_assoc.
  - rewrite He in Hf. cbn in Hf. unfold pop_front_to in Hf.
    destruct (container_ q) as [|v c] eqn:E, (terminated_ q); simplify_eq; simpl; rewrite ?E, ?app_nil_r; try done.
    by rewrite <- app_assoc.
Qed.

Lemma finish_terminated (r : request) (q : ThreadSafeDeque) :
  terminated_ q = true -> exists rep, finish r q = (rep, q) /\ negative rep.
Proof.
  intros Ht. unfold negative.
  destruct r; simpl; unfold pop_front, pop_back, pop_front_to, pop_back_to, front, back, get;
    rewrite Ht, ?orb_true_r; repeat case_match; simplify_eq; eauto.
Qed.

End Queue.

Arguments ThreadSafeDeque T : clear implicits.
Arguments event T : clear implicits.
Arguments system T : clear implicits.
Arguments reply T : clear implicits.

(** ** Properties *)

(** C19: in every run of any number of producers that push at the back and consumers that pop at
    the front, waiting or not, with time-outs, spurious wake-ups and termination, the values
    popped so far followed by the values in the queue are the values pushed so far, in order:
    nothing is lost, duplicated or reordered. *)
Theorem queue_fifo {T : Type} (max_size : Z) (es : list (event T)) (s : system T)
    (Hrun : run (initial max_size) es s) (Hes : Forall fifo_event es) :
  pushed es = popped es ++ container_ (queue s).
Proof.
  remember (initial max_size) as s0 eqn:E0. induction Hrun as [s|s es s1 e s2 Hr IH Hs]; [by subst|].
  apply Forall_app in Hes as [H1 H2]. inversion H2; subst.
  unfold pushed, popped. rewrite !omap_app. eapply fifo_step; eauto.
Qed.

Lemma queue_fifo_witness :
  let w := mkWaiter 1 PopFrontTo false in
  let es := [Slept w; Pushed true true 7 true; Pushed true true 8 true;
             Returned 1 PopFrontTo (ReplyVal (Some 7))] in
  pushed es = popped es ++ [8].
Proof.
  intros w es.
  refine (queue_fifo 10 es (mkSystem (mkQueue 10 [8] false) [] []) _ _).
  - apply (run_snoc _ [_; _; _] (mkSystem (mkQueue 10 [7; 8] false) [] [w])).
    2: apply (step_wake [] w []); done.
    apply (run_snoc _ [_; _] (mkSystem (mkQueue 10 [7] false) [] [w])).
    2: by eapply step_push; [|constructor].
    apply (run_snoc _ [_] (mkSystem (mkQueue 10 [] false) [w] [])).
    2: by eapply step_push; [|apply (notify_some [] w [])].
    apply (run_snoc _ [] (initial 10)); [constructor|by apply step_sleep].
  - by repeat constructor.
Defined.

(** The queue never holds more than one element above [max_size_], whatever the clients do. *)
Theorem queue_bounded {T : Type} (max_size : Z) (es : list (event T)) (s : system T)
    (Hrun : run (initial max_size) es s) (Hmax : 0 <= max_size) :
  zlen (container_ (queue s)) <= max_size + 1.
Proof.
  enough (max_size_ (queue s) = max_size /\ zlen (container_ (queue s)) <= max_size + 1) by naive_solver.
  apply (run_inv (fun s => max_size_ (queue s) = max_size /\ zlen (container_ (queue s)) <= max_size + 1)
    (fun _ => True) (initial max_size) es s); [simpl; lia| |done|by apply Forall_true].
  intros s1 e s2 [Hm Hl] _ [Hm' Hl']%step_size. rewrite Hm in *. split; [done|]. lia.
Qed.

Lemma queue_bounded_witness : zlen [1; 2] <= 1 + 1.
Proof.
  refine (queue_bounded 1 [Pushed true true 1 true; Pushed true true 2 true]
            (mkSystem (mkQueue 1 [1; 2] false) [] []) _ _); [|lia].
  apply (run_snoc _ [_] (mkSystem (mkQueue 1 [1] false) [] [])).
  2: by eapply step_push; [|constructor].
  apply (run_snoc _ [] (initial 1)); [constructor|by eapply step_push; [|constructor]].
Defined.

(** C18: no lost wake-up. When every push notifies and every waiting call consumes, then at any
    moment at which some thread is asleep there are at least as many woken threads on their
    way as there are elements, so no element waits for a thread that nobody wakes. *)
Theorem no_lost_wakeup {T : Type} (max_size : Z) (es : list (event T)) (s : system T)
    (Hrun : run (initial max_size) es s) (Hes : Forall consumer_event es)
    (Hasleep : asleep s <> []) :
  (length (container_ (queue s)) <= length (woken s))%nat.
Proof.
  enough (wakeup_inv s) as (_ & Hi & _) by auto.
  apply (run_inv wakeup_inv consumer_event (initial max_size) es s); try done.
  intros s1 e s2 ? ? ?. by eapply step_wakeup.
Qed.

Lemma no_lost_wakeup_witness : (1 <= 1)%nat.
Proof.
  refine (no_lost_wakeup 10 [Slept (mkWaiter 1 PopFrontTo false); Slept (mkWaiter 2 PopFrontTo false);
                             Pushed true true 7 true]
            (mkSystem (mkQueue 10 [7] false) [mkWaiter 1 PopFrontTo false] [mkWaiter 2 PopFrontTo false])
            _ _ _); [|by repeat constructor|done].
  apply (run_snoc _ [_; _] (mkSystem (mkQueue 10 [] false)
    [mkWaiter 2 PopFrontTo false; mkWaiter 1 PopFrontTo false] [])).
  2: by eapply step_push; [|apply (notify_some [] (mkWaiter 2 PopFrontTo false) [mkWaiter 1 PopFrontTo false])].
  apply (run_snoc _ [_] (mkSystem (mkQueue 10 [] false) [mkWaiter 1 PopFrontTo false] [])).
  2: by apply step_sleep.
  apply (run_snoc _ [] (initial 10)); [constructor|by apply step_sleep].
Defined.

(** Once the queue is terminated no thread sleeps on it, and every call returns at once
    with a negative answer and takes nothing out. *)
Theorem terminated_releases {T : Type} (max_size : Z) (es : list (event T)) (s : system T)
    (Hrun : run (initial max_size) es s) (Hterm : terminated_ (queue s) = true) :
  asleep s = [] /\
  forall r, wait_done (queue s) (threshold r) = true /\
            exists rep, finish r (queue s) = (rep, queue s) /\ negative rep.
Proof.
  split.
  - enough (term_inv s) by auto.
    apply (run_inv term_inv (fun _ => True) (initial max_size) es s); [done| |done|by apply Forall_true].
    intros s1 e s2 ? _ ?. by eapply step_term.
  - intros r. split; [unfold wait_done; by rewrite Hterm, orb_true_r|by apply finish_terminated].
Qed.

Lemma terminated_releases_witness :
  asleep (mkSystem (mkQueue 10 [7] true) [] [mkWaiter 1 Front false]) = [] /\
  forall r, wait_done (mkQueue 10 [7] true) (threshold r) = true /\
            exists rep, finish r (mkQueue 10 [7] true) = (rep, mkQueue 10 [7] true) /\ negative rep.
Proof.
  refine (terminated_releases 10 [Slept (mkWaiter 1 Front false); Pushed false false 7 true; Terminated]
            (mkSystem (mkQueue 10 [7] true) [] [mkWaiter 1 Front false]) _ _); [|done].
  apply (run_snoc _ [_; _] (mkSystem (mkQueue 10 [7] false) [mkWaiter 1 Front false] [])).
  2: apply (step_terminate (mkQueue 10 [7] false) [mkWaiter 1 Front false] []).
  apply (run_snoc _ [_] (mkSystem (mkQueue 10 [] false) [mkWaiter 1 Front false] [])).
  2: by eapply step_push.
  apply (run_snoc _ [] (initial 10)); [constructor|by apply step_sleep].
Defined.

End MessageQueue.
