(* ===== verification/UnixSocket.v ===== *)
(** * Sockets (socket/unixsocket.h, socket/unixsocket.cc)

    [Socket::Receive] and [Socket::Send] around the system calls [read] and
    [write], whose results are arguments of the model. [Receive] appends
    exactly the bytes read to the buffer; successive [Send] calls write a
    buffer once, in order, whatever part of it each call gets rid of. *)
From S2P Require Import Prelude CLib AutoBuffer.

Module UnixSocket.
Import AutoBuffer.

(** ** Definitions *)

Definition INVALID_SOCKET : Z := -1.
Definition EAGAIN : Z := 11.
Definition EWOULDBLOCK : Z := 11.
Definition EPIPE : Z := 32.
Definition IS_EAGAIN (errno : Z) : bool := (errno =? EAGAIN) || (errno =? EWOULDBLOCK).

Inductive sock_type := SOCK_STREAM | SOCK_DGRAM | SOCK_OTHER.

Inductive sa_family := AF_INET | AF_INET6 | AF_OTHER.

Record Socket := mkSocket {
  fd_ : Z;
  errno_ : Z;
  is_eagain_ : bool;
  is_connected_ : bool;
  type_ : sock_type;
  nonblocking_ : bool
}.

Definition kBufferSize : Z := 4096.

Definition new_Socket (fd : Z) : Socket := mkSocket fd 0 false false SOCK_STREAM true.

Definition FD (s : Socket) : Z := fd_ s.
Definition IsEAgain (s : Socket) : bool := is_eagain_ s.
Definition IsTcp (s : Socket) : bool := match type_ s with SOCK_STREAM => true | _ => false end.
Definition IsUdp (s : Socket) : bool := match type_ s with SOCK_DGRAM => true | _ => false end.
Definition IsNonblocking (s : Socket) : bool := nonblocking_ s.

Definition Set_ (s : Socket) (fd : Z) : res Socket :=
  _ ← assert_ (fd_ s <? 0);
  Ok (if 0 <? fd then mkSocket fd (errno_ s) (is_eagain_ s) (is_connected_ s) (type_ s) (nonblocking_ s)
      else s).

Definition SetConnected (s : Socket) (c : bool) : Socket :=
  mkSocket (fd_ s) (errno_ s) (is_eagain_ s) c (type_ s) (nonblocking_ s).

Definition Close (s : Socket) : Socket :=
  if (0 <? fd_ s) && IsTcp s
  then mkSocket INVALID_SOCKET (errno_ s) (is_eagain_ s) (is_connected_ s) (type_ s) (nonblocking_ s)
  else s.

(** *** Creating, binding and connecting

    The system calls are made on the descriptor of the socket; what they
    return is an argument. *)

(** [Create]: [fd] is what [socket] returns. *)
Definition Create (s : Socket) (type : sock_type) (fd : Z) : res (Z * Socket) :=
  _ ← assert_ (match type with SOCK_OTHER => false | _ => true end);
  Ok (if fd <? 0 then -1 else 0,
      mkSocket fd (errno_ s) (is_eagain_ s) (is_connected_ s) type (nonblocking_ s)).

(** Network byte order on a little-endian machine. *)
Definition htons (p : Z) : Z := Z.lor (Z.shiftl (Z.land p 255) 8) (Z.shiftr p 8).

Definition htonl (a : Z) : Z :=
  Z.lor (Z.shiftl (htons (Z.land a 65535)) 16) (htons (Z.shiftr a 16)).

Record sockaddr_in := mkSockaddr { sin_family : sa_family; sin_addr : Z; sin_port : Z }.

Definition INADDR_ANY : Z := 0.

(** [Bind]: the result, and the address handed to [bind], which returns [ret]. *)
Definition Bind (s : Socket) (family : sa_family) (port in_addr ret : Z) : res (Z * sockaddr_in) :=
  _ ← assert_ (match family with AF_OTHER => false | _ => true end);
  Ok (if ret <? 0 then -1 else 0, mkSockaddr family (htonl in_addr) (htons port)).

(** [Connect]: the address handed to [connect], which returns [ret];
    [inet_addr] is the conversion of the text of the address. *)
Definition Connect (inet_addr : bytes -> Z) (s : Socket) (ip : bytes) (port ret : Z)
    : Z * Socket * sockaddr_in :=
  (ret, SetConnected s (negb (ret <? 0)), mkSockaddr AF_INET (inet_addr (cstr ip)) (htons port)).

Definition O_NONBLOCK : Z := 2048.

(** [SetNonblocking]: the flags set, if any; [old_flags] and [ret] are what
    the two calls of [fcntl] return. *)
Definition SetNonblocking (s : Socket) (old_flags ret : Z) : Z * Socket * option Z :=
  if fd_ s <? 0 then (-1, s, None)
  else
    let flags := Z.lor old_flags O_NONBLOCK in
    if ret =? -1 then (-1, s, Some flags)
    else (0, mkSocket (fd_ s) (errno_ s) (is_eagain_ s) (is_connected_ s) (type_ s) true, Some flags).

Definition SetSocketOpt (s : Socket) (ret : Z) : res Z :=
  _ ← assert_ (0 <? fd_ s);
  Ok ret.

Definition SetTcpNoDelay (s : Socket) (ret : Z) : res Z := SetSocketOpt s ret.
Definition SetTcpKeepAlive (s : Socket) (ret : Z) : res Z := SetSocketOpt s ret.

(** [SetCloseLingerTimeout]: the option value is [l_onoff] and [l_linger]. *)
Definition SetCloseLingerTimeout (s : Socket) (linger ret : Z) : res (Z * (Z * Z)) :=
  _ ← assert_ (0 <=? linger);
  r ← SetSocketOpt s ret;
  Ok (r, (1, linger)).

Definition Listen (s : Socket) (backlog ret : Z) : res Z :=
  _ ← assert_ (0 <? backlog);
  Ok ret.

Inductive shut_how := SHUT_RD | SHUT_WR | SHUT_RDWR | SHUT_OTHER.

Definition ShutDown (s : Socket) (how : shut_how) (ret : Z) : res Z :=
  _ ← assert_ (match how with SHUT_OTHER => false | _ => true end);
  Ok (if is_connected_ s then ret else 0).

(** [SocketError]: [opt] is what [getsockopt] stores, if it succeeds. *)
Definition SocketError (s : Socket) (opt : option Z) : Z := default 0 opt.

(** What [read(fd, p, 4096)] does: it stores 1 to 4096 bytes, reports the
    end of the stream, or fails with an error number. *)
Inductive read_result :=
| ReadData (data : bytes)
| ReadEof
| ReadErr (errno : Z).

Definition read_ok (r : read_result) : Prop :=
  match r with ReadData d => 0 < zlen d <= kBufferSize | _ => True end.

(** [Receive]: the result of [read], [*_is_buffer_full], and the changed objects. *)
Definition Receive (s : Socket) (buff : AutoBuffer) (r : read_result)
    : res (Z * bool * Socket * AutoBuffer) :=
  let available := AvailableSize buff in
  buff ← (if available <? kBufferSize then AddCapacity buff (kBufferSize - available) else Ok buff);
  match r with
  | ReadData d =>
      buff ← copy_at buff (Length buff) d;
      Ok (zlen d, zlen d =? kBufferSize, s, AddLength buff (zlen d))
  | ReadEof => Ok (0, false, s, buff)
  | ReadErr e =>
      Ok (-1, false,
          mkSocket (fd_ s) e (IS_EAGAIN e) (is_connected_ s) (type_ s) (nonblocking_ s), buff)
  end.

(** What [write(fd, p, n)] does: it takes 0 to [n] bytes, or fails. *)
Inductive write_result :=
| Wrote (n : Z)
| WriteErr (errno : Z).

(** The bytes the call hands to the kernel. *)
Definition written (buff : AutoBuffer) (w : write_result) : bytes :=
  match w with
  | Wrote n => take (Z.to_nat n) (drop (Z.to_nat (Pos buff)) (contents buff))
  | WriteErr _ => []
  end.

Definition set_errno (s : Socket) (e : Z) : Socket :=
  mkSocket (fd_ s) e (is_eagain_ s) (is_connected_ s) (type_ s) (nonblocking_ s).

(** [Send]: [*_is_send_done], the result, the socket, the buffer, and the
    bytes handed to the kernel. *)
Definition Send (s : Socket) (buff : AutoBuffer) (w : write_result)
    : bool * Z * Socket * AutoBuffer * bytes :=
  let pos := Pos buff in
  let ntotal := sub64 (Length buff) pos in
  if (fd_ s <=? 0) || (ntotal =? 0) then (false, 0, s, buff, [])
  else
    match w with
    | Wrote nwrite =>
        if nwrite =? ntotal then (true, nwrite, s, Seek buff kEnd 0, written buff w)
        else (false, nwrite, s, Seek buff kCurrent nwrite, written buff w)
    | WriteErr e =>
        if IS_EAGAIN e then (false, 0, s, Seek buff kCurrent 0, [])
        else (false, -1, set_errno s e, buff, [])
    end.

(** ** Specifications *)

(** A result [write] can give for the rest of the buffer. *)
Definition write_ok (buff : AutoBuffer) (w : write_result) : Prop :=
  match w with Wrote n => 0 <= n <= length_ buff - pos_ buff | WriteErr _ => True end.

(** Calls of [Send] on one buffer until it reports that it is done: the
    results of [write] in order; the flag and all bytes written. *)
Fixpoint send_calls (s : Socket) (buff : AutoBuffer) (ws : list write_result)
    : bool * Socket * AutoBuffer * bytes :=
  match ws with
  | [] => (false, s, buff, [])
  | w :: ws' =>
      let '(done, _, s, buff, out) := Send s buff w in
      if done : bool then (true, s, buff, out)
      else let '(d, s, buff, out') := send_calls s buff ws' in (d, s, buff, out ++ out')
  end.

(** Every result is one [write] can give where it is used. *)
Fixpoint writes_ok (s : Socket) (buff : AutoBuffer) (ws : list write_result) : Prop :=
  match ws with
  | [] => True
  | w :: ws' =>
      write_ok buff w /\
      let '(_, _, s, buff, _) := Send s buff w in writes_ok s buff ws'
  end.

(** A buffer of which the first [pos_] bytes have been sent. *)
Definition sending (buff : AutoBuffer) (msg : bytes) : Prop :=
  owned buff /\ contents buff = msg /\ 0 <= pos_ buff <= zlen msg /\ zlen msg < 2 ^ 62.

(** ** Lemmas *)

Lemma AvailableSize_ok (b : AutoBuffer) :
  owned b -> capacity_ b < 2 ^ 61 -> AvailableSize b = capacity_ b - length_ b.
Proof. intros [_ _ _ Hl _ _] Hc. apply sub64_id; lia. Qed.

(** Room for one [read] is made without touching the contents. *)
Lemma make_room (b : AutoBuffer) :
  owned b -> capacity_ b < 2 ^ 60 ->
  exists b', (if AvailableSize b <? kBufferSize
              then AddCapacity b (kBufferSize - AvailableSize b) else Ok b) = Ok b' /\
    owned b' /\ contents b' = contents b /\ length_ b' = length_ b /\ pos_ b' = pos_ b /\
    malloc_unit_size_ b' = malloc_unit_size_ b /\
    length_ b + kBufferSize <= capacity_ b' <= capacity_ b + kBufferSize + malloc_unit_size_ b.
Proof.
  intros Hb Hc. pose proof Hb as [_ _ _ Hl Hu _]. rewrite AvailableSize_ok by (done || lia).
  unfold kBufferSize. destruct (Z.ltb_spec (capacity_ b - length_ b) 4096).
  - destruct (AddCapacity_ok b (4096 - (capacity_ b - length_ b)))
      as (b' & ? & ? & ? & ? & ? & ? & ?); [done|lia|lia|].
    exists b'. split_and!; done || lia.
  - exists b. split_and!; done || lia.
Qed.

(** [Receive] of data appends it. *)
Lemma Receive_data (s : Socket) (b : AutoBuffer) (d : bytes) :
  owned b -> capacity_ b < 2 ^ 60 -> 0 < zlen d <= kBufferSize ->
  exists b', Receive s b (ReadData d) = Ok (zlen d, zlen d =? kBufferSize, s, b') /\
    owned b' /\ contents b' = contents b ++ d /\ length_ b' = length_ b + zlen d /\
    pos_ b' = pos_ b /\ malloc_unit_size_ b' = malloc_unit_size_ b /\
    capacity_ b' <= capacity_ b + kBufferSize + malloc_unit_size_ b.
Proof.
  intros Hb Hc Hd. pose proof Hb as [_ _ _ Hl0 Hu0 _]. unfold Receive.
  destruct (make_room b Hb Hc) as (b1 & -> & Ho & Hct & Hl & Hp & Hu & Hcap). cbn [mbind res_bind].
  destruct (copy_at_ok b1 d) as (b2 & E & Ho2 & Hc2 & Hl2 & Hp2 & Hcap2 & Hu2);
    [done|intros ->; simpl in Hd; lia|lia|]. unfold Length. rewrite E. cbn [mbind res_bind].
  exists (SetLength b2 (length_ b1 + zlen d)).
  assert (AddLength b2 (zlen d) = SetLength b2 (length_ b1 + zlen d)) as ->.
  { unfold AddLength. destruct (Z.ltb_spec 0 (zlen d)); [|lia]. f_equal.
    rewrite Hl2. apply add64_id. unfold kBufferSize in *. lia. }
  split_and!; [done|done|by rewrite Hc2, Hct|simpl; lia|simpl; congruence|simpl; congruence|simpl; lia].
Qed.

Lemma Receive_nodata (s : Socket) (b : AutoBuffer) (r : read_result) :
  owned b -> capacity_ b < 2 ^ 60 -> (forall d, r <> ReadData d) ->
  exists b', owned b' /\ contents b' = contents b /\ length_ b' = length_ b /\ pos_ b' = pos_ b /\
    malloc_unit_size_ b' = malloc_unit_size_ b /\
    capacity_ b' <= capacity_ b + kBufferSize + malloc_unit_size_ b /\
    Receive s b r = Ok (match r with ReadEof => 0 | _ => -1 end, false,
      match r with
      | ReadErr e => mkSocket (fd_ s) e (IS_EAGAIN e) (is_connected_ s) (type_ s) (nonblocking_ s)
      | _ => s
      end, b').
Proof.
  intros Hb Hc Hr. unfold Receive. pose proof Hb as [_ _ _ Hl0 Hu0 _].
  destruct (make_room b Hb Hc) as (b1 & -> & Ho & Hct & Hl & Hp & Hu & Hcap). cbn [mbind res_bind].
  exists b1. split_and!; try done; [lia|]. destruct r; [by edestruct Hr|done|done].
Qed.

Lemma set_pos_sending (b : AutoBuffer) (msg : bytes) (p : Z) :
  sending b msg -> 0 <= p <= zlen msg -> sending (set_pos b p) msg.
Proof. intros ([] & Hc & _ & Hl) Hp. split; [by constructor|done]. Qed.

(** One [Send]: the bytes that leave are the next ones. *)
Lemma Send_step (s : Socket) (b : AutoBuffer) (msg : bytes) (w : write_result) :
  sending b msg -> 0 < fd_ s -> write_ok b w ->
  exists done n s' b' out, Send s b w = (done, n, s', b', out) /\ sending b' msg /\
    fd_ s' = fd_ s /\ pos_ b <= pos_ b' /\
    out = take (Z.to_nat (pos_ b' - pos_ b)) (drop (Z.to_nat (pos_ b)) msg) /\
    (done = true -> pos_ b' = zlen msg).
Proof.
  intros Hb Hfd Hw. pose proof Hb as (Ho & Hc & Hp & Hl). pose proof (contents_length b Ho) as Hlen.
  rewrite Hc in Hlen. unfold Send, Pos, Length. rewrite sub64_id by lia.
  destruct (Z.leb_spec (fd_ s) 0); [lia|]. cbn [orb].
  destruct (Z.eqb_spec (length_ b - pos_ b) 0).
  { eexists _, _, _, _, _. split_and!; try (done || lia). by rewrite Z.sub_diag. }
  destruct w as [k|e]; cbn [write_ok] in Hw.
  - destruct (Z.eqb_spec k (length_ b - pos_ b)) as [->|].
    + eexists _, _, _, _, _. split; [done|]. cbn [Seek]. unfold Length.
      split_and!; try done; cbn [set_pos pos_]; try lia; [apply set_pos_sending; [done|lia]|].
      unfold written, Pos. rewrite Hc. done.
    + eexists _, _, _, _, _. split; [done|]. cbn [Seek]. rewrite add64_id by lia.
      split_and!; try done; cbn [set_pos pos_]; try lia; [apply set_pos_sending; [done|lia]|].
      unfold written, Pos. rewrite Hc. f_equal. lia.
  - destruct (IS_EAGAIN e).
    + eexists _, _, _, _, _. split; [done|]. cbn [Seek]. rewrite add64_id, Z.add_0_r by lia.
      split_and!; try done; cbn [set_pos pos_]; try lia; [apply set_pos_sending; [done|lia]|].
      by rewrite Z.sub_diag.
    + eexists _, _, _, _, _. split; [done|]. split_and!; try (done || lia). by rewrite Z.sub_diag.
Qed.

(** The bytes of several calls follow each other. *)
Lemma send_calls_prefix (ws : list write_result) (s : Socket) (b : AutoBuffer) (msg : bytes) :
  sending b msg -> 0 < fd_ s -> writes_ok s b ws ->
  exists done s' b' out, send_calls s b ws = (done, s', b', out) /\ sending b' msg /\
    pos_ b <= pos_ b' /\
    out = take (Z.to_nat (pos_ b' - pos_ b)) (drop (Z.to_nat (pos_ b)) msg) /\
    (done = true -> pos_ b' = zlen msg).
Proof.
  revert s b. induction ws as [|w ws IH]; intros s b Hb Hfd Hw; cbn [send_calls].
  { eexists _, _, _, _. split_and!; try (done || lia). by rewrite Z.sub_diag. }
  destruct Hw as [Hw1 Hw2].
  destruct (Send_step s b msg w Hb Hfd Hw1) as (d & n & s1 & b1 & out & E & Hb1 & Hfd1 & Hp1 & Hout & Hd).
  rewrite E in *. destruct d; [eexists _, _, _, _; split_and!; done || auto|].
  destruct (IH s1 b1) as (d2 & s2 & b2 & out2 & -> & Hb2 & Hp2 & Hout2 & Hd2); [done|lia|done|].
  eexists _, _, _, _. split_and!; [done|done|lia| |done].
  rewrite Hout, Hout2. pose proof Hb as (_ & _ & Hpb & _). pose proof Hb1 as (_ & _ & Hpb1 & _).
  pose proof Hb2 as (_ & _ & Hpb2 & _).
  replace (Z.to_nat (pos_ b2 - pos_ b)) with (Z.to_nat (pos_ b1 - pos_ b) + Z.to_nat (pos_ b2 - pos_ b1))%nat by lia.
  set (m := drop (Z.to_nat (pos_ b)) msg). set (k := Z.to_nat (pos_ b1 - pos_ b)).
  assert (drop (Z.to_nat (pos_ b1)) msg = drop k m) as ->.
  { unfold m, k. rewrite drop_drop. f_equal. lia. }
  apply take_take_drop.
Qed.

(** ** Properties *)

(** [Receive] makes room for 4096 bytes and appends exactly the bytes [read] returned: never
    a byte outside the buffer's storage, earlier bytes and the send position untouched, and it
    reports a full buffer exactly when 4096 bytes came. *)
Theorem Receive_appends (s : Socket) (b : AutoBuffer) (d : bytes)
    (Hb : owned b) (Hcap : capacity_ b < 2 ^ 60) (Hd : 0 < zlen d <= kBufferSize) :
  exists b', Receive s b (ReadData d) = Ok (zlen d, zlen d =? kBufferSize, s, b') /\
    owned b' /\ contents b' = contents b ++ d /\ pos_ b' = pos_ b.
Proof.
  destruct (Receive_data s b d Hb Hcap Hd) as (b' & H1 & H2 & H3 & _ & H4 & _). by exists b'.
Qed.

Lemma Receive_appends_witness :
  exists b', Receive (new_Socket 5) (AutoBuffer.new 128) (ReadData (str "GET"))
             = Ok (3, false, new_Socket 5, b') /\
    owned b' /\ contents b' = contents (AutoBuffer.new 128) ++ str "GET" /\ pos_ b' = 0.
Proof.
  refine (Receive_appends (new_Socket 5) (AutoBuffer.new 128) (str "GET") _ _ _);
    [by apply new_owned|simpl; lia|unfold kBufferSize; simpl; lia].
Defined.

(** Over any sequence of complete, partial, blocked or failing [write]s, the bytes that leave
    are a prefix of the message, each byte once and in order, and [Send] reports completion
    only when the whole message has left. *)
Theorem Send_in_order (s : Socket) (b : AutoBuffer) (msg : bytes) (ws : list write_result)
    (Hb : holds b msg) (Hfd : 0 < fd_ s) (Hlen : zlen msg < 2 ^ 62) (Hws : writes_ok s b ws) :
  exists done s' b' out, send_calls s b ws = (done, s', b', out) /\
    out `prefix_of` msg /\ pos_ b' = zlen out /\ (done = true -> out = msg).
Proof.
  assert (sending b msg) as Hs.
  { destruct Hb as (Ho & Hc & Hp & _). split_and!; [done|done|lia|lia|done]. }
  destruct (send_calls_prefix ws s b msg Hs Hfd Hws) as (d & s' & b' & out & E & Hb' & Hp & Hout & Hd).
  destruct Hb as (_ & _ & Hp0 & _). rewrite Hp0 in *. rewrite Z.sub_0_r in Hout.
  change (Z.to_nat 0) with O in Hout. rewrite drop_0 in Hout. pose proof Hb' as (_ & _ & Hpb & _).
  exists d, s', b', out. split_and!; [done|..].
  - rewrite Hout. apply prefix_take.
  - rewrite Hout, length_take. lia.
  - intros ->. rewrite Hout, Hd, Nat2Z.id by done. by rewrite firstn_all.
Qed.

Lemma Send_in_order_witness :
  exists b0, WriteString (AutoBuffer.new 128) (str "hello") = Ok b0 /\
  exists done s' b' out,
    send_calls (new_Socket 5) b0 [Wrote 2; WriteErr EAGAIN; Wrote 3] = (done, s', b', out) /\
    out `prefix_of` str "hello" /\ pos_ b' = zlen out /\ (done = true -> out = str "hello").
Proof.
  eexists. split; [vm_compute; reflexivity|].
  refine (Send_in_order (new_Socket 5) _ (str "hello") [Wrote 2; WriteErr EAGAIN; Wrote 3] _ _ _ _);
    [|simpl; lia|simpl; lia|vm_compute; intuition congruence].
  split_and!; [split; vm_compute; intuition congruence|reflexivity|reflexivity|vm_compute; congruence].
Defined.

End UnixSocket.
