(* ===== verification/BlockSocket.v ===== *)
(** * Poll and the blocking socket (socket/socketpoll.h, socketpoll.cc, blocksocket.cc)

    [SocketPoll], the list of descriptors handed to [poll], and the two loops
    with which a client sends and receives on a socket that blocks. What [poll],
    [write], [read] and the clock return are arguments. *)
From stdpp Require Import gmap fin_maps.
From S2P Require Import Prelude CLib AutoBuffer UnixSocket.

Module BlockSocket.
Import AutoBuffer UnixSocket.

(** ** Definitions *)

(** *** Poll *)

Definition POLLIN : Z := 1.
Definition POLLOUT : Z := 4.
Definition POLLERR : Z := 8.

Record pollfd := mkPollfd { fd : Z; events : Z; revents : Z }.

Record SocketPoll := mkPoll { pollfds_ : list pollfd; poll_errno_ : Z }.

Definition new_SocketPoll : SocketPoll := mkPoll [] 0.

Definition __FindPollfd (p : SocketPoll) (socket : Z) : option (nat * pollfd) :=
  list_find (fun x => fd x = socket) (pollfds_ p).

(** The common body of the three methods that follow it. *)
Definition set_event (flag : Z) (p : SocketPoll) (socket : Z) : SocketPoll :=
  if socket <? 0 then p
  else
    match __FindPollfd p socket with
    | Some (i, x) => mkPoll (<[i := mkPollfd (fd x) (Z.lor (events x) flag) (revents x)]> (pollfds_ p)) (poll_errno_ p)
    | None => mkPoll (pollfds_ p ++ [mkPollfd socket flag 0]) (poll_errno_ p)
    end.

Definition SetEventRead : SocketPoll -> Z -> SocketPoll := set_event POLLIN.
Definition SetEventWrite : SocketPoll -> Z -> SocketPoll := set_event POLLOUT.
Definition SetEventError : SocketPoll -> Z -> SocketPoll := set_event POLLERR.

Definition ClearEvents (p : SocketPoll) : SocketPoll :=
  mkPoll ((fun x => mkPollfd (fd x) (events x) 0) <$> pollfds_ p) (poll_errno_ p).

Definition flag_set (flag : Z) (p : SocketPoll) (socket : Z) : bool :=
  match __FindPollfd p socket with
  | None => false
  | Some (_, x) => negb (Z.land (revents x) flag =? 0)
  end.

Definition poll_IsReadSet : SocketPoll -> Z -> bool := flag_set POLLIN.
Definition poll_IsErrSet : SocketPoll -> Z -> bool := flag_set POLLERR.

Definition RemoveSocket (p : SocketPoll) (socket : Z) : SocketPoll :=
  match __FindPollfd p socket with
  | Some (i, _) => mkPoll (delete i (pollfds_ p)) (poll_errno_ p)
  | None => p
  end.

Definition GetErrno (p : SocketPoll) : Z := poll_errno_ p.

(** What [poll] does: it stores an event mask for each descriptor, or fails. *)
Inductive poll_result :=
| Polled (masks : list Z)
| PollErr (errno : Z).

(** [Poll(_msec)]: the result, and the timeout handed to [poll]. The address of
    the first element of an empty vector is not defined. *)
Definition Poll (p : SocketPoll) (msec : Z) (r : poll_result) : res (Z * Z * SocketPoll) :=
  let msec := if msec <? -1 then -1 else msec in
  let p := ClearEvents p in
  match pollfds_ p with
  | [] => Fault Undefined
  | _ =>
      match r with
      | Polled masks =>
          Ok (zlen (filter (fun m => m <> 0) masks), msec,
              mkPoll (zip_with (fun x m => mkPollfd (fd x) (events x) m) (pollfds_ p) masks) (poll_errno_ p))
      | PollErr e => Ok (-1, msec, mkPoll (pollfds_ p) e)
      end
  end.

(** *** Sending *)

(** Conversion to a signed 64-bit [ssize_t]. *)
Definition to_long (z : Z) : Z :=
  let r := z mod 2 ^ 64 in if r <? 2 ^ 63 then r else r - 2 ^ 64.

(** The loop of [BlockSocketSend]: the result ([None] while the thread is in a
    [write] that blocks), the buffer and the bytes handed to the kernel; for
    every turn what [write] returns and the time after it. *)
Fixpoint send_loop (b : AutoBuffer) (ntotal timeout_mills start_time : Z) (wait_full : bool) (nsend : Z)
    (ws : list (write_result * Z)) : res (option Z * AutoBuffer * bytes) :=
  match ws with
  | [] => Ok (None, b, [])
  | (w, now) :: ws' =>
      data ← (if ntotal - nsend =? 0 then Ok [] else load b (Pos b + nsend) (wrap64 (ntotal - nsend)));
      let '(n, out) := match w with Wrote n => (to_int n, take (Z.to_nat n) data) | WriteErr _ => (-1, []) end in
      if n <=? 0 then Ok (Some (-1), b, out)
      else
        let nsend := nsend + n in
        if negb wait_full then Ok (Some nsend, Seek b kCurrent nsend, out)
        else if ntotal <=? nsend then Ok (Some nsend, b, out)
        else
          let cost_time := sub64 now start_time in
          if wrap64 timeout_mills <? cost_time then Ok (Some nsend, Seek b kCurrent nsend, out)
          else
            '(r, b, out') ← send_loop b ntotal timeout_mills start_time wait_full nsend ws';
            Ok (r, b, out ++ out')
  end.

Definition BlockSocketSend (b : AutoBuffer) (buff_size timeout_mills : Z) (wait_full : bool) (start_time : Z)
    (ws : list (write_result * Z)) : res (option Z * AutoBuffer * bytes) :=
  let ntotal := to_long (sub64 (Length b) (Pos b)) in
  let ntotal := if buff_size <? wrap64 ntotal then to_long buff_size else ntotal in
  send_loop b ntotal timeout_mills start_time wait_full 0 ws.

(** *** Receiving *)

(** A turn of the loop: what [poll] and [read] do, and the time after it; of the
    bytes that have arrived [read] takes as many as it is asked for. *)
Record receive_io := mkReceive { polled : poll_result; read_ : read_result; now_ : Z }.

Fixpoint receive_loop (socket : Z) (b : AutoBuffer) (p : SocketPoll) (buff_size timeout_mills start_time : Z)
    (wait_full : bool) (nrecv cost_time : Z) (xs : list receive_io) : res (option Z * AutoBuffer * SocketPoll) :=
  match xs with
  | [] => Ok (None, b, p)
  | x :: xs' =>
      let poll_timeout :=
        if cost_time <? wrap64 timeout_mills then to_int (timeout_mills - to_int cost_time) else 0 in
      '(ret, _, p) ← Poll p poll_timeout (polled x);
      let again b nrecv :=
        receive_loop socket b p buff_size timeout_mills start_time wait_full nrecv (sub64 (now_ x) start_time) xs' in
      if ret <? 0 then Ok (Some (-1), b, p)
      else if ret =? 0 then Ok (Some nrecv, b, p)
      else if poll_IsReadSet p socket then
        match read_ x with
        | ReadData arrived =>
            let d := take (Z.to_nat (buff_size - nrecv)) arrived in
            if zlen d =? 0 then Ok (Some 0, b, p)
            else
              b ← copy_at b (Length b) d;
              let b := AddLength b (zlen d) in
              let nrecv := nrecv + zlen d in
              if negb wait_full then Ok (Some nrecv, b, p)
              else if buff_size <=? nrecv then Ok (Some nrecv, b, p)
              else again b nrecv
        | ReadEof => Ok (Some 0, b, p)
        | ReadErr _ => Ok (Some nrecv, b, p)
        end
      else if poll_IsErrSet p socket then Ok (Some nrecv, b, p)
      else again b nrecv
  end.

Definition BlockSocketReceive (socket : Z) (b : AutoBuffer) (p : SocketPoll) (buff_size timeout_mills : Z)
    (wait_full : bool) (start_time : Z) (xs : list receive_io) : res (option Z * AutoBuffer * SocketPoll) :=
  let timeout_mills := if timeout_mills <? -1 then -1 else timeout_mills in
  let available := AvailableSize b in
  b ← (if available <? buff_size then AddCapacity b (buff_size - available) else Ok b);
  receive_loop socket b p buff_size timeout_mills start_time wait_full 0 0 xs.

(** ** Specifications *)

(** What a [SocketPoll] watches: for each descriptor the events asked for. *)
Definition watch_list (l : list pollfd) : gmap Z Z := list_to_map ((fun x => (fd x, events x)) <$> l).
Definition watched (p : SocketPoll) : gmap Z Z := watch_list (pollfds_ p).

Inductive poll_op :=
| OpSet (flag socket : Z)
| OpRemove (socket : Z)
| OpClear.

Definition do_poll_op (p : SocketPoll) (o : poll_op) : SocketPoll :=
  match o with
  | OpSet flag s => set_event flag p s
  | OpRemove s => RemoveSocket p s
  | OpClear => ClearEvents p
  end.

Definition spec_poll_op (m : gmap Z Z) (o : poll_op) : gmap Z Z :=
  match o with
  | OpSet flag s => if s <? 0 then m else <[s := Z.lor (default 0 (m !! s)) flag]> m
  | OpRemove s => delete s m
  | OpClear => m
  end.

Definition distinct (p : SocketPoll) : Prop := NoDup (fd <$> pollfds_ p).

(** ** Lemmas *)

(** *** The watched descriptors *)

Lemma watch_cons (x : pollfd) (l : list pollfd) : watch_list (x :: l) = <[fd x := events x]> (watch_list l).
Proof. done. Qed.

Lemma watch_lookup (l : list pollfd) (s : Z) :
  watch_list l !! s = (fun y => events y.2) <$> list_find (fun x => fd x = s) l.
Proof.
  induction l as [|x l IH]; [done|]. rewrite watch_cons. cbn [list_find]. destruct (decide (fd x = s)) as [<- |Hne].
  - by rewrite lookup_insert_eq.
  - rewrite lookup_insert_ne by done. rewrite IH. by destruct (list_find _ l) as [[]|].
Qed.

Lemma watch_replace (l : list pollfd) (i : nat) (x y : pollfd) :
  l !! i = Some x -> fd y = fd x -> NoDup (fd <$> l) ->
  watch_list (<[i := y]> l) = <[fd y := events y]> (watch_list l).
Proof.
  revert i. induction l as [|z l IH]; intros [|i] Hi Hf Hnd; cbn in Hi; try done; apply NoDup_cons in Hnd as [Hz Hnd].
  - injection Hi as ->. change (<[0%nat := y]> (x :: l)) with (y :: l). by rewrite !watch_cons, Hf, insert_insert_eq.
  - change (<[S i := y]> (z :: l)) with (z :: <[i := y]> l). rewrite !watch_cons, (IH i) by done.
    apply insert_insert_ne. intros E. apply Hz. replace (fd z) with (fd x) by congruence. apply list_elem_of_fmap_2. by eapply list_elem_of_lookup_2.
Qed.

Lemma watch_snoc (l : list pollfd) (y : pollfd) :
  fd y ∉ (fd <$> l) -> watch_list (l ++ [y]) = <[fd y := events y]> (watch_list l).
Proof.
  induction l as [|z l IH]; [done|]. intros Hn. cbn in Hn. apply not_elem_of_cons in Hn as [Hne Hn].
  cbn [app]. rewrite !watch_cons, IH by done. by apply insert_insert_ne.
Qed.

Lemma watch_delete (l : list pollfd) (i : nat) (x : pollfd) :
  l !! i = Some x -> NoDup (fd <$> l) -> watch_list (delete i l) = delete (fd x) (watch_list l).
Proof.
  revert i. induction l as [|z l IH]; intros [|i] Hi Hnd; cbn in Hi; try done; apply NoDup_cons in Hnd as [Hz Hnd].
  - injection Hi as ->. change (delete 0%nat (x :: l)) with l. rewrite watch_cons, delete_insert_id; [done|].
    rewrite watch_lookup. destruct (list_find _ l) as [[j y]|] eqn:E; [|done]. apply list_find_Some in E as (Hj & Hy & _).
    destruct Hz. rewrite <- Hy. apply list_elem_of_fmap_2. by eapply list_elem_of_lookup_2.
  - change (delete (S i) (z :: l)) with (z :: delete i l). rewrite !watch_cons, (IH i) by done. rewrite delete_insert_ne; [done|].
    intros E. apply Hz. replace (fd z) with (fd x) by congruence. apply list_elem_of_fmap_2. by eapply list_elem_of_lookup_2.
Qed.

Lemma find_None_notin (p : SocketPoll) (s : Z) : __FindPollfd p s = None -> s ∉ (fd <$> pollfds_ p).
Proof.
  unfold __FindPollfd. intros E%list_find_None [x [-> Hx]]%list_elem_of_fmap. rewrite Forall_forall in E. by apply (E x).
Qed.

Lemma do_poll_op_ok (p : SocketPoll) (o : poll_op) :
  distinct p -> watched (do_poll_op p o) = spec_poll_op (watched p) o /\ distinct (do_poll_op p o).
Proof.
  intros Hd. unfold watched, distinct in *. destruct o as [flag s|s|]; cbn [do_poll_op spec_poll_op].
  - unfold set_event. destruct (s <? 0); [done|]. destruct (__FindPollfd p s) as [[i x]|] eqn:E; cbn [pollfds_].
    + rewrite watch_lookup. unfold __FindPollfd in E. rewrite E. cbn. apply list_find_Some in E as (Hi & Hs & _). subst s.
      split; [exact (watch_replace _ i x (mkPollfd (fd x) (Z.lor (events x) flag) (revents x)) Hi eq_refl Hd)|]. rewrite list_fmap_insert. cbn. rewrite list_insert_id; [done|].
      by rewrite list_lookup_fmap, Hi.
    + pose proof (find_None_notin _ _ E) as Hn. rewrite watch_lookup. unfold __FindPollfd in E. rewrite E. cbn.
      split; [by apply watch_snoc|]. rewrite fmap_app. apply NoDup_app. split_and!; [done| |apply NoDup_singleton].
      intros z Hz ->%list_elem_of_singleton. done.
  - unfold RemoveSocket. destruct (__FindPollfd p s) as [[i x]|] eqn:E; cbn [pollfds_].
    + unfold __FindPollfd in E. apply list_find_Some in E as (Hi & Hs & _). subst s. split; [by apply watch_delete|].
      eapply sublist_NoDup; [apply Hd|]. apply fmap_sublist, sublist_delete.
    + split; [|done]. rewrite delete_id; [done|]. rewrite watch_lookup. unfold __FindPollfd in E. by rewrite E.
  - unfold ClearEvents, watch_list. cbn. rewrite <- !list_fmap_compose. done.
Qed.

Lemma do_poll_ops_ok (os : list poll_op) (p : SocketPoll) :
  distinct p -> watched (foldl do_poll_op p os) = foldl spec_poll_op (watched p) os /\ distinct (foldl do_poll_op p os).
Proof.
  revert p. induction os as [|o os IH]; [done|]. intros p Hp. cbn. destruct (do_poll_op_ok p o Hp) as [<- Hd]. by apply IH.
Qed.

(** *** What [poll] reports *)

Lemma find_at (p : SocketPoll) (i : nat) (x : pollfd) :
  distinct p -> pollfds_ p !! i = Some x -> __FindPollfd p (fd x) = Some (i, x).
Proof.
  intros Hd Hi. apply list_find_Some. split_and!; [done|done|]. intros j y Hj Hlt E. unfold distinct in Hd.
  assert (j = i) as ->; [|lia]. eapply NoDup_lookup; [done|rewrite list_lookup_fmap, Hj; cbn; by rewrite E|].
  by rewrite list_lookup_fmap, Hi.
Qed.

Lemma Poll_masks (p : SocketPoll) (msec : Z) (masks : list Z) :
  pollfds_ p <> [] -> length masks = length (pollfds_ p) ->
  exists p', Poll p msec (Polled masks) = Ok (zlen (filter (fun m => m <> 0) masks), Z.max (-1) msec, p') /\
    (fd <$> pollfds_ p') = (fd <$> pollfds_ p) /\ watched p' = watched p /\
    forall i x m, pollfds_ p !! i = Some x -> masks !! i = Some m -> pollfds_ p' !! i = Some (mkPollfd (fd x) (events x) m).
Proof.
  intros Hne Hl. unfold Poll, watched, ClearEvents. cbn [pollfds_ poll_errno_].
  destruct (fmap _ (pollfds_ p)) as [|y l] eqn:E; [by apply fmap_nil_inv in E|]. rewrite <- E. clear y l E.
  eexists. split; [repeat f_equal; destruct (Z.ltb_spec msec (-1)); lia|]. cbn [pollfds_].
  assert (forall B (f : pollfd -> B), (forall x m, f (mkPollfd (fd x) (events x) m) = f x) -> forall l ms, length ms = length l ->
    f <$> zip_with (fun x m => mkPollfd (fd x) (events x) m) ((fun x => mkPollfd (fd x) (events x) 0) <$> l) ms = f <$> l) as Hf.
  { intros B f Hf l. induction l as [|x l IH]; intros [|m ms] Hm; try done. cbn. rewrite Hf. f_equal.
    apply IH. by injection Hm. }
  split_and!; [by apply Hf|unfold watch_list; by rewrite Hf|].
  intros i x m Hi Hm. by rewrite lookup_zip_with, list_lookup_fmap, Hi, Hm.
Qed.

(** *** Receiving *)

Lemma append_ok (b : AutoBuffer) (d : bytes) :
  owned b -> capacity_ b < 2 ^ 62 -> d <> [] -> length_ b + zlen d <= capacity_ b ->
  exists b1, copy_at b (Length b) d = Ok b1 /\ owned (AddLength b1 (zlen d)) /\
    contents (AddLength b1 (zlen d)) = contents b ++ d /\ length_ (AddLength b1 (zlen d)) = length_ b + zlen d /\
    pos_ (AddLength b1 (zlen d)) = pos_ b /\ capacity_ (AddLength b1 (zlen d)) = capacity_ b.
Proof.
  intros Hb Hc Hd Hl. pose proof Hb as [_ _ _ Hl0 _ _].
  destruct (copy_at_ok b d Hb Hd Hl) as (b1 & E & Ho & Hct & Hl1 & Hp & Hcap & _). exists b1. split; [done|].
  assert (AddLength b1 (zlen d) = SetLength b1 (length_ b + zlen d)) as ->.
  { unfold AddLength. destruct d; [done|]. rewrite Hl1, add64_id by lia. done. }
  by split_and!.
Qed.

Lemma room_ok (b : AutoBuffer) (size : Z) :
  owned b -> 0 <= size < 2 ^ 60 -> capacity_ b < 2 ^ 60 ->
  exists b', (if AvailableSize b <? size then AddCapacity b (size - AvailableSize b) else Ok b) = Ok b' /\
    owned b' /\ contents b' = contents b /\ length_ b' = length_ b /\ pos_ b' = pos_ b /\
    length_ b + size <= capacity_ b' < 2 ^ 62.
Proof.
  intros Hb Hs Hc. pose proof Hb as [_ _ _ Hl Hu _]. unfold AvailableSize. rewrite sub64_id by lia.
  destruct (Z.ltb_spec (capacity_ b - length_ b) size).
  - destruct (AddCapacity_ok b (size - (capacity_ b - length_ b))) as (b' & E & ? & ? & ? & ? & ? & ?); [done|lia|lia|].
    exists b'. split_and!; done || lia.
  - exists b. split_and!; done || lia.
Qed.

Definition masks_ok (k : nat) (x : receive_io) : Prop :=
  match polled x with Polled ms => length ms = k | PollErr _ => True end.

Lemma Poll_keeps (p : SocketPoll) (msec : Z) (r : poll_result) :
  pollfds_ p <> [] -> (forall ms, r = Polled ms -> length ms = length (pollfds_ p)) ->
  exists ret to p', Poll p msec r = Ok (ret, to, p') /\ (ret < 0 <-> exists e, r = PollErr e) /\
    (fd <$> pollfds_ p') = (fd <$> pollfds_ p) /\ watched p' = watched p.
Proof.
  intros Hne Hr. destruct r as [ms|e].
  - destruct (Poll_masks p msec ms Hne (Hr ms eq_refl)) as (p' & E & Hf & Hw & _). eexists _, _, p'. split; [done|].
    split_and!; [|done|done]. split; [lia|by intros [e ?]].
  - unfold Poll, watched, ClearEvents. cbn [pollfds_]. destruct (pollfds_ p) as [|x l]; [done|]. cbn [fmap list_fmap].
    eexists _, _, _. split; [done|]. split_and!; [split; [by exists e|lia]|..];
      cbn; unfold watch_list; cbn; rewrite <- !list_fmap_compose; done.
Qed.

(** The result of a receive that got the bytes [d]. *)
Definition receive_result (xs : list receive_io) (got : Z) (r : option Z) : Prop :=
  forall n, r = Some n ->
    n = got \/ (n = -1 /\ exists x e, x ∈ xs /\ polled x = PollErr e) \/
    (n = 0 /\ exists x, x ∈ xs /\ (read_ x = ReadEof \/ read_ x = ReadData [])).

Lemma receive_result_cons x xs got r : receive_result xs got r -> receive_result (x :: xs) got r.
Proof.
  intros H n Hn. destruct (H n Hn) as [->|[(-> & y & e & Hy & E)|(-> & y & Hy & E)]]; [by left|..]; right; [left|right];
    (split; [done|]); [exists y, e|exists y]; (split; [by apply list_elem_of_further|done]).
Qed.

(** What a receive that starts with [b], [p] and [nrecv] bytes leaves. *)
Definition receives (size : Z) (xs : list receive_io) (b : AutoBuffer) (p : SocketPoll) (nrecv : Z)
    (o : res (option Z * AutoBuffer * SocketPoll)) : Prop :=
  exists r b' p' d, o = Ok (r, b', p') /\ owned b' /\ contents b' = contents b ++ d /\ pos_ b' = pos_ b /\
    zlen d <= size - nrecv /\ watched p' = watched p /\ receive_result xs (nrecv + zlen d) r.

Lemma receives_end size xs b p p1 nrecv r0 :
  owned b -> nrecv <= size -> watched p1 = watched p -> receive_result xs nrecv r0 ->
  receives size xs b p nrecv (Ok (r0, b, p1)).
Proof.
  intros. exists r0, b, p1, []. cbn. rewrite app_nil_r, Z.add_0_r. split_and!; try done. lia.
Qed.

Lemma receives_more size x xs b p b1 p1 nrecv d o :
  contents b1 = contents b ++ d -> pos_ b1 = pos_ b -> watched p1 = watched p ->
  receives size xs b1 p1 (nrecv + zlen d) o -> receives size (x :: xs) b p nrecv o.
Proof.
  intros Hc Hp Hw (r & b' & p' & d' & -> & Ho & Hc' & Hp' & Hl & Hw' & Hr). exists r, b', p', (d ++ d').
  rewrite app_assoc, <- Hc, length_app. split_and!; try done; try congruence; [lia|].
  apply receive_result_cons. by replace (nrecv + _) with (nrecv + zlen d + zlen d') by lia.
Qed.

Lemma receives_data size x xs b p p1 nrecv d (k : AutoBuffer -> Z -> res (option Z * AutoBuffer * SocketPoll)) :
  owned b -> capacity_ b < 2 ^ 62 -> length_ b + (size - nrecv) <= capacity_ b -> watched p1 = watched p ->
  0 < zlen d <= size - nrecv ->
  (forall b1, owned b1 -> capacity_ b1 = capacity_ b -> length_ b1 = length_ b + zlen d -> 
     receives size xs b1 p1 (nrecv + zlen d) (k b1 (nrecv + zlen d))) ->
  receives size (x :: xs) b p nrecv
    (b ← copy_at b (Length b) d; k (AddLength b (zlen d)) (nrecv + zlen d)).
Proof.
  intros Hb Hc Hroom Hw Hd Hk. destruct (append_ok b d Hb Hc) as (b1 & -> & Ho & Hct & Hl & Hp & Hcap); [intros ->; cbn in Hd; lia|lia|].
  cbn [mbind res_bind]. eapply receives_more; [exact Hct|exact Hp|exact Hw|]. by apply Hk.
Qed.

Lemma receive_loop_ok (socket size timeout start : Z) (full : bool) (xs : list receive_io) b p nrecv cost :
  owned b -> capacity_ b < 2 ^ 62 -> 0 <= nrecv < size -> length_ b + (size - nrecv) <= capacity_ b ->
  pollfds_ p <> [] -> Forall (masks_ok (length (pollfds_ p))) xs ->
  receives size xs b p nrecv (receive_loop socket b p size timeout start full nrecv cost xs).
Proof.
  revert b p nrecv cost. induction xs as [|x xs IH]; intros b p nrecv cost Hb Hc Hn Hroom Hne Hms.
  { apply receives_end; [done|lia|done|by intros]. }
  apply Forall_cons in Hms as [Hm Hms]. cbn [receive_loop]. set (pt := if cost <? _ then _ else _). clearbody pt.
  destruct (Poll_keeps p pt (polled x)) as (ret & to & p1 & -> & Hret & Hfd & Hw); [done|by intros ms E; unfold masks_ok in Hm; rewrite E in Hm|].
  cbn [mbind res_bind]. pose proof (f_equal length Hfd) as Hlen. rewrite !length_fmap in Hlen.
  assert (pollfds_ p1 <> []) as Hne1 by (intros E; rewrite E in Hlen; destruct (pollfds_ p); done).
  rewrite <- Hlen in Hms. destruct (Z.ltb_spec ret 0).
  { apply receives_end; [done|lia|done|]. intros n [= <-]. right. left. split; [done|].
    destruct Hret as [[e He] _]; [done|]. exists x, e. split; [apply list_elem_of_here|done]. }
  destruct (ret =? 0); [by apply receives_end; [..|lia| |intros n [= <-]; left]|].
  destruct (poll_IsReadSet p1 socket).
  2:{ destruct (poll_IsErrSet p1 socket); [by apply receives_end; [..|lia| |intros n [= <-]; left]|].
      apply (receives_more _ _ _ _ _ b p1 nrecv []); [by rewrite app_nil_r|done|done|]. cbn. rewrite Z.add_0_r. by apply IH. }
  destruct (read_ x) as [arr| |e] eqn:Er.
  - destruct (Z.eqb_spec (zlen (take (Z.to_nat (size - nrecv)) arr)) 0) as [E0|E0].
    { apply receives_end; [done|lia|done|]. intros n [= <-]. right. right. split; [done|]. exists x. split; [apply list_elem_of_here|].
      right. rewrite Er. rewrite length_take in E0. destruct arr; [done|cbn in E0; lia]. }
    apply (receives_data _ _ _ _ _ p1 _ _ (fun b nrecv => if negb full then Ok (Some nrecv, b, p1)
      else if size <=? nrecv then Ok (Some nrecv, b, p1)
      else receive_loop socket b p1 size timeout start full nrecv (sub64 (now_ x) start) xs)); try done.
    { rewrite length_take in *. lia. }
    intros b1 Ho1 Hc1 Hl1. rewrite length_take in *. destruct full; cbn [negb].
    2:{ apply receives_end; [done|lia|done|intros n [= <-]; by left]. }
    destruct (Z.leb_spec size (nrecv + Z.of_nat (Nat.min (Z.to_nat (size - nrecv)) (length arr)))).
    + apply receives_end; [done|lia|done|intros n [= <-]; by left].
    + apply IH; try done; lia.
  - apply receives_end; [done|lia|done|]. intros n [= <-]. right. right. split; [done|]. exists x. split; [apply list_elem_of_here|by left].
  - by apply receives_end; [..|lia| |intros n [= <-]; left].
Qed.

(** A turn in which the socket at place [i] is readable and [d] arrives. *)
Definition brings (i k : nat) (x : receive_io) (d : bytes) : Prop :=
  read_ x = ReadData d /\ d <> [] /\ exists ms m, polled x = Polled ms /\ length ms = k /\ ms !! i = Some m /\ Z.land m POLLIN <> 0.

Lemma Poll_readable (p : SocketPoll) (msec : Z) (i : nat) (y : pollfd) (ms : list Z) (m : Z) :
  distinct p -> pollfds_ p !! i = Some y -> length ms = length (pollfds_ p) -> ms !! i = Some m -> Z.land m POLLIN <> 0 ->
  exists n to p', Poll p msec (Polled ms) = Ok (n, to, p') /\ 0 < n /\ poll_IsReadSet p' (fd y) = true /\
    distinct p' /\ pollfds_ p' !! i = Some (mkPollfd (fd y) (events y) m) /\ length (pollfds_ p') = length (pollfds_ p).
Proof.
  intros Hd Hi Hl Hm Hr. destruct (Poll_masks p msec ms) as (p' & E & Hf & _ & Hat); [by intros H; rewrite H in Hi|done|].
  pose proof (Hat i y m Hi Hm) as Hi'. assert (distinct p') as Hd' by (unfold distinct; by rewrite Hf).
  eexists _, _, p'. split; [exact E|]. split_and!; [|..|done|done|].
  - assert (m ∈ filter (fun m => m <> 0) ms) as Hin.
    { apply list_elem_of_filter. split; [by intros ->|by eapply list_elem_of_lookup_2]. }
    destruct (filter _ ms); [by apply elem_of_nil in Hin|cbn; lia].
  - unfold poll_IsReadSet, flag_set. pose proof (find_at p' i _ Hd' Hi') as Hfind. cbn [fd] in Hfind. rewrite Hfind.
    cbn [revents]. by destruct (Z.eqb_spec (Z.land m POLLIN) 0).
  - pose proof (f_equal length Hf) as H. by rewrite !length_fmap in H.
Qed.

Lemma receive_loop_full (socket size timeout start : Z) (i k : nat) (xs : list receive_io) (chunks : list bytes) :
  Forall2 (brings i k) xs chunks -> forall b p nrecv cost y,
  distinct p -> length (pollfds_ p) = k -> pollfds_ p !! i = Some y -> fd y = socket ->
  owned b -> capacity_ b < 2 ^ 62 -> 0 <= nrecv < size -> length_ b + (size - nrecv) <= capacity_ b ->
  size - nrecv <= zlen (concat chunks) ->
  exists b' p', receive_loop socket b p size timeout start true nrecv cost xs = Ok (Some size, b', p') /\
    owned b' /\ contents b' = contents b ++ take (Z.to_nat (size - nrecv)) (concat chunks).
Proof.
  induction 1 as [|x d xs chunks (Hr & Hd & ms & m & Hp & Hl & Hm & Hin) _ IH];
    intros b p nrecv cost y Hdist Hk Hi Hy Hb Hc Hn Hroom Hall; [cbn in Hall; lia|].
  cbn [receive_loop]. set (pt := if cost <? _ then _ else _). clearbody pt. rewrite Hp.
  destruct (Poll_readable p pt i y ms m Hdist Hi) as (n & to & p1 & -> & Hpos & Hread & Hd1 & Hi1 & Hl1); [by rewrite Hk|done|done|].
  cbn [mbind res_bind]. destruct (Z.ltb_spec n 0); [lia|]. destruct (Z.eqb_spec n 0); [lia|]. rewrite <- Hy, Hread, Hr.
  set (d1 := take (Z.to_nat (size - nrecv)) d). assert (0 < zlen d1 <= size - nrecv) as Hd1l.
  { unfold d1. rewrite length_take. destruct d; [done|cbn; lia]. }
  destruct (Z.eqb_spec (zlen d1) 0); [lia|].
  destruct (append_ok b d1 Hb Hc) as (b1 & -> & Ho & Hct & Hl2 & _ & Hcap); [intros E; rewrite E in Hd1l; cbn in Hd1l; lia|lia|].
  cbn [mbind res_bind negb]. cbn [concat] in Hall |- *. rewrite length_app in Hall.
  destruct (Z.leb_spec size (nrecv + zlen d1)).
  - eexists _, p1. split; [repeat f_equal; lia|]. split; [done|]. rewrite Hct. f_equal. unfold d1 in *. rewrite length_take in *.
    by rewrite take_app_le by lia.
  - assert (d1 = d) as Ed. { unfold d1 in *. rewrite length_take in *. apply take_ge. lia. } rewrite Ed in *. clear d1 Ed.
    destruct (IH (AddLength b1 (zlen d)) p1 (nrecv + zlen d) (sub64 (now_ x) start) (mkPollfd (fd y) (events y) m))
      as (b' & p' & E & Ho' & Hc'); [done|lia|done|done|done|lia|lia|lia|lia|].
    exists b', p'. rewrite <- Hy in E. split; [exact E|]. split; [done|]. rewrite Hc', Hct, <- app_assoc. f_equal.
    rewrite take_app_ge by lia. do 2 f_equal. lia.
Qed.

(** *** Sending *)

(** Results that [write] can give while [left] bytes are left. *)
Fixpoint writes_fit (left : Z) (ws : list (write_result * Z)) : Prop :=
  match ws with
  | [] => True
  | (Wrote n, _) :: ws' => 0 <= n <= left /\ writes_fit (left - n) ws'
  | (WriteErr _, _) :: _ => True
  end.

Lemma send_loop_ok (b : AutoBuffer) (N timeout start : Z) (full : bool) (ws : list (write_result * Z)) :
  owned b -> 0 <= pos_ b -> N < 2 ^ 31 -> pos_ b + N <= length_ b < 2 ^ 62 ->
  forall nsend, 0 <= nsend <= N -> writes_fit (N - nsend) ws ->
  exists r b' out rest, send_loop b N timeout start full nsend ws = Ok (r, b', out) /\
    out ++ rest = take (Z.to_nat (N - nsend)) (drop (Z.to_nat (pos_ b + nsend)) (contents b)) /\
    contents b' = contents b /\
    forall n, r = Some n -> n = -1 /\ pos_ b' = pos_ b \/
      n = nsend + zlen out /\ pos_ b' = if full && (N <=? n) then pos_ b else pos_ b + n.
Proof.
  intros Hb Hp HN HL. induction ws as [|[w now] ws IH]; intros nsend Hn Hw.
  { exists None, b, []. eexists. cbn. split_and!; done. }
  cbn [send_loop]. set (all := take (Z.to_nat (N - nsend)) (drop (Z.to_nat (pos_ b + nsend)) (contents b))).
  assert ((if N - nsend =? 0 then Ok [] else load b (Pos b + nsend) (wrap64 (N - nsend))) = Ok all) as ->.
  { unfold all. destruct (Z.eqb_spec (N - nsend) 0) as [->|]; [done|]. unfold Pos. rewrite wrap64_id by lia. apply load_contents; lia || done. }
  cbn [mbind res_bind]. destruct w as [n|e].
  2:{ exists (Some (-1)), b, [], all. cbn. split_and!; try done. intros n [= <-]. by left. }
  destruct Hw as [Hnl Hw]. rewrite to_int_id by lia. set (out := take (Z.to_nat n) all).
  assert (zlen out = n) as Hout.
  { unfold out, all. rewrite !length_take, length_drop. pose proof (contents_length b Hb). lia. }
  assert (out ++ drop (Z.to_nat n) all = all) as Hsplit by apply take_drop.
  destruct (Z.leb_spec n 0).
  { eexists _, b, out, _. split_and!; [done|exact Hsplit|done|]. intros k [= <-]. by left. }
  destruct full; cbn [negb andb].
  2:{ eexists _, _, out, _. split_and!; [done|exact Hsplit|done|]. intros k [= <-]. right. split; [lia|]. cbn. apply add64_id. lia. }
  destruct (Z.leb_spec N (nsend + n)).
  { eexists _, b, out, _. split_and!; [done|exact Hsplit|done|]. intros k [= <-]. right. split; [lia|].
    destruct (Z.leb_spec N (nsend + n)); [done|lia]. }
  destruct (_ <? _).
  { eexists _, _, out, _. split_and!; [done|exact Hsplit|done|]. intros k [= <-]. right. split; [lia|].
    destruct (Z.leb_spec N (nsend + n)); [lia|]. cbn. apply add64_id. lia. }
  destruct (IH (nsend + n)) as (r & b' & out' & rest & -> & Ho & Hc & Hr); [lia|by replace (N - (nsend + n)) with (N - nsend - n) by lia|].
  cbn [mbind res_bind]. exists r, b', (out ++ out'), rest. split_and!; [done| |done|].
  - rewrite <- app_assoc, Ho, <- Hsplit. f_equal. unfold all. rewrite skipn_firstn_comm, drop_drop. f_equal; [lia|]. f_equal. lia.
  - intros k Hk. rewrite length_app. destruct (Hr k Hk) as [?|[-> ?]]; [by left|right]. split; [lia|done].
Qed.

(** The buffer of [BlockSocketSend] and what it will send. *)
Lemma send_total (b : AutoBuffer) (size : Z) :
  owned b -> 0 <= pos_ b <= length_ b -> length_ b < 2 ^ 62 -> 0 <= size < 2 ^ 62 ->
  forall timeout full start ws,
  BlockSocketSend b size timeout full start ws = send_loop b (Z.min (length_ b - pos_ b) size) timeout start full 0 ws.
Proof.
  intros Hb Hp Hl Hs timeout full start ws. unfold BlockSocketSend. cbv zeta. f_equal. unfold Length, Pos. rewrite sub64_id by lia.
  assert (forall z, 0 <= z < 2 ^ 62 -> to_long z = z) as Hid.
  { intros z Hz. unfold to_long. rewrite Z.mod_small by lia. destruct (Z.ltb_spec z (2 ^ 63)); lia. }
  rewrite !Hid, wrap64_id by lia. destruct (Z.ltb_spec size (length_ b - pos_ b)); lia.
Qed.

(** ** Theorems *)

(** The list of descriptors a [SocketPoll] keeps is a finite map from descriptors to the events asked
    for: after any calls, each descriptor is there once, with the union of what was asked for since it
    was last removed; negative descriptors are ignored. *)
Theorem poll_refines (os : list poll_op) :
  watched (foldl do_poll_op new_SocketPoll os) = foldl spec_poll_op ∅ os /\
  distinct (foldl do_poll_op new_SocketPoll os).
Proof. apply (do_poll_ops_ok os new_SocketPoll). apply NoDup_nil_2. Qed.

(** [BlockSocketReceive] appends what arrives to the buffer, in order, at most as many bytes as asked
    for, and never writes outside it, whatever [poll] and [read] do and however often it waits. Its
    result is the number of bytes, unless [poll] fails ([-1]) or the peer closes ([0], also when bytes
    have arrived before). *)
Theorem BlockSocketReceive_appends (socket : Z) (b : AutoBuffer) (p : SocketPoll) (size timeout : Z) (full : bool)
    (start : Z) (xs : list receive_io)
    (Hb : owned b) (Hcap : capacity_ b < 2 ^ 60) (Hsize : 0 < size < 2 ^ 60) (Hne : pollfds_ p <> [])
    (Hms : Forall (masks_ok (length (pollfds_ p))) xs) :
  exists r b' p' d, BlockSocketReceive socket b p size timeout full start xs = Ok (r, b', p') /\
    owned b' /\ contents b' = contents b ++ d /\ zlen d <= size /\ watched p' = watched p /\
    forall n, r = Some n ->
      n = zlen d \/ (n = -1 /\ exists x e, x ∈ xs /\ polled x = PollErr e) \/
      (n = 0 /\ exists x, x ∈ xs /\ (read_ x = ReadEof \/ read_ x = ReadData [])).
Proof.
  unfold BlockSocketReceive. destruct (room_ok b size Hb ltac:(lia) Hcap) as (b1 & -> & Ho & Hc & Hl & Hp & Hr).
  cbn [mbind res_bind].
  destruct (receive_loop_ok socket size (if timeout <? -1 then -1 else timeout) start full xs b1 p 0 0)
    as (r & b' & p' & d & E & Ho' & Hc' & _ & Hd & Hw & Hres); [done|lia|lia|lia|done|done|].
  exists r, b', p', d. rewrite <- Hc. split_and!; try done. lia.
Qed.

Lemma BlockSocketReceive_appends_witness :
  exists r b' p' d, BlockSocketReceive 3 (AutoBuffer.new 128) (SetEventRead new_SocketPoll 3) 10 5000 false 0
    [mkReceive (Polled [POLLIN]) (ReadData (str "hello")) 1] = Ok (r, b', p') /\ contents b' = d /\ zlen d <= 10.
Proof.
  destruct (BlockSocketReceive_appends 3 (AutoBuffer.new 128) (SetEventRead new_SocketPoll 3) 10 5000 false 0
    [mkReceive (Polled [POLLIN]) (ReadData (str "hello")) 1]) as (r & b' & p' & d & E & _ & Hc & Hd & _);
    [by apply new_owned|cbn; lia|lia|discriminate|by repeat constructor|].
  exists r, b', p', d. split_and!; [exact E|exact Hc|exact Hd].
Defined.

(** With [_wait_full], once at least as many bytes as asked for have arrived, in whatever pieces,
    [BlockSocketReceive] returns that many, and the buffer got exactly the first of them. *)
Theorem BlockSocketReceive_full (socket : Z) (b : AutoBuffer) (p : SocketPoll) (size timeout start : Z) (i : nat) (y : pollfd)
    (xs : list receive_io) (chunks : list bytes)
    (Hb : owned b) (Hcap : capacity_ b < 2 ^ 60) (Hsize : 0 < size < 2 ^ 60) (Hd : distinct p)
    (Hi : pollfds_ p !! i = Some y) (Hy : fd y = socket) (Hx : Forall2 (brings i (length (pollfds_ p))) xs chunks)
    (Hall : size <= zlen (concat chunks)) :
  exists b' p', BlockSocketReceive socket b p size timeout true start xs = Ok (Some size, b', p') /\
    owned b' /\ contents b' = contents b ++ take (Z.to_nat size) (concat chunks).
Proof.
  unfold BlockSocketReceive. destruct (room_ok b size Hb ltac:(lia) Hcap) as (b1 & -> & Ho & Hc & Hl & Hp & Hr).
  cbn [mbind res_bind].
  destruct (receive_loop_full socket size (if timeout <? -1 then -1 else timeout) start i _ xs chunks Hx b1 p 0 0 y)
    as (b' & p' & E & Ho' & Hc'); [done..|lia|lia|lia|lia|]. rewrite Z.sub_0_r, Hc in Hc'. by exists b', p'.
Qed.

Lemma BlockSocketReceive_full_witness :
  exists b' p', BlockSocketReceive 3 (AutoBuffer.new 128) (SetEventRead new_SocketPoll 3) 6 5000 true 0
    [mkReceive (Polled [POLLIN]) (ReadData (str "hel")) 1; mkReceive (Polled [POLLIN]) (ReadData (str "lo you")) 2]
    = Ok (Some 6, b', p') /\ owned b' /\ contents b' = str "hello ".
Proof.
  apply (BlockSocketReceive_full 3 (AutoBuffer.new 128) (SetEventRead new_SocketPoll 3) 6 5000 0 0 (mkPollfd 3 POLLIN 0)
    [mkReceive (Polled [POLLIN]) (ReadData (str "hel")) 1; mkReceive (Polled [POLLIN]) (ReadData (str "lo you")) 2]
    [str "hel"; str "lo you"]); [by apply new_owned|cbn; lia|lia|apply NoDup_singleton|reflexivity|reflexivity| |vm_compute; discriminate].
  repeat constructor; try discriminate; exists [POLLIN], POLLIN; repeat split; discriminate.
Defined.

(** [BlockSocketSend] sends the bytes of the buffer from its position on, at most [_buff_size] of them,
    each once and in order, whatever [write] takes. Unless a [write] fails, its result is the number of
    bytes that left. The position of the buffer is moved past them, but not when everything was sent
    with [_wait_full], nor when a later [write] fails. *)
Theorem BlockSocketSend_in_order (b : AutoBuffer) (size timeout : Z) (full : bool) (start : Z) (ws : list (write_result * Z))
    (Hb : owned b) (Hp : 0 <= pos_ b <= length_ b) (Hl : length_ b < 2 ^ 62) (Hs : 0 <= size < 2 ^ 31)
    (Hw : writes_fit (Z.min (length_ b - pos_ b) size) ws) :
  exists r b' out rest, BlockSocketSend b size timeout full start ws = Ok (r, b', out) /\
    out ++ rest = take (Z.to_nat size) (drop (Z.to_nat (pos_ b)) (contents b)) /\ contents b' = contents b /\
    forall n, r = Some n ->
      n = -1 /\ pos_ b' = pos_ b \/
      n = zlen out /\ pos_ b' = if full && bool_decide (rest = []) then pos_ b else pos_ b + n.
Proof.
  rewrite send_total by lia || done. set (N := Z.min (length_ b - pos_ b) size) in *.
  destruct (send_loop_ok b N timeout start full ws Hb ltac:(lia) ltac:(lia) ltac:(lia) 0) as (r & b' & out & rest & E & Ho & Hc & Hr);
    [lia|by rewrite Z.sub_0_r|]. rewrite Z.add_0_r, Z.sub_0_r in Ho. exists r, b', out, rest. split; [done|].
  pose proof (contents_length b Hb) as Hlen. split_and!; [|done|].
  - rewrite Ho. unfold N. destruct (Z.min_spec (length_ b - pos_ b) size) as [[? ->]|[? ->]]; [|done].
    rewrite !take_ge by (rewrite length_drop; lia). done.
  - intros n Hn. destruct (Hr n Hn) as [?|[-> Hpos]]; [by left|right]. split; [lia|]. rewrite Hpos. rewrite Z.add_0_l.
    pose proof (f_equal length Ho) as Hlo. rewrite length_app, length_take, length_drop in Hlo. destruct full; [|done]. cbn [andb].
    destruct (Z.leb_spec N (zlen out)); destruct (bool_decide_reflect (rest = [])) as [->|Hne]; try done.
    + destruct rest; [done|cbn in Hlo; lia].
    + cbn in Hlo. lia.
Qed.

Lemma BlockSocketSend_in_order_witness :
  exists r b' out rest,
    BlockSocketSend (mkAutoBuffer POwn false (str "message!") 0 8 8 8) 100 5000 true 0 [(Wrote 3, 1); (Wrote 5, 2)] = Ok (r, b', out) /\
    out ++ rest = str "message!".
Proof.
  destruct (BlockSocketSend_in_order (mkAutoBuffer POwn false (str "message!") 0 8 8 8) 100 5000 true 0 [(Wrote 3, 1); (Wrote 5, 2)])
    as (r & b' & out & rest & E & Ho & _); [split; cbn; try done; lia|cbn; lia|cbn; lia|lia|cbn; lia|].
  exists r, b', out, rest. split; [exact E|exact Ho].
Defined.

End BlockSocket.
