(* ===== verification/SocketEpoll.v ===== *)
(** * Epoll (socket/socketepoll.h, socket/socketepoll.cc)

    The wrapper of an epoll instance and the notifier with which other
    threads wake a thread that waits for events. What the system calls return
    is an argument; the interest list, which the kernel keeps, is part of the
    state and follows the successful calls of [epoll_ctl]. *)
From stdpp Require Import gmap.
From S2P Require Import Prelude AutoBuffer UnixSocket.

Module SocketEpoll.
Import UnixSocket.

(** ** Definitions *)

Definition EPOLLIN : Z := 1.
Definition EPOLLOUT : Z := 4.
Definition EPOLLERR : Z := 8.
Definition EPOLLHUP : Z := 16.
Definition EPOLLET : Z := 2 ^ 31.
Definition EINTR : Z := 4.

(** [struct epoll_event]: the flags, and the union [data] as its 64 bits. *)
Record epoll_event := mkEvent { events : Z; data : Z }.

(** [data.fd]: the lower half of the union, as an [int]. *)
Definition data_fd (ev : epoll_event) : Z := to_int (data ev).

(** [data.fd = fd] leaves the upper half as it is; [junk] is what it holds. *)
Definition set_data_fd (fd junk : Z) : Z := wrap32 junk * 2 ^ 32 + wrap32 fd.

Definition kMaxFds : Z := 1024.

Record SocketEpoll := mkEpoll {
  epoll_fd_ : Z;
  listen_fd_ : Z;
  epoll_events_ : list epoll_event;
  errno_ : Z;
  interest_ : gmap Z epoll_event
}.

(** The constructor: [ret] is what [epoll_create1] returns; [fresh] is the
    uninitialised array that [new] gives. *)
Definition new_SocketEpoll (max_fds : Z) (fresh : list epoll_event) (ret : Z) : SocketEpoll :=
  if max_fds <=? 0 then mkEpoll INVALID_SOCKET INVALID_SOCKET [] 0 ∅
  else mkEpoll (if ret <? 0 then INVALID_SOCKET else ret) INVALID_SOCKET (take (Z.to_nat max_fds) fresh) 0 ∅.

Inductive ctl_op := EPOLL_CTL_ADD | EPOLL_CTL_MOD | EPOLL_CTL_DEL.

(** What a successful [epoll_ctl] does to the interest list. *)
Definition ctl_apply (op : ctl_op) (fd : Z) (ev : option epoll_event) (l : gmap Z epoll_event) : gmap Z epoll_event :=
  match op, ev with
  | EPOLL_CTL_DEL, _ => delete fd l
  | _, Some ev => <[fd := ev]> l
  | _, None => l
  end.

(** [ctl] is what [epoll_ctl] returns, with the error number. *)
Definition __EpollCtl (e : SocketEpoll) (op : ctl_op) (fd : Z) (ev : option epoll_event) (ctl : Z * Z)
    : res (Z * SocketEpoll) :=
  if fd <? 0 then Ok (-1, e)
  else
    _ ← assert_ (0 <? epoll_fd_ e);
    let '(ret, err) := ctl in
    if ret <? 0 then Ok (ret, mkEpoll (epoll_fd_ e) (listen_fd_ e) (epoll_events_ e) err (interest_ e))
    else Ok (ret, mkEpoll (epoll_fd_ e) (listen_fd_ e) (epoll_events_ e) (errno_ e)
                    (ctl_apply op fd ev (interest_ e))).

(** [AddSocketRead(fd, data)]: the second argument is not used. *)
Definition AddSocketRead_data (e : SocketEpoll) (fd _data junk : Z) (ctl : Z * Z) : res (Z * SocketEpoll) :=
  __EpollCtl e EPOLL_CTL_ADD fd (Some (mkEvent (Z.lor EPOLLIN EPOLLET) (set_data_fd fd junk))) ctl.

Definition AddSocketRead (e : SocketEpoll) (fd junk : Z) (ctl : Z * Z) : res (Z * SocketEpoll) :=
  AddSocketRead_data e fd fd junk ctl.

Definition AddSocketReadWrite (e : SocketEpoll) (fd dat : Z) (ctl : Z * Z) : res (Z * SocketEpoll) :=
  __EpollCtl e EPOLL_CTL_ADD fd (Some (mkEvent (Z.lor (Z.lor EPOLLIN EPOLLOUT) EPOLLET) dat)) ctl.

Definition ModSocketWrite (e : SocketEpoll) (fd dat : Z) (ctl : Z * Z) : res (Z * SocketEpoll) :=
  __EpollCtl e EPOLL_CTL_MOD fd (Some (mkEvent (Z.lor EPOLLOUT EPOLLET) dat)) ctl.

Definition DelSocket (e : SocketEpoll) (fd : Z) (ctl : Z * Z) : res (Z * SocketEpoll) :=
  __EpollCtl e EPOLL_CTL_DEL fd None ctl.

(** What [epoll_wait] does: it stores events at the start of the array it was
    given, or fails. *)
Inductive wait_result :=
| Ready (evs : list epoll_event)
| WaitErr (errno : Z).

Definition store_events (e : SocketEpoll) (evs : list epoll_event) : res SocketEpoll :=
  if (length evs <=? length (epoll_events_ e))%nat
  then Ok (mkEpoll (epoll_fd_ e) (listen_fd_ e) (evs ++ drop (length evs) (epoll_events_ e)) (errno_ e)
             (interest_ e))
  else Fault Undefined.

(** The loop of [EpollWait]: [retry] calls are left; [ws] are their results,
    nothing being ready when there are no more. *)
Fixpoint wait_loop (retry : nat) (e : SocketEpoll) (ws : list wait_result) : res (Z * SocketEpoll) :=
  match retry with
  | O => Ok (-1, e)
  | S retry' =>
      match default (Ready []) (head ws) with
      | WaitErr err =>
          if err =? EINTR then wait_loop retry' e (tail ws)
          else Ok (-1, mkEpoll (epoll_fd_ e) (listen_fd_ e) (epoll_events_ e) err (interest_ e))
      | Ready evs => e ← store_events e evs; Ok (zlen evs, e)
      end
  end.

(** [while (--retry)] from 10 makes nine calls. *)
Definition EpollWait (e : SocketEpoll) (ws : list wait_result) : res (Z * SocketEpoll) :=
  _ ← assert_ (0 <? epoll_fd_ e);
  wait_loop 9 e ws.

Definition in_range (idx : Z) : bool := (0 <=? idx) && (idx <? kMaxFds).

(** [epoll_events_\[idx\]] *)
Definition event_at (e : SocketEpoll) (idx : Z) : res epoll_event :=
  match epoll_events_ e !! Z.to_nat idx with Some ev => Ok ev | None => Fault Undefined end.

Definition GetSocket (e : SocketEpoll) (idx : Z) : res Z :=
  if in_range idx then data_fd <$> event_at e idx else Ok INVALID_SOCKET.

Definition GetEpollDataPtr (e : SocketEpoll) (idx : Z) : res Z :=
  if in_range idx then data <$> event_at e idx else Ok 0.

Definition __IsFlagSet (e : SocketEpoll) (idx flag : Z) : res (option Z) :=
  if in_range idx then
    ev ← event_at e idx;
    Ok (if Z.land (events ev) flag =? 0 then None else Some (data ev))
  else Ok None.

Definition IsReadSet (e : SocketEpoll) (idx : Z) : res Z := default 0 <$> __IsFlagSet e idx EPOLLIN.
Definition IsWriteSet (e : SocketEpoll) (idx : Z) : res Z := default 0 <$> __IsFlagSet e idx EPOLLOUT.
Definition IsErrSet (e : SocketEpoll) (idx : Z) : res Z := default 0 <$> __IsFlagSet e idx EPOLLERR.

Definition IsNewConnect (e : SocketEpoll) (idx : Z) : res bool :=
  if in_range idx then (fun ev => data_fd ev =? listen_fd_ e) <$> event_at e idx else Ok false.

Definition SetListenFd (e : SocketEpoll) (listen_fd junk : Z) (ctl : Z * Z) : res SocketEpoll :=
  if listen_fd <? 0 then Ok e
  else
    '(_, e) ← AddSocketRead e listen_fd junk ctl;
    Ok (mkEpoll (epoll_fd_ e) listen_fd (epoll_events_ e) (errno_ e) (interest_ e)).

Definition GetErrNo (e : SocketEpoll) : Z := errno_ e.

(** *** The notifier *)

(** A [Notification] is its id; the id of a notification made by the default
    constructor is its own address, [this]. *)
Record Notification := mkNotification { notify_id_ : Z }.

Definition new_Notification (this : Z) : Notification := mkNotification this.

Definition Notification_eqb (a b : Notification) : bool := notify_id_ a =? notify_id_ b.

(** [attached_]: whether [socket_epoll_] is set; the instance itself is passed
    to the operations. *)
Record EpollNotifier := mkNotifier { socket_ : Socket; attached_ : bool }.

(** [fd], [flags], [ret]: what [socket] and the two calls of [fcntl] return. *)
Definition new_EpollNotifier (fd flags ret : Z) : res EpollNotifier :=
  '(r, s) ← Create (new_Socket INVALID_SOCKET) SOCK_STREAM fd;
  if r <? 0 then Ok (mkNotifier s false)
  else let '(_, s, _) := SetNonblocking s flags ret in Ok (mkNotifier s false).

Definition SetSocketEpoll (n : EpollNotifier) (e : SocketEpoll) (junk : Z) (ctl : Z * Z)
    : res (EpollNotifier * SocketEpoll) :=
  _ ← assert_ (negb (attached_ n));
  '(_, e) ← AddSocketRead e (FD (socket_ n)) junk ctl;
  Ok (mkNotifier (socket_ n) true, e).

Definition NotifyEpoll (n : EpollNotifier) (e : SocketEpoll) (notification : Notification) (ctl : Z * Z)
    : res SocketEpoll :=
  _ ← assert_ (attached_ n);
  '(_, e) ← ModSocketWrite e (FD (socket_ n)) (notify_id_ notification) ctl;
  Ok e.

(** The destructor of the notifier. *)
Definition delete_EpollNotifier (n : EpollNotifier) (e : SocketEpoll) (ctl : Z * Z) : res SocketEpoll :=
  let fd := FD (socket_ n) in
  if negb (fd =? INVALID_SOCKET) && attached_ n then '(_, e) ← DelSocket e fd ctl; Ok e else Ok e.

(** ** Specification *)

(** The events [epoll_wait] can report: for each descriptor at most one, with
    the data it is registered with, and with flags it is registered for or
    that are always reported. *)
Definition reports (e : SocketEpoll) (fds : list Z) (evs : list epoll_event) : Prop :=
  NoDup fds /\
  Forall2 (fun fd ev => exists reg, interest_ e !! fd = Some reg /\ data ev = data reg /\
             forall i, Z.testbit (events ev) i = true ->
               Z.testbit (Z.lor (events reg) (Z.lor EPOLLERR EPOLLHUP)) i = true) fds evs.

(** The first result that is not an interruption, among the first [n]. *)
Fixpoint first_answer (n : nat) (ws : list wait_result) : option wait_result :=
  match n with
  | O => None
  | S n' =>
      match default (Ready []) (head ws) with
      | WaitErr err => if err =? EINTR then first_answer n' (tail ws) else Some (WaitErr err)
      | w => Some w
      end
  end.

(** ** Lemmas *)

Lemma wait_loop_answer (n : nat) (e : SocketEpoll) (ws : list wait_result) :
  wait_loop n e ws =
  match first_answer n ws with
  | None => Ok (-1, e)
  | Some (WaitErr err) => Ok (-1, mkEpoll (epoll_fd_ e) (listen_fd_ e) (epoll_events_ e) err (interest_ e))
  | Some (Ready evs) => e ← store_events e evs; Ok (zlen evs, e)
  end.
Proof.
  revert ws. induction n as [|n IH]; intros ws; [done|]. cbn [wait_loop first_answer].
  destruct (default (Ready []) (head ws)) as [evs|err]; [done|]. by destruct (err =? EINTR).
Qed.

Lemma event_at_stored (e e' : SocketEpoll) (evs : list epoll_event) (i : nat) (ev : epoll_event) :
  store_events e evs = Ok e' -> evs !! i = Some ev -> event_at e' (Z.of_nat i) = Ok ev.
Proof.
  unfold store_events, event_at. intros E Hi. destruct (_ <=? _)%nat; [|done]. injection E as <-.
  cbn [epoll_events_]. rewrite Nat2Z.id, lookup_app_l by (by eapply lookup_lt_Some). by rewrite Hi.
Qed.

(** What the accessors say of an event that was stored. *)
Lemma stored_accessors (e e' : SocketEpoll) (evs : list epoll_event) (i : nat) (ev : epoll_event) :
  store_events e evs = Ok e' -> evs !! i = Some ev -> Z.of_nat i < kMaxFds ->
  let flag f := if Z.land (events ev) f =? 0 then 0 else data ev in
  GetEpollDataPtr e' (Z.of_nat i) = Ok (data ev) /\ GetSocket e' (Z.of_nat i) = Ok (data_fd ev) /\
  IsErrSet e' (Z.of_nat i) = Ok (flag EPOLLERR) /\ IsReadSet e' (Z.of_nat i) = Ok (flag EPOLLIN) /\
  IsWriteSet e' (Z.of_nat i) = Ok (flag EPOLLOUT) /\
  IsNewConnect e' (Z.of_nat i) = Ok (data_fd ev =? listen_fd_ e).
Proof.
  intros E Hi Hm flag. pose proof (event_at_stored e e' evs i ev E Hi) as Ha.
  assert (listen_fd_ e' = listen_fd_ e) as Hl.
  { unfold store_events in E. destruct (_ <=? _)%nat; [|done]. by injection E as <-. }
  unfold GetEpollDataPtr, GetSocket, IsErrSet, IsReadSet, IsWriteSet, IsNewConnect, __IsFlagSet, in_range.
  destruct (Z.leb_spec 0 (Z.of_nat i)); [|lia]. destruct (Z.ltb_spec (Z.of_nat i) kMaxFds); [|lia].
  cbn [andb]. rewrite Ha, Hl. cbn. unfold flag. by repeat destruct (_ =? 0).
Qed.

Lemma EpollCtl_ok (e : SocketEpoll) (op : ctl_op) (fd : Z) (ev : epoll_event) :
  0 <= fd -> 0 < epoll_fd_ e ->
  __EpollCtl e op fd (Some ev) (0, 0)
  = Ok (0, mkEpoll (epoll_fd_ e) (listen_fd_ e) (epoll_events_ e) (errno_ e)
             (ctl_apply op fd (Some ev) (interest_ e))).
Proof.
  intros Hfd He. unfold __EpollCtl. destruct (Z.ltb_spec fd 0); [lia|].
  by destruct (Z.ltb_spec 0 (epoll_fd_ e)); [|lia].
Qed.

Lemma EpollWait_ready (e : SocketEpoll) (evs : list epoll_event) (ws : list wait_result) :
  0 < epoll_fd_ e -> (length evs <= length (epoll_events_ e))%nat ->
  exists e', store_events e evs = Ok e' /\ EpollWait e (Ready evs :: ws) = Ok (zlen evs, e').
Proof.
  intros He Hl. unfold EpollWait. destruct (Z.ltb_spec 0 (epoll_fd_ e)); [|lia].
  cbn [assert_ mbind res_bind]. rewrite wait_loop_answer. cbn. unfold store_events.
  destruct (Nat.leb_spec (length evs) (length (epoll_events_ e))); [|lia]. by eexists.
Qed.

(** ** Properties *)

(** [EpollWait] makes at most nine calls: its result is that of the first one that is not
    interrupted by a signal, whose events are then at the start of the array; when all nine are
    interrupted it returns -1 and leaves [errno_] as it was, so that [GetErrNo] does not tell an
    interruption from an error. *)
Theorem EpollWait_answers (e : SocketEpoll) (ws : list wait_result)
    (He : 0 < epoll_fd_ e) :
  match first_answer 9 ws with
  | None => EpollWait e ws = Ok (-1, e)
  | Some (WaitErr err) =>
      err <> EINTR /\ exists e', EpollWait e ws = Ok (-1, e') /\ GetErrNo e' = err /\ interest_ e' = interest_ e
  | Some (Ready evs) =>
      (length evs <= length (epoll_events_ e))%nat ->
      exists e', EpollWait e ws = Ok (zlen evs, e') /\ take (length evs) (epoll_events_ e') = evs /\
        length (epoll_events_ e') = length (epoll_events_ e) /\ interest_ e' = interest_ e /\
        GetErrNo e' = GetErrNo e
  end.
Proof.
  unfold EpollWait. destruct (Z.ltb_spec 0 (epoll_fd_ e)); [|lia]. cbn [assert_ mbind res_bind].
  rewrite wait_loop_answer. generalize 9%nat as n. intros n.
  assert (forall err, first_answer n ws = Some (WaitErr err) -> err <> EINTR) as Hne.
  { clear. revert ws. induction n as [|n IH]; intros ws err; [done|]. cbn [first_answer].
    destruct (default (Ready []) (head ws)) as [|err']; [done|].
    destruct (Z.eqb_spec err' EINTR); [apply IH|by intros [= <-]]. }
  destruct (first_answer n ws) as [[evs|err]|]; [|split; [by apply Hne|by eexists]|done].
  intros Hl. unfold store_events. destruct (Nat.leb_spec (length evs) (length (epoll_events_ e))); [|lia].
  eexists. split; [done|]. cbn. split_and!; [by rewrite take_app_length| |done|done].
  rewrite length_app, length_drop. lia.
Qed.

Definition demo_epoll : SocketEpoll := new_SocketEpoll 1024 (replicate 1024 (mkEvent 0 0)) 5.

Lemma EpollWait_answers_witness :
  exists e', EpollWait demo_epoll [WaitErr EINTR; Ready [mkEvent EPOLLIN 9]] = Ok (1, e') /\
    take 1 (epoll_events_ e') = [mkEvent EPOLLIN 9].
Proof.
  destruct (EpollWait_answers demo_epoll [WaitErr EINTR; Ready [mkEvent EPOLLIN 9]]) as (e' & E & H & _);
    [vm_compute; reflexivity|vm_compute; lia|by exists e'].
Defined.

(** A notification reaches the waiting thread as itself: after [NotifyEpoll], whatever the
    descriptor of the notifier was registered with before, the event that epoll reports for it is
    a write event, not an error and not readable, and its data compare equal to the notification
    that was sent last and to no other. *)
Theorem notification_arrives (n : EpollNotifier) (e : SocketEpoll) (note : Notification) (fds : list Z)
    (evs : list epoll_event) (i : nat)
    (He : 0 < epoll_fd_ e) (Ha : attached_ n = true) (Hfd : 0 <= FD (socket_ n))
    (Hroom : (length evs <= length (epoll_events_ e))%nat) (Hmax : (length evs <= 1024)%nat)
    (Hnot : fds !! i = Some (FD (socket_ n))) :
  exists e1, NotifyEpoll n e note (0, 0) = Ok e1 /\
    (reports e1 fds evs ->
     Forall (fun ev => Z.land (events ev) EPOLLERR = 0) evs ->
     exists e2, EpollWait e1 [Ready evs] = Ok (zlen evs, e2) /\ IsErrSet e2 (Z.of_nat i) = Ok 0 /\
       IsReadSet e2 (Z.of_nat i) = Ok 0 /\
       forall other, exists d, GetEpollDataPtr e2 (Z.of_nat i) = Ok d /\
         Notification_eqb (mkNotification d) other = Notification_eqb note other).
Proof.
  unfold NotifyEpoll. rewrite Ha. cbn [assert_ mbind res_bind]. unfold ModSocketWrite.
  rewrite EpollCtl_ok by done. cbn [mbind res_bind ctl_apply]. eexists. split; [done|].
  intros [_ Hrep] Herr. destruct (Forall2_lookup_l _ _ _ _ _ Hrep Hnot) as (ev & Hev & reg & Hreg & Hd & Hbits).
  cbn [interest_] in Hreg. rewrite lookup_insert_eq in Hreg. injection Hreg as <-. cbn [data events] in Hd, Hbits.
  match goal with |- context [EpollWait ?e1 _] =>
    destruct (EpollWait_ready e1 evs [] He Hroom) as (e2 & Hst & ->);
    destruct (stored_accessors e1 e2 evs i ev Hst Hev) as (G1 & _ & G2 & G3 & _)
  end; [pose proof (lookup_lt_Some _ _ _ Hev); unfold kMaxFds; lia|].
  exists e2. split; [done|].
  split_and!.
  - rewrite G2. rewrite Forall_lookup in Herr. specialize (Herr _ _ Hev). cbn in Herr. by rewrite Herr.
  - rewrite G3. replace (Z.land (events ev) EPOLLIN) with 0; [done|]. symmetry.
    apply Z.bits_inj'. intros k Hk. rewrite Z.bits_0, Z.land_spec. unfold EPOLLIN.
    destruct (decide (k = 0)) as [->|]; [|rewrite (Z.bits_above_log2 1); [by rewrite andb_false_r|lia|simpl; lia]].
    destruct (Z.testbit (events ev) 0) eqn:E0; [|done]. by apply Hbits in E0.
  - intros other. exists (notify_id_ note). split; [by rewrite G1, Hd|done].
Qed.

Definition demo_notifier : EpollNotifier :=
  mkNotifier (mkSocket 6 0 false false SOCK_STREAM true) true.

Lemma notification_arrives_witness :
  exists e1, NotifyEpoll demo_notifier demo_epoll (mkNotification 2) (0, 0) = Ok e1 /\
    exists e2, EpollWait e1 [Ready [mkEvent (EPOLLOUT + EPOLLHUP) 2]] = Ok (1, e2) /\ IsErrSet e2 0 = Ok 0.
Proof.
  destruct (notification_arrives demo_notifier demo_epoll (mkNotification 2) [6]
              [mkEvent (EPOLLOUT + EPOLLHUP) 2] 0) as (e1 & E1 & H);
    [vm_compute; reflexivity|done|vm_compute; discriminate|vm_compute; lia|vm_compute; lia|done|].
  exists e1. split; [done|]. destruct H as (e2 & E2 & H2 & _); [|by repeat constructor|by exists e2].
  split; [by repeat constructor; set_solver|]. constructor; [|constructor].
  unfold NotifyEpoll in E1. cbn in E1. injection E1 as <-. cbn.
  eexists. split; [by rewrite lookup_insert_eq|]. split; [done|].
  intros i. replace (EPOLLOUT + EPOLLHUP) with (Z.lor EPOLLOUT EPOLLHUP) by done. cbn [events].
  rewrite !Z.lor_spec. intros [-> | ->]%orb_true_iff; by rewrite ?orb_true_r.
Defined.

End SocketEpoll.
