(* ===== verification/TcpConnection.v ===== *)
(** * TCP connections (networkmodel/tcpconnection.h, tcpconnection.cc, applicationlayer.cc)

    A connection owns a socket, the bytes received so far, an application
    protocol parser and the packets it still has to send. The parser is
    used through the virtual methods of [ApplicationProtocolParser], a type
    class with instances for the HTTP and WebSocket parsers. *)
From stdpp Require Import gmap.
From S2P Require Import Prelude CLib StdMap AutoBuffer FirstLine HeaderField HttpPacket WebSocket UnixSocket.

Module TcpConnection.
Import AutoBuffer UnixSocket.

(** ** The application layer *)

Inductive TApplicationProtocol := kNone | kHttp1_1 | kHttp2_0 | kHttp3_0 | kWebSocket.

#[export] Instance TApplicationProtocol_eq_dec : EqDecision TApplicationProtocol.
Proof. solve_decision. Defined.

(** [ApplicationPacket::IsLongLink] *)
Definition IsLongLink (p : TApplicationProtocol) : bool := bool_decide (p = kWebSocket).

(** The virtual methods of [ApplicationProtocolParser]. [parser_Reset] also
    empties the receive buffer when the parser is one of a long link, and
    [renew_packet] is [AllocNewPacket] followed by [SetPacketToParse]. *)
Class ApplicationProtocolParser (P : Type) := {
  parser_DoParse : P -> bytes -> res (Z * P);
  parser_IsErr : P -> bool;
  parser_IsEnd : P -> bool;
  parser_IsUpgrade : P -> bool;
  parser_UpgradeTo : P -> TApplicationProtocol;
  parser_Protocol : P -> TApplicationProtocol;
  parser_Reset : P -> AutoBuffer -> P * AutoBuffer;
  renew_packet : P -> P
}.

#[export] Instance http_request_parser : ApplicationProtocolParser (HttpPacket.HttpParser HttpPacket.request_sub) := {
  parser_DoParse := @HttpPacket.DoParse _ HttpPacket.request_methods;
  parser_IsErr := HttpPacket.IsErr;
  parser_IsEnd := HttpPacket.IsEnd;
  parser_IsUpgrade := fun p => HttpPacket.is_upgrade_to_ws_ (HttpPacket.sub p);
  parser_UpgradeTo := fun p => if HttpPacket.is_upgrade_to_ws_ (HttpPacket.sub p) then kWebSocket else kNone;
  parser_Protocol := fun _ => kHttp1_1;
  parser_Reset := fun p b => (p, b);
  renew_packet := fun p => p
}.

#[export] Instance http_response_parser : ApplicationProtocolParser (HttpPacket.HttpParser FirstLine.StatusLine) := {
  parser_DoParse := @HttpPacket.DoParse _ HttpPacket.response_methods;
  parser_IsErr := HttpPacket.IsErr;
  parser_IsEnd := HttpPacket.IsEnd;
  parser_IsUpgrade := fun _ => false;
  parser_UpgradeTo := fun _ => kNone;
  parser_Protocol := fun _ => kHttp1_1;
  parser_Reset := fun p b => (p, b);
  renew_packet := fun p => p
}.

#[export] Instance websocket_parser : ApplicationProtocolParser WebSocket.WebSocketParser := {
  parser_DoParse := WebSocket.DoParse;
  parser_IsErr := WebSocket.IsErr;
  parser_IsEnd := WebSocket.IsEnd;
  parser_IsUpgrade := fun _ => false;
  parser_UpgradeTo := fun _ => kNone;
  parser_Protocol := fun _ => kWebSocket;
  parser_Reset := WebSocket.Reset;
  renew_packet := fun p => WebSocket.OnApplicationPacketChanged p WebSocket.AllocNewPacket
}.

(** ** Definitions *)

Inductive TConnectionType := kUnknown | kAcceptFrom | kConnectTo.

#[export] Instance TConnectionType_eq_dec : EqDecision TConnectionType.
Proof. solve_decision. Defined.

(** A packet to send. [sc_owner] is the connection object that made the
    context: [socket] points into it, and [MarkAsPendingPacket] and
    [OnSendDone] are bound to it. *)
Record SendContext := mkSendContext {
  sc_seq : Z;
  sc_tcp_connection_uid : Z;
  sc_owner : nat;
  sc_buffer : AutoBuffer;
  sc_is_tcp_conn_valid : bool
}.

Definition set_buffer (ctx : SendContext) (b : AutoBuffer) : SendContext :=
  mkSendContext (sc_seq ctx) (sc_tcp_connection_uid ctx) (sc_owner ctx) b (sc_is_tcp_conn_valid ctx).

(** The contexts are shared, through [SendContext::Ptr], by the connection
    that made them, the queues and whoever answers a request: they live in a
    memory, and a [SendContext::Ptr] is an address in it. Connections are
    told apart by the address at which they were allocated. An address is
    given out once. *)
Record memory := mkMemory {
  ctxs_ : gmap nat SendContext;
  next_ : nat
}.

(** The first addresses are those of the two [Notification] members of a
    network thread, whose ids are their own addresses. *)
Definition notification_stop_ : nat := 1.
Definition notification_send_ : nat := 2.

Definition new_memory : memory := mkMemory ∅ 3.

Definition alloc (m : memory) : nat * memory := (next_ m, mkMemory (ctxs_ m) (S (next_ m))).

Definition set_ctx (m : memory) (p : nat) (ctx : SendContext) : memory :=
  mkMemory (<[p := ctx]> (ctxs_ m)) (next_ m).

Record ConnectionProfile (P : Type) := mkConn {
  this_ : nat;
  uid_ : Z;
  conn_type : TConnectionType;
  application_protocol_ : TApplicationProtocol;
  is_longlink_app_proto_ : bool;
  remote_ip_ : bytes;
  remote_port_ : Z;
  socket_ : Socket;
  has_received_Fin_ : bool;
  record_ : Z;
  timeout_ts_ : Z;
  tcp_byte_arr_ : AutoBuffer;
  parser_ : option P;
  send_ctx_seq_ : Z;
  send_contexts_ : list nat;
  pending_send_ctx_ : list nat
}.
Arguments mkConn {P}.
Arguments this_ {P}.
Arguments uid_ {P}.
Arguments conn_type {P}.
Arguments application_protocol_ {P}.
Arguments is_longlink_app_proto_ {P}.
Arguments remote_ip_ {P}.
Arguments remote_port_ {P}.
Arguments socket_ {P}.
Arguments has_received_Fin_ {P}.
Arguments record_ {P}.
Arguments timeout_ts_ {P}.
Arguments tcp_byte_arr_ {P}.
Arguments parser_ {P}.
Arguments send_ctx_seq_ {P}.
Arguments send_contexts_ {P}.
Arguments pending_send_ctx_ {P}.

Definition kDefaultTimeout : Z := 10 * 1000.

Section Connection.
Context {P : Type} `{ApplicationProtocolParser P}.
Implicit Types c : ConnectionProfile P.

Definition new_ConnectionProfile (type : TConnectionType) (ip : bytes) (port uid now : Z)
    (this : nat) : ConnectionProfile P :=
  mkConn this uid type kNone false ip port (new_Socket INVALID_SOCKET) false now
    (add64 now kDefaultTimeout) (AutoBuffer.new kMallocUnit) None 0 [] [].

Definition set_socket c (s : Socket) : ConnectionProfile P :=
  mkConn (this_ c) (uid_ c) (conn_type c) (application_protocol_ c) (is_longlink_app_proto_ c) (remote_ip_ c)
    (remote_port_ c) s (has_received_Fin_ c) (record_ c) (timeout_ts_ c) (tcp_byte_arr_ c) (parser_ c)
    (send_ctx_seq_ c) (send_contexts_ c) (pending_send_ctx_ c).

Definition set_input c (s : Socket) (b : AutoBuffer) : ConnectionProfile P :=
  mkConn (this_ c) (uid_ c) (conn_type c) (application_protocol_ c) (is_longlink_app_proto_ c) (remote_ip_ c)
    (remote_port_ c) s (has_received_Fin_ c) (record_ c) (timeout_ts_ c) b (parser_ c)
    (send_ctx_seq_ c) (send_contexts_ c) (pending_send_ctx_ c).

Definition set_fin c : ConnectionProfile P :=
  mkConn (this_ c) (uid_ c) (conn_type c) (application_protocol_ c) (is_longlink_app_proto_ c) (remote_ip_ c)
    (remote_port_ c) (socket_ c) true (record_ c) (timeout_ts_ c) (tcp_byte_arr_ c) (parser_ c)
    (send_ctx_seq_ c) (send_contexts_ c) (pending_send_ctx_ c).

Definition set_parser c (p : P) : ConnectionProfile P :=
  mkConn (this_ c) (uid_ c) (conn_type c) (application_protocol_ c) (is_longlink_app_proto_ c) (remote_ip_ c)
    (remote_port_ c) (socket_ c) (has_received_Fin_ c) (record_ c) (timeout_ts_ c) (tcp_byte_arr_ c)
    (Some p) (send_ctx_seq_ c) (send_contexts_ c) (pending_send_ctx_ c).

Definition SetUid c (uid : Z) : ConnectionProfile P :=
  mkConn (this_ c) uid (conn_type c) (application_protocol_ c) (is_longlink_app_proto_ c) (remote_ip_ c)
    (remote_port_ c) (socket_ c) (has_received_Fin_ c) (record_ c) (timeout_ts_ c) (tcp_byte_arr_ c)
    (parser_ c) (send_ctx_seq_ c) (send_contexts_ c) (pending_send_ctx_ c).

Definition set_timeout c (t : Z) : ConnectionProfile P :=
  mkConn (this_ c) (uid_ c) (conn_type c) (application_protocol_ c) (is_longlink_app_proto_ c) (remote_ip_ c)
    (remote_port_ c) (socket_ c) (has_received_Fin_ c) (record_ c) t (tcp_byte_arr_ c) (parser_ c)
    (send_ctx_seq_ c) (send_contexts_ c) (pending_send_ctx_ c).

Definition set_sending c (seq : Z) (ctxs pending : list nat) : ConnectionProfile P :=
  mkConn (this_ c) (uid_ c) (conn_type c) (application_protocol_ c) (is_longlink_app_proto_ c) (remote_ip_ c)
    (remote_port_ c) (socket_ c) (has_received_Fin_ c) (record_ c) (timeout_ts_ c) (tcp_byte_arr_ c)
    (parser_ c) seq ctxs pending.

(** [ConnectionFrom]: the connection of an accepted descriptor. The results of
    [fcntl] and [setsockopt] are ignored; a new socket counts as nonblocking. *)
Definition ConnectionFrom (fd : Z) (ip : bytes) (port uid now : Z) (this : nat)
    : res (ConnectionProfile P) :=
  let c := new_ConnectionProfile kAcceptFrom ip port uid now this in
  _ ← assert_ (0 <? fd);
  s ← Set_ (socket_ c) fd;
  let s := SetConnected s true in
  let '(_, s, _) := SetNonblocking s 0 0 in
  _ ← SetTcpNoDelay s 0;
  Ok (set_socket c s).

(** [ConnectionTo]: [fd] is what [socket] returns. *)
Definition ConnectionTo (ip : bytes) (port uid now fd : Z) (this : nat) : res (ConnectionProfile P) :=
  let c := new_ConnectionProfile kConnectTo ip port uid now this in
  '(_, s) ← Create (socket_ c) SOCK_STREAM fd;
  Ok (set_socket c s).

(** [ConnectionTo::Connect]: [ret] is what [connect] returns. *)
Definition Connect (inet_addr : bytes -> Z) c (ret : Z) : res (Z * ConnectionProfile P) :=
  let '(ret, s, _) := UnixSocket.Connect inet_addr (socket_ c) (remote_ip_ c) (remote_port_ c) ret in
  if ret =? 0 then
    let '(_, s, _) := SetNonblocking s 0 0 in
    _ ← SetTcpNoDelay s 0;
    Ok (ret, set_socket c s)
  else Ok (ret, set_socket c s).

(** [ConfigApplicationLayer]: [fresh] is the new parser with its new packet. *)
Definition ConfigApplicationLayer c (fresh : P) : res (ConnectionProfile P) :=
  let upgrade := match parser_ c with Some p => parser_IsUpgrade p | None => false end in
  if (match parser_ c with Some _ => true | None => false end) && negb upgrade then Fault AssertFailed
  else
    let proto := parser_Protocol fresh in
    Ok (mkConn (this_ c) (uid_ c) (conn_type c) proto (IsLongLink proto) (remote_ip_ c) (remote_port_ c)
          (socket_ c) (has_received_Fin_ c) (record_ c) (timeout_ts_ c)
          (if upgrade then AutoBuffer.Reset (tcp_byte_arr_ c) else tcp_byte_arr_ c)
          (Some fresh) (send_ctx_seq_ c) (send_contexts_ c) (pending_send_ctx_ c)).

Definition ParseProtocol c : res (Z * ConnectionProfile P) :=
  match parser_ c with
  | None => Ok (-1, c)
  | Some p =>
      '(_, p) ← parser_DoParse p (contents (tcp_byte_arr_ c));
      Ok (if parser_IsErr p then -2 else 0, set_parser c p)
  end.

Definition IsParseDone c : res bool :=
  match parser_ c with
  | None => Fault AssertFailed
  | Some p => Ok (parser_IsEnd p)
  end.

(** One turn of the loop of [Receive]: [Some] the value returned, [None] to
    go on. *)
Definition receive_turn c (r : read_result) : res (option Z * ConnectionProfile P) :=
  '(n, has_more_data, s, b) ← UnixSocket.Receive (socket_ c) (tcp_byte_arr_ c) r;
  let c := set_input c s b in
  if IsEAgain s then Ok (Some 0, c)
  else if n <? 0 then Ok (Some (-1), c)
  else if n =? 0 then Ok (Some 0, set_fin c)
  else
    '(ret, c) ← ParseProtocol c;
    if (ret =? -1) || (ret =? -2) then Ok (Some (-1), c)
    else
      done ← IsParseDone c;
      Ok (if (done : bool) || negb has_more_data then Some 0 else None, c).

(** [Receive]: the results of its [read]s in order; when there is nothing
    more to read the descriptor, which does not block, gives [EAGAIN]. *)
Fixpoint Receive c (reads : list read_result) : res (Z * ConnectionProfile P) :=
  match reads with
  | [] =>
      '(o, c) ← receive_turn c (ReadErr EAGAIN);
      match o with Some ret => Ok (ret, c) | None => Fault Hang end
  | r :: reads' =>
      '(o, c) ← receive_turn c r;
      match o with Some ret => Ok (ret, c) | None => Receive c reads' end
  end.

Definition AddPendingPacketToSend c (p : nat) : ConnectionProfile P :=
  set_sending c (send_ctx_seq_ c) (send_contexts_ c) (pending_send_ctx_ c ++ [p]).

Definition HasPendingPacketToSend c : bool :=
  match pending_send_ctx_ c with [] => false | _ => true end.

(** The block of memory that holds what a connection has received: it moves
    when the buffer grows. *)
Definition recv_block c : Z := Z.of_nat (this_ c) * 2 ^ 64 + capacity_ (tcp_byte_arr_ c).

(** The bytes a [write] takes: it reads the buffer unless [Send] returns
    before the call. *)
Definition sent_bytes (deref : Z -> option bytes) (s : Socket) (b : AutoBuffer) (w : write_result) : res bytes :=
  if (fd_ s <=? 0) || (sub64 (Length b) (Pos b) =? 0) then Ok []
  else
    data ← bytes_of deref b;
    Ok (match w with
        | Wrote n => take (Z.to_nat n) (drop (Z.to_nat (Pos b)) data)
        | WriteErr _ => []
        end).

(** [TrySend] on the socket [s] of the context: whether all is sent, and the
    bytes that left the process. *)
Definition TrySend (deref : Z -> option bytes) (s : Socket) (m : memory) (ptr : option nat) (w : write_result)
    : res (bool * Socket * memory * bytes) :=
  match ptr with
  | None => Ok (false, s, m, [])
  | Some p =>
      match ctxs_ m !! p with
      | None => Fault Undefined
      | Some ctx =>
          out ← sent_bytes deref s (sc_buffer ctx) w;
          let '(done, _, s, b, _) := Send s (sc_buffer ctx) w in
          Ok (done, s, set_ctx m p (set_buffer ctx b), out)
      end
  end.

(** The number of the context at [p]. *)
Definition seq_of (m : memory) (p : nat) : option Z := sc_seq <$> ctxs_ m !! p.

Definition DelSendContext c (m : memory) (seq : Z) : ConnectionProfile P :=
  set_sending c (send_ctx_seq_ c) (filter (fun p => seq_of m p <> Some seq) (send_contexts_ c))
    (pending_send_ctx_ c).

(** [SendContextSendDoneCallback], with [gettickcount] giving [now]. *)
Definition SendContextSendDoneCallback c (m : memory) (p : nat) (now : Z) : ConnectionProfile P :=
  let c :=
    if is_longlink_app_proto_ c then c
    else
      let t := add64 now kDefaultTimeout in
      set_timeout c (if bool_decide (conn_type c = kConnectTo) then add64 t kDefaultTimeout else t) in
  match seq_of m p with
  | Some seq => DelSendContext c m seq
  | None => c
  end.

Definition pop_pending c : ConnectionProfile P :=
  set_sending c (send_ctx_seq_ c) (send_contexts_ c) (tail (pending_send_ctx_ c)).

(** The loop of [TrySendPendingPackets]: the results of its [write]s in
    order ([EAGAIN] when there are no more), and what each packet sent. *)
Fixpoint send_pending (deref : Z -> option bytes) (n : nat) c (m : memory) (ws : list write_result) (now : Z)
    : res (bool * ConnectionProfile P * memory * list (nat * bytes)) :=
  match n, pending_send_ctx_ c with
  | _, [] => Ok (true, c, m, [])
  | O, _ :: _ => Fault Hang
  | S n', p :: _ =>
      '(done, s, m, out) ← TrySend deref (socket_ c) m (Some p) (default (WriteErr EAGAIN) (head ws));
      let c := set_socket c s in
      if done : bool then
        let c := pop_pending (SendContextSendDoneCallback c m p now) in
        '(r, c, m, outs) ← send_pending deref n' c m (tail ws) now;
        Ok (r, c, m, (p, out) :: outs)
      else Ok (false, c, m, [(p, out)])
  end.

Definition TrySendPendingPackets (deref : Z -> option bytes) c (m : memory) (ws : list write_result) (now : Z)
    : res (bool * ConnectionProfile P * memory * list (nat * bytes)) :=
  send_pending deref (length (pending_send_ctx_ c)) c m ws now.

(** [IsTimeout]: [tick] is what [gettickcount] gives, used when [now] is 0. *)
Definition IsTimeout c (now tick : Z) : bool :=
  if is_longlink_app_proto_ c then false
  else if HasPendingPacketToSend c then false
  else timeout_ts_ c <? (if now =? 0 then tick else now).

Definition SendTcpFin c (ret : Z) : res Z := ShutDown (socket_ c) SHUT_WR ret.

Definition CloseTcpConnection c : ConnectionProfile P := set_socket c (Close (socket_ c)).

Definition IsTypeValid c : bool :=
  bool_decide (conn_type c = kAcceptFrom) || bool_decide (conn_type c = kConnectTo).

(** [IsUpgradeApplicationProtocol] and [ProtocolUpgradeTo] *)
Definition IsUpgradeApplicationProtocol c : bool :=
  match parser_ c with Some p => parser_IsUpgrade p | None => false end.

Definition ProtocolUpgradeTo c : TApplicationProtocol :=
  match parser_ c with
  | Some p => if parser_IsUpgrade p then parser_UpgradeTo p else kNone
  | None => kNone
  end.

Definition MakeSendContext c (m : memory) : nat * ConnectionProfile P * memory :=
  let seq := wrap32 (send_ctx_seq_ c + 1) in
  let '(p, m) := alloc m in
  let neo := mkSendContext seq (uid_ c) (this_ c) (AutoBuffer.new kMallocUnit) true in
  (p, set_sending c seq (send_contexts_ c ++ [p]) (pending_send_ctx_ c), set_ctx m p neo).

Record RecvContext := mkRecvContext {
  rc_tcp_connection_uid : Z;
  rc_fd : Z;
  rc_from_ip : bytes;
  rc_from_port : Z;
  rc_type : TConnectionType;
  rc_application_packet : option P;
  rc_return_packet : option nat
}.

(** [MakeRecvContext]: the packet handed on is the one the parser filled; a
    long link goes on with an empty buffer and a new packet. *)
Definition MakeRecvContext c (m : memory) (with_send_ctx : bool) : RecvContext * ConnectionProfile P * memory :=
  let packet := parser_ c in
  let c1 :=
    match parser_ c with
    | Some p =>
        if is_longlink_app_proto_ c then
          let '(p, b) := parser_Reset p (tcp_byte_arr_ c) in
          set_parser (set_input c (socket_ c) b) (renew_packet p)
        else c
    | None => c
    end in
  let '(ret, c2, m) :=
    if with_send_ctx then let '(p, c', m) := MakeSendContext c1 m in (Some p, c', m) else (None, c1, m) in
  (mkRecvContext (uid_ c) (FD (socket_ c)) (remote_ip_ c) (remote_port_ c) (conn_type c) packet ret, c2, m).

Definition set_return_packet (rc : RecvContext) (p : nat) : RecvContext :=
  mkRecvContext (rc_tcp_connection_uid rc) (rc_fd rc) (rc_from_ip rc) (rc_from_port rc) (rc_type rc)
    (rc_application_packet rc) (Some p).

(** The destructor tells the send contexts that the connection is gone. *)
Definition invalidate (ctx : SendContext) : SendContext :=
  mkSendContext (sc_seq ctx) (sc_tcp_connection_uid ctx) (sc_owner ctx) (sc_buffer ctx) false.

Definition destroy c (m : memory) : memory :=
  mkMemory (foldr (alter invalidate) (ctxs_ m) (send_contexts_ c)) (next_ m).

(** ** Specifications *)

(** A connection between two read events, with the bytes [a] received. *)
Record receiving c (a : bytes) (p : P) : Prop := {
  rv_eagain : is_eagain_ (socket_ c) = false;
  rv_owned : owned (tcp_byte_arr_ c);
  rv_contents : contents (tcp_byte_arr_ c) = a;
  rv_parser : parser_ c = Some p
}.

(** The read events of a connection: each brings one segment, until the
    packet is complete or in error. *)
Fixpoint read_events c (segments : list bytes) : res (Z * ConnectionProfile P) :=
  match segments with
  | [] => Ok (0, c)
  | d :: ds =>
      '(ret, c) ← Receive c [ReadData d];
      done ← IsParseDone c;
      if (ret <? 0) || (done : bool) then Ok (ret, c) else read_events c ds
  end.

(** The read events in which the segments of a stream are read: after a [read] that
    fills its buffer [Receive] reads on in the same event. *)
Fixpoint events_of (segments : list bytes) : list (list bytes) :=
  match segments with
  | [] => []
  | d :: ds =>
      match events_of ds with
      | e :: es => if zlen d =? kBufferSize then (d :: e) :: es else [d] :: e :: es
      | [] => [[d]]
      end
  end.

(** The parser alone on the same segments. *)
Fixpoint feed_parser (p : P) (a : bytes) (segments : list bytes) : res P :=
  match segments with
  | [] => Ok p
  | d :: ds =>
      '(_, p) ← parser_DoParse p (a ++ d);
      if parser_IsEnd p || parser_IsErr p then Ok p else feed_parser p (a ++ d) ds
  end.

(** Everything of a connection but what it has received. *)
Definition same_but_input c c' : Prop :=
  set_input c' (socket_ c) (tcp_byte_arr_ c) = c.

End Connection.

Arguments RecvContext P : clear implicits.

(** ** Lemmas *)

Section Theory.
Context {P : Type} `{ApplicationProtocolParser P}.
Implicit Types c : ConnectionProfile P.

(** One [read] that does not end the stream: [Receive] reads on when it filled the
    buffer and the packet is not complete. *)
Lemma Receive_read c (a d : bytes) (p : P) :
  receiving c a p -> capacity_ (tcp_byte_arr_ c) < 2 ^ 60 -> 0 < zlen d <= kBufferSize ->
  (exists f, parser_DoParse p (a ++ d) = Fault f /\ forall rs, Receive c (ReadData d :: rs) = Fault f) \/
  exists r q c', parser_DoParse p (a ++ d) = Ok (r, q) /\
    (forall rs, Receive c (ReadData d :: rs) =
       if parser_IsErr q then Ok (-1, c')
       else if parser_IsEnd q || negb (zlen d =? kBufferSize) then Ok (0, c') else Receive c' rs) /\
    receiving c' (a ++ d) q /\
    capacity_ (tcp_byte_arr_ c') <=
      capacity_ (tcp_byte_arr_ c) + kBufferSize + malloc_unit_size_ (tcp_byte_arr_ c) /\
    malloc_unit_size_ (tcp_byte_arr_ c') = malloc_unit_size_ (tcp_byte_arr_ c) /\
    exists b, c' = set_parser (set_input c (socket_ c) b) q.
Proof.
  intros [He Ho Hc Hp] Hcap Hd. cbn [Receive]. unfold receive_turn.
  destruct (Receive_data (socket_ c) (tcp_byte_arr_ c) d) as (b' & -> & Ho' & Hc' & _ & _ & Hu & Hcap');
    [done|done|lia|]. cbn [mbind res_bind]. unfold IsEAgain. rewrite He.
  destruct (Z.ltb_spec (zlen d) 0); [lia|]. destruct (Z.eqb_spec (zlen d) 0); [lia|].
  unfold ParseProtocol. cbn [parser_ set_input tcp_byte_arr_]. rewrite Hp, Hc', Hc.
  destruct (parser_DoParse p (a ++ d)) as [[r q]|f]; cbn [mbind res_bind]; [|left; eauto].
  right. exists r, q. destruct (parser_IsErr q) eqn:Eq.
  - eexists. split_and!; [done|done| |done|done|by eexists]. split; try done. cbn. congruence.
  - unfold IsParseDone. cbn [set_parser parser_ mbind res_bind].
    exists (set_parser (set_input c (socket_ c) b') q). split_and!; [done|intros rs; cbn; by destruct (_ || _)| |done|done|by eexists]. split; try done. cbn. congruence.
Qed.

(** One read event that neither fills the read buffer nor ends the stream. *)
Lemma Receive_segment c (a d : bytes) (p : P) :
  receiving c a p -> capacity_ (tcp_byte_arr_ c) < 2 ^ 60 -> 0 < zlen d < kBufferSize ->
  (exists f, parser_DoParse p (a ++ d) = Fault f /\ Receive c [ReadData d] = Fault f) \/
  exists r q c', parser_DoParse p (a ++ d) = Ok (r, q) /\
    Receive c [ReadData d] = Ok (if parser_IsErr q then -1 else 0, c') /\
    receiving c' (a ++ d) q /\
    capacity_ (tcp_byte_arr_ c') <=
      capacity_ (tcp_byte_arr_ c) + kBufferSize + malloc_unit_size_ (tcp_byte_arr_ c) /\
    malloc_unit_size_ (tcp_byte_arr_ c') = malloc_unit_size_ (tcp_byte_arr_ c).
Proof.
  intros Hr Hcap Hd. destruct (Receive_read c a d p Hr Hcap ltac:(lia)) as [(f & H1 & H2)|(r & q & c' & H1 & H2 & H3 & H4 & H5 & _)];
    [left; eauto|right]. exists r, q, c'. split_and!; try done. rewrite H2.
  destruct (Z.eqb_spec (zlen d) kBufferSize); [lia|]. rewrite orb_true_r. by destruct (parser_IsErr q).
Qed.

(** Read events drive the parser exactly as the segments would by themselves. *)
Lemma read_events_feed (segs : list bytes) c (a : bytes) (p q : P) :
  receiving c a p -> Forall (fun d => 0 < zlen d < kBufferSize) segs ->
  capacity_ (tcp_byte_arr_ c)
    + Z.of_nat (length segs) * (kBufferSize + malloc_unit_size_ (tcp_byte_arr_ c)) < 2 ^ 60 ->
  feed_parser p a segs = Ok q ->
  exists ret c', read_events c segs = Ok (ret, c') /\ parser_ c' = Some q /\
    ret = (if parser_IsErr q && negb (bool_decide (segs = [])) then -1 else 0).
Proof.
  intros Hr Hs. revert c a p Hr. induction Hs as [|d ds Hd Hds IH]; intros c a p Hr Hcap Hf.
  { cbn in Hf. injection Hf as <-. exists 0, c. rewrite andb_false_r. split_and!; try done. apply Hr. }
  pose proof Hr as [_ [_ _ _ Hl Hu _] _ _]. cbn [length] in Hcap. unfold kBufferSize in *.
  rewrite Nat2Z.inj_succ in Hcap. cbn [feed_parser read_events] in *.
  destruct (Receive_segment c a d p Hr) as [(f & Hf' & _)|(r & q1 & c1 & Hp & -> & Hr1 & Hc1 & Hu1)];
    [nia|done|by rewrite Hf' in Hf|]. rewrite Hp in Hf. cbn [mbind res_bind] in Hf |- *.
  unfold IsParseDone. pose proof Hr1 as [_ _ _ ->]. cbn [mbind res_bind].
  rewrite andb_true_r. destruct (parser_IsErr q1) eqn:Ee.
  - rewrite orb_true_r in Hf. injection Hf as <-. rewrite Ee. eexists _, _. split_and!; [done|apply Hr1|done].
  - rewrite orb_false_r in Hf. destruct (parser_IsEnd q1) eqn:En.
    + injection Hf as <-. rewrite Ee. eexists _, _. split_and!; [done|apply Hr1|done].
    + cbn [orb Z.ltb Z.compare].
      destruct (IH c1 (a ++ d) q1 Hr1) as (ret & c2 & E2 & Hp2 & Hret); [rewrite Hu1; unfold kBufferSize in *; nia|done|].
      exists ret, c2. split_and!; [done|done|]. rewrite Hret. destruct ds.
      * cbn in Hf. injection Hf as <-. by rewrite Ee.
      * rewrite bool_decide_false by done. by rewrite andb_true_r.
Qed.

Lemma Forall2_impl_l {A B} (Q R : A -> B -> Prop) (l : list A) (k : list B) :
  Forall2 Q l k -> (forall x y, x ∈ l -> Q x y -> R x y) -> Forall2 R l k.
Proof.
  induction 1 as [|x y l k Hx _ IH]; intros Hi; constructor; [apply Hi; [left|done]|].
  apply IH. intros a b Ha. apply Hi. by right.
Qed.

Lemma filter_none (l : list nat) (f : nat -> option Z) : filter (fun p => f p ∉ f <$> []) l = l.
Proof.
  induction l as [|x l IH]; [done|]. rewrite filter_cons_True by set_solver. by rewrite IH.
Qed.

(** What [TrySend] changes: the buffer of the context. *)
Lemma TrySend_ctx (deref : Z -> option bytes) (s : Socket) (m : memory) (p : nat) (ctx : SendContext)
    (w : write_result) :
  ctxs_ m !! p = Some ctx ->
  (exists v, bytes_of deref (sc_buffer ctx) = Ok v) ->
  exists d s' b out, TrySend deref s m (Some p) w = Ok (d, s', set_ctx m p (set_buffer ctx b), out) /\
    (b, s', d) = (let '(d, _, s', b, _) := Send s (sc_buffer ctx) w in (b, s', d)) /\
    byte_array_p_ b = byte_array_p_ (sc_buffer ctx) /\ length_ b = length_ (sc_buffer ctx) /\
    byte_array_ b = byte_array_ (sc_buffer ctx).
Proof.
  intros Hp [v Hv]. unfold TrySend. rewrite Hp. unfold sent_bytes. rewrite Hv. cbn [mbind res_bind].
  assert (exists out, (if (fd_ s <=? 0) || (sub64 (Length (sc_buffer ctx)) (Pos (sc_buffer ctx)) =? 0) then Ok []
          else Ok (match w with
                   | Wrote n => take (Z.to_nat n) (drop (Z.to_nat (Pos (sc_buffer ctx))) v)
                   | WriteErr _ => [] end)) = Ok out) as [out ->] by (destruct (_ || _); eauto).
  cbn [mbind res_bind]. unfold Send. destruct (_ || _); [by eexists _, _, _, _|].
  destruct w; [destruct (_ =? _); by eexists _, _, _, _|]. destruct (IS_EAGAIN _); by eexists _, _, _, _.
Qed.

Lemma seq_of_set (m : memory) (p q : nat) (ctx : SendContext) (b : AutoBuffer) :
  ctxs_ m !! p = Some ctx -> seq_of (set_ctx m p (set_buffer ctx b)) q = seq_of m q.
Proof.
  intros Hp. unfold seq_of, set_ctx. cbn [ctxs_]. destruct (decide (q = p)) as [->|].
  - by rewrite lookup_insert_eq, Hp.
  - by rewrite lookup_insert_ne.
Qed.

(** What is left to send of the packet at [p]: the bytes of its buffer from the
    position on. *)
Definition unsent (deref : Z -> option bytes) (m : memory) (p : nat) (s : bytes) : Prop :=
  exists ctx v, ctxs_ m !! p = Some ctx /\ bytes_of deref (sc_buffer ctx) = Ok v /\
    0 <= Pos (sc_buffer ctx) <= Length (sc_buffer ctx) /\ Length (sc_buffer ctx) < 2 ^ 63 /\
    zlen v = Length (sc_buffer ctx) /\ s = drop (Z.to_nat (Pos (sc_buffer ctx))) v.

(** [write] takes no more than it is given. *)
Definition takes (w : write_result) (s : bytes) : Prop :=
  match w with Wrote n => 0 <= n <= zlen s | WriteErr _ => True end.

Lemma unsent_other deref (m m' : memory) (q : nat) (s : bytes) :
  ctxs_ m' !! q = ctxs_ m !! q -> unsent deref m q s -> unsent deref m' q s.
Proof. unfold unsent. by intros ->. Qed.

Lemma unsent_inj deref (m : memory) (p : nat) (s s' : bytes) : unsent deref m p s -> unsent deref m p s' -> s = s'.
Proof. intros (ctx & v & H1 & H2 & _ & _ & _ & ->) (ctx' & v' & H1' & H2' & _ & _ & _ & ->). congruence. Qed.

(** The position moves past the bytes written. *)
Lemma unsent_moved deref (m : memory) (p : nat) (ctx : SendContext) (v : bytes) (n : Z) :
  bytes_of deref (sc_buffer ctx) = Ok v -> zlen v = Length (sc_buffer ctx) -> Length (sc_buffer ctx) < 2 ^ 63 ->
  0 <= Pos (sc_buffer ctx) -> 0 <= n <= Length (sc_buffer ctx) - Pos (sc_buffer ctx) ->
  unsent deref (set_ctx m p (set_buffer ctx (set_pos (sc_buffer ctx) (Pos (sc_buffer ctx) + n)))) p
    (drop (Z.to_nat n) (drop (Z.to_nat (Pos (sc_buffer ctx))) v)).
Proof.
  intros Hv Hl Hb Hp Hn. eexists _, v. cbn [set_ctx ctxs_]. rewrite lookup_insert_eq. split; [done|].
  split; [exact Hv|]. cbn. unfold Length, Pos in *. split_and!; try lia. rewrite drop_drop. f_equal. lia.
Qed.

(** One [TrySend]: a prefix of what is left is written, and the packet is done
    exactly when that is all of it. *)
Lemma TrySend_unsent deref (so : Socket) (m : memory) (p : nat) (s : bytes) (w : write_result) :
  unsent deref m p s -> takes w s ->
  exists d so' m1 out, TrySend deref so m (Some p) w = Ok (d, so', m1, out) /\
    out `prefix_of` s /\ unsent deref m1 p (drop (length out) s) /\
    (if d then out = s /\ s <> [] else out = s -> s = []) /\
    (forall q, q <> p -> ctxs_ m1 !! q = ctxs_ m !! q) /\ (forall q, seq_of m1 q = seq_of m q).
Proof.
  intros (ctx & v & Hp & Hv & Hpos & Hb & Hl & ->) Hw. unfold TrySend, sent_bytes. rewrite Hp, Hv. cbn [mbind res_bind].
  unfold Send. rewrite sub64_id by lia. set (len := Length (sc_buffer ctx)) in *. set (pos := Pos (sc_buffer ctx)) in *.
  assert (length (drop (Z.to_nat pos) v) = Z.to_nat (len - pos)) as Hlen by (rewrite length_drop; lia).
  assert (forall b, forall q, q <> p -> ctxs_ (set_ctx m p (set_buffer ctx b)) !! q = ctxs_ m !! q) as Ho.
  { intros b q Hne. cbn. by rewrite lookup_insert_ne. }
  assert (forall b q, seq_of (set_ctx m p (set_buffer ctx b)) q = seq_of m q) as Hq by (intros; by apply seq_of_set).
  pose proof (unsent_moved deref m p ctx v 0 Hv Hl Hb ltac:(fold pos; lia) ltac:(fold pos len; lia)) as Hstay.
  rewrite Z.add_0_r, drop_0 in Hstay.
  assert (set_pos (sc_buffer ctx) (Pos (sc_buffer ctx)) = sc_buffer ctx) as Hsame by (by destruct (sc_buffer ctx)).
  rewrite Hsame in Hstay.
  destruct ((fd_ so <=? 0) || (len - pos =? 0)) eqn:E0; cbn [mbind res_bind].
  { eexists _, _, _, []. split; [done|]. split_and!; [apply prefix_nil|by rewrite drop_0|done|apply Ho|apply Hq]. }
  apply orb_false_iff in E0 as [_ E0%Z.eqb_neq]. destruct w as [n|e]; cbn [takes] in Hw.
  - rewrite Hlen in Hw. assert (length (take (Z.to_nat n) (drop (Z.to_nat pos) v)) = Z.to_nat n) as Ht by (rewrite length_take; lia).
    pose proof (unsent_moved deref m p ctx v n Hv Hl Hb ltac:(fold pos; lia) ltac:(fold pos len; lia)) as Hmove. fold pos in Hmove.
    destruct (Z.eqb_spec n (len - pos)) as [->|Hne]; eexists _, _, _, _; (split; [done|]); rewrite ?Ht;
      (split; [apply prefix_take|]; split; [|split; [|split; [apply Ho|apply Hq]]]).
    + replace (pos + (len - pos)) with len in Hmove by lia. exact Hmove.
    + split; [by rewrite take_ge by lia|]. intros E. rewrite E in Hlen. cbn in Hlen. lia.
    + unfold Seek. change (pos_ (sc_buffer ctx)) with pos. rewrite add64_id by lia. exact Hmove.
    + intros E. apply (f_equal length) in E. rewrite Ht, Hlen in E. lia.
  - destruct (IS_EAGAIN e); eexists _, _, _, []; (split; [done|]);
      (split_and!; [apply prefix_nil| |done|apply Ho|apply Hq]); rewrite drop_0; [|exact Hstay].
    unfold Seek. change (pos_ (sc_buffer ctx)) with pos. rewrite add64_id, Z.add_0_r by lia. fold pos in Hsame. by rewrite Hsame.
Qed.

(** The call on [send_contexts_] and the queue when a packet is done. *)
Lemma packet_done c (m m1 : memory) (so : Socket) (p : nat) (rest : list nat) (now : Z) :
  pending_send_ctx_ c = p :: rest -> is_Some (seq_of m p) -> (forall q, seq_of m1 q = seq_of m q) ->
  let c2 := pop_pending (SendContextSendDoneCallback (set_socket c so) m1 p now) in
  pending_send_ctx_ c2 = rest /\ send_contexts_ c2 = filter (fun q => seq_of m q <> seq_of m p) (send_contexts_ c).
Proof.
  intros Ep [sq Hsq] Hq c2. unfold c2, SendContextSendDoneCallback, DelSendContext, pop_pending. rewrite Hq, Hsq.
  destruct (is_longlink_app_proto_ _); cbn; (split; [by rewrite Ep|]); apply list_filter_iff; intros q; by rewrite Hq.
Qed.

(** The writes offered to the packets in turn. *)
Definition writes_take deref (m : memory) (ps : list nat) (ws : list write_result) : Prop :=
  forall i p w s, ps !! i = Some p -> ws !! i = Some w -> unsent deref m p s -> takes w s.

(** What the loop leaves of the packet it stopped at. *)
Definition stopped_at deref (m m' : memory) (ps : list nat) (last : list (nat * bytes)) : Prop :=
  match ps with
  | [] => last = []
  | p :: _ => exists s out, last = [(p, out)] /\ unsent deref m p s /\ out `prefix_of` s /\ (out = s -> s = []) /\
      unsent deref m' p (drop (length out) s)
  end.

Lemma send_pending_spec deref (n : nat) c (m : memory) (ws : list write_result) (now : Z) :
  (length (pending_send_ctx_ c) <= n)%nat -> NoDup (pending_send_ctx_ c) ->
  Forall (fun p => exists s, unsent deref m p s) (pending_send_ctx_ c) -> writes_take deref m (pending_send_ctx_ c) ws ->
  exists r c' m' sent bodies last, send_pending deref n c m ws now = Ok (r, c', m', zip sent bodies ++ last) /\
    pending_send_ctx_ c = sent ++ pending_send_ctx_ c' /\
    Forall2 (fun p s => unsent deref m p s /\ s <> []) sent bodies /\ stopped_at deref m m' (pending_send_ctx_ c') last /\
    (r = true <-> pending_send_ctx_ c' = []) /\
    send_contexts_ c' = filter (fun p => seq_of m p ∉ seq_of m <$> sent) (send_contexts_ c) /\
    (forall q, q ∉ sent -> q ∉ take 1 (pending_send_ctx_ c') -> ctxs_ m' !! q = ctxs_ m !! q).
Proof.
  revert c m ws. induction n as [|n IH]; intros c m ws Hn Hnd Hall Hws;
    (destruct (pending_send_ctx_ c) as [|p rest] eqn:Ep;
     [exists true, c, m, [], [], []; cbn [send_pending]; rewrite ?Ep; split_and!; try done;
      by rewrite filter_none|]); [simpl in Hn; lia|].
  cbn [send_pending]. rewrite Ep. apply Forall_cons in Hall as [[s Hs] Hall]. apply NoDup_cons in Hnd as [Hnp Hnd].
  assert (takes (default (WriteErr EAGAIN) (head ws)) s) as Ht.
  { destruct ws as [|w ws]; [done|]. by apply (Hws 0%nat p w s). }
  destruct (TrySend_unsent deref (socket_ c) m p s _ Hs Ht) as (d & so & m1 & out & -> & Hpre & Hs1 & Hd & Ho & Hq).
  cbn [mbind res_bind]. destruct d.
  - destruct Hd as [-> Hne]. assert (is_Some (seq_of m p)) as Hsq by (destruct Hs as (ctx & v & Hp & _); unfold seq_of; rewrite Hp; by eexists).
    destruct (packet_done c m m1 so p rest now Ep Hsq Hq) as [Hp2 Hs2].
    set (c2 := pop_pending (SendContextSendDoneCallback (set_socket c so) m1 p now)) in *.
    assert (forall q t, q ∈ rest -> unsent deref m1 q t <-> unsent deref m q t) as Hun.
    { intros q t Hqr. assert (q <> p) by (by intros ->). split; apply unsent_other; by rewrite Ho. }
    destruct (IH c2 m1 (tail ws)) as (r & c3 & m3 & sent & bodies & last & E & G1 & G2 & G3 & G4 & G5 & G6).
    { rewrite Hp2. simpl in Hn. lia. }
    { by rewrite Hp2. }
    { rewrite Hp2. rewrite Forall_forall in Hall |- *. intros q Hqr. destruct (Hall q Hqr) as [t Hqt]. exists t. by apply Hun. }
    { rewrite Hp2. intros i q w t Hi Hw Hqt. apply (Hws (S i) q w t); [done|by destruct ws|].
      apply Hun; [by eapply list_elem_of_lookup_2|done]. }
    rewrite Hp2 in G1. assert (forall q, q ∈ sent \/ q ∈ pending_send_ctx_ c3 -> q ∈ rest) as Hin by (rewrite G1; set_solver).
    rewrite E. cbn [mbind res_bind]. exists r, c3, m3, (p :: sent), (s :: bodies), last.
    split_and!; [done|by rewrite <- app_comm_cons, <- G1| | |done| |].
    + constructor; [done|]. eapply Forall2_impl_l; [exact G2|]. intros q t Hqs [H1 H2]. split; [apply Hun; auto|done].
    + unfold stopped_at in *. destruct (pending_send_ctx_ c3) as [|q qs]; [done|]. destruct G3 as (t & out & H1 & H2 & H3).
      exists t, out. split; [done|]. split; [apply Hun; [apply Hin; right; set_solver|done]|done].
    + rewrite G5, Hs2, list_filter_filter. apply list_filter_iff. intros q.
      rewrite (list_fmap_ext (seq_of m1) (seq_of m) sent) by (intros; by apply Hq). rewrite Hq. set_solver.
    + intros q Hq1 Hq2. rewrite G6 by set_solver. apply Ho. set_solver.
  - exists false, (set_socket c so), m1, [], [], [(p, out)]. cbn [set_socket pending_send_ctx_ send_contexts_].
    rewrite Ep. split_and!; try done; [by exists s, out|by rewrite filter_none|]. intros q _ Hq2. apply Ho. set_solver.
Qed.

End Theory.

(** ** Properties *)

(** C31: [TrySendPendingPackets] returns and sends the pending packets in the order they were queued, each
    from where its last write ended: of every packet it takes out of the queue it has written all the
    bytes that were left, and at least one; of the packet it stops at, if any, a proper prefix of them, and
    that packet stays first with exactly the rest left to send (a packet with nothing to send stays as it
    is); the packets behind it are untouched. It takes the contexts with the numbers of the sent packets
    out of [send_contexts_], and reports [true] exactly when nothing is left pending. The packets pending
    are different ones whose bytes can be read, and a [write] takes no more than it is given. *)
Theorem pending_in_order {P : Type} `{ApplicationProtocolParser P} (deref : Z -> option bytes)
    (c : ConnectionProfile P) (m : memory) (ws : list write_result) (now : Z)
    (Hnd : NoDup (pending_send_ctx_ c))
    (Hall : Forall (fun p => exists s, unsent deref m p s) (pending_send_ctx_ c))
    (Hws : writes_take deref m (pending_send_ctx_ c) ws) :
  exists r c' m' sent bodies last, TrySendPendingPackets deref c m ws now = Ok (r, c', m', zip sent bodies ++ last) /\
    pending_send_ctx_ c = sent ++ pending_send_ctx_ c' /\
    Forall2 (fun p s => unsent deref m p s /\ s <> []) sent bodies /\
    match pending_send_ctx_ c' with
    | [] => last = []
    | p :: _ => exists s out, last = [(p, out)] /\ unsent deref m p s /\ out `prefix_of` s /\ (out = s -> s = []) /\
        unsent deref m' p (drop (length out) s)
    end /\
    (r = true <-> pending_send_ctx_ c' = []) /\
    send_contexts_ c' = filter (fun p => seq_of m p ∉ seq_of m <$> sent) (send_contexts_ c) /\
    (forall q, q ∉ sent -> q ∉ take 1 (pending_send_ctx_ c') -> ctxs_ m' !! q = ctxs_ m !! q).
Proof. by apply send_pending_spec. Qed.

(** The segments of a packet, each of fewer than 4096 bytes and each announced by one read
    event, drive the parser of a connection exactly as if it were fed the segments directly;
    the connection is closed ([-1]) exactly when the parser reports an error. Holds for
    every application protocol parser. *)
Theorem read_events_parse {P : Type} `{ApplicationProtocolParser P} (c : ConnectionProfile P)
    (p q : P) (segs : list bytes)
    (Hc : receiving c [] p) (Hsegs : Forall (fun d => 0 < zlen d < kBufferSize) segs)
    (Hne : segs <> [])
    (Hsize : capacity_ (tcp_byte_arr_ c)
      + Z.of_nat (length segs) * (kBufferSize + malloc_unit_size_ (tcp_byte_arr_ c)) < 2 ^ 60)
    (Hfeed : feed_parser p [] segs = Ok q) :
  exists c', read_events c segs = Ok (if parser_IsErr q then -1 else 0, c') /\ parser_ c' = Some q.
Proof.
  destruct (read_events_feed segs c [] p q Hc Hsegs Hsize Hfeed) as (ret & c' & E & Hp & Hret).
  exists c'. split; [|done]. rewrite E, Hret. rewrite bool_decide_false by done. by rewrite andb_true_r.
Qed.

Definition demo_conn : ConnectionProfile (HttpPacket.HttpParser HttpPacket.request_sub) :=
  mkConn 1 1 kAcceptFrom kHttp1_1 false (str "10.0.0.1") 4000 (new_Socket 7) false 0 10000
    (AutoBuffer.new kMallocUnit) (Some HttpPacket.new_request) 0 [] [].

(** A connection with two packets waiting to be sent, one of them in part. *)
Definition demo_buffer (s : bytes) (pos : Z) : AutoBuffer :=
  match WriteString (AutoBuffer.new kMallocUnit) s with Ok b => set_pos b pos | Fault _ => AutoBuffer.new kMallocUnit end.

Definition demo_sending :=
  let '(p, c, m) := MakeSendContext demo_conn new_memory in
  let '(q, c, m) := MakeSendContext c m in
  let fill := fun m p s pos => match ctxs_ m !! p with Some ctx => set_ctx m p (set_buffer ctx (demo_buffer s pos)) | None => m end in
  (AddPendingPacketToSend (AddPendingPacketToSend c p) q, fill (fill m p (str "hello") 2) q (str "bye") 0).

(** The first packet is finished, two bytes of the second one are taken. *)
Lemma pending_in_order_witness :
  exists r c' m' sent bodies last,
    TrySendPendingPackets (fun _ => None) demo_sending.1 demo_sending.2 [Wrote 3; Wrote 2] 0 = Ok (r, c', m', zip sent bodies ++ last) /\
    zip sent bodies ++ last = [(3%nat, str "llo"); (4%nat, str "by")] /\
    pending_send_ctx_ demo_sending.1 = sent ++ pending_send_ctx_ c' /\ (r = true <-> pending_send_ctx_ c' = []).
Proof.
  assert (forall i p w s, [3%nat; 4%nat] !! i = Some p -> [Wrote 3; Wrote 2] !! i = Some w ->
    unsent (fun _ => None) demo_sending.2 p s -> takes w s) as Hws.
  { intros [|[|i]] p w s; [intros [= <-] [= <-]|intros [= <-] [= <-]|done]; intros (ctx & v & H1 & H2 & _ & _ & _ & ->);
      vm_compute in H1; injection H1 as <-; vm_compute in H2; injection H2 as <-; vm_compute; split; congruence. }
  destruct (pending_in_order (fun _ => None) demo_sending.1 demo_sending.2 [Wrote 3; Wrote 2] 0)
    as (r & c' & m' & sent & bodies & last & E & H1 & _ & _ & H2 & _).
  - apply (bool_decide_unpack _). vm_compute. exact I.
  - repeat constructor; (eexists _, _, _; split; [vm_compute; reflexivity|]; split; [vm_compute; reflexivity|]; by vm_compute).
  - exact Hws.
  - exists r, c', m', sent, bodies, last. split; [exact E|]. split; [|by split].
    assert (outs : exists a b d, TrySendPendingPackets (fun _ => None) demo_sending.1 demo_sending.2 [Wrote 3; Wrote 2] 0
      = Ok (a, b, d, [(3%nat, str "llo"); (4%nat, str "by")])) by (eexists _, _, _; vm_compute; reflexivity).
    destruct outs as (a & b & d & E'). rewrite E' in E. by injection E as _ _ _ <-.
Defined.

Definition demo_segments : list bytes :=
  [str "GET /a HTTP/1.1" ++ crlf ++ str "Host: h" ++ crlf; str "Accept: x" ++ crlf ++ crlf].

Definition demo_parsed : HttpPacket.HttpParser HttpPacket.request_sub :=
  match feed_parser HttpPacket.new_request [] demo_segments with
  | Ok q => q
  | Fault _ => HttpPacket.new_request
  end.

Lemma read_events_parse_witness :
  exists c', read_events demo_conn demo_segments = Ok (if parser_IsErr demo_parsed then -1 else 0, c') /\
             parser_ c' = Some demo_parsed.
Proof.
  refine (read_events_parse demo_conn HttpPacket.new_request demo_parsed demo_segments _ _ _ _ _).
  - split; [done|by apply new_owned|done|done].
  - repeat constructor; vm_compute; congruence.
  - done.
  - vm_compute. reflexivity.
  - vm_compute. reflexivity.
Defined.

(** After a single [EAGAIN] the flag of the socket stays set, and from then on a read event
    that brings data, or the end of the stream, returns 0 without parsing the data and without
    noting the end: the connection no longer makes progress. *)
Theorem eagain_sticks {P : Type} `{ApplicationProtocolParser P} (c : ConnectionProfile P)
    (reads' : list read_result)
    (Hstream : forall r, In r reads' -> r = ReadEof \/ exists d, r = ReadData d /\ 0 < zlen d <= kBufferSize)
    (Hne : reads' <> [])
    (Hbuf : owned (tcp_byte_arr_ c)) (Hcap : capacity_ (tcp_byte_arr_ c) < 2 ^ 59)
    (Hunit : malloc_unit_size_ (tcp_byte_arr_ c) < 2 ^ 32) :
  exists c1, Receive c [] = Ok (0, c1) /\
  exists c2, Receive c1 reads' = Ok (0, c2) /\ parser_ c2 = parser_ c /\
    has_received_Fin_ c2 = has_received_Fin_ c /\ is_eagain_ (socket_ c2) = true.
Proof.
  destruct (Receive_nodata (socket_ c) (tcp_byte_arr_ c) (ReadErr EAGAIN))
    as (b1 & Ho1 & _ & Hl1 & _ & Hu1 & Hc1 & E1); [done|lia|done|].
  cbn [Receive]. unfold receive_turn. rewrite E1. cbn [mbind res_bind IsEAgain is_eagain_].
  eexists. split; [done|]. destruct reads' as [|r rs]; [done|]. cbn [Receive]. unfold receive_turn.
  cbn [socket_ set_input tcp_byte_arr_]. unfold kBufferSize in *.
  destruct (Hstream r) as [->|(d & -> & Hd)]; [by left|..].
  - destruct (Receive_nodata (mkSocket (fd_ (socket_ c)) EAGAIN true (is_connected_ (socket_ c))
      (type_ (socket_ c)) (nonblocking_ (socket_ c))) b1 ReadEof)
      as (b2 & _ & _ & _ & _ & _ & _ & E2); [done|lia|done|].
    unfold IS_EAGAIN, EAGAIN in *. cbn in E2 |- *. rewrite E2. cbn. eexists. split_and!; done.
  - destruct (Receive_data (mkSocket (fd_ (socket_ c)) EAGAIN true (is_connected_ (socket_ c))
      (type_ (socket_ c)) (nonblocking_ (socket_ c))) b1 d)
      as (b2 & E2 & _); [done|lia|unfold kBufferSize; lia|].
    unfold IS_EAGAIN, EAGAIN in *. cbn in E2 |- *. rewrite E2. cbn. eexists. split_and!; done.
Qed.

Lemma eagain_sticks_witness :
  exists c1, Receive demo_conn [] = Ok (0, c1) /\
  exists c2, Receive c1 [ReadData (str "GET / HTTP/1.1")] = Ok (0, c2) /\
    parser_ c2 = Some HttpPacket.new_request /\ has_received_Fin_ c2 = false /\
    is_eagain_ (socket_ c2) = true.
Proof.
  refine (eagain_sticks demo_conn [ReadData (str "GET / HTTP/1.1")] _ _ _ _ _);
    [|done|by apply new_owned|vm_compute; reflexivity|vm_compute; reflexivity].
  intros r [<-|[]]. right. eexists. split; [done|]. vm_compute. split; congruence.
Defined.

End TcpConnection.
