(* ===== verification/ServerBase.v ===== *)
(** * The connection manager (networkmodel/serverbase.h, serverbase.cc)

    Each network thread keeps its connections in a vector indexed by a user
    id, with a queue of free ids, and registers their descriptors with
    epoll. Up to 383 connections the manager implements a finite map from
    ids to connections; the next one is stored outside the vector. *)
From stdpp Require Import gmap.
From S2P Require Import Prelude CLib AutoBuffer UnixSocket TcpConnection.

Module ServerBase.

#[local] Existing Instances TcpConnection.TConnectionType_eq_dec TcpConnection.http_request_parser.

(** ** The interface of a connection *)

Class Connection (C : Type) := {
  conn_FD : C -> Z;
  conn_Uid : C -> Z;
  conn_SetUid : C -> Z -> C;
  conn_IsTimeout : C -> Z -> bool
}.

Class ConnectionLaws (C : Type) `{Connection C} := {
  FD_SetUid : forall c u, conn_FD (conn_SetUid c u) = conn_FD c;
  Uid_SetUid : forall c u, conn_Uid (conn_SetUid c u) = u
}.

#[export] Instance profile_connection {P} : Connection (TcpConnection.ConnectionProfile P) := {
  conn_FD := fun c => UnixSocket.FD (TcpConnection.socket_ c);
  conn_Uid := TcpConnection.uid_;
  conn_SetUid := TcpConnection.SetUid;
  conn_IsTimeout := fun c now => TcpConnection.IsTimeout c now now
}.

#[export] Instance profile_connection_laws {P} : ConnectionLaws (TcpConnection.ConnectionProfile P).
Proof. by split. Qed.

(** ** Definitions *)

(** A [std::vector] of pointers, with the growth of libstdc++: [resize]
    beyond the capacity reserves the size plus the larger of the size and
    the number of new elements. *)
Record vector (A : Type) := mkVec { items : list A; cap : nat }.
Arguments mkVec {A}.
Arguments items {A}.
Arguments cap {A}.

Definition vec_resize {A} (v : vector A) (n : nat) (x : A) : vector A :=
  let size := length (items v) in
  mkVec (resize n x (items v))
    (if (n <=? cap v)%nat then cap v else size + Nat.max size (n - size))%nat.

(** [v\[i\]], undefined outside the size. *)
Definition vec_get {A} (v : vector A) (i : nat) : res A :=
  match items v !! i with Some x => Ok x | None => Fault Undefined end.

Definition vec_set {A} (v : vector A) (i : nat) (x : A) : res (vector A) :=
  if (i <? length (items v))%nat then Ok (mkVec (<[i := x]> (items v)) (cap v)) else Fault Undefined.

Definition kInvalidUid : nat := 0.
Definition kReserveSize : nat := 128.
Definition kEnlargeUnit : nat := 128.

Section Manager.
Context {C : Type} `{Connection C}.

(** [epoll_] is the interest list of the epoll instance: the descriptor and
    the connection whose address is registered with it. *)
Record ConnectionManager := mkManager {
  pool_ : vector (option C);
  free_places_ : list nat;
  epoll_ : gmap Z nat
}.

Definition new_manager : ConnectionManager :=
  mkManager (mkVec (replicate kReserveSize None) kReserveSize)
    (seq (kInvalidUid + 1) (kReserveSize - 1)) ∅.

Definition valid_uid (m : ConnectionManager) (uid : nat) : bool :=
  (kInvalidUid <? uid)%nat && (uid <? cap (pool_ m))%nat.

Definition GetConnection (m : ConnectionManager) (uid : nat) : res (option C) :=
  _ ← assert_ (valid_uid m uid);
  vec_get (pool_ m) uid.

Definition CurrConnectionCnt (m : ConnectionManager) : Z :=
  sub64 (Z.of_nat (cap (pool_ m))) (zlen (free_places_ m)).

Definition __CheckCapacity (m : ConnectionManager) : ConnectionManager :=
  match free_places_ m with
  | [] =>
      let curr := cap (pool_ m) in
      let pool := vec_resize (pool_ m) (curr + kEnlargeUnit) None in
      mkManager pool (seq curr (cap pool - curr)) (epoll_ m)
  | _ => m
  end.

(** The id given to the connection, and the manager. *)
Definition AddConnection (m : ConnectionManager) (conn : C) : res (nat * ConnectionManager) :=
  let m := __CheckCapacity m in
  match free_places_ m with
  | [] => Fault Undefined
  | uid :: rest =>
      let conn := conn_SetUid conn (Z.of_nat uid) in
      pool ← vec_set (pool_ m) uid (Some conn);
      Ok (uid, mkManager pool rest (<[conn_FD conn := uid]> (epoll_ m)))
  end.

Definition DelConnection (m : ConnectionManager) (uid : nat) : res ConnectionManager :=
  _ ← assert_ (valid_uid m uid);
  conn ← vec_get (pool_ m) uid;
  match conn with
  | None => Fault AssertFailed
  | Some c =>
      pool ← vec_set (pool_ m) uid None;
      Ok (mkManager pool (uid :: free_places_ m) (delete (conn_FD c) (epoll_ m)))
  end.

(** The loop of [ClearTimeout] over [pool_], from index [i] on. *)
Fixpoint clear_loop (i : nat) (l : list (option C)) (now : Z) (free : list nat) (ep : gmap Z nat)
    : list (option C) * list nat * gmap Z nat :=
  match l with
  | [] => ([], free, ep)
  | Some c :: l' =>
      if conn_IsTimeout c now then
        let '(r, free, ep) :=
          clear_loop (S i) l' now (Z.to_nat (conn_Uid c) :: free) (delete (conn_FD c) ep) in
        (None :: r, free, ep)
      else let '(r, free, ep) := clear_loop (S i) l' now free ep in (Some c :: r, free, ep)
  | None :: l' => let '(r, free, ep) := clear_loop (S i) l' now free ep in (None :: r, free, ep)
  end.

Definition ClearTimeout (m : ConnectionManager) (now : Z) : ConnectionManager :=
  let '(l, free, ep) := clear_loop 0 (items (pool_ m)) now (free_places_ m) (epoll_ m) in
  mkManager (mkVec l (cap (pool_ m))) free ep.

(** ** Specification: a finite map from ids to connections *)

Definition live (m : ConnectionManager) : gmap nat C :=
  omap id (map_seq 0 (items (pool_ m)) : gmap nat (option C)).

Fixpoint none_slots (i : nat) (l : list (option C)) : list nat :=
  match l with
  | [] => []
  | None :: l' => i :: none_slots (S i) l'
  | Some _ :: l' => none_slots (S i) l'
  end.

Fixpoint live_count (l : list (option C)) : nat :=
  match l with
  | [] => 0
  | Some _ :: l' => S (live_count l')
  | None :: l' => live_count l'
  end.

(** The pool's sizes: at the start, after one and after two enlargements. *)
Definition pool_shape (size capacity : nat) : Prop :=
  (size = 128 /\ capacity = 128)%nat \/ (size = 256 /\ capacity = 256)%nat \/
  (size = 384 /\ capacity = 512)%nat.

Record mgr_inv (m : ConnectionManager) : Prop := {
  mi_shape : pool_shape (length (items (pool_ m))) (cap (pool_ m));
  mi_zero : items (pool_ m) !! 0%nat = Some None;
  mi_free : exists small,
    free_places_ m = small ++ seq (length (items (pool_ m)))
                               (cap (pool_ m) - length (items (pool_ m))) /\
    small ≡ₚ none_slots 1 (tail (items (pool_ m)));
  mi_uid : forall u c, items (pool_ m) !! u = Some (Some c) -> conn_Uid c = Z.of_nat u;
  mi_epoll : forall fd u, epoll_ m !! fd = Some u <->
    exists c, items (pool_ m) !! u = Some (Some c) /\ conn_FD c = fd
}.

(** The calls of a network thread. *)
Inductive mgr_op :=
| OpAdd (c : C)
| OpDel (uid : nat)
| OpClear (now : Z).

Definition mgr_do (m : ConnectionManager) (o : mgr_op) : res ConnectionManager :=
  match o with
  | OpAdd c => snd <$> AddConnection m c
  | OpDel uid => DelConnection m uid
  | OpClear now => Ok (ClearTimeout m now)
  end.

(** What a call may rely on: fewer than 383 connections and a descriptor not
    in use when one is added, a live id when one is deleted. *)
Definition mgr_allowed (a : gmap nat C) (o : mgr_op) : Prop :=
  match o with
  | OpAdd c => (size a < 383)%nat /\ forall u c', a !! u = Some c' -> conn_FD c' <> conn_FD c
  | OpDel uid => is_Some (a !! uid)
  | OpClear _ => True
  end.

Inductive mgr_spec (a : gmap nat C) : mgr_op -> gmap nat C -> Prop :=
| spec_add c uid :
    a !! uid = None -> (0 < uid)%nat ->
    mgr_spec a (OpAdd c) (<[uid := conn_SetUid c (Z.of_nat uid)]> a)
| spec_del uid : mgr_spec a (OpDel uid) (delete uid a)
| spec_clear now : mgr_spec a (OpClear now) (filter (fun p => conn_IsTimeout p.2 now = false) a).

(** Two runs side by side. *)
Inductive mgr_runs : gmap nat C -> list mgr_op -> gmap nat C -> Prop :=
| runs_nil a : mgr_runs a [] a
| runs_cons a o a1 os a2 :
    mgr_allowed a o -> mgr_spec a o a1 -> mgr_runs a1 os a2 -> mgr_runs a (o :: os) a2.

End Manager.

Arguments ConnectionManager C : clear implicits.

(** ** Network threads *)

(** [D]: the members a derived class of threads adds. *)
Section NetThread.
Context {P D : Type} `{TcpConnection.ApplicationProtocolParser P}.
Abbreviation Conn := (TcpConnection.ConnectionProfile P).

(** [memory_]: the objects the connections of the thread share.
    [epoll_notify_]: the data with which the descriptor of [epoll_notifier_]
    was last registered, as long as epoll has not reported it. *)
Record NetThreadBase := mkThread {
  connection_manager_ : ConnectionManager Conn;
  max_connections_ : Z;
  memory_ : TcpConnection.memory;
  running_ : bool;
  epoll_notify_ : option nat;
  derived_ : D
}.

(** The virtual methods of a network thread. [HandleNotification] is given the
    results of the [write]s it makes and the time; it returns the bytes each
    packet sent. *)
Record NetThreadMethods := {
  ConfigApplicationLayer : Conn -> res Conn;
  UpgradeApplicationProtocol : Conn -> TcpConnection.RecvContext P -> res Conn;
  HandleApplicationPacket : TcpConnection.RecvContext P -> NetThreadBase -> res (bool * NetThreadBase);
  CheckNotification : Z -> bool;
  HandleNotification : Z -> list UnixSocket.write_result -> Z -> NetThreadBase ->
    res (NetThreadBase * list (nat * bytes))
}.

Context (vm : NetThreadMethods).

Definition set_manager (t : NetThreadBase) (m : ConnectionManager Conn) : NetThreadBase :=
  mkThread m (max_connections_ t) (memory_ t) (running_ t) (epoll_notify_ t) (derived_ t).
Definition set_memory (t : NetThreadBase) (m : TcpConnection.memory) : NetThreadBase :=
  mkThread (connection_manager_ t) (max_connections_ t) m (running_ t) (epoll_notify_ t) (derived_ t).
Definition set_running (t : NetThreadBase) (b : bool) : NetThreadBase :=
  mkThread (connection_manager_ t) (max_connections_ t) (memory_ t) b (epoll_notify_ t) (derived_ t).
Definition set_notify (t : NetThreadBase) (o : option nat) : NetThreadBase :=
  mkThread (connection_manager_ t) (max_connections_ t) (memory_ t) (running_ t) o (derived_ t).
Definition set_derived (t : NetThreadBase) (d : D) : NetThreadBase :=
  mkThread (connection_manager_ t) (max_connections_ t) (memory_ t) (running_ t) (epoll_notify_ t) d.

Definition SetMaxConnection (t : NetThreadBase) (max_conn : Z) : res NetThreadBase :=
  _ ← assert_ (0 <? max_conn);
  Ok (mkThread (connection_manager_ t) max_conn (memory_ t) (running_ t) (epoll_notify_ t) (derived_ t)).

(** The connection object [uid] points to, changed in place. *)
Definition put_conn (t : NetThreadBase) (uid : nat) (c : Conn) : res NetThreadBase :=
  let m := connection_manager_ t in
  pool ← vec_set (pool_ m) uid (Some c);
  Ok (set_manager t (mkManager pool (free_places_ m) (epoll_ m))).

(** The connection that was allocated at the address [a], with its place in
    the pool; [None] when it is gone. *)
Fixpoint find_this (i : nat) (l : list (option Conn)) (a : nat) : option (nat * Conn) :=
  match l with
  | [] => None
  | Some c :: l' => if (TcpConnection.this_ c =? a)%nat then Some (i, c) else find_this (S i) l' a
  | None :: l' => find_this (S i) l' a
  end.

Definition conn_at (t : NetThreadBase) (a : nat) : option (nat * Conn) :=
  find_this 0 (items (pool_ (connection_manager_ t))) a.

(** The receive buffers, which other objects may have views of. *)
Definition deref (t : NetThreadBase) (blk : Z) : option bytes :=
  head (omap (fun o => match o with
                       | Some c => if TcpConnection.recv_block c =? blk
                                   then Some (AutoBuffer.contents (TcpConnection.tcp_byte_arr_ c)) else None
                       | None => None
                       end) (items (pool_ (connection_manager_ t)))).

(** The connection in a slot, if there is one. *)
Definition slot (t : NetThreadBase) (uid : nat) : option Conn :=
  mjoin (items (pool_ (connection_manager_ t)) !! uid).

Definition thread_GetConnection (t : NetThreadBase) (uid : nat) : res (option Conn) :=
  GetConnection (connection_manager_ t) uid.

(** [DelConnection] runs the destructor of the connection. *)
Definition thread_DelConnection (t : NetThreadBase) (uid : nat) : res NetThreadBase :=
  m ← DelConnection (connection_manager_ t) uid;
  let mem := match slot t uid with Some c => TcpConnection.destroy c (memory_ t) | None => memory_ t end in
  Ok (set_memory (set_manager t m) mem).

(** [ClearTimeout] runs the destructors of the connections that timed out. *)
Definition destroy_timeout (now : Z) (o : option Conn) (mem : TcpConnection.memory) : TcpConnection.memory :=
  match o with
  | Some c => if conn_IsTimeout c now then TcpConnection.destroy c mem else mem
  | None => mem
  end.

Definition thread_ClearTimeout (t : NetThreadBase) (now : Z) : NetThreadBase :=
  let mem := foldr (destroy_timeout now) (memory_ t) (items (pool_ (connection_manager_ t))) in
  set_memory (set_manager t (ClearTimeout (connection_manager_ t) now)) mem.

(** A new connection is added and its application layer configured. *)
Definition add_conn (t : NetThreadBase) (neo : Conn) : res (nat * NetThreadBase) :=
  '(uid, m) ← AddConnection (connection_manager_ t) neo;
  neo ← ConfigApplicationLayer vm (TcpConnection.SetUid neo (Z.of_nat uid));
  t ← put_conn (set_manager t m) uid neo;
  Ok (uid, t).

(** The flag tells whether the connection was taken; otherwise [fd] is closed. *)
Definition RegisterConnection (t : NetThreadBase) (fd : Z) (ip : bytes) (port now : Z)
    : res (bool * NetThreadBase) :=
  if fd <? 0 then Ok (false, t)
  else if max_connections_ t <=? CurrConnectionCnt (connection_manager_ t) then Ok (false, t)
  else
    let '(this, mem) := TcpConnection.alloc (memory_ t) in
    neo ← TcpConnection.ConnectionFrom fd ip port (Z.of_nat kInvalidUid) now this;
    '(_, t) ← add_conn (set_memory t mem) neo;
    Ok (true, t).

(** The attempts of [MakeConnection]: [rets] are the results of [connect]. *)
Fixpoint connect_loop (inet_addr : bytes -> Z) (retry : nat) (neo : Conn) (rets : list Z)
    : res (bool * Conn) :=
  match retry with
  | O => Ok (false, neo)
  | S retry' =>
      '(ret, neo) ← TcpConnection.Connect inet_addr neo (default (-1) (head rets));
      if ret <? 0 then connect_loop inet_addr retry' neo (tail rets) else Ok (true, neo)
  end.

(** [MakeConnection]: the id of the new connection, if it could be made; [fd]
    is the result of [socket]. *)
Definition MakeConnection (inet_addr : bytes -> Z) (t : NetThreadBase) (ip : bytes) (port now fd : Z)
    (rets : list Z) : res (option nat * NetThreadBase) :=
  let '(this, mem) := TcpConnection.alloc (memory_ t) in
  neo ← TcpConnection.ConnectionTo ip port (Z.of_nat kInvalidUid) now fd this;
  '(success, neo) ← connect_loop inet_addr 3 neo rets;
  let t := set_memory t mem in
  if success : bool then
    '(uid, t) ← add_conn t neo;
    Ok (Some uid, t)
  else Ok (None, set_memory t (TcpConnection.destroy neo mem)).

(** What [__OnReadEvent] does with the connection [c] once its packet is
    complete. *)
Definition on_parsed (t : NetThreadBase) (uid : nat) (c : Conn) : res (bool * NetThreadBase) :=
  let is_upgrade := TcpConnection.IsUpgradeApplicationProtocol c in
  let '(recv_ctx, c, mem) := TcpConnection.MakeRecvContext c (memory_ t) false in
  let '(recv_ctx, c, mem) :=
    if bool_decide (TcpConnection.conn_type c = TcpConnection.kAcceptFrom) && negb is_upgrade then
      let '(p, c, mem) := TcpConnection.MakeSendContext c mem in
      (TcpConnection.set_return_packet recv_ctx p, c, mem)
    else (recv_ctx, c, mem) in
  '(recv_ctx, c, mem) ←
    (if is_upgrade : bool then
       c ← UpgradeApplicationProtocol vm c recv_ctx;
       Ok (TcpConnection.MakeRecvContext c mem true)
     else Ok (recv_ctx, c, mem));
  t ← put_conn (set_memory t mem) uid c;
  HandleApplicationPacket vm recv_ctx t.

(** [__OnReadEvent]: whether the connection was deleted. *)
Definition __OnReadEvent (t : NetThreadBase) (uid : nat) (reads : list UnixSocket.read_result)
    : res (bool * NetThreadBase) :=
  conn ← vec_get (pool_ (connection_manager_ t)) uid;
  match conn with
  | None => Fault AssertFailed
  | Some c =>
      '(ret, c) ← TcpConnection.Receive c reads;
      t ← put_conn t uid c;
      if ret <? 0 then t ← thread_DelConnection t uid; Ok (true, t)
      else if TcpConnection.has_received_Fin_ c then t ← thread_DelConnection t uid; Ok (true, t)
      else
        done ← TcpConnection.IsParseDone c;
        if done : bool then on_parsed t uid c else Ok (false, t)
  end.

(** [conn->MakeSendContext()] on the connection with this id. *)
Definition conn_MakeSendContext (t : NetThreadBase) (uid : nat) : res (nat * NetThreadBase) :=
  c ← from_option Ok (Fault Dangling) (slot t uid);
  let '(p, c, mem) := TcpConnection.MakeSendContext c (memory_ t) in
  t ← put_conn (set_memory t mem) uid c;
  Ok (p, t).

(** [__OnWriteEvent]: the bytes each pending packet sent. *)
Definition __OnWriteEvent (t : NetThreadBase) (uid : nat) (ws : list UnixSocket.write_result) (now : Z)
    : res (NetThreadBase * list (nat * bytes)) :=
  conn ← vec_get (pool_ (connection_manager_ t)) uid;
  match conn with
  | None => Fault Undefined
  | Some c =>
      if TcpConnection.HasPendingPacketToSend c then
        '(_, c, mem, outs) ← TcpConnection.TrySendPendingPackets (deref t) c (memory_ t) ws now;
        t ← put_conn (set_memory t mem) uid c;
        Ok (t, outs)
      else Ok (t, [])
  end.

Definition __OnErrEvent (t : NetThreadBase) (uid : nat) : res (Z * NetThreadBase) :=
  t ← thread_DelConnection t uid;
  Ok (0, t).

(** [_send_ctx->socket->FD()]: the socket is a member of the connection that
    made the context. *)
Definition socket_FD (t : NetThreadBase) (ctx : TcpConnection.SendContext) : res Z :=
  match conn_at t (TcpConnection.sc_owner ctx) with
  | Some (_, c) => Ok (UnixSocket.FD (TcpConnection.socket_ c))
  | None => Fault Dangling
  end.

(** [TrySendAndMarkPendingIfUndone]: whether nothing is left to do, and the
    bytes that left on the socket of the context. The message logged for a
    deleted connection reads the descriptor of its socket. *)
Definition TrySendAndMarkPendingIfUndone (t : NetThreadBase) (send_ctx : option nat)
    (w : UnixSocket.write_result) (now : Z) : res (bool * NetThreadBase * bytes) :=
  p ← from_option Ok (Fault Undefined) send_ctx;
  ctx ← from_option Ok (Fault Dangling) (TcpConnection.ctxs_ (memory_ t) !! p);
  if negb (TcpConnection.sc_is_tcp_conn_valid ctx) then _ ← socket_FD t ctx; Ok (true, t, [])
  else
    '(uid, c) ← from_option Ok (Fault Dangling) (conn_at t (TcpConnection.sc_owner ctx));
    '(is_send_done, s, mem, out) ←
      TcpConnection.TrySend (deref t) (TcpConnection.socket_ c) (memory_ t) (Some p) w;
    let c := TcpConnection.set_socket c s in
    let c :=
      if is_send_done : bool then TcpConnection.SendContextSendDoneCallback c mem p now
      else TcpConnection.AddPendingPacketToSend c p in
    t ← put_conn (set_memory t mem) uid c;
    Ok (is_send_done, t, out).

End NetThread.

Arguments NetThreadBase P D : clear implicits.
Arguments NetThreadMethods P D : clear implicits.

(** ** Lemmas *)

Section Theory.
Context {C : Type} `{ConnectionLaws C}.
Implicit Types m : ConnectionManager C.

Lemma none_slots_elem (i u : nat) (l : list (option C)) :
  u ∈ none_slots i l <-> (i <= u)%nat /\ l !! (u - i)%nat = Some None.
Proof.
  revert i. induction l as [|[c|] l IH]; intros i; cbn [none_slots].
  - rewrite lookup_nil. set_solver.
  - rewrite IH. split.
    + intros [Hi Hl]. split; [lia|]. replace (u - i)%nat with (S (u - S i)) by lia. done.
    + intros [Hi Hl]. destruct (decide (u = i)) as [->|]; [by rewrite Nat.sub_diag in Hl|].
      split; [lia|]. by replace (u - i)%nat with (S (u - S i)) in Hl by lia.
  - rewrite elem_of_cons, IH. split.
    + intros [->|[Hi Hl]]; [by rewrite Nat.sub_diag|].
      split; [lia|]. replace (u - i)%nat with (S (u - S i)) by lia. done.
    + intros [Hi Hl]. destruct (decide (u = i)) as [->|]; [by left|]. right.
      split; [lia|]. by replace (u - i)%nat with (S (u - S i)) in Hl by lia.
Qed.

Lemma none_slots_NoDup (i : nat) (l : list (option C)) : NoDup (none_slots i l).
Proof.
  revert i. induction l as [|[c|] l IH]; intros i; cbn [none_slots]; [constructor|apply IH|].
  constructor; [|apply IH]. rewrite none_slots_elem. lia.
Qed.

Lemma none_slots_count (i : nat) (l : list (option C)) :
  (length (none_slots i l) + live_count l = length l)%nat.
Proof.
  revert i. induction l as [|[c|] l IH]; intros i; cbn; [done|..]; specialize (IH (S i)); lia.
Qed.

(** Two duplicate-free lists with the same elements. *)
Lemma slots_perm (small : list nat) (i : nat) (l : list (option C)) :
  NoDup small -> (forall u, u ∈ small <-> (i <= u)%nat /\ l !! (u - i)%nat = Some None) ->
  small ≡ₚ none_slots i l.
Proof.
  intros Hn He. apply NoDup_Permutation; [done|apply none_slots_NoDup|].
  intros u. by rewrite He, none_slots_elem.
Qed.

Lemma live_lookup m (u : nat) : live m !! u = items (pool_ m) !! u ≫= id.
Proof. unfold live. by rewrite lookup_omap, lookup_map_seq_0. Qed.

Lemma live_lookup_Some m (u : nat) (c : C) :
  live m !! u = Some c <-> items (pool_ m) !! u = Some (Some c).
Proof. rewrite live_lookup. destruct (items (pool_ m) !! u) as [[|]|]; naive_solver. Qed.

Lemma omap_size (l : list (option C)) (i : nat) :
  size (omap id (map_seq i l : gmap nat (option C))) = live_count l.
Proof.
  revert i. induction l as [|[c|] l IH]; intros i; cbn [map_seq live_count].
  - by rewrite omap_empty, map_size_empty.
  - rewrite omap_insert_Some with (y := c) by done.
    rewrite map_size_insert_None; [by rewrite IH|].
    by rewrite lookup_omap, map_seq_cons_disjoint.
  - rewrite omap_insert_None by done. rewrite delete_id; [by rewrite IH|].
    by rewrite lookup_omap, map_seq_cons_disjoint.
Qed.

Lemma live_size m : size (live m) = live_count (items (pool_ m)).
Proof. apply omap_size. Qed.

(** The small ids are free, and there is one for every empty slot. *)
Lemma small_elem (l : list (option C)) (small : list nat) (u : nat) :
  small ≡ₚ none_slots 1 (tail l) -> u ∈ small <-> (0 < u)%nat /\ l !! u = Some None.
Proof.
  intros ->. rewrite none_slots_elem. destruct l as [|x l]; cbn [tail]; [by rewrite !lookup_nil|].
  destruct u as [|u]; [naive_solver lia|]. rewrite Nat.sub_1_r. cbn. naive_solver lia.
Qed.

Lemma small_count (l : list (option C)) (small : list nat) :
  small ≡ₚ none_slots 1 (tail l) -> l !! 0%nat = Some None ->
  (length small + live_count l + 1 = length l)%nat.
Proof.
  intros ->. destruct l as [|[c|] l]; [done|done|]. intros _. cbn [tail].
  pose proof (none_slots_count 1 l). cbn. lia.
Qed.

Lemma new_manager_inv : mgr_inv (new_manager : ConnectionManager C).
Proof.
  split.
  - left. done.
  - done.
  - exists (seq 1 127). split; [done|]. reflexivity.
  - intros u c Hu. cbn [new_manager pool_ items] in Hu. by apply lookup_replicate in Hu as [? _].
  - intros fd u. cbn [new_manager epoll_]. rewrite lookup_empty. split; [done|]. intros (c & Hu & _). cbn [new_manager pool_ items] in Hu.
    by apply lookup_replicate in Hu as [? _].
Qed.

(** Writing one slot. *)
Lemma live_set m (u : nat) (x : option C) (free : list nat) (ep : gmap Z nat) :
  (u < length (items (pool_ m)))%nat ->
  live (mkManager (mkVec (<[u := x]> (items (pool_ m))) (cap (pool_ m))) free ep) =
  match x with Some c => <[u := c]> (live m) | None => delete u (live m) end.
Proof.
  intros Hu. apply map_eq. intros v. rewrite live_lookup. cbn [pool_ items].
  destruct (decide (v = u)) as [->|Hne].
  - rewrite list_lookup_insert_eq by done. destruct x; cbn; by rewrite ?lookup_insert_eq, ?lookup_delete_eq.
  - rewrite list_lookup_insert_ne by done.
    destruct x; rewrite ?lookup_insert_ne, ?lookup_delete_ne by done; by rewrite live_lookup.
Qed.

(** Enlarging adds empty slots and changes none. *)
Lemma enlarge_lookup (l : list (option C)) (n u : nat) (c : C) :
  (l ++ replicate n None) !! u = Some (Some c) <-> l !! u = Some (Some c).
Proof.
  destruct (decide (u < length l)%nat); [by rewrite lookup_app_l|].
  rewrite lookup_app_r by lia. rewrite (lookup_ge_None_2 l) by lia. split; [|done].
  by intros [? _]%lookup_replicate.
Qed.

Lemma enlarge_slots (l : list (option C)) (n : nat) :
  (0 < length l)%nat -> [] ≡ₚ none_slots 1 (tail l) ->
  seq (length l) n ≡ₚ none_slots 1 (tail (l ++ replicate n None)).
Proof.
  intros Hl Hp. apply slots_perm; [apply NoDup_seq|]. intros u. rewrite elem_of_seq.
  destruct l as [|x l]; [simpl in Hl; lia|]. cbn [tail app length].
  assert (forall k, l !! k <> Some None) as Hno.
  { intros k Hk. assert (S k ∈ ([] : list nat)) as []%not_elem_of_nil.
    apply (small_elem (x :: l)); [done|]. split; [lia|done]. }
  split; intros [Hu1 Hu2].
  - split; [lia|]. rewrite lookup_app_r by lia. apply lookup_replicate. split; [done|]. lia.
  - destruct (decide (u - 1 < length l)%nat) as [Hc|Hc].
    + rewrite lookup_app_l in Hu2 by done. by destruct (Hno _ Hu2).
    + rewrite lookup_app_r in Hu2 by lia. apply lookup_replicate in Hu2 as [_ Hu2]. lia.
Qed.

Lemma enlarge_inv m (c' : nat) :
  mgr_inv m -> free_places_ m = [] -> pool_shape (length (items (pool_ m)) + kEnlargeUnit) c' ->
  let m' := mkManager (mkVec (items (pool_ m) ++ replicate kEnlargeUnit None) c')
              (seq (length (items (pool_ m))) (c' - length (items (pool_ m)))) (epoll_ m) in
  mgr_inv m' /\ live m' = live m.
Proof.
  intros [Hs Hz (small & Hf & Hp) Hu He] Ef Hs' m'.
  set (l := items (pool_ m)) in *. rewrite Ef in Hf. symmetry in Hf. apply app_nil in Hf as [-> _].
  assert (0 < length l)%nat by (destruct Hs as [|[|]]; lia).
  assert (length (l ++ replicate kEnlargeUnit (None : option C)) = length l + kEnlargeUnit)%nat as Hl2
    by (rewrite length_app, length_replicate; done).
  split.
  - split; cbn [m' pool_ items cap free_places_ epoll_]; fold l.
    + by rewrite Hl2.
    + by rewrite lookup_app_l by lia.
    + exists (seq (length l) kEnlargeUnit). rewrite Hl2. split; [|by apply enlarge_slots].
      rewrite <- seq_app. f_equal. unfold pool_shape, kEnlargeUnit in *. lia.
    + intros u c Hc%enlarge_lookup. by apply Hu.
    + intros fd u. rewrite He. by setoid_rewrite enlarge_lookup.
  - apply map_eq. intros u. apply option_eq. intros c. rewrite !live_lookup_Some. apply enlarge_lookup.
Qed.

Lemma CheckCapacity_inv m :
  mgr_inv m -> (live_count (items (pool_ m)) < 383)%nat ->
  mgr_inv (__CheckCapacity m) /\ live (__CheckCapacity m) = live m /\
  exists uid rest, free_places_ (__CheckCapacity m) = uid :: rest /\
    (uid < length (items (pool_ (__CheckCapacity m))))%nat.
Proof.
  intros Hm Hlt. pose proof Hm as [Hs Hz (small & Hf & Hp) Hu He].
  pose proof (small_count _ _ Hp Hz) as Hcnt. unfold __CheckCapacity.
  destruct (free_places_ m) as [|uid rest] eqn:Ef.
  - symmetry in Hf. apply app_nil in Hf as [-> Hf2]. apply (f_equal length) in Hf2.
    rewrite length_seq in Hf2. cbn [length] in Hf2, Hcnt.
    assert (cap (pool_ m) = length (items (pool_ m))) as Hcap by (destruct Hs as [|[|]]; lia).
    assert (length (items (pool_ m)) = 128 \/ length (items (pool_ m)) = 256)%nat as Hl
      by (destruct Hs as [|[|]]; lia).
    unfold vec_resize. rewrite Hcap, resize_ge by lia. cbn [items cap].
    destruct (Nat.leb_spec (length (items (pool_ m)) + kEnlargeUnit) (length (items (pool_ m))));
      [unfold kEnlargeUnit in *; lia|].
    replace (length (items (pool_ m)) + kEnlargeUnit - length (items (pool_ m)))%nat
      with kEnlargeUnit by lia.
    destruct (enlarge_inv m (length (items (pool_ m)) + Nat.max (length (items (pool_ m))) kEnlargeUnit) Hm Ef)
      as [Hi Hlv]; [unfold pool_shape, kEnlargeUnit; lia|].
    split_and!; [done|done|]. cbn [free_places_ pool_ items].
    eexists _, _. split.
    + replace (length (items (pool_ m)) + Nat.max (length (items (pool_ m))) kEnlargeUnit
               - length (items (pool_ m)))%nat
        with (S (Nat.max (length (items (pool_ m))) kEnlargeUnit - 1)) by (unfold kEnlargeUnit; lia).
      done.
    + rewrite length_app, length_replicate. unfold kEnlargeUnit. lia.
  - split_and!; [done|done|]. exists uid, rest. split; [done|].
    destruct small as [|v small].
    + cbn [length] in Hcnt. destruct Hs as [[E1 E2]|[[E1 E2]|[E1 E2]]]; rewrite E1, E2 in *; [done|done|lia].
    + injection Hf as -> _. assert (v ∈ v :: small) as Hv by set_solver.
      apply (small_elem _ _ _ Hp) in Hv as [_ Hv]. by apply lookup_lt_Some in Hv.
Qed.

Lemma slots_perm_tail (small : list nat) (l : list (option C)) :
  NoDup small -> (forall u, u ∈ small <-> (0 < u)%nat /\ l !! u = Some None) ->
  small ≡ₚ none_slots 1 (tail l).
Proof.
  intros Hn He. apply slots_perm; [done|]. intros u. rewrite He.
  destruct l as [|x l]; cbn [tail]; [by rewrite !lookup_nil; naive_solver|].
  destruct u as [|u]; [naive_solver lia|]. rewrite Nat.sub_1_r. cbn. naive_solver lia.
Qed.

(** Filling a free slot. *)
Lemma add_inv m (uid : nat) (rest : list nat) (c : C) :
  mgr_inv m -> free_places_ m = uid :: rest -> (uid < length (items (pool_ m)))%nat ->
  conn_Uid c = Z.of_nat uid -> (forall u c', live m !! u = Some c' -> conn_FD c' <> conn_FD c) ->
  mgr_inv (mkManager (mkVec (<[uid := Some c]> (items (pool_ m))) (cap (pool_ m))) rest
             (<[conn_FD c := uid]> (epoll_ m))) /\ live m !! uid = None /\ (0 < uid)%nat.
Proof.
  intros [Hs Hz (small & Hf & Hp) Hu He] Ef Hlt Hc Hfd. set (l := items (pool_ m)) in *.
  destruct small as [|v small].
  { rewrite Ef in Hf. apply (f_equal head) in Hf. cbn in Hf.
    destruct (cap (pool_ m) - length l)%nat; [done|]. injection Hf as ->. lia. }
  rewrite Ef in Hf. injection Hf as <- ->.
  pose proof (small_elem l _ uid Hp) as [Hin _]. destruct (Hin ltac:(set_solver)) as [Hpos Hnone].
  assert (NoDup (uid :: small)) as Hnd by (rewrite Hp; apply none_slots_NoDup).
  apply NoDup_cons in Hnd as [Hni Hnd].
  split_and!; [split; cbn [pool_ items cap free_places_ epoll_]; fold l; rewrite ?length_insert| |done].
  - done.
  - by rewrite list_lookup_insert_ne by lia.
  - exists small. split; [done|]. apply slots_perm_tail; [done|]. intros u.
    destruct (decide (u = uid)) as [->|Hne].
    + rewrite list_lookup_insert_eq by done. naive_solver.
    + rewrite list_lookup_insert_ne by done. rewrite <- (small_elem l _ u Hp). set_solver.
  - intros u c' Hl. destruct (decide (u = uid)) as [->|Hne].
    + rewrite list_lookup_insert_eq in Hl by done. naive_solver.
    + rewrite list_lookup_insert_ne in Hl by done. by apply Hu.
  - intros fd u. destruct (decide (fd = conn_FD c)) as [->|Hfne].
    + rewrite lookup_insert_eq. split.
      * intros [= <-]. exists c. by rewrite list_lookup_insert_eq.
      * intros (c' & Hl & Heq). destruct (decide (u = uid)) as [->|Hne]; [done|].
        rewrite list_lookup_insert_ne in Hl by done. destruct (Hfd u c'); [by apply live_lookup_Some|done].
    + rewrite lookup_insert_ne by done. rewrite He.
      destruct (decide (u = uid)) as [->|Hne]; [|by rewrite list_lookup_insert_ne by done].
      rewrite list_lookup_insert_eq, Hnone by done. naive_solver.
  - rewrite live_lookup. fold l. by rewrite Hnone.
Qed.

(** Emptying a slot. *)
Lemma del_inv m (uid : nat) (c : C) :
  mgr_inv m -> items (pool_ m) !! uid = Some (Some c) ->
  mgr_inv (mkManager (mkVec (<[uid := None]> (items (pool_ m))) (cap (pool_ m)))
             (uid :: free_places_ m) (delete (conn_FD c) (epoll_ m))).
Proof.
  intros [Hs Hz (small & Hf & Hp) Hu He] Hc. set (l := items (pool_ m)) in *.
  pose proof (lookup_lt_Some _ _ _ Hc) as Hlt.
  assert (0 < uid)%nat by (destruct uid; [congruence|lia]).
  split; cbn [pool_ items cap free_places_ epoll_]; fold l; rewrite ?length_insert.
  - done.
  - by rewrite list_lookup_insert_ne by lia.
  - exists (uid :: small). rewrite Hf. split; [done|]. apply slots_perm_tail.
    + constructor; [|rewrite Hp; apply none_slots_NoDup].
      intros [_ Hin]%(small_elem l _ uid Hp). congruence.
    + intros u. rewrite elem_of_cons, (small_elem l _ u Hp).
      destruct (decide (u = uid)) as [->|Hne].
      * rewrite list_lookup_insert_eq by done. naive_solver.
      * rewrite list_lookup_insert_ne by done. naive_solver.
  - intros u c' Hl. destruct (decide (u = uid)) as [->|Hne].
    + by rewrite list_lookup_insert_eq in Hl.
    + rewrite list_lookup_insert_ne in Hl by done. by apply Hu.
  - intros fd u. destruct (decide (u = uid)) as [->|Hne].
    + rewrite list_lookup_insert_eq by done. split; [|naive_solver].
      intros [Hd1 Hd2]%lookup_delete_Some. apply He in Hd2 as (c' & Hl & <-). congruence.
    + rewrite list_lookup_insert_ne by done. rewrite lookup_delete_Some, He.
      split; [naive_solver|]. intros (c' & Hl & <-). split; [|by eexists].
      intros Heq. assert (epoll_ m !! conn_FD c = Some uid) as E1 by (apply He; eauto).
      assert (epoll_ m !! conn_FD c' = Some u) as E2 by (apply He; eauto). congruence.
Qed.

(** The loop of [ClearTimeout] empties the timed-out slots. *)
Definition clear_slot (now : Z) (o : option C) : option C :=
  match o with Some c => if conn_IsTimeout c now then None else Some c | None => None end.

Lemma clear_loop_inv (rest : list (option C)) (now : Z) (pre : list (option C)) (k : nat)
    (free : list nat) (ep : gmap Z nat) :
  mgr_inv (mkManager (mkVec (pre ++ rest) k) free ep) ->
  exists r free' ep', clear_loop (length pre) rest now free ep = (r, free', ep') /\
    r = (clear_slot now) <$> rest /\ mgr_inv (mkManager (mkVec (pre ++ r) k) free' ep').
Proof.
  revert pre free ep. induction rest as [|[c|] rest IH]; intros pre free ep Hm.
  - by eexists _, _, _.
  - cbn [clear_loop]. rewrite fmap_cons. cbn [clear_slot].
    assert ((pre ++ Some c :: rest) !! length pre = Some (Some c)) as Hlk by (by apply list_lookup_middle).
    destruct (conn_IsTimeout c now).
    + pose proof (del_inv _ (length pre) c Hm Hlk) as Hd. cbn [pool_ items cap free_places_ epoll_] in Hd.
      rewrite insert_app_r_alt, Nat.sub_diag in Hd by done. cbn in Hd.
      destruct Hm as [_ _ _ Hu _]. rewrite (Hu _ _ Hlk), Nat2Z.id.
      rewrite (cons_middle None pre rest), app_assoc in Hd.
      destruct (IH (pre ++ [None]) _ _ Hd) as (r & f' & e' & E & Hr & Hi).
      rewrite length_app, Nat.add_1_r in E. rewrite E. eexists _, _, _. split; [done|].
      rewrite Hr. split; [done|]. by rewrite <- app_assoc, Hr in Hi.
    + rewrite (cons_middle (Some c) pre rest), app_assoc in Hm.
      destruct (IH (pre ++ [Some c]) _ _ Hm) as (r & f' & e' & E & Hr & Hi).
      rewrite length_app, Nat.add_1_r in E. rewrite E. eexists _, _, _. split; [done|].
      rewrite Hr. split; [done|]. by rewrite <- app_assoc, Hr in Hi.
  - cbn [clear_loop]. rewrite fmap_cons. cbn [clear_slot].
    rewrite (cons_middle None pre rest), app_assoc in Hm.
    destruct (IH (pre ++ [None]) _ _ Hm) as (r & f' & e' & E & Hr & Hi).
    rewrite length_app, Nat.add_1_r in E. rewrite E. eexists _, _, _. split; [done|].
    rewrite Hr. split; [done|]. by rewrite <- app_assoc, Hr in Hi.
Qed.

Lemma ClearTimeout_inv m (now : Z) :
  mgr_inv m -> mgr_inv (ClearTimeout m now) /\
    live (ClearTimeout m now) = filter (fun p => conn_IsTimeout p.2 now = false) (live m).
Proof.
  intros Hm. unfold ClearTimeout. destruct m as [[l k] free ep]. cbn [pool_ items cap free_places_ epoll_].
  destruct (clear_loop_inv l now [] k free ep Hm) as (r & f' & e' & E & -> & Hi).
  cbn [length] in E. rewrite E. split; [done|]. apply map_eq. intros u. apply option_eq. intros c.
  rewrite map_lookup_filter_Some, !live_lookup_Some. cbn [pool_ items]. rewrite list_lookup_fmap.
  destruct (l !! u) as [[c'|]|]; cbn; [|naive_solver..].
  destruct (conn_IsTimeout c' now) eqn:Et; naive_solver congruence.
Qed.

(** Adding a connection gives it a free id. *)
Lemma AddConnection_inv m (c : C) :
  mgr_inv m -> mgr_allowed (live m) (OpAdd c) ->
  exists uid m', AddConnection m c = Ok (uid, m') /\ mgr_inv m' /\ live m !! uid = None /\ (0 < uid)%nat /\
    live m' = <[uid := conn_SetUid c (Z.of_nat uid)]> (live m).
Proof.
  intros Hm [Hn Hfd]. rewrite live_size in Hn.
  destruct (CheckCapacity_inv m Hm Hn) as (Hi & Hl & uid & rest & Ef & Hlt).
  unfold AddConnection. rewrite Ef. unfold vec_set.
  destruct (Nat.ltb_spec uid (length (items (pool_ (__CheckCapacity m))))); [|lia]. cbn [mbind res_bind].
  destruct (add_inv _ uid rest (conn_SetUid c (Z.of_nat uid)) Hi Ef Hlt) as (Hi' & Hnone & Hpos).
  { apply Uid_SetUid. }
  { rewrite FD_SetUid, Hl. done. }
  eexists uid, _. split_and!; [done|done|by rewrite <- Hl|done|]. rewrite live_set by done. by rewrite Hl.
Qed.

(** Every allowed call succeeds and is a step of the map. *)
Lemma mgr_do_simulates m (o : mgr_op) :
  mgr_inv m -> mgr_allowed (live m) o ->
  exists m', mgr_do m o = Ok m' /\ mgr_inv m' /\ mgr_spec (live m) o (live m').
Proof.
  intros Hm Ha. destruct o as [c|uid|now]; cbn [mgr_do mgr_allowed] in *.
  - destruct (AddConnection_inv m c Hm Ha) as (uid & m' & -> & Hm' & Hnone & Hpos & Hl).
    exists m'. split_and!; [done|done|]. rewrite Hl. by apply spec_add.
  - destruct Ha as [c Hc]. apply live_lookup_Some in Hc.
    pose proof (del_inv m uid c Hm Hc) as Hi. pose proof (lookup_lt_Some _ _ _ Hc) as Hlt.
    unfold DelConnection, valid_uid. pose proof Hm as [Hs Hz _ _ _].
    destruct (Nat.ltb_spec kInvalidUid uid); [|destruct uid; [congruence|unfold kInvalidUid in *; lia]].
    destruct (Nat.ltb_spec uid (cap (pool_ m))); [|destruct Hs as [|[|]]; lia].
    cbn [andb assert_ mbind res_bind]. unfold vec_get. rewrite Hc. cbn [mbind res_bind].
    unfold vec_set. destruct (Nat.ltb_spec uid (length (items (pool_ m)))); [|lia].
    eexists. split_and!; [done|done|]. rewrite live_set by done. apply spec_del.
  - destruct (ClearTimeout_inv m now Hm) as [Hi Hl]. eexists. split_and!; [done|done|].
    rewrite Hl. apply spec_clear.
Qed.

(** [CurrConnectionCnt] is one more than the number of connections. *)
Lemma count_live m : mgr_inv m -> CurrConnectionCnt m = Z.of_nat (size (live m)) + 1.
Proof.
  intros [Hs Hz (small & Hf & Hp) _ _]. pose proof (small_count _ _ Hp Hz) as Hc.
  unfold CurrConnectionCnt. rewrite Hf, length_app, length_seq, live_size.
  rewrite sub64_id; destruct Hs as [|[|]]; lia.
Qed.

Lemma live_new : live (new_manager : ConnectionManager C) = ∅.
Proof.
  apply map_eq. intros u. apply option_eq. intros c. rewrite live_lookup_Some, lookup_empty.
  cbn [new_manager pool_ items]. split; [|done]. by intros [? _]%lookup_replicate.
Qed.

End Theory.

(** Receiving changes neither the id nor the descriptor. *)
Lemma receive_turn_same {P} `{TcpConnection.ApplicationProtocolParser P}
    (c c' : TcpConnection.ConnectionProfile P) (r : UnixSocket.read_result) (o : option Z) :
  TcpConnection.receive_turn c r = Ok (o, c') -> conn_Uid c' = conn_Uid c /\ conn_FD c' = conn_FD c.
Proof.
  unfold TcpConnection.receive_turn. intros E. res_inv. destruct a as [[[n full] s] b].
  assert (UnixSocket.fd_ s = UnixSocket.fd_ (TcpConnection.socket_ c)) as Hfd.
  { unfold UnixSocket.Receive in E0. res_inv. destruct r; res_inv; simplify_eq; done. }
  destruct (UnixSocket.IsEAgain s); [by simplify_eq|]. destruct (n <? 0); [by simplify_eq|].
  destruct (n =? 0); [by simplify_eq|]. res_inv. destruct a as [ret c1].
  assert (conn_Uid c1 = conn_Uid c /\ conn_FD c1 = conn_FD c) as [Hu Hf].
  { unfold TcpConnection.ParseProtocol in E1. destruct (TcpConnection.parser_ _); [|by simplify_eq].
    res_inv. destruct a as [? q]. by simplify_eq. }
  destruct (_ || _); [by simplify_eq|]. res_inv. by simplify_eq.
Qed.

Lemma Receive_same {P} `{TcpConnection.ApplicationProtocolParser P} (reads : list UnixSocket.read_result)
    (c c' : TcpConnection.ConnectionProfile P) (ret : Z) :
  TcpConnection.Receive c reads = Ok (ret, c') -> conn_Uid c' = conn_Uid c /\ conn_FD c' = conn_FD c.
Proof.
  revert c. induction reads as [|r reads IH]; intros c; cbn [TcpConnection.Receive]; intros E; res_inv;
    destruct a as [[z|] c1]; simplify_eq; apply receive_turn_same in E0 as [<- <-]; auto.
Qed.

(** Replacing a connection by a later state of itself. *)
Lemma put_conn_inv {P D} (t : NetThreadBase P D) (uid : nat) (c c' : TcpConnection.ConnectionProfile P) :
  mgr_inv (connection_manager_ t) -> live (connection_manager_ t) !! uid = Some c ->
  conn_Uid c' = conn_Uid c -> conn_FD c' = conn_FD c ->
  exists t', put_conn t uid c' = Ok t' /\ mgr_inv (connection_manager_ t') /\
    live (connection_manager_ t') = <[uid := c']> (live (connection_manager_ t)) /\
    max_connections_ t' = max_connections_ t /\
    memory_ t' = memory_ t /\ derived_ t' = derived_ t.
Proof.
  intros Hm Hc%live_lookup_Some Hu Hf. pose proof (lookup_lt_Some _ _ _ Hc) as Hlt.
  set (m := connection_manager_ t) in *. set (l := items (pool_ m)) in *.
  unfold put_conn, vec_set. fold m. fold l. destruct (Nat.ltb_spec uid (length l)); [|lia].
  cbn [mbind res_bind]. eexists. split; [done|]. cbn [connection_manager_ max_connections_ set_manager memory_ derived_].
  split_and!; [|by apply (live_set m)|done|done|done].
  destruct Hm as [Hs Hz (small & Hfr & Hp) Hui He]. fold l in Hs, Hz, Hfr, Hp, Hui, He.
  assert (forall u, (<[uid := Some c']> l) !! u = Some None <-> l !! u = Some None) as Hnone.
  { intros u. destruct (decide (u = uid)) as [->|]; [|by rewrite list_lookup_insert_ne].
    rewrite list_lookup_insert_eq, Hc by done. naive_solver. }
  split; cbn [pool_ items cap free_places_ epoll_]; rewrite ?length_insert; [done|by apply Hnone| | |].
  - exists small. split; [done|]. apply slots_perm_tail; [rewrite Hp; apply none_slots_NoDup|].
    intros u. by rewrite Hnone, (small_elem l _ u Hp).
  - intros u x Hx. destruct (decide (u = uid)) as [->|].
    + rewrite list_lookup_insert_eq in Hx by done. simplify_eq. rewrite Hu. by apply Hui.
    + rewrite list_lookup_insert_ne in Hx by done. by apply Hui.
  - intros fd u. rewrite He. destruct (decide (u = uid)) as [->|].
    + rewrite list_lookup_insert_eq, Hc by done. naive_solver congruence.
    + by rewrite list_lookup_insert_ne.
Qed.

Lemma slot_live {P D} (t : NetThreadBase P D) (uid : nat) :
  slot t uid = live (connection_manager_ t) !! uid.
Proof.
  apply option_eq. intros c. rewrite live_lookup_Some. unfold slot.
  destruct (items _ !! uid) as [[c'|]|]; cbn; naive_solver.
Qed.

(** Deleting a live connection. *)
Lemma thread_del_inv {P D} (t : NetThreadBase P D) (uid : nat) (c : TcpConnection.ConnectionProfile P) :
  mgr_inv (connection_manager_ t) -> live (connection_manager_ t) !! uid = Some c ->
  exists t', thread_DelConnection t uid = Ok t' /\ mgr_inv (connection_manager_ t') /\
    live (connection_manager_ t') = delete uid (live (connection_manager_ t)) /\
    memory_ t' = TcpConnection.destroy c (memory_ t) /\
    max_connections_ t' = max_connections_ t /\ derived_ t' = derived_ t.
Proof.
  intros Hm Hc. destruct (mgr_do_simulates (connection_manager_ t) (OpDel uid)) as (m2 & E2 & Hm2 & Hs);
    [done|by eexists|].
  cbn [mgr_do] in E2. unfold thread_DelConnection. rewrite E2, slot_live, Hc. eexists. split; [done|].
  cbn. split_and!; [done| |done|done|done]. by inversion Hs.
Qed.

(** ** Properties *)

(** A run of calls, and that each of them is allowed where it happens. *)
Fixpoint mgr_run {C} `{Connection C} (m : ConnectionManager C) (os : list mgr_op) : res (ConnectionManager C) :=
  match os with
  | [] => Ok m
  | o :: os' => m' ← mgr_do m o; mgr_run m' os'
  end.

Fixpoint allowed_run {C} `{Connection C} (m : ConnectionManager C) (os : list mgr_op) : Prop :=
  match os with
  | [] => True
  | o :: os' => mgr_allowed (live m) o /\ forall m', mgr_do m o = Ok m' -> allowed_run m' os'
  end.

Lemma mgr_run_refines {C} `{ConnectionLaws C} (os : list mgr_op) (m : ConnectionManager C) :
  mgr_inv m -> allowed_run m os ->
  exists m', mgr_run m os = Ok m' /\ mgr_inv m' /\ mgr_runs (live m) os (live m').
Proof.
  revert m. induction os as [|o os IH]; intros m Hm Ha; [eexists; split_and!; [done|done|constructor]|].
  destruct Ha as [Ha Hr]. destruct (mgr_do_simulates m o Hm Ha) as (m1 & E & Hm1 & Hs).
  cbn [mgr_run]. rewrite E. cbn [mbind res_bind].
  destruct (IH m1 Hm1 (Hr m1 E)) as (m2 & E2 & Hm2 & Hr2).
  exists m2. split_and!; [done|done|]. by econstructor.
Qed.

(** An id of the pool, in use or not. *)
Lemma GetConnection_slot {C : Type} `{Connection C} (m : ConnectionManager C) (u : nat) :
  mgr_inv m -> (0 < u < length (items (pool_ m)))%nat -> GetConnection m u = Ok (live m !! u).
Proof.
  intros [Hs _ _ _ _] Hu. rewrite live_lookup. destruct (lookup_lt_is_Some_2 (items (pool_ m)) u) as [o Ho]; [lia|].
  unfold GetConnection, valid_uid, vec_get, kInvalidUid. rewrite Ho.
  destruct (Nat.ltb_spec 0 u); [|lia]. destruct (Nat.ltb_spec u (cap (pool_ m))); [|destruct Hs as [|[|]]; lia]. done.
Qed.

Lemma GetConnection_live {C : Type} `{Connection C} (m : ConnectionManager C) (u : nat) (c : C) :
  mgr_inv m -> live m !! u = Some c -> GetConnection m u = Ok (Some c).
Proof.
  intros Hi Hc. rewrite GetConnection_slot; [by rewrite Hc|done|]. apply live_lookup_Some in Hc.
  split; [|by eapply lookup_lt_Some]. destruct Hi as [_ Hz _ _ _]. destruct u; [congruence|lia].
Qed.

(** C10: from a new manager, any sequence of [AddConnection], [DelConnection] and [ClearTimeout]
    calls that keeps below 384 connections and deletes only live ids runs without a failed
    assertion or an access outside the pool and refines a finite map from ids to connections:
    an id is never shared, a descriptor is registered with epoll exactly while its connection
    is live, and [GetConnection] finds every live connection. *)
Theorem manager_refines {C : Type} `{ConnectionLaws C} (os : list mgr_op)
    (Hos : allowed_run (new_manager : ConnectionManager C) os) :
  exists m', mgr_run new_manager os = Ok m' /\ mgr_runs ∅ os (live m') /\
    (forall fd u, epoll_ m' !! fd = Some u <-> exists c, live m' !! u = Some c /\ conn_FD c = fd) /\
    (forall u c, live m' !! u = Some c -> GetConnection m' u = Ok (Some c)).
Proof.
  destruct (mgr_run_refines os new_manager new_manager_inv Hos) as (m' & E & Hi & Hr).
  rewrite live_new in Hr. exists m'. split_and!; [done|done|..].
  - intros fd u. rewrite (mi_epoll _ Hi). by setoid_rewrite live_lookup_Some.
  - intros u c. by apply GetConnection_live.
Qed.

(** Connections reduced to a descriptor and an id. *)
#[export] Instance pair_connection : Connection (Z * Z) := {
  conn_FD := fst;
  conn_Uid := snd;
  conn_SetUid := fun c u => (c.1, u);
  conn_IsTimeout := fun _ _ => false
}.

#[export] Instance pair_connection_laws : ConnectionLaws (Z * Z).
Proof. by split. Qed.

Lemma manager_refines_witness :
  exists m' : ConnectionManager (Z * Z),
    mgr_run new_manager [OpAdd (7, 0); OpClear 5; OpDel 1] = Ok m' /\
    mgr_runs ∅ [OpAdd (7, 0); OpClear 5; OpDel 1] (live m') /\
    (forall fd u, epoll_ m' !! fd = Some u <-> exists c, live m' !! u = Some c /\ conn_FD c = fd) /\
    (forall u c, live m' !! u = Some c -> GetConnection m' u = Ok (Some c)).
Proof.
  refine (manager_refines [OpAdd (7, 0); OpClear 5; OpDel 1] _).
  split; [split; [vm_compute; lia|]|].
  { intros u c' E. by rewrite live_new, lookup_empty in E. }
  intros m1 [= <-]. split; [done|]. intros m2 [= <-]. split; [vm_compute; by eexists|done].
Defined.

(** [CurrConnectionCnt] counts the slot of the invalid id as a connection: it is one more than
    the number of live connections, so that a thread accepts one connection fewer than its
    configured maximum. *)
Theorem CurrConnectionCnt_off_by_one {C : Type} `{ConnectionLaws C} (m : ConnectionManager C)
    (Hm : mgr_inv m) :
  CurrConnectionCnt m = Z.of_nat (size (live m)) + 1.
Proof. by apply count_live. Qed.

Lemma CurrConnectionCnt_off_by_one_witness :
  CurrConnectionCnt (new_manager : ConnectionManager (Z * Z))
  = Z.of_nat (size (live (new_manager : ConnectionManager (Z * Z)))) + 1.
Proof. refine (CurrConnectionCnt_off_by_one new_manager _). apply new_manager_inv. Defined.

(** 383 connections fit; registering one more writes outside the pool, because after the second
    enlargement the free ids run up to the capacity (512) and not to the size (384). *)
Theorem manager_overflow :
  ((fun m => (length (items (pool_ m)), cap (pool_ m))) <$>
     mgr_run (new_manager : ConnectionManager (Z * Z)) ((fun i => OpAdd (Z.of_nat i, 0)) <$> seq 1 383))
  = Ok (384%nat, 512%nat) /\
  mgr_run (new_manager : ConnectionManager (Z * Z)) ((fun i => OpAdd (Z.of_nat i, 0)) <$> seq 1 384)
  = Fault Undefined.
Proof. split; vm_compute; reflexivity. Qed.

(** C37: when a read event ends in an error of the socket or of the parser, or in the end of the
    stream, the connection is deleted: its id is free again, its descriptor is no longer
    registered, and every other connection is as before. *)
Theorem OnReadEvent_deletes {P D : Type} `{TcpConnection.ApplicationProtocolParser P}
    (vm : NetThreadMethods P D) (t : NetThreadBase P D) (uid : nat) (reads : list UnixSocket.read_result)
    (c c' : TcpConnection.ConnectionProfile P) (ret : Z)
    (Hm : mgr_inv (connection_manager_ t)) (Hc : live (connection_manager_ t) !! uid = Some c)
    (Hrecv : TcpConnection.Receive c reads = Ok (ret, c'))
    (Hbad : ret < 0 \/ TcpConnection.has_received_Fin_ c' = true) :
  exists t', __OnReadEvent vm t uid reads = Ok (true, t') /\ mgr_inv (connection_manager_ t') /\
    live (connection_manager_ t') = delete uid (live (connection_manager_ t)).
Proof.
  destruct (Receive_same reads c c' ret Hrecv) as [Hu Hf].
  destruct (put_conn_inv t uid c c' Hm Hc Hu Hf) as (t1 & E1 & Hm1 & Hl1 & _).
  destruct (thread_del_inv t1 uid c') as (t2 & E2 & Hm2 & Hl2 & _); [done|by rewrite Hl1, lookup_insert_eq|].
  unfold __OnReadEvent, vec_get. pose proof Hc as Hc'. apply live_lookup_Some in Hc' as ->. cbn [mbind res_bind].
  rewrite Hrecv. cbn [mbind res_bind]. rewrite E1. cbn [mbind res_bind]. rewrite E2. cbn [mbind res_bind].
  exists t2. split_and!; [|done|by rewrite Hl2, Hl1, delete_insert_eq].
  destruct (Z.ltb_spec ret 0); [done|]. destruct Hbad as [|Hfin]; [lia|]. by rewrite Hfin.
Qed.

Definition demo_manager : ConnectionManager (TcpConnection.ConnectionProfile _) :=
  match AddConnection new_manager TcpConnection.demo_conn with Ok (_, m) => m | Fault _ => new_manager end.

Lemma demo_manager_inv : mgr_inv demo_manager.
Proof.
  destruct (mgr_do_simulates new_manager (OpAdd TcpConnection.demo_conn) new_manager_inv)
    as (m & E & Hm & _).
  { split; [rewrite live_new; vm_compute; lia|]. intros u c E. by rewrite live_new, lookup_empty in E. }
  assert (m = demo_manager) as <-; [|done].
  revert E. cbn [mgr_do]. unfold demo_manager.
  destruct (AddConnection new_manager TcpConnection.demo_conn) as [[? ?]|]; cbn; congruence.
Qed.

Definition demo_methods {P} : NetThreadMethods P unit :=
  {| ConfigApplicationLayer := Ok; UpgradeApplicationProtocol := fun c _ => Ok c;
     HandleApplicationPacket := fun _ t => Ok (false, t);
     CheckNotification := fun _ => false; HandleNotification := fun _ _ _ t => Ok (t, []) |}.

Lemma OnReadEvent_deletes_witness :
  exists t', __OnReadEvent demo_methods (mkThread demo_manager 10 TcpConnection.new_memory true None tt) 1 [UnixSocket.ReadEof] = Ok (true, t') /\
    mgr_inv (connection_manager_ t') /\
    live (connection_manager_ t') = delete 1%nat (live demo_manager).
Proof.
  refine (OnReadEvent_deletes demo_methods (mkThread demo_manager 10 TcpConnection.new_memory true None tt) 1 [UnixSocket.ReadEof]
            (TcpConnection.SetUid TcpConnection.demo_conn 1) _ 0 _ _ _ _).
  - apply demo_manager_inv.
  - apply live_lookup_Some. vm_compute. reflexivity.
  - vm_compute. reflexivity.
  - right. reflexivity.
Defined.

End ServerBase.
