(* ===== verification/NetThreadTheory.v ===== *)
(** * The objects a network thread shares (networkmodel/tcpconnection.cc, serverbase.cc)

    A [SendContext] is shared by the connection that made it, by the queues
    and by the worker that fills it, and may outlive its connection; its flag
    [is_tcp_conn_valid] is all that keeps a thread from using the socket of a
    connection that is gone. The invariant [ctx_inv] says that the flag can be
    trusted: a context that is still on its way is marked valid exactly while
    its connection is alive. Every operation of a network thread preserves it. *)
From stdpp Require Import gmap.
From S2P Require Import Prelude CLib StdMap AutoBuffer FirstLine HttpPacket HttpProps WebSocket UnixSocket TcpConnection.
From S2P Require Import ServerBase.

Module NetThreadTheory.
Import TcpConnection ServerBase.

(** ** The invariant *)

(** What is fixed when a context is made, and its flag. *)
Definition meta_of (m : memory) (p : nat) : option (Z * nat * bool) :=
  (fun ctx => (sc_seq ctx, sc_owner ctx, sc_is_tcp_conn_valid ctx)) <$> ctxs_ m !! p.

Section Inv.
Context {P : Type}.
Abbreviation Conn := (ConnectionProfile P).

(** A live connection: its address is an allocated one, its contexts are its
    own, marked valid and numbered differently, and what is pending is one
    of them. *)
Record conn_ok (m : memory) (c : Conn) : Prop := {
  co_this : (notification_send_ < this_ c < next_ m)%nat;
  co_sends : forall p, p ∈ send_contexts_ c ->
    exists s, meta_of m p = Some (s, this_ c, true) /\ 0 < s <= send_ctx_seq_ c;
  co_seq : 0 <= send_ctx_seq_ c < Z.of_nat (next_ m);
  co_seq_inj : forall p q s v w, p ∈ send_contexts_ c -> q ∈ send_contexts_ c ->
    meta_of m p = Some (s, this_ c, v) -> meta_of m q = Some (s, this_ c, w) -> p = q;
  co_pending : NoDup (pending_send_ctx_ c) /\ pending_send_ctx_ c ⊆ send_contexts_ c
}.

(** [L]: the live connections. [Q]: the contexts that are on their way, in a
    queue or with a worker. *)
Record ctx_inv (L : gmap nat Conn) (m : memory) (Q : list nat) : Prop := {
  ci_conn : forall u c, L !! u = Some c -> conn_ok m c;
  ci_inj : forall u v c d, L !! u = Some c -> L !! v = Some d -> this_ c = this_ d -> u = v;
  ci_next : forall p s a v, meta_of m p = Some (s, a, v) -> (p < next_ m /\ a < next_ m)%nat;
  ci_stale : forall p s a u c, meta_of m p = Some (s, a, false) -> L !! u = Some c -> this_ c <> a;
  ci_base : (notification_send_ < next_ m)%nat;
  ci_nodup : NoDup Q;
  ci_queue : forall p, p ∈ Q -> exists s a v, meta_of m p = Some (s, a, v) /\
    (v = true -> exists u c, L !! u = Some c /\ this_ c = a /\ p ∈ send_contexts_ c /\
                             p ∉ pending_send_ctx_ c)
}.

(** Two states of one connection with the same links to the shared objects. *)
Definition same_links (c c' : Conn) : Prop :=
  this_ c' = this_ c /\ send_ctx_seq_ c' = send_ctx_seq_ c /\ send_contexts_ c' = send_contexts_ c /\
  pending_send_ctx_ c' = pending_send_ctx_ c.

(** ** Lemmas on the invariant *)

Lemma conn_ok_links (m : memory) (c c' : Conn) : same_links c c' -> conn_ok m c -> conn_ok m c'.
Proof. intros (E1 & E2 & E3 & E4) []. by split; rewrite ?E1, ?E2, ?E3, ?E4. Qed.

(** A connection does not notice changes to contexts of others. *)
Lemma conn_ok_memory (m m' : memory) (c : Conn) :
  conn_ok m c -> (next_ m <= next_ m')%nat ->
  (forall p, p ∈ send_contexts_ c -> meta_of m' p = meta_of m p) -> conn_ok m' c.
Proof.
  intros [H1 H2 H3 H4 H5] Hn Hp. split; [lia| |lia| |done].
  - intros p Hin. rewrite Hp by done. by apply H2.
  - intros p q s v w Hi Hj. rewrite !Hp by done. by apply H4.
Qed.

Lemma ctx_inv_meta (L : gmap nat Conn) (m m' : memory) (Q : list nat) :
  ctx_inv L m Q -> next_ m' = next_ m -> (forall p, meta_of m' p = meta_of m p) -> ctx_inv L m' Q.
Proof.
  intros [H1 H2 H3 H4 H0 H5 H6] Hn Hp. split; [|done|..|lia|done|].
  - intros u c Hc. eapply conn_ok_memory; [by eapply H1|lia|done].
  - intros p s a v. rewrite Hp, Hn. apply H3.
  - intros p s a u c. rewrite Hp. apply H4.
  - intros p Hin. rewrite Hp. by apply H6.
Qed.

(** Contexts may be dropped. *)
Lemma ctx_inv_drop (L : gmap nat Conn) (m : memory) (Q Q' : list nat) :
  ctx_inv L m Q -> Q' ⊆+ Q -> ctx_inv L m Q'.
Proof.
  intros [H1 H2 H3 H4 H0 H5 H6] Hs. split; [done..| |].
  - destruct (submseteq_Permutation _ _ Hs) as [k Hk]. rewrite Hk in H5. by apply NoDup_app in H5 as (? & _).
  - intros p Hp. apply H6. by eapply elem_of_submseteq.
Qed.

Lemma ctx_inv_perm (L : gmap nat Conn) (m : memory) (Q Q' : list nat) :
  ctx_inv L m Q -> Q ≡ₚ Q' -> ctx_inv L m Q'.
Proof. intros H E. eapply ctx_inv_drop; [done|]. by rewrite E. Qed.

(** A connection moves to another state. *)
Lemma ctx_inv_insert (L : gmap nat Conn) (m : memory) (Q : list nat) (u : nat) (c c' : Conn) :
  ctx_inv L m Q -> L !! u = Some c -> conn_ok m c' -> this_ c' = this_ c ->
  (forall p, p ∈ Q -> p ∈ send_contexts_ c -> p ∉ pending_send_ctx_ c ->
     p ∈ send_contexts_ c' /\ p ∉ pending_send_ctx_ c') ->
  ctx_inv (<[u := c']> L) m Q.
Proof.
  intros [H1 H2 H3 H4 H0 H5 H6] Hu Hok Ht Hq.
  assert (forall v d, <[u := c']> L !! v = Some d -> exists d0, L !! v = Some d0 /\ this_ d0 = this_ d) as Hback.
  { intros v d. destruct (decide (v = u)) as [->|]; [|rewrite lookup_insert_ne by done; eauto].
    rewrite lookup_insert_eq. intros [= <-]. eauto. }
  split; [|..|done|done|].
  - intros v d. destruct (decide (v = u)) as [->|]; [|rewrite lookup_insert_ne by done; apply H1].
    by rewrite lookup_insert_eq; intros [= <-].
  - intros v w d d' Hd Hd' E. apply Hback in Hd as (? & ? & ?), Hd' as (? & ? & ?).
    eapply H2; [done..|]. congruence.
  - done.
  - intros p s a v d Hp (d0 & Hd0 & <-)%Hback. by eapply H4.
  - intros p Hp. destruct (H6 p Hp) as (s & a & v & Hm & Hv). exists s, a, v. split; [done|]. intros E.
    destruct (Hv E) as (w & d & Hd & Ha & Hs & Hn). destruct (decide (w = u)) as [->|].
    + assert (d = c) as -> by congruence. exists u, c'. rewrite lookup_insert_eq.
      destruct (Hq p Hp Hs Hn). split_and!; congruence || done.
    + exists w, d. by rewrite lookup_insert_ne.
Qed.

Lemma ctx_inv_links (L : gmap nat Conn) (m : memory) (Q : list nat) (u : nat) (c c' : Conn) :
  ctx_inv L m Q -> L !! u = Some c -> same_links c c' -> ctx_inv (<[u := c']> L) m Q.
Proof.
  intros Hi Hu Hs. eapply ctx_inv_insert; [done|done| |apply Hs|].
  - eapply conn_ok_links; [done|]. by eapply ci_conn.
  - destruct Hs as (_ & _ & -> & ->). done.
Qed.

(** Connections go, and their contexts are told. *)
Lemma ctx_inv_remove (L L' : gmap nat Conn) (m m' : memory) (Q : list nat) :
  ctx_inv L m Q -> L' ⊆ L -> next_ m' = next_ m ->
  (forall p, meta_of m' p = meta_of m p \/
     exists s a u c, meta_of m p = Some (s, a, true) /\ meta_of m' p = Some (s, a, false) /\
       L !! u = Some c /\ L' !! u = None /\ p ∈ send_contexts_ c) ->
  (forall u c p, L !! u = Some c -> L' !! u = None -> p ∈ send_contexts_ c ->
     forall s a, meta_of m' p <> Some (s, a, true)) ->
  ctx_inv L' m' Q.
Proof.
  intros [H1 H2 H3 H4 H0 H5 H6] Hsub Hn Hm Hgone.
  assert (forall u c, L' !! u = Some c -> L !! u = Some c) as Hin by (intros; by eapply lookup_weaken).
  assert (forall u c p, L' !! u = Some c -> p ∈ send_contexts_ c -> meta_of m' p = meta_of m p) as Hsame.
  { intros u c p Hc Hp. destruct (Hm p) as [|(s & a & v & d & E & _ & Hd & Hv & Hpd)]; [done|].
    destruct (co_sends _ _ (H1 u c (Hin _ _ Hc)) p Hp) as (s1 & E1 & _).
    destruct (co_sends _ _ (H1 v d Hd) p Hpd) as (s2 & E2 & _).
    assert (v = u) as -> by (eapply H2; [done|by apply Hin|congruence]). congruence. }
  split; [..|lia|done|].
  - intros u c Hc. eapply conn_ok_memory; [by eapply H1, Hin|lia|]. intros p. by eapply Hsame.
  - intros u v c d Hc Hd. by eapply H2; apply Hin.
  - intros p s a v Hp. rewrite Hn. destruct (Hm p) as [E|(s1 & a1 & ? & ? & E & E' & _)].
    + rewrite E in Hp. by eapply H3.
    + apply (H3 p s1 a true). congruence.
  - intros p s a u c Hp Hc. destruct (Hm p) as [E|(s1 & a1 & v & d & E & E' & Hd & Hv & Hpd)].
    + rewrite E in Hp. eapply H4; [done|by apply Hin].
    + assert (a1 = a) as -> by congruence. intros <-.
      destruct (co_sends _ _ (H1 v d Hd) p Hpd) as (s2 & E2 & _).
      assert (v = u) as -> by (eapply H2; [done|by apply Hin|congruence]). congruence.
  - intros p Hp. destruct (H6 p Hp) as (s & a & v & E & Hv).
    destruct (Hm p) as [E'|(s1 & a1 & u & d & E1 & E' & Hd & Hu & Hpd)].
    + exists s, a, v. rewrite E'. split; [done|]. intros Ev. destruct (Hv Ev) as (u & c & Hc & Ha & Hs & Hpn).
      exists u, c. destruct (L' !! u) as [c'|] eqn:El.
      * apply Hin in El as El'. by simplify_eq.
      * destruct (Hgone u c p Hc El Hs s a). congruence.
    + exists s1, a1, false. by split.
Qed.

(** New contexts appear. *)
Lemma ctx_inv_alloc (L : gmap nat Conn) (m m' : memory) (Q : list nat) :
  ctx_inv L m Q -> (next_ m <= next_ m')%nat ->
  (forall p, is_Some (meta_of m p) -> meta_of m' p = meta_of m p) ->
  (forall p s a v, meta_of m p = None -> meta_of m' p = Some (s, a, v) ->
     v = true /\ (p < next_ m')%nat /\ (a < next_ m')%nat) ->
  ctx_inv L m' Q.
Proof.
  intros [H1 H2 H3 H4 H0 H5 H6] Hn Hold Hnew. split; [|done|..|lia|done|].
  - intros u c Hc. eapply conn_ok_memory; [by eapply H1|done|]. intros p Hp. apply Hold.
    destruct (co_sends _ _ (H1 u c Hc) p Hp) as (s & -> & _). by eexists.
  - intros p s a v Hp. destruct (meta_of m p) as [[[s' a'] v']|] eqn:E.
    + rewrite Hold in Hp by (rewrite E; by eexists). apply H3 in Hp. lia.
    + by eapply Hnew.
  - intros p s a u c Hp. destruct (meta_of m p) eqn:E.
    + rewrite Hold in Hp by (rewrite E; by eexists). by apply (H4 p s).
    + by destruct (Hnew p s a false E Hp).
  - intros p Hp. destruct (H6 p Hp) as (s & a & v & E & Hv). exists s, a, v.
    rewrite Hold by (rewrite E; by eexists). done.
Qed.

(** A connection is made, at a new address. *)
Lemma ctx_inv_new (L : gmap nat Conn) (m : memory) (Q : list nat) (u : nat) (c : Conn) :
  ctx_inv L m Q -> L !! u = None -> this_ c = next_ m ->
  send_contexts_ c = [] -> pending_send_ctx_ c = [] -> send_ctx_seq_ c = 0 ->
  ctx_inv (<[u := c]> L) (alloc m).2 Q.
Proof.
  intros H Hu Ht Hs Hp Hq. pose proof (ci_base _ _ _ H) as Hn.
  assert (ctx_inv L (alloc m).2 Q) as [H1 H2 H3 H4 H0 H5 H6].
  { eapply ctx_inv_alloc; [done|cbn; lia|done|]. intros p s a v E E'. unfold meta_of in *. cbn in E'. congruence. }
  assert (forall v d, L !! v = Some d -> this_ d <> this_ c) as Hne.
  { intros v d Hd. pose proof (co_this _ _ (ci_conn _ _ _ H v d Hd)). lia. }
  split; [..|done|done|].
  - intros v d [[<- <-]|[_ Hd]]%lookup_insert_Some; [|by apply (H1 v)].
    split; rewrite ?Ht, ?Hs, ?Hp, ?Hq; [cbn; lia|set_solver|cbn; lia|set_solver|].
    split; [constructor|set_solver].
  - intros v w d e [[<- <-]|[_ Hd]]%lookup_insert_Some [[<- <-]|[_ He]]%lookup_insert_Some E; [done|..].
    + by destruct (Hne w e).
    + by destruct (Hne v d).
    + by eapply H2.
  - done.
  - intros p s a v d Hpm [[<- <-]|[_ Hd]]%lookup_insert_Some; [|by apply (H4 p s a v)].
    apply (ci_next _ _ _ H p s a false) in Hpm. lia.
  - intros p Hpq. destruct (H6 p Hpq) as (s & a & v & E & Hv). exists s, a, v. split; [done|]. intros Ev.
    destruct (Hv Ev) as (w & d & Hd & ?). exists w, d. split; [|done]. rewrite lookup_insert_ne; [done|]. congruence.
Qed.

(** A context is put on its way. *)
Lemma ctx_inv_cons (L : gmap nat Conn) (m : memory) (Q : list nat) (u p : nat) (c : Conn) (s : Z) :
  ctx_inv L m Q -> p ∉ Q -> L !! u = Some c -> meta_of m p = Some (s, this_ c, true) ->
  p ∈ send_contexts_ c -> p ∉ pending_send_ctx_ c -> ctx_inv L m (p :: Q).
Proof.
  intros [H1 H2 H3 H4 H0 H5 H6] Hp Hc E Hs Hn. split; [done..|by constructor|].
  intros q [->|Hq]%elem_of_cons; [|by apply H6]. exists s, (this_ c), true. split; [done|]. eauto 10.
Qed.

(** *** The operations of a connection *)

Lemma meta_set_buffer (m : memory) (p q : nat) (ctx : SendContext) (b : AutoBuffer.AutoBuffer) :
  ctxs_ m !! p = Some ctx -> meta_of (set_ctx m p (set_buffer ctx b)) q = meta_of m q.
Proof.
  intros Hp. unfold meta_of, set_ctx. cbn [ctxs_]. destruct (decide (q = p)) as [->|].
  - by rewrite lookup_insert_eq, Hp.
  - by rewrite lookup_insert_ne.
Qed.

Lemma destroy_lookup (c : Conn) (m : memory) (p : nat) :
  ctxs_ (destroy c m) !! p
  = if decide (p ∈ send_contexts_ c) then invalidate <$> ctxs_ m !! p else ctxs_ m !! p.
Proof.
  unfold destroy. cbn [ctxs_]. generalize (send_contexts_ c). intros l.
  induction l as [|q l IH]; [done|]. cbn [foldr]. destruct (decide (q = p)) as [->|Hne].
  - rewrite lookup_alter_eq, IH, (decide_True (P := p ∈ p :: l)) by set_solver.
    destruct (decide (p ∈ l)); [|done]. by destruct (ctxs_ m !! p).
  - rewrite lookup_alter_ne by done. rewrite IH. destruct (decide (p ∈ l)), (decide (p ∈ q :: l)); set_solver.
Qed.

Lemma destroy_meta (c : Conn) (m : memory) (p : nat) :
  meta_of (destroy c m) p
  = if decide (p ∈ send_contexts_ c) then (fun x => (x.1, false)) <$> meta_of m p else meta_of m p.
Proof.
  unfold meta_of. rewrite destroy_lookup. destruct (decide (p ∈ send_contexts_ c)); [|done].
  by destruct (ctxs_ m !! p).
Qed.

(** Deleting one connection. *)
Lemma ctx_inv_delete (L : gmap nat Conn) (m : memory) (Q : list nat) (u : nat) (c : Conn) :
  ctx_inv L m Q -> L !! u = Some c -> ctx_inv (delete u L) (destroy c m) Q.
Proof.
  intros H Hc. eapply ctx_inv_remove; [done|apply delete_subseteq|done|..].
  - intros p. rewrite destroy_meta. destruct (decide (p ∈ send_contexts_ c)) as [Hp|]; [|by left].
    right. destruct (co_sends _ _ (ci_conn _ _ _ H u c Hc) p Hp) as (s & -> & _).
    exists s, (this_ c), u, c. by rewrite lookup_delete_eq.
  - intros v d p Hd Hv Hp s a. rewrite destroy_meta.
    apply lookup_delete_None in Hv as [->|]; [|congruence]. assert (d = c) as -> by congruence.
    rewrite decide_True by done. by destruct (meta_of m p).
Qed.

Lemma MakeSendContext_spec (c c' : Conn) (m m' : memory) (p : nat) :
  MakeSendContext c m = (p, c', m') -> conn_ok m c -> meta_of m (next_ m) = None ->
  Z.of_nat (next_ m) < 2 ^ 32 ->
  p = next_ m /\ next_ m' = S (next_ m) /\
  meta_of m' p = Some (send_ctx_seq_ c + 1, this_ c, true) /\
  (forall q, q <> p -> meta_of m' q = meta_of m q) /\ this_ c' = this_ c /\
  send_ctx_seq_ c' = send_ctx_seq_ c + 1 /\ send_contexts_ c' = send_contexts_ c ++ [p] /\
  pending_send_ctx_ c' = pending_send_ctx_ c.
Proof.
  unfold MakeSendContext, alloc. intros [= <- <- <-] [_ _ Hseq _ _] Hnone Hlt. cbn.
  assert (wrap32 (send_ctx_seq_ c + 1) = send_ctx_seq_ c + 1) as -> by (apply Z.mod_small; lia).
  split_and!; try done.
  - unfold meta_of, set_ctx. cbn [ctxs_]. by rewrite lookup_insert_eq.
  - intros q Hq. unfold meta_of, set_ctx. cbn [ctxs_]. by rewrite lookup_insert_ne.
Qed.

Lemma ctx_inv_fresh (L : gmap nat Conn) (m : memory) (Q : list nat) :
  ctx_inv L m Q -> meta_of m (next_ m) = None.
Proof. intros H. apply eq_None_not_Some. intros [[[s a] v] Hs]. apply (ci_next _ _ _ H) in Hs. lia. Qed.

Lemma MakeSendContext_inv (L : gmap nat Conn) (m m' : memory) (Q : list nat) (u p : nat) (c c' : Conn) :
  ctx_inv L m Q -> L !! u = Some c -> MakeSendContext c m = (p, c', m') -> Z.of_nat (next_ m) < 2 ^ 32 ->
  ctx_inv (<[u := c']> L) m' (p :: Q).
Proof.
  intros H Hc E Hlt. pose proof (ctx_inv_fresh _ _ _ H) as Hnone. pose proof (ci_conn _ _ _ H u c Hc) as Hok.
  destruct (MakeSendContext_spec c c' m m' p E Hok Hnone Hlt) as (-> & Hn & Hp & Hother & Ht & Hs & Hl & Hpe).
  assert (ctx_inv L m' Q) as H'.
  { eapply ctx_inv_alloc; [done|lia|..].
    - intros q Hq. apply Hother. intros ->. rewrite Hnone in Hq. by destruct Hq.
    - intros q s a v Hq Hq'. destruct (decide (q = next_ m)) as [->|]; [|rewrite Hother in Hq' by done; congruence].
      rewrite Hp in Hq'. pose proof (co_this _ _ Hok). split; [congruence|]. split; [lia|]. simplify_eq. lia. }
  assert (forall q, q ∈ send_contexts_ c -> q <> next_ m) as Hold.
  { intros q Hq ->. destruct (co_sends _ _ Hok _ Hq) as (s & E' & _). congruence. }
  assert (next_ m ∉ Q) as HQ.
  { intros Hq. destruct (ci_queue _ _ _ H _ Hq) as (s & a & v & E' & _). congruence. }
  assert (next_ m ∉ pending_send_ctx_ c) as Hpend.
  { intros Hq. eapply Hold; [|done]. by apply (co_pending _ _ Hok). }
  destruct Hok as [K1 K2 K3 K4 K5].
  eapply ctx_inv_cons; [|done|apply lookup_insert_eq|by rewrite Ht|rewrite Hl; set_solver|by rewrite Hpe].
  eapply ctx_inv_insert; [done|done| |done|rewrite Hl, Hpe; set_solver].
  split; rewrite ?Ht, ?Hs, ?Hl, ?Hpe; [lia| |lia| |].
  - intros q [Hq| ->%list_elem_of_singleton]%elem_of_app.
    + rewrite Hother by by apply Hold. destruct (K2 q Hq) as (s & E' & ?). exists s. split; [done|lia].
    + eexists. split; [done|]. lia.
  - intros q r s v w [Hq| ->%list_elem_of_singleton]%elem_of_app [Hr| ->%list_elem_of_singleton]%elem_of_app Eq Er.
    + rewrite Hother in Eq, Er by by apply Hold. by eapply K4.
    + rewrite Hother in Eq by by apply Hold. destruct (K2 q Hq) as (s' & E' & ?). rewrite Hp in Er. simplify_eq. lia.
    + rewrite Hother in Er by by apply Hold. destruct (K2 r Hr) as (s' & E' & ?). rewrite Hp in Eq. simplify_eq. lia.
    + done.
  - split; [apply K5|]. destruct K5 as [_ K5]. set_solver.
Qed.

(** A context that has been sent leaves its connection, and no other does. *)
Lemma SendDone_ok (m : memory) (c : Conn) (p : nat) (now : Z) :
  conn_ok m c -> p ∈ send_contexts_ c -> p ∉ pending_send_ctx_ c ->
  let c' := SendContextSendDoneCallback c m p now in
  conn_ok m c' /\ this_ c' = this_ c /\ pending_send_ctx_ c' = pending_send_ctx_ c /\
  uid_ c' = uid_ c /\ socket_ c' = socket_ c /\
  (forall q, q ∈ send_contexts_ c' <-> q ∈ send_contexts_ c /\ q <> p).
Proof.
  intros [K1 K2 K3 K4 K5] Hp Hn c'. destruct (K2 p Hp) as (s & Em & Hs).
  assert (seq_of m p = Some s) as Es.
  { unfold seq_of, meta_of in *. destruct (ctxs_ m !! p); [|done]. cbn in *. congruence. }
  assert (forall q, q ∈ send_contexts_ c -> seq_of m q = Some s -> q = p) as Hinj.
  { intros q Hq Eq. destruct (K2 q Hq) as (s' & Em' & _). apply (K4 q p s true true); [done|done| |done].
    rewrite Em'. do 3 f_equal. unfold seq_of, meta_of in *. destruct (ctxs_ m !! q); [|done]. cbn in *. congruence. }
  assert (this_ c' = this_ c /\ pending_send_ctx_ c' = pending_send_ctx_ c /\ uid_ c' = uid_ c /\
          socket_ c' = socket_ c /\ send_ctx_seq_ c' = send_ctx_seq_ c /\
          send_contexts_ c' = filter (fun q => seq_of m q <> Some s) (send_contexts_ c)) as (Ht & Hpe & Hu & Hso & Hsq & Hl).
  { unfold c', SendContextSendDoneCallback, DelSendContext. rewrite Es. by destruct (is_longlink_app_proto_ c). }
  assert (forall q, q ∈ send_contexts_ c' <-> q ∈ send_contexts_ c /\ q <> p) as Hin.
  { intros q. rewrite Hl, list_elem_of_filter. split; intros [H1 H2].
    - split; [done|]. by intros ->.
    - split; [|done]. intros Eq. by apply H2, Hinj. }
  split_and!; try done. split; rewrite ?Ht, ?Hsq, ?Hpe; [done| |done| |].
  - intros q [Hq _]%Hin. by apply K2.
  - intros q r s' v w [Hq _]%Hin [Hr _]%Hin. by apply K4.
  - split; [apply K5|]. intros q Hq. apply Hin. split; [by apply K5|]. by intros ->.
Qed.

Lemma AddPending_ok (m : memory) (c : Conn) (p : nat) :
  conn_ok m c -> p ∈ send_contexts_ c -> p ∉ pending_send_ctx_ c -> conn_ok m (AddPendingPacketToSend c p).
Proof.
  intros [K1 K2 K3 K4 [K5 K6]] Hp Hn. split; try done. cbn. split; [|set_solver].
  apply NoDup_app. split_and!; [done|set_solver|apply NoDup_singleton].
Qed.

Lemma pop_pending_ok (m : memory) (c : Conn) : conn_ok m c -> conn_ok m (pop_pending c).
Proof.
  intros [K1 K2 K3 K4 [K5 K6]]. split; try done. cbn. destruct (pending_send_ctx_ c) as [|p l]; [done|].
  apply NoDup_cons in K5 as [_ K5]. split; [done|]. cbn. set_solver.
Qed.

Lemma pop_pending_done (m : memory) (c : Conn) (p : nat) (now : Z) :
  pop_pending (SendContextSendDoneCallback c m p now) = SendContextSendDoneCallback (pop_pending c) m p now.
Proof.
  unfold SendContextSendDoneCallback, DelSendContext, pop_pending. cbn.
  destruct (seq_of m p), (is_longlink_app_proto_ c); done.
Qed.

End Inv.

(** ** The invariant of a network thread *)

(** A buffer that is a view of the memory of another object. *)
Definition is_view (b : AutoBuffer.AutoBuffer) : bool :=
  match AutoBuffer.byte_array_p_ b with AutoBuffer.PExt _ _ => true | _ => false end.

Lemma WriteString_own (b b' : AutoBuffer.AutoBuffer) (s : bytes) :
  AutoBuffer.WriteString b s = Ok b' -> is_view b = false -> is_view b' = false.
Proof.
  unfold AutoBuffer.WriteString, AutoBuffer.Write. destruct (_ =? 0); [by intros [= ->]|]. intros E Hb.
  res_inv. rewrite Z.ltb_irrefl in E. res_inv. unfold AutoBuffer.copy_at in *. repeat case_match; try done.
  all: by res_inv.
Qed.

Lemma request_Pack_own (host url : bytes) (headers : option (StdMap.smap bytes)) (body : bytes) (b b' : AutoBuffer.AutoBuffer) :
  HttpPacket.request_Pack host url headers body b = Ok b' -> is_view b' = false.
Proof. unfold HttpPacket.request_Pack. intros E. res_inv. by eauto using WriteString_own. Qed.

Lemma response_Pack_own ver code desc headers body (b b' : AutoBuffer.AutoBuffer) :
  HttpPacket.response_Pack ver code desc headers body b = Ok b' -> is_view b' = false.
Proof. unfold HttpPacket.response_Pack. intros E. res_inv. destruct body; res_inv; by eauto using WriteString_own. Qed.

Lemma ws_Pack_own (content : bytes) (b b' : AutoBuffer.AutoBuffer) :
  WebSocket.Pack content b = Ok b' -> is_view b = false -> is_view b' = false.
Proof.
  unfold WebSocket.Pack. intros E Hb. res_inv. destruct (_ <? 126); [|destruct (_ <=? 65535)]; res_inv;
    eauto 6 using WriteString_own.
Qed.

Definition no_views (m : memory) : Prop :=
  forall p ctx, ctxs_ m !! p = Some ctx -> is_view (sc_buffer ctx) = false.

Section Thread.
Context {P D : Type} `{ApplicationProtocolParser P}.
Abbreviation Conn := (ConnectionProfile P).
Implicit Types t : NetThreadBase P D.

Definition conns t : gmap nat Conn := live (connection_manager_ t).

(** The connections are well kept, the flags of the contexts [Q] on their way
    can be trusted, and the packets to send own their bytes. *)
Record net_inv (Q : list nat) t : Prop := {
  ni_mgr : mgr_inv (connection_manager_ t);
  ni_ctx : ctx_inv (conns t) (memory_ t) Q;
  ni_views : no_views (memory_ t)
}.

(** The same without the last part, for threads that send views of the receive
    buffers of their connections. *)
Record base_inv (Q : list nat) t : Prop := {
  bi_mgr : mgr_inv (connection_manager_ t);
  bi_ctx : ctx_inv (conns t) (memory_ t) Q
}.

Lemma net_base (Q : list nat) t : net_inv Q t -> base_inv Q t.
Proof. intros []. by split. Qed.

Lemma base_net (Q : list nat) t : base_inv Q t -> no_views (memory_ t) -> net_inv Q t.
Proof. intros [] ?. by split. Qed.

(** The context at [p] is marked as one whose connection is gone. *)
Definition stale t (p : nat) : Prop := exists s a, meta_of (memory_ t) p = Some (s, a, false).

(** Every connection but [u] is still there, at its address. *)
Definition others_kept (u : nat) t t' : Prop :=
  forall v c, v <> u -> conns t !! v = Some c -> exists c', conns t' !! v = Some c' /\ this_ c' = this_ c.

(** What the classes derived from a network thread leave alone. *)
Definition same_thread t t' : Prop :=
  derived_ t' = derived_ t /\ max_connections_ t' = max_connections_ t /\ running_ t' = running_ t /\
  epoll_notify_ t' = epoll_notify_ t.

Lemma find_this_Some (l : list (option Conn)) (i u a : nat) (c : Conn) :
  find_this i l a = Some (u, c) -> (i <= u)%nat /\ l !! (u - i)%nat = Some (Some c) /\ this_ c = a.
Proof.
  revert i. induction l as [|[d|] l IH]; intros i; cbn [find_this]; [done|..].
  - destruct (Nat.eqb_spec (this_ d) a).
    + intros [= <- <-]. by rewrite Nat.sub_diag.
    + intros (Hi & Hl & Ha)%IH. replace (u - i)%nat with (S (u - S i)) by lia. split_and!; [lia|done|done].
  - intros (Hi & Hl & Ha)%IH. replace (u - i)%nat with (S (u - S i)) by lia. split_and!; [lia|done|done].
Qed.

Lemma find_this_None (l : list (option Conn)) (i u a : nat) (c : Conn) :
  find_this i l a = None -> l !! u = Some (Some c) -> this_ c <> a.
Proof.
  revert i u. induction l as [|[d|] l IH]; intros i u; cbn [find_this]; [done|..].
  - destruct (Nat.eqb_spec (this_ d) a); [done|]. intros E. destruct u as [|u]; [by intros [= ->]|].
    by apply (IH (S i)).
  - intros E. destruct u as [|u]; [done|]. by apply (IH (S i)).
Qed.

(** A connection is found by its address exactly while it is alive. *)
Lemma conn_at_live t (Q : list nat) (a u : nat) (c : Conn) :
  ctx_inv (conns t) (memory_ t) Q ->
  conn_at t a = Some (u, c) <-> conns t !! u = Some c /\ this_ c = a.
Proof.
  intros Hi. unfold conn_at, conns. split.
  - intros (_ & Hl & Ha)%find_this_Some. rewrite Nat.sub_0_r in Hl. by rewrite live_lookup_Some.
  - intros [Hc Ha]. destruct (find_this 0 _ a) as [[v d]|] eqn:E.
    + apply find_this_Some in E as (_ & Hl & Hd). rewrite Nat.sub_0_r in Hl.
      apply live_lookup_Some in Hl. assert (v = u) as -> by (eapply ci_inj; [done..|congruence]). unfold conns in *.
      rewrite Hc in Hl. congruence.
    + apply live_lookup_Some in Hc. by destruct (find_this_None _ _ _ _ _ E Hc).
Qed.

Lemma conn_at_None t (Q : list nat) (a : nat) :
  ctx_inv (conns t) (memory_ t) Q -> (forall u c, conns t !! u = Some c -> this_ c <> a) -> conn_at t a = None.
Proof.
  intros Hi Hno. destruct (conn_at t a) as [[u c]|] eqn:E; [|done].
  apply (conn_at_live t Q) in E as [Hc Ha]; [|done]. by destruct (Hno u c).
Qed.

(** *** Receive buffers *)

(** The receive buffer of a live connection is found in its block. *)
Lemma deref_block t (Q : list nat) (u : nat) (c : Conn) :
  ctx_inv (conns t) (memory_ t) Q ->
  (forall v e, conns t !! v = Some e -> 0 <= AutoBuffer.capacity_ (tcp_byte_arr_ e) < 2 ^ 64) ->
  conns t !! u = Some c -> deref t (recv_block c) = Some (AutoBuffer.contents (tcp_byte_arr_ c)).
Proof.
  intros Hi Hcap Hu.
  assert (forall v e, conns t !! v = Some e -> recv_block e = recv_block c -> e = c) as Huniq.
  { intros v e He Eq. unfold recv_block in Eq. pose proof (Hcap v e He). pose proof (Hcap u c Hu).
    assert (this_ e = this_ c) as Et by lia. assert (v = u) as -> by (by eapply ci_inj). congruence. }
  unfold deref. apply live_lookup_Some in Hu.
  assert (forall e, Some e ∈ items (pool_ (connection_manager_ t)) -> recv_block e = recv_block c -> e = c) as Hin.
  { intros e [v Hv]%list_elem_of_lookup. apply Huniq with v. by apply live_lookup_Some. }
  apply list_elem_of_lookup_2 in Hu. revert Hu Hin. clear. induction (items _) as [|[e|] l IH]; intros Hu Hin.
  - by apply not_elem_of_nil in Hu.
  - cbn [omap list_omap]. destruct (Z.eqb_spec (recv_block e) (recv_block c)) as [Eq|Ne].
    + cbn. f_equal. f_equal. f_equal. apply Hin; [by left|done].
    + apply IH; [|intros; apply Hin; [by right|done]]. apply elem_of_cons in Hu as [[= <-]|]; done.
  - cbn [omap list_omap]. apply IH; [|intros; apply Hin; [by right|done]]. by apply elem_of_cons in Hu as [|].
Qed.

(** A block of a connection that is gone. *)
Lemma deref_gone t (c : Conn) :
  (forall v e, conns t !! v = Some e -> this_ e <> this_ c /\ 0 <= AutoBuffer.capacity_ (tcp_byte_arr_ e) < 2 ^ 64) ->
  0 <= AutoBuffer.capacity_ (tcp_byte_arr_ c) < 2 ^ 64 -> deref t (recv_block c) = None.
Proof.
  intros Hno Hcap. unfold deref.
  assert (forall e, Some e ∈ items (pool_ (connection_manager_ t)) -> recv_block e <> recv_block c) as Hin.
  { intros e [v Hv]%list_elem_of_lookup. destruct (Hno v e) as [Hne He]; [by apply live_lookup_Some|].
    unfold recv_block. lia. }
  revert Hin. clear. induction (items _) as [|[e|] l IH]; intros Hin; [done|..]; cbn [omap list_omap].
  - destruct (Z.eqb_spec (recv_block e) (recv_block c)) as [Eq|Ne]; [by destruct (Hin e); [left|]|].
    apply IH. intros x Hx. apply Hin. by right.
  - apply IH. intros x Hx. apply Hin. by right.
Qed.

(** *** The operations of a thread *)

Lemma base_del t (Q : list nat) (u : nat) (c : Conn) :
  base_inv Q t -> conns t !! u = Some c ->
  exists t', thread_DelConnection t u = Ok t' /\ base_inv Q t' /\ conns t' = delete u (conns t) /\
    memory_ t' = destroy c (memory_ t) /\ same_thread t t'.
Proof.
  intros [Hm Hc] Hu. destruct (thread_del_inv t u c Hm Hu) as (t' & E & Hm' & Hl & Hmem & Hmax & Hd).
  exists t'. split; [done|]. split_and!; [split; [done|]|done|done|].
  - unfold conns. rewrite Hl, Hmem. by apply ctx_inv_delete.
  - unfold thread_DelConnection in E. res_inv. by split_and!.
Qed.

Lemma net_del t (Q : list nat) (u : nat) (c : Conn) :
  net_inv Q t -> conns t !! u = Some c ->
  exists t', thread_DelConnection t u = Ok t' /\ net_inv Q t' /\ conns t' = delete u (conns t) /\
    next_ (memory_ t') = next_ (memory_ t) /\ same_thread t t'.
Proof.
  intros Hnet Hu. destruct (base_del t Q u c (net_base _ _ Hnet) Hu) as (t' & E & Hb & Hl & Hmem & Hs).
  exists t'. split_and!; [done| |done|by rewrite Hmem|done]. apply base_net; [done|].
  pose proof (ni_views _ _ Hnet) as Hv. rewrite Hmem. intros p ctx. rewrite destroy_lookup.
  destruct (decide _); [|apply Hv]. intros (x & Hx & ->)%fmap_Some. by apply (Hv p x).
Qed.

Lemma base_put t (Q Q' : list nat) (u : nat) (c c' : Conn) (m : memory) :
  mgr_inv (connection_manager_ t) -> conns t !! u = Some c -> conn_Uid c' = conn_Uid c -> conn_FD c' = conn_FD c ->
  ctx_inv (<[u := c']> (conns t)) m Q' ->
  exists t', put_conn (set_memory t m) u c' = Ok t' /\ base_inv Q' t' /\ conns t' = <[u := c']> (conns t) /\
    memory_ t' = m /\ same_thread t t'.
Proof.
  intros Hm Hu Hid Hfd Hi.
  destruct (put_conn_inv (set_memory t m) u c c') as (t' & E & Hm' & Hl & Hmax & Hmem & Hd); [done..|].
  exists t'. split; [done|]. split_and!; [split; [done|]|done|done|].
  - unfold conns. by rewrite Hl, Hmem.
  - unfold put_conn in E. res_inv. by split_and!.
Qed.

Lemma net_put_gen t (Q Q' : list nat) (u : nat) (c c' : Conn) (m : memory) :
  mgr_inv (connection_manager_ t) -> conns t !! u = Some c -> conn_Uid c' = conn_Uid c -> conn_FD c' = conn_FD c ->
  ctx_inv (<[u := c']> (conns t)) m Q' -> no_views m ->
  exists t', put_conn (set_memory t m) u c' = Ok t' /\ net_inv Q' t' /\ conns t' = <[u := c']> (conns t) /\
    memory_ t' = m /\ same_thread t t'.
Proof.
  intros Hm Hu Hid Hfd Hi Hv. destruct (base_put t Q Q' u c c' m Hm Hu Hid Hfd Hi) as (t' & E & Hb & Hl & Hmem & Hs).
  exists t'. split_and!; try done. apply base_net; [done|by rewrite Hmem].
Qed.

(** A connection changes without its links. *)
Lemma net_put t (Q : list nat) (u : nat) (c c' : Conn) :
  net_inv Q t -> conns t !! u = Some c -> conn_Uid c' = conn_Uid c -> conn_FD c' = conn_FD c ->
  same_links c c' ->
  exists t', put_conn t u c' = Ok t' /\ net_inv Q t' /\ conns t' = <[u := c']> (conns t) /\
    memory_ t' = memory_ t /\ same_thread t t'.
Proof.
  intros [Hm Hc Hv] Hu Hid Hfd Hs. replace t with (set_memory t (memory_ t)) at 1 by by destruct t.
  apply (net_put_gen t Q Q u c c' (memory_ t)); try done. by eapply ctx_inv_links.
Qed.

(** A context is made. *)
Lemma base_make_send t (Q : list nat) (u p : nat) (c c' : Conn) (m : memory) :
  base_inv Q t -> conns t !! u = Some c -> MakeSendContext c (memory_ t) = (p, c', m) ->
  Z.of_nat (next_ (memory_ t)) < 2 ^ 32 ->
  exists t', put_conn (set_memory t m) u c' = Ok t' /\ base_inv (p :: Q) t' /\
    conns t' = <[u := c']> (conns t) /\ memory_ t' = m /\ same_thread t t'.
Proof.
  intros [Hm Hc] Hu E Hlt. pose proof (MakeSendContext_inv _ _ _ _ _ _ _ _ Hc Hu E Hlt) as Hi.
  unfold MakeSendContext, alloc in E. injection E as <- <- <-. by apply (base_put t Q _ u c _ _ Hm Hu).
Qed.

Lemma no_views_make (c c' : Conn) (m m' : memory) (p : nat) :
  MakeSendContext c m = (p, c', m') -> no_views m -> no_views m'.
Proof.
  unfold MakeSendContext, alloc. intros [= <- <- <-] Hv q ctx. cbn [set_ctx ctxs_].
  intros [[_ <-]|[_ Hx]]%lookup_insert_Some; [done|by eapply Hv].
Qed.

Lemma net_make_send t (Q : list nat) (u p : nat) (c c' : Conn) (m : memory) :
  net_inv Q t -> conns t !! u = Some c -> MakeSendContext c (memory_ t) = (p, c', m) ->
  Z.of_nat (next_ (memory_ t)) < 2 ^ 32 ->
  exists t', put_conn (set_memory t m) u c' = Ok t' /\ net_inv (p :: Q) t' /\
    conns t' = <[u := c']> (conns t) /\ memory_ t' = m /\ same_thread t t'.
Proof.
  intros Hnet Hu E Hlt.
  destruct (base_make_send t Q u p c c' m (net_base _ _ Hnet) Hu E Hlt) as (t' & Ep & Hb & Hl & Hmem & Hs).
  exists t'. split_and!; try done. apply base_net; [done|]. rewrite Hmem. by eapply no_views_make, Hnet.
Qed.

Lemma Send_fd (s s' : UnixSocket.Socket) (b b' : AutoBuffer.AutoBuffer) (w : UnixSocket.write_result) (d : bool)
    (n : Z) (out : bytes) :
  UnixSocket.Send s b w = (d, n, s', b', out) -> UnixSocket.fd_ s' = UnixSocket.fd_ s.
Proof.
  unfold UnixSocket.Send. destruct (_ || _); [by intros [= <- <- <- <- <-]|].
  destruct w; [destruct (_ =? _)|destruct (UnixSocket.IS_EAGAIN _)]; by intros [= <- <- <- <- <-].
Qed.

(** The buffer of a context is filled. *)
Lemma no_views_set (m : memory) (p : nat) (ctx : SendContext) (b : AutoBuffer.AutoBuffer) :
  no_views m -> is_view b = false -> no_views (set_ctx m p (set_buffer ctx b)).
Proof. intros Hv Hb q x. cbn. intros [[_ <-]|[_ Hx]]%lookup_insert_Some; [done|by eapply Hv]. Qed.

Lemma net_fill t (Q : list nat) (p : nat) (ctx : SendContext) (b : AutoBuffer.AutoBuffer) :
  net_inv Q t -> ctxs_ (memory_ t) !! p = Some ctx -> is_view b = false ->
  net_inv Q (set_memory t (set_ctx (memory_ t) p (set_buffer ctx b))).
Proof.
  intros [Hm Hi Hv] Hp Hb. split; [done| |by apply no_views_set].
  eapply ctx_inv_meta; [done|done|]. intros q. by apply meta_set_buffer.
Qed.

(** [conn->MakeSendContext()] *)
Lemma base_conn_make t (Q : list nat) (u : nat) (c : Conn) :
  base_inv Q t -> conns t !! u = Some c -> Z.of_nat (next_ (memory_ t)) < 2 ^ 32 ->
  exists t' c' m, MakeSendContext c (memory_ t) = (next_ (memory_ t), c', m) /\
    conn_MakeSendContext t u = Ok (next_ (memory_ t), t') /\ base_inv (next_ (memory_ t) :: Q) t' /\
    conns t' = <[u := c']> (conns t) /\ memory_ t' = m /\ same_thread t t'.
Proof.
  intros Hnet Hu Hlt. unfold conn_MakeSendContext. rewrite slot_live. pose proof Hu as Hu'. unfold conns in Hu. rewrite Hu.
  cbn [from_option mbind res_bind]. destruct (MakeSendContext c (memory_ t)) as [[p c'] m] eqn:E.
  destruct (base_make_send t Q u p c c' m Hnet Hu' E Hlt) as (t' & -> & Hnet' & Hl & Hm & Hs). cbn [mbind res_bind].
  assert (p = next_ (memory_ t)) as -> by (unfold MakeSendContext, alloc in E; congruence). by exists t', c', m.
Qed.

Lemma net_conn_make t (Q : list nat) (u : nat) (c : Conn) :
  net_inv Q t -> conns t !! u = Some c -> Z.of_nat (next_ (memory_ t)) < 2 ^ 32 ->
  exists t' c', conn_MakeSendContext t u = Ok (next_ (memory_ t), t') /\ net_inv (next_ (memory_ t) :: Q) t' /\
    conns t' = <[u := c']> (conns t) /\ this_ c' = this_ c /\ next_ (memory_ t') = S (next_ (memory_ t)) /\
    (forall p, p <> next_ (memory_ t) -> meta_of (memory_ t') p = meta_of (memory_ t) p) /\
    is_Some (ctxs_ (memory_ t') !! next_ (memory_ t)) /\ same_thread t t'.
Proof.
  intros Hnet Hu Hlt.
  destruct (base_conn_make t Q u c (net_base _ _ Hnet) Hu Hlt) as (t' & c' & m & Em & E & Hb & Hl & Hm & Hs).
  assert (net_inv (next_ (memory_ t) :: Q) t') as Hnet'
    by (apply base_net; [done|rewrite Hm; eapply no_views_make, Hnet; exact Em]).
  exists t', c'. unfold MakeSendContext, alloc in Em. injection Em as <- <-. rewrite Hm. split_and!; try done.
  - intros p Hp. unfold meta_of. cbn. by rewrite lookup_insert_ne.
  - cbn. rewrite lookup_insert_eq. by eexists.
Qed.

(** Sending a packet that owns its bytes. *)
Lemma TrySend_own (deref : Z -> option bytes) (so : UnixSocket.Socket) (m : memory) (p : nat) (ctx : SendContext)
    (w : UnixSocket.write_result) :
  no_views m -> ctxs_ m !! p = Some ctx ->
  exists d s' m' out, TrySend deref so m (Some p) w = Ok (d, s', m', out) /\
    UnixSocket.fd_ s' = UnixSocket.fd_ so /\ next_ m' = next_ m /\ no_views m' /\
    forall q, meta_of m' q = meta_of m q.
Proof.
  intros Hv Hp. assert (exists v, AutoBuffer.bytes_of deref (sc_buffer ctx) = Ok v) as Hb.
  { pose proof (Hv p ctx Hp) as Hn. unfold is_view, AutoBuffer.bytes_of in *.
    destruct (AutoBuffer.byte_array_p_ (sc_buffer ctx)); [by eexists|by eexists|done]. }
  destruct (TrySend_ctx deref so m p ctx w Hp Hb) as (d & s' & b & out & -> & Hs & Hptr & _ & _).
  exists d, s', (set_ctx m p (set_buffer ctx b)), out. split_and!; [done| |done| |].
  - destruct (UnixSocket.Send so (sc_buffer ctx) w) as [[[[d1 n1] s1] b1] o1] eqn:E. simplify_eq. by eapply Send_fd.
  - intros q x. cbn [set_ctx ctxs_]. destruct (decide (q = p)) as [->|].
    + rewrite lookup_insert_eq. intros [= <-]. unfold is_view. cbn [set_buffer sc_buffer]. rewrite Hptr. by apply (Hv p).
    + rewrite lookup_insert_ne by done. apply Hv.
  - intros q. by apply meta_set_buffer.
Qed.

Lemma meta_ctx (m : memory) (p : nat) (x : Z * nat * bool) :
  meta_of m p = Some x ->
  exists ctx, ctxs_ m !! p = Some ctx /\ x = (sc_seq ctx, sc_owner ctx, sc_is_tcp_conn_valid ctx).
Proof. intros (ctx & Hp & ->)%fmap_Some. eauto. Qed.

(** [TrySendAndMarkPendingIfUndone] takes the context off its way: it is sent,
    or pending at its connection. If the connection is gone, the message it
    logs reads the socket of the deleted connection. *)
Lemma net_send t (Q : list nat) (p : nat) (w : UnixSocket.write_result) (now : Z) :
  net_inv (p :: Q) t ->
  (stale t p /\ TrySendAndMarkPendingIfUndone t (Some p) w now = Fault Dangling) \/
  (~ stale t p /\ exists d t' out, TrySendAndMarkPendingIfUndone t (Some p) w now = Ok (d, t', out) /\ net_inv Q t' /\
    next_ (memory_ t') = next_ (memory_ t) /\ same_thread t t' /\
    (forall q, meta_of (memory_ t') q = meta_of (memory_ t) q) /\
    forall v c, conns t !! v = Some c -> exists c', conns t' !! v = Some c' /\ this_ c' = this_ c).
Proof.
  intros [Hm Hi Hv]. destruct (ci_queue _ _ _ Hi p) as (s & a & v & Em & Hq); [by left|].
  destruct (meta_ctx _ _ _ Em) as (ctx & Hp & [= Es Ea Ev]). unfold TrySendAndMarkPendingIfUndone.
  cbn [from_option mbind res_bind]. rewrite Hp. cbn [from_option mbind res_bind]. rewrite <- Ev, <- Ea.
  assert (p ∉ Q) as HpQ by (pose proof (ci_nodup _ _ _ Hi) as [? _]%NoDup_cons; done).
  destruct v; cbn [negb].
  - right. split; [intros (? & ? & ?); congruence|]. destruct (Hq eq_refl) as (u & c & Hu & Ht & Hs & Hn).
    assert (conn_at t a = Some (u, c)) as -> by (by apply (conn_at_live t (p :: Q))).
    cbn [from_option mbind res_bind].
    destruct (TrySend_own (deref t) (socket_ c) (memory_ t) p ctx w Hv Hp) as (d & s' & m' & out & -> & Hfd & Hnx & Hv' & Hmeta).
    cbn [mbind res_bind].
    assert (ctx_inv (conns t) m' (p :: Q)) as Hi' by (by eapply ctx_inv_meta).
    pose proof (conn_ok_links m' c (set_socket c s') ltac:(done) (ci_conn _ _ _ Hi' u c Hu)) as Hok.
    assert (Hi2 : ctx_inv (conns t) m' Q) by (eapply ctx_inv_drop; [done|by apply submseteq_cons]).
    destruct d.
    + destruct (SendDone_ok m' (set_socket c s') p now Hok Hs Hn) as (Hok' & Ht' & Hpe & Hid & Hso & Hin).
      destruct (net_put_gen t Q Q u c (SendContextSendDoneCallback (set_socket c s') m' p now) m') as (t' & -> & Hi3 & Hl & Hm3 & Hsame);
        [done|done|done|by cbn; rewrite Hso| |done|].
      { eapply ctx_inv_insert; [done|done|done|done|]. intros q Hq1 Hq2 Hq3. rewrite Hpe. split; [|done].
        apply Hin. split; [done|]. by intros ->. }
      eexists _, t', _. split; [done|]. split_and!; [done|by rewrite Hm3|done|by rewrite Hm3|].
      intros v c0 Hc0. rewrite Hl. destruct (decide (v = u)) as [->|]; [rewrite lookup_insert_eq|rewrite lookup_insert_ne by done; eauto].
      eexists. split; [done|]. rewrite Ht'. cbn. congruence.
    + destruct (net_put_gen t Q Q u c (AddPendingPacketToSend (set_socket c s') p) m') as (t' & -> & Hi3 & Hl & Hm3 & Hsame);
        [done|done|done|done| |done|].
      { eapply ctx_inv_insert; [done|done|by apply AddPending_ok|done|]. intros q Hq1 Hq2 Hq3. cbn. set_solver. }
      eexists _, t', _. split; [done|]. split_and!; [done|by rewrite Hm3|done|by rewrite Hm3|].
      intros v c0 Hc0. rewrite Hl. destruct (decide (v = u)) as [->|]; [rewrite lookup_insert_eq|rewrite lookup_insert_ne by done; eauto].
      eexists. split; [done|]. cbn. congruence.
  - left. split; [by eexists _, _|]. unfold socket_FD. rewrite <- Ea.
    rewrite (conn_at_None t (p :: Q) a Hi); [done|]. intros u c Hc. by eapply ci_stale.
Qed.

(** What a [write] takes. *)
Definition wrote (w : UnixSocket.write_result) : Z :=
  match w with UnixSocket.Wrote n => n | UnixSocket.WriteErr _ => 0 end.

(** What else decides how a connection takes what it receives: the flags of its
    socket and of the connection. *)
Definition input_flags (c : Conn) : bool * bool * bool :=
  (UnixSocket.is_eagain_ (socket_ c), has_received_Fin_ c, is_longlink_app_proto_ c).

(** A connection after a packet was given to its socket. *)
Definition after_send (c c' : Conn) (p : nat) (done : bool) : Prop :=
  this_ c' = this_ c /\ tcp_byte_arr_ c' = tcp_byte_arr_ c /\ conn_FD c' = conn_FD c /\ input_flags c' = input_flags c /\
  (remote_ip_ c', remote_port_ c', conn_type c', parser_ c') = (remote_ip_ c, remote_port_ c, conn_type c, parser_ c) /\
  pending_send_ctx_ c' = if done then pending_send_ctx_ c else pending_send_ctx_ c ++ [p].

Lemma Send_rest (so : UnixSocket.Socket) (b : AutoBuffer.AutoBuffer) (w : UnixSocket.write_result) :
  0 < UnixSocket.fd_ so -> AutoBuffer.pos_ b = 0 -> 0 < AutoBuffer.length_ b < 2 ^ 62 -> UnixSocket.write_ok b w ->
  exists n so' out, UnixSocket.Send so b w
    = (wrote w =? AutoBuffer.length_ b, n, so', AutoBuffer.set_pos b (wrote w), out) /\
    UnixSocket.fd_ so' = UnixSocket.fd_ so /\ UnixSocket.is_eagain_ so' = UnixSocket.is_eagain_ so.
Proof.
  intros Hfd Hp Hl Hw. unfold UnixSocket.Send, AutoBuffer.Pos, AutoBuffer.Length. rewrite Hp, sub64_id, Z.sub_0_r by lia.
  destruct (Z.leb_spec (UnixSocket.fd_ so) 0); [lia|]. destruct (Z.eqb_spec (AutoBuffer.length_ b) 0); [lia|]. cbn [orb].
  destruct w as [k|e]; cbn [wrote UnixSocket.write_ok] in *.
  - destruct (Z.eqb_spec k (AutoBuffer.length_ b)) as [->|]; eexists _, _, _; (split; [|done]); cbn [AutoBuffer.Seek].
    + done.
    + rewrite Hp, add64_id, Z.add_0_l by lia. done.
  - destruct (Z.eqb_spec 0 (AutoBuffer.length_ b)); [lia|].
    assert (AutoBuffer.set_pos b 0 = b) as Eb by (destruct b; cbn in *; by subst).
    destruct (UnixSocket.IS_EAGAIN e); eexists _, _, _; cbn [AutoBuffer.Seek].
    + rewrite Hp, add64_id, Z.add_0_l by lia. by split.
    + rewrite Eb. by split.
Qed.

(** [TrySendAndMarkPendingIfUndone] on a packet none of which is sent, be it a
    view of a live buffer or not. *)
Lemma base_send t (Q : list nat) (p u : nat) (c : Conn) (ctx : SendContext) (data : bytes)
    (w : UnixSocket.write_result) (now : Z) :
  base_inv (p :: Q) t -> conns t !! u = Some c -> ctxs_ (memory_ t) !! p = Some ctx -> sc_owner ctx = this_ c ->
  sc_is_tcp_conn_valid ctx = true -> 0 < conn_FD c ->
  AutoBuffer.bytes_of (deref t) (sc_buffer ctx) = Ok data -> AutoBuffer.pos_ (sc_buffer ctx) = 0 ->
  AutoBuffer.length_ (sc_buffer ctx) = zlen data -> 0 < zlen data < 2 ^ 62 -> UnixSocket.write_ok (sc_buffer ctx) w ->
  let done := wrote w =? zlen data in
  exists t' c', TrySendAndMarkPendingIfUndone t (Some p) w now = Ok (done, t', take (Z.to_nat (wrote w)) data) /\
    base_inv Q t' /\ conns t' = <[u := c']> (conns t) /\ after_send c c' p done /\
    memory_ t' = set_ctx (memory_ t) p (set_buffer ctx (AutoBuffer.set_pos (sc_buffer ctx) (wrote w))) /\ same_thread t t'.
Proof.
  intros [Hm Hi] Hu Hp Hown Hval Hfd Hdata Hpos Hlen Hl Hw done.
  assert (p ∉ Q) as HpQ by (pose proof (ci_nodup _ _ _ Hi) as [? _]%NoDup_cons; done).
  destruct (ci_queue _ _ _ Hi p) as (s & a & v & Em & Hq); [by left|]. unfold meta_of in Em. rewrite Hp in Em.
  cbn in Em. injection Em as <- <- <-. destruct (Hq Hval) as (u' & c2 & Hu' & Ht' & Hs & Hn).
  assert (u' = u) as -> by (eapply ci_inj; [done..|congruence]). assert (c2 = c) as -> by congruence.
  unfold TrySendAndMarkPendingIfUndone. cbn [from_option mbind res_bind]. rewrite Hp. cbn [from_option mbind res_bind].
  rewrite Hval. cbn [negb]. assert (conn_at t (sc_owner ctx) = Some (u, c)) as -> by (by apply (conn_at_live t (p :: Q))).
  cbn [from_option mbind res_bind]. unfold TrySend. rewrite Hp. change (conn_FD c) with (UnixSocket.fd_ (socket_ c)) in Hfd.
  destruct (Send_rest (socket_ c) (sc_buffer ctx) w Hfd Hpos) as (n & so & o & -> & Hso & Hea); [lia|done|].
  assert (sent_bytes (deref t) (socket_ c) (sc_buffer ctx) w = Ok (take (Z.to_nat (wrote w)) data)) as ->.
  { unfold sent_bytes, AutoBuffer.Pos, AutoBuffer.Length. rewrite Hpos, Hlen, sub64_id, Z.sub_0_r by lia.
    destruct (Z.leb_spec (UnixSocket.fd_ (socket_ c)) 0); [lia|]. destruct (Z.eqb_spec (zlen data) 0); [lia|]. cbn [orb].
    rewrite Hdata. cbn [mbind res_bind]. rewrite drop_0. by destruct w. }
  cbn [mbind res_bind]. rewrite Hlen. fold done. set (m' := set_ctx _ p _).
  assert (ctx_inv (conns t) m' (p :: Q)) as Hi'.
  { eapply ctx_inv_meta; [done|done|]. intros q. by apply meta_set_buffer. }
  pose proof (conn_ok_links m' c (set_socket c so) ltac:(done) (ci_conn _ _ _ Hi' u c Hu)) as Hok.
  assert (ctx_inv (conns t) m' Q) as Hi2 by (eapply ctx_inv_drop; [done|by apply submseteq_cons]).
  destruct done.
  - destruct (SendDone_ok m' (set_socket c so) p now Hok Hs Hn) as (Hok' & Ht2 & Hpe & Hid & Hsk & Hin).
    set (c' := SendContextSendDoneCallback _ m' p now) in *.
    destruct (base_put t Q Q u c c' m') as (t' & -> & Hb & Hl' & Hm' & Hsame); [done|done|done|by cbn; rewrite Hsk| |].
    { eapply ctx_inv_insert; [done|done|done|done|]. intros q Hq1 Hq2 Hq3. rewrite Hpe. split; [|done].
      apply Hin. split; [done|]. by intros ->. }
    exists t', c'. split_and!; try done. split_and!; [done| |by cbn; rewrite Hsk| | |done];
      unfold c', input_flags, SendContextSendDoneCallback; destruct (is_longlink_app_proto_ _) eqn:El, (seq_of _ _); cbn in *; congruence.
  - destruct (base_put t Q Q u c (AddPendingPacketToSend (set_socket c so) p) m') as (t' & -> & Hb & Hl' & Hm' & Hsame);
      [done|done|done|done| |].
    { eapply ctx_inv_insert; [done|done|by apply AddPending_ok|done|]. intros q Hq1 Hq2 Hq3. cbn. set_solver. }
    exists t', (AddPendingPacketToSend (set_socket c so) p). split_and!; try done. split_and!; try done. unfold input_flags. cbn. by rewrite Hea.
Qed.

(** The pending packets of a connection. *)
Lemma send_pending_inv (deref : Z -> option bytes) (L : gmap nat Conn) (Q : list nat) (u n : nat) (c : Conn)
    (m : memory) (ws : list UnixSocket.write_result) (now : Z) :
  (length (pending_send_ctx_ c) <= n)%nat -> ctx_inv (<[u := c]> L) m Q -> no_views m ->
  exists r c' m' outs, send_pending deref n c m ws now = Ok (r, c', m', outs) /\
    ctx_inv (<[u := c']> L) m' Q /\ no_views m' /\ next_ m' = next_ m /\ this_ c' = this_ c /\
    conn_Uid c' = conn_Uid c /\ conn_FD c' = conn_FD c.
Proof.
  revert c m ws. induction n as [|n IH]; intros c m ws Hn Hi Hv;
    (destruct (pending_send_ctx_ c) as [|p rest] eqn:Ep;
     [exists true, c, m, []; cbn [send_pending]; by rewrite ?Ep|]); [simpl in Hn; lia|].
  cbn [send_pending]. rewrite Ep. pose proof (ci_conn _ _ _ Hi u c (lookup_insert_eq _ _ _)) as Hok.
  pose proof (co_pending _ _ Hok) as [Hnd Hsub]. rewrite Ep in Hnd, Hsub. apply NoDup_cons in Hnd as [Hnp _].
  destruct (co_sends _ _ Hok p) as (s & Em & _); [set_solver|]. destruct (meta_ctx _ _ _ Em) as (ctx & Hp & _).
  destruct (TrySend_own deref (socket_ c) m p ctx (default (UnixSocket.WriteErr UnixSocket.EAGAIN) (head ws)) Hv Hp)
    as (d & s' & m' & out & -> & Hfd & Hnx & Hv' & Hmeta).
  cbn [mbind res_bind].
  assert (ctx_inv (<[u := c]> L) m' Q) as Hi' by (by eapply ctx_inv_meta).
  pose proof (conn_ok_links m' c (set_socket c s') ltac:(done) (ci_conn _ _ _ Hi' u c (lookup_insert_eq _ _ _))) as Hok'.
  destruct d.
  - rewrite pop_pending_done.
    destruct (SendDone_ok m' (pop_pending (set_socket c s')) p now) as (Hok2 & Ht & Hpe & Hid & Hso & Hin);
      [by apply pop_pending_ok|cbn; set_solver|cbn; by rewrite Ep|].
    set (c2 := SendContextSendDoneCallback (pop_pending (set_socket c s')) m' p now) in *. cbn in Hpe. rewrite Ep in Hpe.
    destruct (IH c2 m' (tail ws)) as (r & c3 & m3 & outs & -> & Hi3 & Hv3 & Hn3 & Ht3 & Hid3 & Hfd3);
      [rewrite Hpe; simpl in *; lia| |done|].
    { rewrite <- (insert_insert_eq L u c2 c). eapply ctx_inv_insert; [done|by apply lookup_insert_eq|done|done|].
      intros q Hq1 Hq2 Hq3. rewrite Hpe. rewrite Ep in Hq3. split; [|set_solver]. apply Hin. set_solver. }
    cbn [mbind res_bind]. eexists r, c3, m3, _. split; [done|]. split_and!; [done|done|congruence|..].
    + by rewrite Ht3, Ht.
    + rewrite Hid3. cbn. by rewrite Hid.
    + rewrite Hfd3. cbn. rewrite Hso. done.
  - eexists false, _, m', _. split; [done|]. split_and!; try done.
    rewrite <- (insert_insert_eq L u (set_socket c s') c). eapply ctx_inv_insert; [done|by apply lookup_insert_eq|done|done|done].
Qed.

Lemma net_write t (Q : list nat) (u : nat) (c : Conn) (ws : list UnixSocket.write_result) (now : Z) :
  net_inv Q t -> conns t !! u = Some c ->
  exists t' outs, __OnWriteEvent t u ws now = Ok (t', outs) /\ net_inv Q t' /\ same_thread t t' /\
    next_ (memory_ t') = next_ (memory_ t) /\
    forall v d, conns t !! v = Some d -> exists d', conns t' !! v = Some d' /\ this_ d' = this_ d.
Proof.
  intros Hnet Hu. pose proof Hnet as [Hm Hi Hv]. unfold __OnWriteEvent, vec_get. pose proof Hu as Hu'. apply live_lookup_Some in Hu' as ->.
  cbn [mbind res_bind]. destruct (HasPendingPacketToSend c); [|exists t, []; split_and!; try done; eauto].
  unfold TrySendPendingPackets. rewrite <- (insert_id _ _ _ Hu) in Hi.
  destruct (send_pending_inv (deref t) (conns t) Q u (length (pending_send_ctx_ c)) c (memory_ t) ws now)
    as (r & c' & m' & outs & -> & Hi' & Hv' & Hn' & Ht & Hid & Hfd); [done..|]. cbn [mbind res_bind].
  destruct (net_put_gen t Q Q u c c' m') as (t' & -> & Hi3 & Hl & Hm3 & Hsame); [done..|].
  eexists t', outs. split; [done|]. split_and!; [done|done|by rewrite Hm3|].
  intros v d Hd. rewrite Hl. destruct (decide (v = u)) as [->|]; [rewrite lookup_insert_eq|rewrite lookup_insert_ne by done; eauto].
  eexists. split; [done|]. congruence.
Qed.

(** *** Timeouts *)

Lemma clear_memory (now : Z) (l : list (option Conn)) (m : memory) :
  let m' := foldr (destroy_timeout now) m l in
  next_ m' = next_ m /\ (no_views m -> no_views m') /\
  (forall p, meta_of m' p = meta_of m p \/
     meta_of m' p = (fun x => (x.1, false)) <$> meta_of m p /\
     exists c, Some c ∈ l /\ conn_IsTimeout c now = true /\ p ∈ send_contexts_ c) /\
  (forall c p, Some c ∈ l -> conn_IsTimeout c now = true -> p ∈ send_contexts_ c ->
     forall s a, meta_of m' p <> Some (s, a, true)).
Proof.
  cbv zeta. induction l as [|o l (IH1 & IH2 & IH3 & IH4)]; [split_and!; [done|done|by left|set_solver]|].
  cbn [foldr]. set (m1 := foldr (destroy_timeout now) m l) in *.
  destruct o as [c|]; [destruct (conn_IsTimeout c now) eqn:Et|]; unfold destroy_timeout; fold (destroy_timeout (P := P));
    rewrite ?Et.
  - assert (forall p, meta_of (destroy c m1) p = meta_of m1 p \/
              p ∈ send_contexts_ c /\ meta_of (destroy c m1) p = (fun x => (x.1, false)) <$> meta_of m1 p) as Hd.
    { intros p. rewrite destroy_meta. destruct (decide _); auto. }
    split_and!; [done|..].
    + intros Hv p ctx. rewrite destroy_lookup. destruct (decide _); [|by apply IH2].
      intros (x & Hx & ->)%fmap_Some. by apply (IH2 Hv p x).
    + intros p. destruct (Hd p) as [->|[Hp ->]]; [destruct (IH3 p) as [|(E & c' & ? & ?)]; [by left|]|].
      * right. split; [done|]. exists c'. set_solver.
      * right. split; [|exists c; set_solver]. destruct (IH3 p) as [->|[-> _]]; [done|].
        by destruct (meta_of m p).
    + intros c' p Hc' Ht Hp s a. destruct (Hd p) as [E|[Hp' ->]]; [|by destruct (meta_of m1 p)].
      apply elem_of_cons in Hc' as [[= <-]|Hc']; [|rewrite E; by eapply IH4].
      rewrite destroy_meta, decide_True in E by done. rewrite destroy_meta, decide_True by done.
      by destruct (meta_of m1 p).
  - split_and!; [done|done|..].
    + intros p. destruct (IH3 p) as [|(E & c' & ? & ?)]; [by left|right]. split; [done|]. exists c'. set_solver.
    + intros c' p [[= <-]|Hc']%elem_of_cons; [congruence|by apply IH4].
  - split_and!; [done|done|..].
    + intros p. destruct (IH3 p) as [|(E & c' & ? & ?)]; [by left|right]. split; [done|]. exists c'. set_solver.
    + intros c' p [[= ]|Hc']%elem_of_cons. by apply IH4.
Qed.

Lemma base_clear t (Q : list nat) (now : Z) :
  base_inv Q t ->
  let t' := thread_ClearTimeout t now in
  base_inv Q t' /\ conns t' = filter (fun x => conn_IsTimeout x.2 now = false) (conns t) /\
  (forall p, meta_of (memory_ t') p = meta_of (memory_ t) p \/
     meta_of (memory_ t') p = (fun x => (x.1, false)) <$> meta_of (memory_ t) p) /\
  (forall u c p, conns t !! u = Some c -> conns t' !! u = None -> p ∈ send_contexts_ c ->
     forall s a, meta_of (memory_ t') p <> Some (s, a, true)).
Proof.
  intros [Hm Hi] t'. destruct (ClearTimeout_inv (connection_manager_ t) now Hm) as [Hm' Hl].
  destruct (clear_memory now (items (pool_ (connection_manager_ t))) (memory_ t)) as (_ & _ & Hmeta & Hgone).
  assert (conns t' = filter (fun x => conn_IsTimeout x.2 now = false) (conns t)) as Hc by exact Hl.
  assert (forall c, Some c ∈ items (pool_ (connection_manager_ t)) <-> exists u, conns t !! u = Some c) as Hin.
  { intros c. unfold conns. setoid_rewrite live_lookup_Some. apply list_elem_of_lookup. }
  assert (forall u c p, conns t !! u = Some c -> conns t' !! u = None -> p ∈ send_contexts_ c ->
     forall s a, meta_of (memory_ t') p <> Some (s, a, true)) as Hout.
  { intros u c p Hu Hu' Hp. eapply Hgone; [apply Hin; by exists u| |done]. revert Hu'.
    rewrite Hc, map_lookup_filter_None. intros [E|E]; [congruence|]. apply (not_false_iff_true (conn_IsTimeout c now)). by apply E. }
  split_and!; [split; [done|]|done| |done].
  - eapply (ctx_inv_remove (conns t)); [done|rewrite Hc; apply map_filter_subseteq|apply clear_memory| |done].
    intros p. destruct (Hmeta p) as [|(E & c & (u & Hu)%Hin & Ht & Hp)]; [by left|right].
    destruct (co_sends _ _ (ci_conn _ _ _ Hi u c Hu) p Hp) as (s & Em & _). exists s, (this_ c), u, c.
    split_and!; [done|cbn; by rewrite E, Em|done| |done]. rewrite Hc. apply map_lookup_filter_None. right.
    intros c' Hc'. assert (c' = c) as -> by congruence. by apply not_false_iff_true.
  - intros p. destruct (Hmeta p) as [|(E & _)]; auto.
Qed.

Lemma net_clear t (Q : list nat) (now : Z) :
  net_inv Q t ->
  let t' := thread_ClearTimeout t now in
  net_inv Q t' /\ conns t' = filter (fun x => conn_IsTimeout x.2 now = false) (conns t) /\
  next_ (memory_ t') = next_ (memory_ t) /\ same_thread t t'.
Proof.
  intros Hnet t'. destruct (base_clear t Q now (net_base _ _ Hnet)) as (Hb & Hc & _).
  destruct (clear_memory now (items (pool_ (connection_manager_ t))) (memory_ t)) as (Hn & Hv & _).
  split_and!; [|done|done|done]. apply base_net; [done|]. apply Hv, Hnet.
Qed.

End Thread.

(** ** The interface of the derived threads *)

(** What a parser promises: it does not use objects that are gone. *)
Class ParserLaws (P : Type) `{ApplicationProtocolParser P} :=
  parser_safe : forall (p : P) (b : bytes), safe (parser_DoParse p b).

#[export] Instance http_request_laws : ParserLaws (HttpPacket.HttpParser HttpPacket.request_sub).
Proof. intros p b. cbn [parser_DoParse http_request_parser]. by destruct (HttpProps.request_returns p b) as [[-> _]|(r & q & -> & _)]. Qed.

#[export] Instance http_response_laws : ParserLaws (HttpPacket.HttpParser FirstLine.StatusLine).
Proof.
  intros p b. cbn [parser_DoParse http_response_parser].
  destruct (HttpProps.response_returns p b) as [[-> _]|[(r & q & -> & _)|(e & -> & _)]]; done.
Qed.

Lemma long_len_loop_safe (n : nat) (i : Z) (b : bytes) (r l : Z) : safe (WebSocket.long_len_loop n i b r l).
Proof.
  revert i r l. induction n as [|n IH]; intros i r l; cbn [WebSocket.long_len_loop];
    unfold WebSocket.byte_at, WebSocket.int_shl; solve_safe; apply IH.
Qed.
#[export] Hint Resolve long_len_loop_safe : unixtar.

Lemma ws_decode_safe (i : Z) (mask : bool) (key raw : bytes) : safe (WebSocket.decode_loop i mask key raw).
Proof.
  revert i. induction raw as [|c raw IH]; intros i; cbn [WebSocket.decode_loop]; unfold inc_int; solve_safe; apply IH.
Qed.
#[export] Hint Resolve ws_decode_safe : unixtar.

Lemma ws_parse_loop_safe (n : nat) (p : WebSocket.WebSocketParser) (b : bytes) : safe (WebSocket.parse_loop n p b).
Proof.
  revert p. induction n as [|n IH]; intros p; cbn [WebSocket.parse_loop]; [done|]. apply safe_bind.
  - unfold WebSocket.parse_turn, WebSocket._ResolveFirstByte, WebSocket._ResolvePayloadLen,
      WebSocket._ResolveExtendedPayloadLen, WebSocket._ResolveMaskingKey, WebSocket._ResolvePayload, WebSocket.byte_at, WebSocket.bytes_from.
    solve_safe.
  - intros [s q]. destruct (WebSocket.position_ q), s; solve_safe.
Qed.

#[export] Instance websocket_laws : ParserLaws WebSocket.WebSocketParser.
Proof.
  intros p b. cbn [parser_DoParse websocket_parser]. unfold WebSocket.DoParse.
  pose proof ws_parse_loop_safe. solve_safe.
Qed.

(** What the virtual methods of a class derived from [NetThreadBase] promise to
    its event loop. [outstanding] are the contexts its members hold. A method
    deletes no connection but the one whose packet it handles. *)
Class ThreadLaws {P D : Type} `{ApplicationProtocolParser P} (vm : NetThreadMethods P D)
    (outstanding : D -> list nat) := {
  law_config : forall c, parser_ c = None ->
    exists c', ConfigApplicationLayer vm c = Ok c' /\ same_links c c' /\ conn_Uid c' = conn_Uid c /\
      conn_FD c' = conn_FD c;
  law_upgrade : forall c rc,
    match UpgradeApplicationProtocol vm c rc with
    | Ok c' => same_links c c' /\ conn_Uid c' = conn_Uid c /\ conn_FD c' = conn_FD c
    | Fault f => f <> Dangling
    end;
  law_packet : forall rc t c,
    let u := Z.to_nat (rc_tcp_connection_uid rc) in
    net_inv (option_list (rc_return_packet rc) ++ outstanding (derived_ t)) t -> conns t !! u = Some c ->
    match HandleApplicationPacket vm rc t with
    | Ok (deleted, t') =>
        net_inv (outstanding (derived_ t')) t' /\ others_kept u t t' /\
        (deleted = false -> exists c', conns t' !! u = Some c' /\ this_ c' = this_ c) /\
        (next_ (memory_ t') <= next_ (memory_ t) + 2)%nat
    | Fault f => f <> Dangling
    end;
  law_note : forall d ws now t,
    net_inv (outstanding (derived_ t)) t ->
    match HandleNotification vm d ws now t with
    | Ok (t', _) => net_inv (outstanding (derived_ t')) t' /\ next_ (memory_ t') = next_ (memory_ t)
    | Fault f => f = Dangling -> exists p, p ∈ outstanding (derived_ t) /\ stale t p
    end
}.

Section Loop.
Context {P D : Type} `{ParserLaws P}.
Abbreviation Conn := (ConnectionProfile P).
Implicit Types t : NetThreadBase P D.
Implicit Types c : Conn.

Lemma UnixReceive_safe (s : UnixSocket.Socket) (b : AutoBuffer.AutoBuffer) (r : UnixSocket.read_result) :
  safe (UnixSocket.Receive s b r).
Proof. unfold UnixSocket.Receive, AutoBuffer.AddCapacity, AutoBuffer.copy_at. solve_safe. Qed.

Lemma ParseProtocol_safe c :
  match ParseProtocol c with Ok (_, c') => same_links c c' | Fault f => f <> Dangling end.
Proof.
  unfold ParseProtocol. destruct (parser_ c) as [p|]; [|done].
  pose proof (parser_safe p (AutoBuffer.contents (tcp_byte_arr_ c))) as Hp.
  destruct (parser_DoParse p _) as [[z q]|f]; cbn [mbind res_bind]; [done|congruence].
Qed.

(** Receiving uses nothing that is gone and leaves the links alone. *)
Lemma receive_turn_safe c (r : UnixSocket.read_result) :
  match receive_turn c r with Ok (_, c') => same_links c c' | Fault f => f <> Dangling end.
Proof.
  unfold receive_turn. pose proof (UnixReceive_safe (socket_ c) (tcp_byte_arr_ c) r) as Hr.
  destruct (UnixSocket.Receive _ _ _) as [[[[n full] s] b]|f]; cbn [mbind res_bind]; [|congruence].
  destruct (UnixSocket.IsEAgain s); [done|]. destruct (n <? 0); [done|]. destruct (n =? 0); [done|].
  pose proof (ParseProtocol_safe (set_input c s b)) as Hp.
  destruct (ParseProtocol (set_input c s b)) as [[ret c1]|f]; cbn [mbind res_bind]; [|done].
  destruct (_ || _); [done|]. unfold IsParseDone. destruct (parser_ c1); [done|]. done.
Qed.

Lemma Receive_safe (reads : list UnixSocket.read_result) c :
  match Receive c reads with Ok (_, c') => same_links c c' | Fault f => f <> Dangling end.
Proof.
  revert c. induction reads as [|r reads IH]; intros c; cbn [Receive].
  - pose proof (receive_turn_safe c (UnixSocket.ReadErr UnixSocket.EAGAIN)) as Hr.
    destruct (receive_turn c _) as [[[z|] c1]|f]; cbn [mbind res_bind]; done.
  - pose proof (receive_turn_safe c r) as Hr.
    destruct (receive_turn c r) as [[[z|] c1]|f]; cbn [mbind res_bind]; [done| |done].
    specialize (IH c1). destruct (Receive c1 reads) as [[z c2]|f]; [|done].
    destruct Hr as (E1 & E2 & E3 & E4), IH as (F1 & F2 & F3 & F4). split_and!; congruence.
Qed.

(** The context of a packet, and what [MakeRecvContext] does to the connection. *)
Lemma MakeRecvContext_spec c (m : memory) (b : bool) :
  exists c1, same_links c c1 /\ conn_Uid c1 = conn_Uid c /\ conn_FD c1 = conn_FD c /\
    let '(rc, c', m') := MakeRecvContext c m b in
    rc_tcp_connection_uid rc = uid_ c /\
    if b then exists p, MakeSendContext c1 m = (p, c', m') /\ rc_return_packet rc = Some p
    else c' = c1 /\ m' = m /\ rc_return_packet rc = None.
Proof.
  unfold MakeRecvContext.
  set (c1 := match parser_ c with Some p => _ | None => c end).
  exists c1. assert (same_links c c1 /\ conn_Uid c1 = conn_Uid c /\ conn_FD c1 = conn_FD c) as Hl.
  { unfold c1. destruct (parser_ c) as [p|]; [|done]. destruct (is_longlink_app_proto_ c); [|done].
    by destruct (parser_Reset p (tcp_byte_arr_ c)). }
  split_and!; [apply Hl..|]. destruct b; [|done].
  destruct (MakeSendContext c1 m) as [[p c'] m'] eqn:E. split; [done|]. by exists p.
Qed.

(** What an event that belongs to the connection [u] may do. *)
Definition event_ok (outstanding : D -> list nat) (u : nat) t (c : Conn) (r : res (bool * NetThreadBase P D)) : Prop :=
  match r with
  | Ok (deleted, t') =>
      net_inv (outstanding (derived_ t')) t' /\ others_kept u t t' /\
      (deleted = false -> exists c', conns t' !! u = Some c' /\ this_ c' = this_ c) /\
      (next_ (memory_ t') <= next_ (memory_ t) + 3)%nat
  | Fault f => f <> Dangling
  end.

Lemma kept_insert t t' (u : nat) (c : Conn) : conns t' = <[u := c]> (conns t) -> others_kept u t t'.
Proof. intros E v d Hv Hd. exists d. by rewrite E, lookup_insert_ne. Qed.

Lemma kept_delete t t' (u : nat) : conns t' = delete u (conns t) -> others_kept u t t'.
Proof. intros E v d Hv Hd. exists d. by rewrite E, lookup_delete_ne. Qed.

Lemma kept_trans t1 t2 t3 (u : nat) : others_kept u t1 t2 -> others_kept u t2 t3 -> others_kept u t1 t3.
Proof.
  intros H1 H2 v c Hv Hc. destruct (H1 v c Hv Hc) as (c2 & Hc2 & E2).
  destruct (H2 v c2 Hv Hc2) as (c3 & Hc3 & E3). exists c3. split; [done|]. congruence.
Qed.

Context (vm : NetThreadMethods P D) (outstanding : D -> list nat).
Context `{!ThreadLaws vm outstanding}.

(** A connection is stored and its packet handed to [HandleApplicationPacket]. *)
Lemma hand_over t (u : nat) c c' (m : memory) (rc : RecvContext P) :
  mgr_inv (connection_manager_ t) -> conns t !! u = Some c -> conn_Uid c' = conn_Uid c -> conn_FD c' = conn_FD c ->
  this_ c' = this_ c -> rc_tcp_connection_uid rc = Z.of_nat u ->
  ctx_inv (<[u := c']> (conns t)) m (option_list (rc_return_packet rc) ++ outstanding (derived_ t)) -> no_views m ->
  (next_ m <= S (next_ (memory_ t)))%nat ->
  event_ok outstanding u t c (t ← put_conn (set_memory t m) u c'; HandleApplicationPacket vm rc t).
Proof.
  intros Hm Hu Hid Hfd Ht Hrc Hi Hv Hn.
  destruct (net_put_gen t (outstanding (derived_ t)) _ u c c' m Hm Hu Hid Hfd Hi Hv)
    as (t2 & -> & Hi2 & Hl2 & Hm2 & Hd2 & _). cbn [mbind res_bind].
  pose proof (law_packet rc t2 c') as Hp. cbv zeta in Hp. rewrite Hrc, Nat2Z.id, Hd2 in Hp.
  specialize (Hp Hi2). rewrite Hl2, lookup_insert_eq in Hp. specialize (Hp eq_refl). unfold event_ok.
  destruct (HandleApplicationPacket vm rc t2) as [[deleted t3]|f]; [|done].
  destruct Hp as (Hp1 & Hp2 & Hp3 & Hp4). split_and!; [done| |intros E|].
  - eapply kept_trans; [by eapply kept_insert|done].
  - destruct (Hp3 E) as (c3 & Hc3 & E3). exists c3. split; [done|congruence].
  - rewrite Hm2 in Hp4. lia.
Qed.

(** A context is made for the answer, and the packet handed over. *)
Lemma make_and_hand_over t (u q : nat) c c1 c2 (m : memory) (rc : RecvContext P) :
  net_inv (outstanding (derived_ t)) t -> conns t !! u = Some c -> Z.of_nat (next_ (memory_ t)) < 2 ^ 32 ->
  same_links c c1 -> conn_Uid c1 = conn_Uid c -> conn_FD c1 = conn_FD c ->
  MakeSendContext c1 (memory_ t) = (q, c2, m) -> rc_tcp_connection_uid rc = Z.of_nat u ->
  rc_return_packet rc = Some q ->
  event_ok outstanding u t c (t ← put_conn (set_memory t m) u c2; HandleApplicationPacket vm rc t).
Proof.
  intros [Hm Hi Hv] Hu Hlt Hl Hid Hfd Em Hru Hr.
  pose proof (ctx_inv_links _ _ _ u c c1 Hi Hu Hl) as Hi1.
  pose proof (MakeSendContext_inv _ _ _ _ u q c1 c2 Hi1 (lookup_insert_eq _ _ _) Em Hlt) as Hi2.
  rewrite insert_insert_eq in Hi2. unfold MakeSendContext, alloc in Em. injection Em as <- <- <-.
  apply hand_over; try done; [apply Hl|by rewrite Hr|].
  intros q x. cbn [set_ctx ctxs_]. intros [[_ <-]|[_ Hx]]%lookup_insert_Some; [done|by eapply Hv].
Qed.

Lemma net_parsed t (u : nat) c :
  net_inv (outstanding (derived_ t)) t -> conns t !! u = Some c -> Z.of_nat (next_ (memory_ t)) < 2 ^ 32 ->
  event_ok outstanding u t c (on_parsed vm t u c).
Proof.
  intros Hnet Hu Hlt. unfold on_parsed. pose proof Hnet as [Hm Hi Hv].
  assert (conn_Uid c = Z.of_nat u) as Huid by (apply (mi_uid _ Hm); by apply live_lookup_Some).
  destruct (MakeRecvContext_spec c (memory_ t) false) as (c2 & Hl2 & Hid2 & Hfd2 & Hrc).
  destruct (MakeRecvContext c (memory_ t) false) as [[rc c2'] m2]. destruct Hrc as (Hru & -> & -> & Hret).
  destruct (IsUpgradeApplicationProtocol c).
  - rewrite andb_false_r. pose proof (law_upgrade c2 rc) as Hup.
    destruct (UpgradeApplicationProtocol vm c2 rc) as [c3|f]; cbn [mbind res_bind]; [|done].
    destruct Hup as ((L1 & L2 & L3 & L4) & Hid3 & Hfd3), Hl2 as (M1 & M2 & M3 & M4).
    destruct (MakeRecvContext_spec c3 (memory_ t) true) as (c4 & (N1 & N2 & N3 & N4) & Hid4 & Hfd4 & Hrc).
    destruct (MakeRecvContext c3 (memory_ t) true) as [[rc4 c4'] m4]. destruct Hrc as (Hru4 & q & Em & Hr4).
    eapply make_and_hand_over; [done|done|done| |by rewrite Hid4, Hid3|by rewrite Hfd4, Hfd3|done| |done];
      [split_and!; congruence|].
    rewrite Hru4. change (uid_ c3) with (conn_Uid c3). congruence.
  - rewrite andb_true_r. destruct (bool_decide (conn_type c2 = kAcceptFrom)).
    + destruct (MakeSendContext c2 (memory_ t)) as [[q c4] m4] eqn:Em. cbn [mbind res_bind].
      eapply make_and_hand_over; [done..| |done]. cbn. rewrite Hru. exact Huid.
    + cbn [mbind res_bind]. apply hand_over; try done; [apply Hl2|rewrite Hru; exact Huid| |lia].
      rewrite Hret. by eapply ctx_inv_links.
Qed.

(** [__OnReadEvent] *)
Lemma net_read t (u : nat) c (reads : list UnixSocket.read_result) :
  net_inv (outstanding (derived_ t)) t -> conns t !! u = Some c -> Z.of_nat (next_ (memory_ t)) < 2 ^ 32 ->
  event_ok outstanding u t c (__OnReadEvent vm t u reads).
Proof.
  intros Hnet Hu Hlt. unfold __OnReadEvent, vec_get. pose proof Hu as Hu'. apply live_lookup_Some in Hu' as ->.
  cbn [mbind res_bind]. pose proof (Receive_safe reads c) as Hlinks.
  destruct (Receive c reads) as [[ret c1]|f] eqn:Er; cbn [mbind res_bind]; [|done].
  destruct (Receive_same reads c c1 ret Er) as [Hid Hfd].
  destruct (net_put t _ u c c1 Hnet Hu Hid Hfd Hlinks) as (t1 & -> & Hnet1 & Hl1 & Hm1 & Hd1 & _).
  cbn [mbind res_bind]. assert (conns t1 !! u = Some c1) as Hu1 by (by rewrite Hl1, lookup_insert_eq).
  assert (event_ok outstanding u t c (t2 ← thread_DelConnection t1 u; Ok (true, t2))) as Hdel.
  { destruct (net_del t1 _ u c1 Hnet1 Hu1) as (t2 & -> & Hnet2 & Hl2 & Hn2 & Hd2 & _). cbn.
    rewrite Hd2, Hd1. split_and!; [done| |done|rewrite Hn2, Hm1; lia].
    apply kept_delete. by rewrite Hl2, Hl1, delete_insert_eq. }
  destruct (ret <? 0); [done|]. destruct (has_received_Fin_ c1); [done|].
  unfold IsParseDone. destruct (parser_ c1) as [p|]; cbn [mbind res_bind]; [|done].
  rewrite <- Hd1 in Hnet1. destruct (parser_IsEnd p).
  - pose proof (net_parsed t1 u c1 Hnet1 Hu1 ltac:(by rewrite Hm1)) as Hp. unfold event_ok in *.
    destruct (on_parsed vm t1 u c1) as [[d t2]|f]; [|done]. destruct Hp as (H1 & H2 & H3 & H4).
    split_and!; [done|eapply kept_trans; [by eapply kept_insert|done]|intros E|rewrite Hm1 in H4; lia].
    destruct (H3 E) as (c' & Hc' & E'). exists c'. split; [done|]. destruct Hlinks. congruence.
  - cbn. split_and!; [done|by eapply kept_insert|intros _; exists c1; split; [done|apply Hlinks]|rewrite Hm1; lia].
Qed.

(** [__OnErrEvent] *)
Lemma net_err t (u : nat) c :
  net_inv (outstanding (derived_ t)) t -> conns t !! u = Some c ->
  exists t', __OnErrEvent t u = Ok (0, t') /\ net_inv (outstanding (derived_ t')) t' /\ others_kept u t t' /\
    next_ (memory_ t') = next_ (memory_ t).
Proof.
  intros Hnet Hu. unfold __OnErrEvent. destruct (net_del t _ u c Hnet Hu) as (t' & -> & Hi & Hl & Hn & Hd & _).
  exists t'. split; [done|]. rewrite Hd. split_and!; [done|by apply kept_delete|done].
Qed.

End Loop.

(** ** New connections *)

(** What a class must promise of its [ConfigApplicationLayer]. *)
Definition config_law {P D : Type} `{ApplicationProtocolParser P} (vm : NetThreadMethods P D) : Prop :=
  forall c, parser_ c = None ->
    exists c', ConfigApplicationLayer vm c = Ok c' /\ same_links c c' /\ conn_Uid c' = conn_Uid c /\
      conn_FD c' = conn_FD c.

Section New.
Context {P D : Type} `{ApplicationProtocolParser P} (vm : NetThreadMethods P D).
Context (Hconf : config_law vm).
Abbreviation Conn := (ConnectionProfile P).
Implicit Types t : NetThreadBase P D.
Implicit Types c : Conn.

(** The descriptor is not the one of a live connection, and there is room. *)
Definition can_add t (fd : Z) : Prop :=
  (size (conns t) < 383)%nat /\ forall u c, conns t !! u = Some c -> conn_FD c <> fd.

(** A connection that was just made. *)
Definition fresh_conn t c : Prop :=
  this_ c = next_ (memory_ t) /\ send_contexts_ c = [] /\ pending_send_ctx_ c = [] /\ send_ctx_seq_ c = 0 /\
  parser_ c = None.

(** A connection that is to be made to this address. *)
Definition to_server (ip : bytes) (port : Z) c : Prop :=
  remote_ip_ c = ip /\ remote_port_ c = port /\ conn_type c = kConnectTo /\ tcp_byte_arr_ c = AutoBuffer.new AutoBuffer.kMallocUnit /\
  (UnixSocket.is_eagain_ (socket_ c), has_received_Fin_ c) = (false, false).

Lemma base_add t (Q : list nat) c :
  base_inv Q t -> fresh_conn t c -> can_add t (conn_FD c) ->
  exists uid t' c', add_conn vm (set_memory t (alloc (memory_ t)).2) c = Ok (uid, t') /\ base_inv Q t' /\
    conns t !! uid = None /\ conns t' = <[uid := c']> (conns t) /\ conn_FD c' = conn_FD c /\
    same_links c c' /\ memory_ t' = (alloc (memory_ t)).2 /\ same_thread t t' /\
    ConfigApplicationLayer vm (SetUid c (Z.of_nat uid)) = Ok c'.
Proof.
  intros [Hm Hi] (Ht & Hs & Hp & Hq & Hpar) [Hsize Hfd]. unfold add_conn.
  destruct (AddConnection_inv (connection_manager_ t) c Hm) as (uid & m1 & E & Hm1 & Hnone & Hpos & Hl1).
  { split; [done|]. intros u d Hd. by apply (Hfd u). }
  cbn [set_memory connection_manager_]. rewrite E. cbn [mbind res_bind].
  destruct (Hconf (SetUid c (Z.of_nat uid)) Hpar) as (c' & Ecfg & Hl & Hid & Hfd'). rewrite Ecfg. cbn [mbind res_bind].
  destruct Hl as (L1 & L2 & L3 & L4).
  destruct (put_conn_inv (set_manager (set_memory t (alloc (memory_ t)).2) m1) uid (SetUid c (Z.of_nat uid)) c')
    as (t' & Ep & Hm' & Hl' & Hmax & Hmem & Hd); [done| |done|done|].
  { cbn [set_manager connection_manager_]. by rewrite Hl1, lookup_insert_eq. }
  rewrite Ep. cbn [mbind res_bind]. cbn [set_manager connection_manager_] in Hl'.
  assert (conns t' = <[uid := c']> (conns t)) as Hc' by (unfold conns; by rewrite Hl', Hl1, insert_insert_eq).
  exists uid, t', c'. split; [done|]. split_and!; [|done|done|done|by split_and!|done| |done].
  - split; [done|]. rewrite Hc', Hmem. apply ctx_inv_new; try done; cbn in *; congruence.
  - unfold put_conn in Ep. res_inv. done.
Qed.

Lemma ConnectionFrom_ok t (fd : Z) (ip : bytes) (port uid now : Z) :
  0 < fd ->
  exists c, ConnectionFrom fd ip port uid now (next_ (memory_ t)) = Ok c /\ fresh_conn t c /\ conn_FD c = fd /\
    conn_type c = kAcceptFrom.
Proof.
  intros Hfd. assert ((0 <? fd) = true /\ (fd <? 0) = false) as [E1 E2] by lia.
  unfold ConnectionFrom, UnixSocket.Set_, UnixSocket.SetNonblocking, UnixSocket.SetTcpNoDelay, UnixSocket.SetSocketOpt.
  cbn. rewrite E1. cbn. rewrite E2. cbn. rewrite E1. cbn. by eexists.
Qed.

(** [RegisterConnection] of a descriptor that [accept] returned. *)
Lemma base_register t (Q : list nat) (fd : Z) (ip : bytes) (port now : Z) :
  base_inv Q t -> 0 < fd -> can_add t fd ->
  exists taken t', RegisterConnection vm t fd ip port now = Ok (taken, t') /\ base_inv Q t' /\ same_thread t t' /\
    (taken = true <-> CurrConnectionCnt (connection_manager_ t) < max_connections_ t) /\
    ctxs_ (memory_ t') = ctxs_ (memory_ t) /\
    if taken : bool then exists uid c c0, conns t !! uid = None /\ conns t' = <[uid := c]> (conns t) /\ conn_FD c = fd /\
      conn_type c0 = kAcceptFrom /\ ConfigApplicationLayer vm c0 = Ok c
    else t' = t.
Proof.
  intros Hnet Hfd Hadd. unfold RegisterConnection. destruct (Z.ltb_spec fd 0); [lia|].
  destruct (Z.leb_spec (max_connections_ t) (CurrConnectionCnt (connection_manager_ t))).
  { exists false, t. split_and!; try done. lia. }
  cbn [alloc]. destruct (ConnectionFrom_ok t fd ip port (Z.of_nat kInvalidUid) now Hfd) as (c & -> & Hf & Hc & Hty).
  cbn [mbind res_bind].
  destruct (base_add t Q c Hnet Hf) as (uid & t' & c' & E & Hi & Hnone & Hl & Hfd' & _ & Hmem & Hsame & Hcfg); [by rewrite Hc|].
  cbn [alloc snd] in E. rewrite E. cbn [mbind res_bind]. exists true, t'.
  split_and!; try done; [by rewrite Hmem|]. exists uid, c', (SetUid c (Z.of_nat uid)). split_and!; try done. congruence.
Qed.

Lemma ConnectionTo_ok t (fd : Z) (ip : bytes) (port uid now : Z) :
  exists c, ConnectionTo ip port uid now fd (next_ (memory_ t)) = Ok c /\ fresh_conn t c /\ conn_FD c = fd /\
    to_server ip port c.
Proof. unfold ConnectionTo, UnixSocket.Create. cbn. by eexists. Qed.

(** One of the first three attempts succeeds. *)
Definition connects (n : nat) (rets : list Z) : bool := existsb (fun r => 0 <=? r) (take n rets).

(** The attempts to connect change the socket only. *)
Lemma connect_loop_ok t (inet_addr : bytes -> Z) (ip : bytes) (port : Z) (n : nat) c (rets : list Z) :
  fresh_conn t c -> to_server ip port c -> 0 < conn_FD c ->
  exists c', connect_loop inet_addr n c rets = Ok (connects n rets, c') /\ fresh_conn t c' /\ to_server ip port c' /\
    conn_FD c' = conn_FD c.
Proof.
  revert c rets. induction n as [|n IH]; intros c rets Hf Hto Hfd; cbn [connect_loop].
  { exists c. by unfold connects. }
  assert (exists c1, Connect inet_addr c (default (-1) (head rets)) = Ok (default (-1) (head rets), c1) /\ fresh_conn t c1 /\
            to_server ip port c1 /\ conn_FD c1 = conn_FD c) as (c1 & -> & Hf1 & Hto1 & Hfd1).
  { unfold Connect, UnixSocket.Connect. cbn [fst]. set (ret := default (-1) (head rets)).
    destruct (Z.eqb_spec ret 0) as [->|]; [|by eexists _].
    unfold UnixSocket.SetNonblocking, UnixSocket.SetTcpNoDelay, UnixSocket.SetSocketOpt.
    cbn [UnixSocket.SetConnected UnixSocket.fd_]. change (UnixSocket.fd_ (socket_ c)) with (conn_FD c).
    destruct (Z.ltb_spec (conn_FD c) 0); [lia|]. cbn [Z.eqb UnixSocket.fd_].
    destruct (Z.ltb_spec 0 (conn_FD c)); [|lia]. by eexists _. }
  cbn [mbind res_bind]. destruct (IH c1 (tail rets) Hf1 Hto1) as (c' & -> & Hf' & Hto' & Hfd'); [by rewrite Hfd1|].
  destruct rets as [|r rets]; cbn [head default from_option id tail].
  - exists c'. unfold connects. rewrite !take_nil. split_and!; [done|done|done|congruence].
  - unfold connects. cbn [take existsb]. destruct (Z.ltb_spec r 0), (Z.leb_spec 0 r); try lia; cbn [orb].
    + exists c'. split_and!; [done|done|done|congruence].
    + by exists c1.
Qed.

(** [MakeConnection] on a descriptor that [socket] returned. *)
Lemma base_make t (Q : list nat) (inet_addr : bytes -> Z) (ip : bytes) (port now fd : Z) (rets : list Z) :
  base_inv Q t -> 0 < fd -> can_add t fd ->
  exists o t', MakeConnection vm inet_addr t ip port now fd rets = Ok (o, t') /\ base_inv Q t' /\ same_thread t t' /\
    memory_ t' = (alloc (memory_ t)).2 /\ (if o then true else false) = connects 3 rets /\
    match o with
    | Some uid => exists c0 c, conns t !! uid = None /\ conns t' = <[uid := c]> (conns t) /\ conn_FD c = fd /\
        same_links c0 c /\ fresh_conn t c0 /\ to_server ip port c0 /\
        ConfigApplicationLayer vm (SetUid c0 (Z.of_nat uid)) = Ok c
    | None => conns t' = conns t
    end.
Proof.
  intros Hnet Hfd Hadd. unfold MakeConnection. cbn [alloc].
  destruct (ConnectionTo_ok t fd ip port (Z.of_nat kInvalidUid) now) as (c & -> & Hf & Hc & Hto). cbn [mbind res_bind].
  destruct (connect_loop_ok t inet_addr ip port 3 c rets Hf Hto) as (c' & -> & Hf' & Hto' & Hc'); [by rewrite Hc|].
  cbn [mbind res_bind]. destruct (connects 3 rets).
  - destruct (base_add t Q c' Hnet Hf') as (uid & t' & c2 & E & Hi & Hnone & Hl & Hfd2 & Hlk & Hmem & Hsame & Hcfg);
      [by rewrite Hc', Hc|].
    cbn [alloc snd] in E. rewrite E. cbn [mbind res_bind]. exists (Some uid), t'. rewrite Hmem.
    split_and!; try done. exists c', c2. split_and!; try done. congruence.
  - exists None. eexists. split; [done|]. destruct Hf' as (_ & Hs & _). cbn [set_memory memory_].
    assert (destroy c' (mkMemory (ctxs_ (memory_ t)) (S (next_ (memory_ t)))) = (alloc (memory_ t)).2) as ->.
    { unfold destroy. by rewrite Hs. }
    split_and!; try done. destruct Hnet as [Hm Hi]. split; [done|].
    eapply ctx_inv_alloc; [done|cbn; lia|done|]. intros p s a v E E'. unfold meta_of in *. cbn in E'. congruence.
Qed.

End New.

Section NewLoop.
Context {P D : Type} `{ParserLaws P} (vm : NetThreadMethods P D) (outstanding : D -> list nat).
Context `{!ThreadLaws vm outstanding}.
Implicit Types t : NetThreadBase P D.

Lemma law_config_law : config_law vm.
Proof. intros c. apply law_config. Qed.

Lemma net_register t (Q : list nat) (fd : Z) (ip : bytes) (port now : Z) :
  net_inv Q t -> 0 < fd -> can_add t fd ->
  exists taken t', RegisterConnection vm t fd ip port now = Ok (taken, t') /\ net_inv Q t' /\ same_thread t t' /\
    (taken = true <-> CurrConnectionCnt (connection_manager_ t) < max_connections_ t) /\
    if taken : bool then exists uid c, conns t !! uid = None /\ conns t' = <[uid := c]> (conns t) /\ conn_FD c = fd
    else t' = t.
Proof.
  intros Hnet Hfd Hadd.
  destruct (base_register vm law_config_law t Q fd ip port now (net_base _ _ Hnet) Hfd Hadd) as (taken & t' & E & Hb & Hs & Ht & Hv & Hc).
  exists taken, t'. split_and!; try done.
  - apply base_net; [done|]. intros p ctx. rewrite Hv. apply Hnet.
  - destruct taken; [|done]. destruct Hc as (uid & c & c0 & ? & ? & ? & _). by exists uid, c.
Qed.

Lemma net_make t (Q : list nat) (inet_addr : bytes -> Z) (ip : bytes) (port now fd : Z) (rets : list Z) :
  net_inv Q t -> 0 < fd -> can_add t fd ->
  exists o t', MakeConnection vm inet_addr t ip port now fd rets = Ok (o, t') /\ net_inv Q t' /\ same_thread t t' /\
    next_ (memory_ t') = S (next_ (memory_ t)) /\ (forall p, meta_of (memory_ t') p = meta_of (memory_ t) p) /\
    match o with
    | Some uid => exists c, conns t !! uid = None /\ conns t' = <[uid := c]> (conns t) /\ conn_FD c = fd /\
                            this_ c = next_ (memory_ t)
    | None => conns t' = conns t
    end.
Proof.
  intros Hnet Hfd Hadd.
  destruct (base_make vm law_config_law t Q inet_addr ip port now fd rets (net_base _ _ Hnet) Hfd Hadd)
    as (o & t' & E & Hb & Hs & Hmem & _ & Ho). exists o, t'. rewrite Hmem. split_and!; try done.
  - apply base_net; [done|]. rewrite Hmem. apply Hnet.
  - destruct o as [uid|]; [|done]. destruct Ho as (c0 & c & ? & ? & ? & [Ht _] & [? _] & _). exists c. split_and!; congruence.
Qed.

End NewLoop.

(** A thread without connections. *)
Lemma new_thread_inv {P D : Type} (mx : Z) (run : bool) (note : option nat) (d : D) :
  net_inv [] (mkThread (new_manager : ConnectionManager (ConnectionProfile P)) mx new_memory run note d).
Proof.
  split; [apply new_manager_inv| |by intros p ctx]. unfold conns. cbn [connection_manager_ memory_]. rewrite live_new.
  split; try done; [cbn; unfold notification_send_; lia|constructor|by intros p ?%not_elem_of_nil].
Qed.

(** *** The read events of one connection *)

Section Reads.
Context {P D : Type} `{ApplicationProtocolParser P} (vm : NetThreadMethods P D).

(** The read events of a connection, until it is deleted: each brings the results of
    its [read]s. *)
Fixpoint run_events (t : NetThreadBase P D) (u : nat) (es : list (list bytes)) : res (bool * NetThreadBase P D) :=
  match es with
  | [] => Ok (false, t)
  | e :: es =>
      '(deleted, t) ← __OnReadEvent vm t u (UnixSocket.ReadData <$> e);
      if deleted : bool then Ok (true, t) else run_events t u es
  end.

(** The segments of a stream, in the events in which they are read. *)
Definition read_segments (t : NetThreadBase P D) (u : nat) (segs : list bytes) : res (bool * NetThreadBase P D) :=
  run_events t u (events_of segs).

(** What each [read] returns: at least one byte and at most the size of its buffer. *)
Definition read_sized (d : bytes) : Prop := 0 < zlen d <= UnixSocket.kBufferSize.

Lemma read_sized_nil (d : bytes) : read_sized d -> d <> [].
Proof. unfold read_sized. intros Hd ->. cbn in Hd. lia. Qed.

Lemma read_sized_concat (segs : list bytes) :
  Forall read_sized segs -> segs <> [] -> 0 < zlen (concat segs) /\ Z.of_nat (length segs) <= zlen (concat segs).
Proof.
  unfold read_sized. intros Hs Hne. assert (Z.of_nat (length segs) <= zlen (concat segs)); [|destruct segs; [done|cbn [length] in *; lia]].
  clear Hne. induction Hs as [|d ds Hd _ IH]; [done|]. cbn [concat length]. rewrite length_app. lia.
Qed.

Lemma put_conn_twice (t t1 : NetThreadBase P D) (u : nat) (c1 c2 : ConnectionProfile P) :
  put_conn t u c1 = Ok t1 -> put_conn t1 u c2 = put_conn t u c2 /\ slot t1 u = Some c1.
Proof.
  unfold put_conn, vec_set. destruct (Nat.ltb_spec u (length (items (pool_ (connection_manager_ t))))) as [Hlt|]; [|done].
  cbn [mbind res_bind]. intros [= <-]. unfold slot. cbn [set_manager connection_manager_ pool_ items cap free_places_ epoll_].
  rewrite length_insert, list_insert_insert_eq, list_lookup_insert_eq by done.
  by destruct (Nat.ltb_spec u (length (items (pool_ (connection_manager_ t))))); [|lia].
Qed.

(** A [read] that does not complete the packet, with more to come: whether or not it
    fills the buffer, the events go on as if it had been read before. *)
Lemma segment_read (t t1 : NetThreadBase P D) (u : nat) (c c1 : ConnectionProfile P) (d : bytes) (ds : list bytes) :
  conns t !! u = Some c -> put_conn t u c1 = Ok t1 -> ds <> [] -> has_received_Fin_ c1 = false -> IsParseDone c1 = Ok false ->
  (forall rs, Receive c (UnixSocket.ReadData d :: rs) =
     if negb (zlen d =? UnixSocket.kBufferSize) then Ok (0, c1) else Receive c1 rs) ->
  read_segments t u (d :: ds) = read_segments t1 u ds.
Proof.
  intros Hu%live_lookup_Some Hput Hne Hfin Hdone Hrecv. unfold read_segments. cbn [events_of].
  destruct (events_of ds) as [|e es] eqn:Ee; [destruct ds; [done|]; cbn in Ee; repeat case_match; done|].
  destruct (zlen d =? UnixSocket.kBufferSize); cbn [run_events fmap list_fmap negb] in *.
  - assert (__OnReadEvent vm t u (UnixSocket.ReadData d :: (UnixSocket.ReadData <$> e)) = __OnReadEvent vm t1 u (UnixSocket.ReadData <$> e)) as ->; [|done].
    unfold __OnReadEvent, vec_get. rewrite Hu. cbn [mbind res_bind]. rewrite Hrecv.
    destruct (put_conn_twice t t1 u c1 c1 Hput) as [_ Hs]. unfold slot in Hs.
    destruct (items (pool_ (connection_manager_ t1)) !! u) as [o|]; [|done]. cbn in Hs. subst o. cbn [mbind res_bind].
    destruct (Receive c1 (UnixSocket.ReadData <$> e)) as [[ret c2]|f]; [|done]. cbn [mbind res_bind].
    destruct (put_conn_twice t t1 u c1 c2 Hput) as [-> _]. done.
  - assert (__OnReadEvent vm t u [UnixSocket.ReadData d] = Ok (false, t1)) as ->; [|done].
    unfold __OnReadEvent, vec_get. rewrite Hu. cbn [mbind res_bind]. rewrite Hrecv. cbn [mbind res_bind]. rewrite Hput.
    cbn [mbind res_bind Z.ltb Z.compare]. rewrite Hfin, Hdone. done.
Qed.

(** The [read] that completes the packet. *)
Lemma last_read (t : NetThreadBase P D) (u : nat) (d : bytes) :
  read_segments t u [d] = __OnReadEvent vm t u [UnixSocket.ReadData d].
Proof. unfold read_segments. cbn. by destruct (__OnReadEvent vm t u [UnixSocket.ReadData d]) as [[[] ?]|]. Qed.

End Reads.

(** Methods that drop what they are given. *)
#[export] Instance demo_laws {P : Type} `{ApplicationProtocolParser P} : ThreadLaws (demo_methods (P := P)) (fun _ => []).
Proof.
  split; cbn.
  - intros c _. by exists c.
  - done.
  - intros rc t c [Hm Hi Hv] Hc. split_and!; [|by intros v d _ Hd; eauto|eauto|lia].
    split; [done| |done]. eapply ctx_inv_drop; [done|]. apply submseteq_nil_l.
  - done.
Qed.

(** A property of all connections of a concrete thread is computed. *)
Lemma items_compute {P D : Type} (t : NetThreadBase P D) (f : ConnectionProfile P -> bool) :
  forallb (fun o => match o with Some c => f c | None => true end) (items (pool_ (connection_manager_ t))) = true ->
  forall u c, conns t !! u = Some c -> f c = true.
Proof.
  intros Hf u c Hu%live_lookup_Some. apply list_elem_of_lookup_2 in Hu. rewrite forallb_forall in Hf.
  by apply list_elem_of_In, Hf in Hu.
Qed.

Lemma can_add_compute {P D : Type} (t : NetThreadBase P D) (fd : Z) :
  (live_count (items (pool_ (connection_manager_ t))) < 383)%nat ->
  forallb (fun o => match o with Some c => negb (conn_FD c =? fd) | None => true end) (items (pool_ (connection_manager_ t))) = true ->
  can_add t fd.
Proof.
  intros Hs Hf. split; [unfold conns; by rewrite live_size|]. intros u c Hu.
  apply (items_compute t _ Hf) in Hu. by apply negb_true_iff, Z.eqb_neq in Hu.
Qed.

End NetThreadTheory.
