(* ===== verification/ServerConfig.v ===== *)
(** * Configuration of a server (networkmodel/serverbase.h, serverbase.cc: [Config],
    [AfterConfig], [SetNetThreadImpl], [_RegisterConnection])

    The part the web server and the reverse proxy share. What the two add (the
    derived configuration, [_CustomConfig], the class of network threads) is a
    parameter. The results of the socket calls are arguments; the registration
    of the signal callback is not modelled. *)
From S2P Require Import Prelude CLib StrUtil YamlUtil YamlTheory HttpPacket TcpConnection ServerBase.

Module ServerConfig.

(** ** Definitions *)

Record ServerConfigBase := mkConfig {
  port : Z;
  net_thread_cnt : Z;
  max_connections : Z;
  is_config_done : bool
}.

Definition key_port : bytes := str "port".
Definition key_net_thread_cnt : bytes := str "net_thread_cnt".
Definition key_max_connections : bytes := str "max_connections".

Definition new_ServerConfigBase : ServerConfigBase := mkConfig 0 0 0 false.

(** [To((int &) x)] for a [size_t x]: the low four bytes are written. *)
Definition write_int (x v : Z) : Z := x - x mod 2 ^ 32 + wrap32 v.

Definition set_port (c : ServerConfigBase) (v : Z) : ServerConfigBase :=
  mkConfig v (net_thread_cnt c) (max_connections c) (is_config_done c).
Definition set_net_thread_cnt (c : ServerConfigBase) (v : Z) : ServerConfigBase :=
  mkConfig (port c) v (max_connections c) (is_config_done c).
Definition set_max_connections (c : ServerConfigBase) (v : Z) : ServerConfigBase :=
  mkConfig (port c) (net_thread_cnt c) v (is_config_done c).
Definition set_config_done (c : ServerConfigBase) : ServerConfigBase :=
  mkConfig (port c) (net_thread_cnt c) (max_connections c) true.

(** The [try] block of [Config]: what was assigned, and what ended it early. *)
Definition read_base (st : list YamlUtil.Node) (c : ServerConfigBase) : ServerConfigBase * option fault :=
  match YamlUtil.GetLeaf st key_port with
  | Fault f => (c, Some f)
  | Ok d =>
      let c := set_port c (YamlUtil.To_uint16 d).2 in
      match YamlUtil.GetLeaf st key_net_thread_cnt with
      | Fault f => (c, Some f)
      | Ok d =>
          let c := set_net_thread_cnt c (write_int (net_thread_cnt c) (YamlUtil.To_int d).2) in
          match YamlUtil.GetLeaf st key_max_connections with
          | Fault f => (c, Some f)
          | Ok d => (set_max_connections c (write_int (max_connections c) (YamlUtil.To_int d).2), None)
          end
      end
  end.

Section Server.
(** [E]: what the derived configuration adds; [T]: the class of the threads. *)
Context {E T Srv : Type}.
Context (_CustomConfig : list YamlUtil.Node -> ServerConfigBase -> E -> res (bool * E)).
Context (AfterConfig : ServerConfigBase -> E -> res Srv).
Context (SetMaxConnection : T -> Z -> res T).

(** The [do ... while (false)] of [Config]. *)
Definition load_config (st : list YamlUtil.Node) (c : ServerConfigBase) (e : E)
    : res (ServerConfigBase * E) :=
  match read_base st c with
  | (c, Some (Throw _)) => Ok (c, e)
  | (_, Some f) => Fault f
  | (c, None) =>
      if net_thread_cnt c <? 1 then Ok (c, e)
      else
        let c := if 8 <? net_thread_cnt c then set_net_thread_cnt c 8 else c in
        '(ok, e) ← _CustomConfig st c e;
        Ok (if ok : bool then set_config_done c else c, e)
  end.

Definition config_path (file : bytes) : bytes := snprintf 128 (str "/etc/unixtar/" ++ file).

(** [Config]: [fopen] is the content of the file if there is one, [create] and
    [bind] are the results of creating and binding the listening socket. *)
Definition Config (file : bytes) (cache : list YamlUtil.YamlDescriptor) (fopen : option bytes)
    (fresh : nat) (e : E) (create bind : Z) : res (Srv * list YamlUtil.YamlDescriptor) :=
  '(config_yaml, cache) ← YamlUtil.Load cache (config_path file) fopen fresh;
  match config_yaml with
  | None => Fault AssertFailed
  | Some d =>
      '(c, e) ← load_config d.2 new_ServerConfigBase e;
      let cache := YamlUtil.Close cache d in
      _ ← assert_ (0 <=? create);
      _ ← assert_ (0 <=? bind);
      s ← AfterConfig c e;
      Ok (s, cache)
  end.

(** [SetNetThreadImpl], which adds to the threads [ts]; [new_thread] is a new one. *)
Definition SetNetThreadImpl (c : ServerConfigBase) (new_thread : T) (ts : list T) : res (list T) :=
  _ ← assert_ (is_config_done c);
  Ok (ts ++ replicate (Z.to_nat (net_thread_cnt c)) new_thread).

(** [ServerBase::AfterConfig] *)
Definition base_AfterConfig (c : ServerConfigBase) (ts : list T) : res (list T) :=
  match ts with
  | [] => Fault Undefined
  | _ :: _ =>
      let max_conn_per_thread := max_connections c / Z.of_nat (length ts) in
      mapM (fun p => SetMaxConnection p max_conn_per_thread) ts
  end.

(** [_RegisterConnection]: the thread that gets the descriptor, [None] when it
    is refused. *)
Definition _RegisterConnection (fd : Z) (ts : list T) : res (option nat) :=
  if fd <? 0 then Ok None
  else
    match ts with
    | [] => Fault Undefined
    | _ :: _ => Ok (Some (Z.to_nat (wrap32 (fd mod Z.of_nat (length ts)))))
    end.

End Server.

(** ** Lemmas *)

Lemma write_int_0 (v : Z) : write_int 0 v = wrap32 v.
Proof. done. Qed.

Lemma wrap32_to_int (z : Z) : wrap32 (to_int z) = wrap32 z.
Proof.
  unfold wrap32, to_int. destruct (_ <? _); [by rewrite Z.mod_mod by lia|].
  rewrite Zminus_mod, Z_mod_same_full, Z.sub_0_r, !Z.mod_mod by lia. done.
Qed.

Lemma mapM_res_Forall2 {A B} (f : A -> res B) (l : list A) (k : list B) :
  mapM f l = Ok k -> Forall2 (fun x y => f x = Ok y) l k.
Proof.
  revert k. induction l as [|x l IH]; intros k; cbn [mapM]; [intros [= <-]; constructor|].
  intros E. apply bind_Ok in E as (y & Ey & E). apply bind_Ok in E as (k' & Ek & E). injection E as <-.
  constructor; [done|by apply IH].
Qed.

Lemma parse_load (path : bytes) (d : YamlTheory.doc) (fresh : nat) :
  YamlTheory.doc_ok d ->
  exists st, YamlUtil.Load [] path (Some (YamlTheory.render d)) fresh
             = Ok (Some (fresh, st), [(fresh, st)]) /\ YamlTheory.read_doc st = Some d.
Proof.
  intros Hd. eexists. split; [|apply (YamlTheory.read_doc_nodes path)]. unfold YamlUtil.Load. cbn [list_find].
  by rewrite YamlTheory.ParseYaml_render.
Qed.

Lemma close_only (d : YamlUtil.YamlDescriptor) : YamlUtil.Close [d] d = [].
Proof. unfold YamlUtil.Close. rewrite filter_cons_False by naive_solver. done. Qed.

Lemma leaf_read (st : list YamlUtil.Node) (d : YamlTheory.doc) (k v : bytes) :
  YamlTheory.read_doc st = Some d -> YamlTheory.lookup_item d k = Some (YamlTheory.ILeaf v) ->
  YamlUtil.GetLeaf st k = Ok v.
Proof.
  intros Hd Hk. rewrite (YamlTheory.GetLeaf_read st d k Hd). unfold YamlTheory.leaf_of. by rewrite Hk.
Qed.

(** What the shared part reads from a document. *)
Definition base_of (tp tn tm : bytes) : ServerConfigBase :=
  mkConfig (wrap16 (strtol tp)) (Z.min 8 (wrap32 (strtol tn))) (wrap32 (strtol tm)) false.

Lemma load_config_read {E} (custom : list YamlUtil.Node -> ServerConfigBase -> E -> res (bool * E))
    (st : list YamlUtil.Node) (d : YamlTheory.doc) (tp tn tm : bytes) (e e' : E) (ok : bool) :
  YamlTheory.read_doc st = Some d ->
  YamlTheory.lookup_item d key_port = Some (YamlTheory.ILeaf tp) ->
  YamlTheory.lookup_item d key_net_thread_cnt = Some (YamlTheory.ILeaf tn) ->
  YamlTheory.lookup_item d key_max_connections = Some (YamlTheory.ILeaf tm) ->
  1 <= wrap32 (strtol tn) -> custom st (base_of tp tn tm) e = Ok (ok, e') ->
  load_config custom st new_ServerConfigBase e
  = Ok (if ok then set_config_done (base_of tp tn tm) else base_of tp tn tm, e').
Proof.
  intros Hd Hp Hn Hm H1 Hc. unfold load_config, read_base.
  rewrite (leaf_read st d _ _ Hd Hp), (leaf_read st d _ _ Hd Hn), (leaf_read st d _ _ Hd Hm).
  cbv zeta. cbn [new_ServerConfigBase set_port set_net_thread_cnt set_max_connections port net_thread_cnt
       max_connections is_config_done YamlUtil.To_int YamlUtil.To_uint16 snd].
  rewrite !write_int_0, !wrap32_to_int. destruct (Z.ltb_spec (wrap32 (strtol tn)) 1); [lia|].
  unfold set_max_connections, set_net_thread_cnt, set_port. cbn.
  assert ((if 8 <? wrap32 (strtol tn)
           then mkConfig (wrap16 (strtol tp)) 8 (wrap32 (strtol tm)) false
           else mkConfig (wrap16 (strtol tp)) (wrap32 (strtol tn)) (wrap32 (strtol tm)) false)
          = base_of tp tn tm) as ->.
  { unfold base_of. destruct (Z.ltb_spec 8 (wrap32 (strtol tn))); f_equal; lia. }
  by rewrite Hc.
Qed.

(** ** Properties *)

(** From the text of a configuration document, [Config] runs [AfterConfig] with the port modulo
    2^16, the number of threads modulo 2^32 but at most eight, and the connection limit modulo 2^32
    that the text gives, and closes the file again: negative counts are not refused, they wrap. *)
Theorem Config_reads {E Srv} (custom : list YamlUtil.Node -> ServerConfigBase -> E -> res (bool * E))
    (after : ServerConfigBase -> E -> res Srv) (d : YamlTheory.doc) (tp tn tm file : bytes) (fresh : nat)
    (e e' : E) (create bind : Z)
    (Hd : YamlTheory.doc_ok d)
    (Hp : YamlTheory.lookup_item d key_port = Some (YamlTheory.ILeaf tp))
    (Hn : YamlTheory.lookup_item d key_net_thread_cnt = Some (YamlTheory.ILeaf tn))
    (Hm : YamlTheory.lookup_item d key_max_connections = Some (YamlTheory.ILeaf tm))
    (H1 : 1 <= wrap32 (strtol tn)) (Hs : 0 <= create /\ 0 <= bind)
    (Hcustom : forall st, YamlTheory.read_doc st = Some d ->
       custom st (base_of tp tn tm) e = Ok (true, e')) :
  Config custom after file [] (Some (YamlTheory.render d)) fresh e create bind
  = (s ← after (set_config_done (base_of tp tn tm)) e'; Ok (s, [])).
Proof.
  unfold Config. destruct (parse_load (config_path file) d fresh Hd) as (st & -> & Hst).
  cbn [mbind res_bind snd]. rewrite (load_config_read custom st d tp tn tm e e' true) by auto.
  cbn [mbind res_bind]. rewrite close_only.
  destruct (Z.leb_spec 0 create); [|lia]. destruct (Z.leb_spec 0 bind); [|lia]. done.
Qed.

Lemma Config_reads_witness :
  Config (fun _ _ (_ : unit) => Ok (true, tt)) (fun c _ => Ok c) (str "w.yml") []
    (Some (YamlTheory.render
       [(key_port, YamlTheory.ILeaf (str "5002")); (key_net_thread_cnt, YamlTheory.ILeaf (str "-1"));
        (key_max_connections, YamlTheory.ILeaf (str "10000"))])) 7 tt 3 0
  = Ok (mkConfig 5002 8 10000 true, []).
Proof.
  apply (Config_reads _ (fun c (_ : unit) => Ok c)
           [(key_port, YamlTheory.ILeaf (str "5002")); (key_net_thread_cnt, YamlTheory.ILeaf (str "-1"));
            (key_max_connections, YamlTheory.ILeaf (str "10000"))]
           (str "5002") (str "-1") (str "10000") (str "w.yml") 7 tt tt 3 0);
    try done.
  repeat constructor; cbn [fst snd YamlTheory.item_ok]; apply (bool_decide_unpack _); vm_compute; exact I.
Defined.

Lemma wrap32_range (z : Z) : 0 <= wrap32 z < 2 ^ 32.
Proof. by apply Z.mod_pos_bound. Qed.

(** A configuration with no thread is not completed. *)
Lemma load_config_zero {E} (custom : list YamlUtil.Node -> ServerConfigBase -> E -> res (bool * E))
    (st : list YamlUtil.Node) (d : YamlTheory.doc) (tp tn tm : bytes) (e : E) :
  YamlTheory.read_doc st = Some d ->
  YamlTheory.lookup_item d key_port = Some (YamlTheory.ILeaf tp) ->
  YamlTheory.lookup_item d key_net_thread_cnt = Some (YamlTheory.ILeaf tn) ->
  YamlTheory.lookup_item d key_max_connections = Some (YamlTheory.ILeaf tm) ->
  wrap32 (strtol tn) < 1 ->
  exists c, load_config custom st new_ServerConfigBase e = Ok (c, e) /\ is_config_done c = false.
Proof.
  intros Hd Hp Hn Hm H1. unfold load_config, read_base.
  rewrite (leaf_read st d _ _ Hd Hp), (leaf_read st d _ _ Hd Hn), (leaf_read st d _ _ Hd Hm).
  cbv zeta. cbn [new_ServerConfigBase set_port set_net_thread_cnt set_max_connections port net_thread_cnt
       max_connections is_config_done YamlUtil.To_int YamlUtil.To_uint16 snd].
  rewrite !write_int_0, !wrap32_to_int. destruct (Z.ltb_spec (wrap32 (strtol tn)) 1); [|lia]. by eexists.
Qed.

(** A thread with the limit [v]. *)
Definition with_limit {P D} (t : ServerBase.NetThreadBase P D) (v : Z) : ServerBase.NetThreadBase P D :=
  ServerBase.mkThread (ServerBase.connection_manager_ t) v (ServerBase.memory_ t) (ServerBase.running_ t)
    (ServerBase.epoll_notify_ t) (ServerBase.derived_ t).

(** The limit is given to every thread, unless it is zero. *)
Lemma SetMax_all {P D} (n : nat) (t : ServerBase.NetThreadBase P D) (v : Z) :
  (0 < n)%nat ->
  mapM (fun p => ServerBase.SetMaxConnection p v) (replicate n t)
  = if 0 <? v then Ok (replicate n (with_limit t v)) else Fault AssertFailed.
Proof.
  intros Hn. destruct n as [|n]; [lia|]. clear Hn. unfold ServerBase.SetMaxConnection.
  destruct (0 <? v); [|done]. cbn [assert_ mbind res_bind]. induction n as [|n IH]; [done|].
  cbn [replicate mapM mbind res_bind] in IH |- *. by rewrite IH.
Qed.

(** C38: what [Config] makes of a configuration document that has the entries of the port, the number of
    threads and the connection limit, once the listening socket is created and bound. With [n] the number
    of threads the text gives modulo 2^32, but at most eight, and [total] the connection limit it gives
    modulo 2^32: if [n] is at least one, the configuration of the derived class succeeds, and [total] is at
    least [n], the server comes out with [n] threads, each limited to [total / n] connections, and the
    file closed; in every other case an assertion stops the process, so that no server runs with an
    incomplete configuration or with threads that accept nothing. *)
Theorem Config_threads {E P D} (custom : list YamlUtil.Node -> ServerConfigBase -> E -> res (bool * E))
    (new_thread : ServerBase.NetThreadBase P D) (d : YamlTheory.doc) (tp tn tm file : bytes) (fresh : nat)
    (e e' : E) (ok : bool) (create bind : Z)
    (Hd : YamlTheory.doc_ok d)
    (Hp : YamlTheory.lookup_item d key_port = Some (YamlTheory.ILeaf tp))
    (Hn : YamlTheory.lookup_item d key_net_thread_cnt = Some (YamlTheory.ILeaf tn))
    (Hm : YamlTheory.lookup_item d key_max_connections = Some (YamlTheory.ILeaf tm))
    (Hs : 0 <= create /\ 0 <= bind)
    (Hcustom : forall st, YamlTheory.read_doc st = Some d -> custom st (base_of tp tn tm) e = Ok (ok, e')) :
  let n := Z.min 8 (wrap32 (strtol tn)) in
  let total := wrap32 (strtol tm) in
  Config custom (fun c _ => ts ← SetNetThreadImpl c new_thread []; base_AfterConfig ServerBase.SetMaxConnection c ts)
    file [] (Some (YamlTheory.render d)) fresh e create bind
  = if (1 <=? n) && ok && (n <=? total)
    then Ok (replicate (Z.to_nat n) (with_limit new_thread (total / n)), [])
    else Fault AssertFailed.
Proof.
  intros n total. pose proof (wrap32_range (strtol tn)) as Rn. unfold Config.
  destruct (parse_load (config_path file) d fresh Hd) as (st & -> & Hst). cbn [mbind res_bind snd]. rewrite close_only.
  destruct (Z.leb_spec 0 create) as [_|?]; [|lia]. destruct (Z.leb_spec 0 bind) as [_|?]; [|lia].
  destruct (Z.leb_spec 1 n) as [H1|H1]; cbn [andb].
  2: { destruct (load_config_zero custom st d tp tn tm e Hst Hp Hn Hm) as (c & -> & Hc); [lia|].
       cbn [mbind res_bind assert_]. unfold SetNetThreadImpl. by rewrite Hc. }
  rewrite (load_config_read custom st d tp tn tm e e' ok) by (auto; lia). cbn [mbind res_bind assert_].
  unfold SetNetThreadImpl. destruct ok; [|done]. cbn [set_config_done base_of is_config_done net_thread_cnt assert_ mbind res_bind app andb].
  fold n. unfold base_AfterConfig. rewrite length_replicate.
  assert (0 < Z.to_nat n)%nat as Hpos by lia.
  pose proof (SetMax_all (Z.to_nat n) new_thread (total / Z.of_nat (Z.to_nat n)) Hpos) as Hmap.
  destruct (replicate (Z.to_nat n) new_thread) as [|t0 l] eqn:Er; [by apply (f_equal length) in Er; rewrite length_replicate in Er; simpl in Er; lia|].
  change (max_connections (set_config_done (base_of tp tn tm))) with total. rewrite Hmap. rewrite Z2Nat.id by lia. pose proof (wrap32_range (strtol tm)) as Rt.
  destruct (Z.leb_spec n total); destruct (Z.ltb_spec 0 (total / n)) as [Hq|Hq]; try done.
  - assert (0 < total / n) by (by apply Z.div_str_pos; lia). lia.
  - rewrite Z.div_small in Hq by (fold total in Rt; lia). lia.
Qed.

Definition demo_thread : ServerBase.NetThreadBase (HttpPacket.HttpParser HttpPacket.request_sub) unit :=
  ServerBase.mkThread ServerBase.new_manager 0 TcpConnection.new_memory false None tt.

Definition demo_doc : YamlTheory.doc :=
  [(key_port, YamlTheory.ILeaf (str "5002")); (key_net_thread_cnt, YamlTheory.ILeaf (str "4"));
   (key_max_connections, YamlTheory.ILeaf (str "10001"))].

Lemma Config_threads_witness :
  Config (fun _ _ (_ : unit) => Ok (true, tt))
    (fun c _ => ts ← SetNetThreadImpl c demo_thread []; base_AfterConfig ServerBase.SetMaxConnection c ts)
    (str "w.yml") [] (Some (YamlTheory.render demo_doc)) 7 tt 3 0
  = Ok (replicate 4 (with_limit demo_thread 2500), []).
Proof.
  refine (Config_threads (fun _ _ (_ : unit) => Ok (true, tt)) demo_thread demo_doc
            (str "5002") (str "4") (str "10001") (str "w.yml") 7 tt tt true 3 0 _ _ _ _ _ _); try done.
  repeat constructor; cbn [fst snd YamlTheory.item_ok]; apply (bool_decide_unpack _); vm_compute; exact I.
Defined.

End ServerConfig.
