(* ===== verification/EventLoop.v ===== *)
(** * The event loops (networkmodel/serverbase.cc)

    [NetThreadBase::Run], the loop of a network thread: it waits for events,
    hands each to the connection whose address it carries, then handles the
    notifications and the timeouts. [ServerBase::Serve], the loop of the main
    thread, which accepts connections. Addresses come back from epoll as plain
    numbers; the theorems show that the loop never follows one to a connection
    that is gone. *)
From stdpp Require Import gmap.
From S2P Require Import Prelude CLib AutoBuffer HttpPacket UnixSocket SocketEpoll TcpConnection ServerBase NetThreadTheory ServerConfig.

Module EventLoop.
Import TcpConnection ServerBase NetThreadTheory.

(** ** Definitions *)

(** [__IsNotifyStop], [_IsNotifyStop] *)
Definition __IsNotifyStop (note : SocketEpoll.Notification) : bool :=
  SocketEpoll.Notification_eqb note (SocketEpoll.new_Notification (Z.of_nat notification_stop_)).

(** The methods of the base class that a derived class may leave as they are. *)
Definition base_CheckNotification (_ : Z) : bool := false.

Definition clear_timeout_period : Z := 10 * 1000.

Section Run.
Context {P D Env : Type} `{ApplicationProtocolParser P} (vm : Env -> NetThreadMethods P D).
Abbreviation thread := (NetThreadBase P D).

Definition base_HandleNotification (_ : Z) (_ : list UnixSocket.write_result) (_ : Z) (t : thread)
    : res (thread * list (nat * bytes)) := Ok (t, []).

Definition base_UpgradeApplicationProtocol (c : ConnectionProfile P) (_ : RecvContext P)
    : res (ConnectionProfile P) := Ok c.

(** What the system does while one event or notification is handled: the
    results of [read] and [write], and what else the methods depend on. *)
Record io := mkIo {
  io_reads : list UnixSocket.read_result;
  io_writes : list UnixSocket.write_result;
  io_env : Env
}.

(** The object at an address that epoll returned. *)
Definition conn_of (t : thread) (dat : Z) : res nat :=
  match conn_at t (Z.to_nat dat) with Some (uid, _) => Ok uid | None => Fault Dangling end.

(** How the loop goes on after an event. *)
Inductive after := Next | Return.

(** One turn of the loop over the events: the notification it puts aside, if
    any, and what it sent. *)
Definition on_event (t : thread) (e : SocketEpoll.SocketEpoll) (idx : Z) (x : io) (now : Z)
    : res (after * thread * list Z * list (nat * bytes)) :=
  dat ← SocketEpoll.GetEpollDataPtr e idx;
  if __IsNotifyStop (SocketEpoll.mkNotification dat) then Ok (Return, set_running t false, [], [])
  else if CheckNotification (vm (io_env x)) dat then Ok (Next, t, [dat], [])
  else
    err ← SocketEpoll.IsErrSet e idx;
    if negb (err =? 0) then
      uid ← conn_of t err;
      '(_, t) ← __OnErrEvent t uid;
      Ok (Next, t, [], [])
    else
      rd ← SocketEpoll.IsReadSet e idx;
      '(deleted, t) ←
        (if negb (rd =? 0) then uid ← conn_of t rd; __OnReadEvent (vm (io_env x)) t uid (io_reads x)
         else Ok (false, t));
      if deleted : bool then Ok (Next, t, [], [])
      else
        wr ← SocketEpoll.IsWriteSet e idx;
        if negb (wr =? 0) then
          uid ← conn_of t wr;
          '(t, outs) ← __OnWriteEvent t uid (io_writes x) now;
          Ok (Next, t, [], outs)
        else Ok (Next, t, [], []).

(** The loop over the events from [idx] on; [xs] has one element per event. *)
Fixpoint events_loop (t : thread) (e : SocketEpoll.SocketEpoll) (idx : Z) (xs : list io) (now : Z)
    : res (after * thread * list Z * list (nat * bytes)) :=
  match xs with
  | [] => Ok (Next, t, [], [])
  | x :: xs' =>
      '(a, t, notes, outs) ← on_event t e idx x now;
      match a with
      | Return => Ok (Return, t, notes, outs)
      | Next =>
          '(a, t, notes', outs') ← events_loop t e (idx + 1) xs' now;
          Ok (a, t, notes ++ notes', outs ++ outs')
      end
  end.

(** The loop over the notifications put aside. *)
Fixpoint notes_loop (t : thread) (notes : list Z) (xs : nat -> io) (now : Z)
    : res (thread * list (nat * bytes)) :=
  match notes with
  | [] => Ok (t, [])
  | d :: notes' =>
      '(t, outs) ← HandleNotification (vm (io_env (xs O))) d (io_writes (xs O)) now t;
      '(t, outs') ← notes_loop t notes' (fun i => xs (S i)) now;
      Ok (t, outs ++ outs')
  end.

(** The variables of [Run] that live as long as its loop. *)
Record run_state := mkRun {
  thread_ : thread;
  socket_epoll_ : SocketEpoll.SocketEpoll;
  epoll_retry : Z;
  last_clear_ts : Z
}.

(** What the system does during one turn: the results of [epoll_wait], the
    input and output per event and per notification, and the time. *)
Record turn := mkTurn {
  waits : list SocketEpoll.wait_result;
  ios : nat -> io;
  note_ios : nat -> io;
  now_ : Z
}.

(** A turn of the loop of [Run]: whether the loop goes on. *)
Definition Run_turn (st : run_state) (x : turn) : res (bool * run_state * list (nat * bytes)) :=
  '(n_events, e) ← SocketEpoll.EpollWait (socket_epoll_ st) (waits x);
  if n_events <? 0 then
    if SocketEpoll.GetErrNo e =? SocketEpoll.EINTR then
      Ok (true, mkRun (thread_ st) e (epoll_retry st) (last_clear_ts st), [])
    else
      let retry := epoll_retry st - 1 in
      Ok (0 <? retry, mkRun (thread_ st) e retry (last_clear_ts st), [])
  else
    '(a, t, notes, outs) ← events_loop (thread_ st) e 0 (ios x <$> seq 0 (Z.to_nat n_events)) (now_ x);
    match a with
    | Return => Ok (false, mkRun t e (epoll_retry st) (last_clear_ts st), outs)
    | Next =>
        '(t, outs') ← notes_loop t notes (note_ios x) (now_ x);
        if clear_timeout_period <? sub64 (now_ x) (last_clear_ts st) then
          Ok (true, mkRun (thread_ClearTimeout t (now_ x)) e (epoll_retry st) (now_ x), outs ++ outs')
        else Ok (true, mkRun t e (epoll_retry st) (last_clear_ts st), outs ++ outs')
    end.

(** [Run]: the turns until the loop ends; [true] when it has ended, [false]
    when the thread waits for events again. *)
Fixpoint Run (st : run_state) (xs : list turn) : res (bool * run_state * list (nat * bytes)) :=
  if negb (running_ (thread_ st)) then Ok (true, st, [])
  else
    match xs with
    | [] => Ok (false, st, [])
    | x :: xs' =>
        '(go_on, st, outs) ← Run_turn st x;
        if go_on : bool then
          '(ended, st, outs') ← Run st xs';
          Ok (ended, st, outs ++ outs')
        else Ok (true, st, outs)
    end.

(** [NetThreadBase::NotifyStop]: the flag is cleared, and the notifier is
    registered with the notification to stop. *)
Definition NotifyStop (t : thread) : thread := set_notify (set_running t false) (Some notification_stop_).

(** *** The main thread *)

(** [_OnEpollErr] *)
Definition _OnEpollErr (fd : Z) : Z := 0.

(** What [accept] does: a descriptor with the address and the port of the
    client in network byte order, or an error. *)
Inductive accept_result :=
| Accepted (fd sin_addr sin_port : Z)
| AcceptErr (errno : Z).

(** [inet_ntop]: the text of an address. *)
Context (inet_ntop : Z -> bytes).

(** [_RegisterConnection] with the call it makes. *)
Definition register_on (env : Env) (ts : list thread) (fd : Z) (ip : bytes) (port now : Z) : res (list thread) :=
  o ← ServerConfig._RegisterConnection fd ts;
  match o with
  | None => Ok ts
  | Some i =>
      match ts !! i with
      | None => Fault Undefined
      | Some t => '(_, t) ← RegisterConnection (vm env) t fd ip port now; Ok (<[i := t]> ts)
      end
  end.

(** [_OnConnect]: the results of its calls of [accept]; the descriptor does not
    block, so that the last one is [EAGAIN]. *)
Fixpoint _OnConnect (env : Env) (ts : list thread) (accepts : list accept_result) (now : Z)
    : res (Z * list thread) :=
  match accepts with
  | [] => Ok (0, ts)
  | AcceptErr err :: accepts' =>
      if err =? SocketEpoll.EINTR then _OnConnect env ts accepts' now
      else if UnixSocket.IS_EAGAIN err then Ok (0, ts)
      else Ok (-1, ts)
  | Accepted fd addr sin_port :: accepts' =>
      ts ← register_on env ts fd (inet_ntop addr) (UnixSocket.htons sin_port) now;
      _OnConnect env ts accepts' now
  end.

(** [LoopingEpollWait], a virtual method, and [EpollLoopInterval]. *)
Context (LoopingEpollWait : Env -> list thread -> res (list thread)) (kEpollWaitInterval : Z).

Record server := mkServer {
  net_threads_ : list thread;
  listen_epoll_ : SocketEpoll.SocketEpoll;
  server_notifier_ : SocketEpoll.EpollNotifier;
  listenfd_ : UnixSocket.Socket;
  serving_ : bool;
  last_invoke : Z
}.

Definition kDefaultListenBacklog : Z := 4096.

(** [Serve] before its loop: [ret] is what [listen] returns, [ctl1] and [ctl2]
    what [epoll_ctl] does for the listening socket and for the notifier, [junk]
    what is left in the data of their events. The threads start. *)
Definition Serve_start (s : server) (ret junk : Z) (ctl1 ctl2 : Z * Z) : res server :=
  r ← UnixSocket.Listen (listenfd_ s) kDefaultListenBacklog ret;
  _ ← assert_ (0 <=? r);
  e ← SocketEpoll.SetListenFd (listen_epoll_ s) (UnixSocket.FD (listenfd_ s)) junk ctl1;
  '(n, e) ← SocketEpoll.SetSocketEpoll (server_notifier_ s) e junk ctl2;
  Ok (mkServer ((fun t => set_running t true) <$> net_threads_ s) e n (listenfd_ s) true 0).

(** One event of the loop of [Serve]; [false] when the loop over the events is
    left. *)
Definition serve_event (env : Env) (ts : list thread) (e : SocketEpoll.SocketEpoll) (idx : Z)
    (accepts : list accept_result) (now : Z) : res (bool * list thread) :=
  dat ← SocketEpoll.GetEpollDataPtr e idx;
  if __IsNotifyStop (SocketEpoll.mkNotification dat) then Ok (false, ts)
  else
    err ← SocketEpoll.IsErrSet e idx;
    let fd := to_int err in
    if negb (fd =? 0) then let _ := _OnEpollErr fd in Ok (true, ts)
    else
      is_new ← SocketEpoll.IsNewConnect e idx;
      if is_new : bool then '(_, ts) ← _OnConnect env ts accepts now; Ok (true, ts) else Ok (true, ts).

Fixpoint serve_events (env : Env) (ts : list thread) (e : SocketEpoll.SocketEpoll) (idx : Z)
    (accepts : list (list accept_result)) (now : Z) : res (bool * list thread) :=
  match accepts with
  | [] => Ok (true, ts)
  | l :: accepts' =>
      '(go_on, ts) ← serve_event env ts e idx l now;
      if go_on : bool then serve_events env ts e (idx + 1) accepts' now else Ok (false, ts)
  end.

(** A turn of the loop of [Serve]; [accepts] has one element per event. The
    interval, an [int], is converted to 64 bits for the comparison. *)
Definition Serve_turn (env : Env) (s : server) (ws : list SocketEpoll.wait_result)
    (accepts : nat -> list accept_result) (now : Z) : res server :=
  let after ts e serving last := mkServer ts e (server_notifier_ s) (listenfd_ s) serving last in
  '(n_events, e) ← SocketEpoll.EpollWait (listen_epoll_ s) ws;
  if n_events <? 0 then Ok (after (net_threads_ s) e false (last_invoke s))
  else
    '(go_on, ts) ← serve_events env (net_threads_ s) e 0 (accepts <$> seq 0 (Z.to_nat n_events)) now;
    let serving := serving_ s && (go_on : bool) in
    if wrap64 kEpollWaitInterval <? sub64 now (last_invoke s) then
      ts ← LoopingEpollWait env ts;
      Ok (after ts e serving now)
    else Ok (after ts e serving (last_invoke s)).

(** [ServerBase::NotifyStop]. *)
Definition server_NotifyStop (s : server) (ctl : Z * Z) : res server :=
  e ← SocketEpoll.NotifyEpoll (server_notifier_ s) (listen_epoll_ s)
        (SocketEpoll.new_Notification (Z.of_nat notification_stop_)) ctl;
  Ok (mkServer (net_threads_ s) e (server_notifier_ s) (listenfd_ s) false (last_invoke s)).

(** [_NotifyNetThreadsStop]: the threads as they are notified; it then waits for
    each to end and deletes it. *)
Definition _NotifyNetThreadsStop (s : server) : server :=
  mkServer (NotifyStop <$> net_threads_ s) (listen_epoll_ s) (server_notifier_ s) (listenfd_ s) (serving_ s)
    (last_invoke s).

(** [_CreateListenFd]: [fd], [opt], [flags] and [ret] are what [socket],
    [setsockopt] and the two calls of [fcntl] return. *)
Definition _CreateListenFd (s : UnixSocket.Socket) (fd opt flags ret : Z) : res (Z * UnixSocket.Socket) :=
  '(r, s) ← UnixSocket.Create s UnixSocket.SOCK_STREAM fd;
  _ ← assert_ (0 <=? r);
  _ ← UnixSocket.SetSocketOpt s opt;
  let '(_, s, _) := UnixSocket.SetNonblocking s flags ret in
  Ok (0, s).

(** ** Specification of the events *)

(** An event that a thread can get: a notification, an event without flags
    (such as the first one of the notifier, which only reports that its socket
    is not connected), or one of a live connection. *)
Definition idle (ev : SocketEpoll.epoll_event) : bool :=
  (Z.land (SocketEpoll.events ev) SocketEpoll.EPOLLERR =? 0)
  && (Z.land (SocketEpoll.events ev) SocketEpoll.EPOLLIN =? 0)
  && (Z.land (SocketEpoll.events ev) SocketEpoll.EPOLLOUT =? 0).

Definition is_note (dat : Z) : Prop :=
  dat = Z.of_nat notification_stop_ \/ forall env, CheckNotification (vm env) dat = true.

Definition event_known (t : thread) (ev : SocketEpoll.epoll_event) : Prop :=
  is_note (SocketEpoll.data ev) \/ idle ev = true \/
  exists u c, conns t !! u = Some c /\ SocketEpoll.data ev = Z.of_nat (this_ c).

(** The events of one call of [epoll_wait]: at most one per connection. *)
Definition batch_ok (t : thread) (evs : list SocketEpoll.epoll_event) : Prop :=
  Forall (event_known t) evs /\
  NoDup (SocketEpoll.data <$> filter (fun ev => idle ev = false) evs).

End Run.

Arguments io Env : clear implicits.
Arguments turn Env : clear implicits.

(** ** Lemmas *)

Section Theory.
Context {P D Env : Type} `{ParserLaws P} (vm : Env -> NetThreadMethods P D) (outstanding : D -> list nat).
Context `{Hlaws : forall env, ThreadLaws (vm env) outstanding}.
Abbreviation thread := (NetThreadBase P D).
Implicit Types t : thread.

(** An address leads to its connection while it is alive. *)
Lemma conn_of_live t (Q : list nat) (u : nat) (c : ConnectionProfile P) :
  net_inv Q t -> conns t !! u = Some c -> conn_of t (Z.of_nat (this_ c)) = Ok u.
Proof.
  intros [_ Hi _] Hc. unfold conn_of. rewrite Nat2Z.id.
  assert (conn_at t (this_ c) = Some (u, c)) as -> by (by apply (conn_at_live t Q)). done.
Qed.

(** An event of another connection is still known. *)
Lemma known_kept t t' (u : nat) (c : ConnectionProfile P) (ev' : SocketEpoll.epoll_event) :
  conns t !! u = Some c -> others_kept u t t' -> event_known vm t ev' ->
  idle ev' = true \/ SocketEpoll.data ev' <> Z.of_nat (this_ c) -> event_known vm t' ev'.
Proof.
  intros Hu Hk [Hn|[Hid|(v & d & Hv & Hd)]] Hne; [by left|by right; left|].
  destruct Hne as [|Hne]; [by right; left|]. right; right.
  destruct (Hk v d) as (d' & Hd' & E); [|done|].
  - intros ->. assert (d = c) as -> by congruence. done.
  - exists v, d'. split; [done|]. by rewrite E.
Qed.

(** What one turn of the loop over the events guarantees. *)
Definition turn_ok t (ev : SocketEpoll.epoll_event) (r : res (after * thread * list Z * list (nat * bytes))) : Prop :=
  match r with
  | Ok (_, t', _, _) =>
      net_inv (outstanding (derived_ t')) t' /\ (next_ (memory_ t') <= next_ (memory_ t) + 3)%nat /\
      forall ev', event_known vm t ev' ->
        idle ev = true \/ idle ev' = true \/ SocketEpoll.data ev' <> SocketEpoll.data ev -> event_known vm t' ev'
  | Fault f => f <> Dangling
  end.

(** The write event of a connection that its read event has not deleted. *)
Lemma write_part t t1 (ev : SocketEpoll.epoll_event) (u : nat) (c c1 : ConnectionProfile P) (x : io Env) (now wr : Z) :
  conns t !! u = Some c -> SocketEpoll.data ev = Z.of_nat (this_ c) ->
  net_inv (outstanding (derived_ t1)) t1 -> others_kept u t t1 -> conns t1 !! u = Some c1 -> this_ c1 = this_ c ->
  (next_ (memory_ t1) <= next_ (memory_ t) + 3)%nat -> wr = 0 \/ wr = SocketEpoll.data ev ->
  turn_ok t ev
    (if negb (wr =? 0) then uid ← conn_of t1 wr; '(t, outs) ← __OnWriteEvent t1 uid (io_writes x) now; Ok (Next, t, [], outs)
     else Ok (Next, t1, [], [])).
Proof.
  intros Hu Hd Hnet Hk Hu1 Ht1 Hn Hwr.
  assert (forall t2, (forall v d, conns t1 !! v = Some d -> exists d', conns t2 !! v = Some d' /\ this_ d' = this_ d) ->
    forall ev', event_known vm t ev' -> event_known vm t2 ev') as Hall.
  { intros t2 Hk2 ev' [Hnn|[Hid|(v & d & Hv & Hdv)]]; [by left|by right; left|]. right; right.
    assert (exists d1, conns t1 !! v = Some d1 /\ this_ d1 = this_ d) as (d1 & Hd1 & E1).
    { destruct (decide (v = u)) as [->|]; [|by apply Hk]. exists c1. split; [done|congruence]. }
    destruct (Hk2 v d1 Hd1) as (d2 & Hd2 & E2). exists v, d2. split; [done|]. congruence. }
  destruct (Z.eqb_spec wr 0); cbn [negb].
  - cbn. split_and!; [done|done|]. intros ev' Hev' _. apply (Hall t1); [eauto|done].
  - destruct Hwr as [?| ->]; [done|]. rewrite Hd, <- Ht1, (conn_of_live t1 _ u c1 Hnet Hu1). cbn [mbind res_bind].
    destruct (net_write t1 _ u c1 (io_writes x) now Hnet Hu1) as (t2 & outs & -> & Hnet2 & Hs2 & Hn2 & Hk2).
    cbn. destruct Hs2 as [-> _]. split_and!; [done|lia|]. intros ev' Hev' _. by apply (Hall t2).
Qed.

Lemma on_event_safe t (e0 e : SocketEpoll.SocketEpoll) (evs : list SocketEpoll.epoll_event) (i : nat)
    (ev : SocketEpoll.epoll_event) (x : io Env) (now : Z) :
  SocketEpoll.store_events e0 evs = Ok e -> evs !! i = Some ev -> Z.of_nat i < SocketEpoll.kMaxFds ->
  net_inv (outstanding (derived_ t)) t -> event_known vm t ev -> Z.of_nat (next_ (memory_ t)) < 2 ^ 32 ->
  turn_ok t ev (on_event vm t e (Z.of_nat i) x now).
Proof.
  intros Hst Hev Hmax Hnet Hkn Hlt.
  destruct (SocketEpoll.stored_accessors e0 e evs i ev Hst Hev Hmax) as (G1 & _ & G2 & G3 & G4 & _).
  cbv zeta in G2, G3, G4. unfold on_event. rewrite G1. cbn [mbind res_bind].
  assert (turn_ok t ev (Ok (Return, set_running t false, [], [])) /\ forall notes, turn_ok t ev (Ok (Next, t, notes, []))) as [Hret Hsame].
  { split; [|intros notes]; cbn; (split_and!; [destruct Hnet; by split|lia|done]). }
  destruct (__IsNotifyStop _) eqn:Estop; [done|]. destruct (CheckNotification _ _) eqn:Ecn; [done|].
  rewrite G2, G3. cbn [mbind res_bind].
  destruct Hkn as [[Hs|Hn]|[Hid|(u & c & Hu & Hd)]].
  - unfold __IsNotifyStop, SocketEpoll.Notification_eqb in Estop. cbn in Estop. lia.
  - by rewrite Hn in Ecn.
  - unfold idle in Hid. apply andb_true_iff in Hid as [[E1 E2]%andb_true_iff E3]. rewrite E1, E2. cbn [negb Z.eqb mbind res_bind].
    rewrite G4, E3. cbn [mbind res_bind negb Z.eqb]. done.
  - assert (SocketEpoll.data ev <> 0) as Hnz.
    { rewrite Hd. pose proof (co_this _ _ (ci_conn _ _ _ (ni_ctx _ _ Hnet) u c Hu)). lia. }
    assert (forall f, (if Z.land (SocketEpoll.events ev) f =? 0 then 0 else SocketEpoll.data ev) = 0 \/
                      (if Z.land (SocketEpoll.events ev) f =? 0 then 0 else SocketEpoll.data ev) = SocketEpoll.data ev) as Hflag
      by (intros f; destruct (Z.land (SocketEpoll.events ev) f =? 0); [by left|by right]).
    assert (forall t2, others_kept u t t2 -> forall ev', event_known vm t ev' ->
      idle ev = true \/ idle ev' = true \/ SocketEpoll.data ev' <> SocketEpoll.data ev -> idle ev = false -> event_known vm t2 ev') as Hkeep.
    { intros t2 Hk ev' Hev' [?|Hor] Hni; [congruence|]. rewrite Hd in Hor. by eapply known_kept. }
    assert (forall f, Z.land (SocketEpoll.events ev) f <> 0 ->
      f = SocketEpoll.EPOLLERR \/ f = SocketEpoll.EPOLLIN \/ f = SocketEpoll.EPOLLOUT -> idle ev = false) as Hni.
    { intros f Hf Hor. unfold idle. destruct Hor as [->|[->| ->]]; apply Z.eqb_neq in Hf; rewrite Hf; by rewrite ?andb_false_r. }
    destruct (Z.eqb_spec (Z.land (SocketEpoll.events ev) SocketEpoll.EPOLLERR) 0) as [_|Hf]; cbn [negb Z.eqb].
    2: { destruct (Z.eqb_spec (SocketEpoll.data ev) 0); [done|]. cbn [negb].
         rewrite Hd, (conn_of_live t _ u c Hnet Hu). cbn [mbind res_bind].
         destruct (net_err outstanding t u c Hnet Hu) as (t1 & -> & Hnet1 & Hk1 & Hn1). cbn.
         split_and!; [done|lia|]. intros ev' Hev' Hor. eapply Hkeep; eauto. }
    destruct (Z.eqb_spec (Z.land (SocketEpoll.events ev) SocketEpoll.EPOLLIN) 0) as [_|Hf]; cbn [negb Z.eqb mbind res_bind].
    + rewrite G4. cbn [mbind res_bind]. apply (write_part t t ev u c c x now); [done|done|done| |done|done|lia|apply Hflag].
      intros v d _ Hv. eauto.
    + destruct (Z.eqb_spec (SocketEpoll.data ev) 0); [done|]. cbn [negb].
      rewrite Hd, (conn_of_live t _ u c Hnet Hu). cbn [mbind res_bind].
      pose proof (net_read (vm (io_env x)) outstanding t u c (io_reads x) Hnet Hu Hlt) as Hr. unfold event_ok in Hr.
      destruct (__OnReadEvent _ _ _ _) as [[deleted t1]|f]; cbn [mbind res_bind]; [|done].
      destruct Hr as (Hnet1 & Hk1 & Hdel & Hn1). destruct deleted.
      * cbn. split_and!; [done|lia|]. intros ev' Hev' Hor. eapply Hkeep; eauto.
      * destruct (Hdel eq_refl) as (c1 & Hu1 & E1). rewrite G4. cbn [mbind res_bind].
        apply (write_part t t1 ev u c c1 x now); [done|done|done|done|done|done|lia|apply Hflag].
Qed.

(** The whole loop over the events of a batch. *)
Lemma events_loop_safe (e0 e : SocketEpoll.SocketEpoll) (evs : list SocketEpoll.epoll_event) (now : Z)
    (todo : list SocketEpoll.epoll_event) (xs : list (io Env)) t (pre : list SocketEpoll.epoll_event) :
  SocketEpoll.store_events e0 evs = Ok e -> evs = pre ++ todo -> zlen evs <= SocketEpoll.kMaxFds ->
  length xs = length todo ->
  net_inv (outstanding (derived_ t)) t -> batch_ok vm t todo ->
  Z.of_nat (next_ (memory_ t)) + 3 * zlen todo < 2 ^ 32 ->
  match events_loop vm t e (zlen pre) xs now with
  | Ok (_, t', _, _) => net_inv (outstanding (derived_ t')) t'
  | Fault f => f <> Dangling
  end.
Proof.
  intros Hst. revert xs t pre. induction todo as [|ev todo IH]; intros xs t pre Hevs Hmax Hlen Hnet [Hkn Hnd] Hlt;
    (destruct xs as [|x xs]; [try done|]); [done..|].
  cbn [events_loop]. apply Forall_cons in Hkn as [Hev Hkn]. rewrite Hevs, length_app in Hmax. cbn [length] in Hmax, Hlen, Hlt.
  pose proof (on_event_safe t e0 e evs (length pre) ev x now Hst ltac:(rewrite Hevs; by apply list_lookup_middle) ltac:(lia)
                Hnet Hev ltac:(lia)) as Ho.
  unfold turn_ok in Ho. destruct (on_event _ _ _ _ _ _) as [[[[a t1] notes] outs]|f]; cbn [mbind res_bind]; [|done].
  destruct Ho as (Hnet1 & Hn1 & Hk1). destruct a; [|done].
  specialize (IH xs t1 (pre ++ [ev])). rewrite length_app in IH. cbn [length] in IH.
  replace (Z.of_nat (length pre + 1)) with (zlen pre + 1) in IH by lia.
  assert (match events_loop vm t1 e (zlen pre + 1) xs now with
          | Ok (_, t', _, _) => net_inv (outstanding (derived_ t')) t' | Fault f => f <> Dangling end) as Hrest.
  { apply IH; [by rewrite <- app_assoc|rewrite Hevs, length_app; cbn [length]; lia|lia|done| |lia].
    rewrite filter_cons in Hnd. split.
    - rewrite Forall_forall in Hkn |- *. intros ev' Hin. apply Hk1; [by apply Hkn|].
      destruct (idle ev) eqn:Ei; [by left|right]. destruct (idle ev') eqn:Ei'; [by left|right].
      rewrite decide_True in Hnd by done. rewrite fmap_cons in Hnd. apply NoDup_cons in Hnd as [Hni _].
      intros E. apply Hni. rewrite <- E. apply list_elem_of_fmap_2. by apply list_elem_of_filter.
    - destruct (decide (idle ev = false)); [|done]. rewrite fmap_cons in Hnd. by apply NoDup_cons in Hnd as [_ ?]. }
  destruct (events_loop _ _ _ _ _ _) as [[[[a' t2] notes'] outs']|f]; done.
Qed.

Lemma notes_loop_inv (notes : list Z) (xs : nat -> io Env) (now : Z) t t' (outs : list (nat * bytes)) :
  net_inv (outstanding (derived_ t)) t -> notes_loop vm t notes xs now = Ok (t', outs) ->
  net_inv (outstanding (derived_ t')) t' /\ next_ (memory_ t') = next_ (memory_ t).
Proof.
  revert t xs outs. induction notes as [|d notes IH]; intros t xs outs Hnet; cbn [notes_loop].
  { by intros [= <- <-]. }
  intros E. apply bind_Ok in E as ([t1 o1] & E1 & E). apply bind_Ok in E as ([t2 o2] & E2 & [= <- <-]).
  pose proof (law_note (vm := vm (io_env (xs O))) d (io_writes (xs O)) now t Hnet) as Hl. rewrite E1 in Hl.
  destruct Hl as [Hnet1 Hn1]. destruct (IH t1 _ o2 Hnet1 E2) as [Hnet2 Hn2]. split; [done|congruence].
Qed.

End Theory.

(** *** Accepting *)

Section Accept.
Context {P D Env : Type} `{ParserLaws P} (vm : Env -> NetThreadMethods P D) (outstanding : D -> list nat).
Context `{Hlaws : forall env, ThreadLaws (vm env) outstanding} (inet_ntop : Z -> bytes).
Abbreviation thread := (NetThreadBase P D).
Implicit Types t : thread.

(** The descriptors [_OnConnect] accepts. *)
Fixpoint accepted (l : list accept_result) : list Z :=
  match l with
  | [] => []
  | AcceptErr err :: l' => if err =? SocketEpoll.EINTR then accepted l' else []
  | Accepted fd _ _ :: l' => fd :: accepted l'
  end.

Definition live_fd t (fd : Z) : Prop := exists u c, conns t !! u = Some c /\ conn_FD c = fd.

(** A thread that may take connections: consistent, and with a limit that its
    pool can hold. *)
Definition thread_ready t : Prop :=
  net_inv (outstanding (derived_ t)) t /\ max_connections_ t <= 384.

(** [t'] is [t] with some of the descriptors [fds] registered, all of them unless
    it is full. *)
Definition takes (fds : list Z) t t' : Prop :=
  thread_ready t' /\ same_thread t t' /\
  CurrConnectionCnt (connection_manager_ t) <= CurrConnectionCnt (connection_manager_ t') /\
  (forall fd, live_fd t fd -> live_fd t' fd) /\
  (forall fd, live_fd t' fd -> live_fd t fd \/ fd ∈ fds) /\
  (forall fd, fd ∈ fds -> live_fd t' fd \/ max_connections_ t <= CurrConnectionCnt (connection_manager_ t')).

Lemma register_takes t (env : Env) (fd : Z) (ip : bytes) (port now : Z) :
  thread_ready t -> 0 < fd -> ~ live_fd t fd ->
  exists taken t', RegisterConnection (vm env) t fd ip port now = Ok (taken, t') /\ takes [fd] t t'.
Proof.
  intros [Hnet Hmax] Hfd Hnew. pose proof (ServerBase.count_live _ (ni_mgr _ _ Hnet)) as Hcnt.
  destruct (Z.lt_ge_cases (CurrConnectionCnt (connection_manager_ t)) (max_connections_ t)) as [Hlt|Hge].
  - destruct (net_register (vm env) outstanding t _ fd ip port now Hnet Hfd) as (taken & t' & E & Hnet' & Hs & Ht & Hres).
    { split; [unfold conns; lia|]. intros u c Hc Heq. apply Hnew. by exists u, c. }
    destruct taken; [|destruct Ht as [_ Ht]; by discriminate (Ht Hlt)].
    destruct Hres as (uid & c & Hnone & Hl & Hc). pose proof (ServerBase.count_live _ (ni_mgr _ _ Hnet')) as Hcnt'.
    assert (size (conns t') = S (size (conns t))) as Hsz by (by rewrite Hl, map_size_insert_None).
    exists true, t'. split; [done|]. unfold conns in Hsz. pose proof Hs as (Hd & Hm & _).
    split_and!; [split; [by rewrite Hd|lia]|done|lia|..].
    + intros f (u & d & Hu & Hf). exists u, d. rewrite Hl, lookup_insert_ne by congruence. done.
    + intros f (u & d & Hu & Hf). rewrite Hl in Hu. apply lookup_insert_Some in Hu as [[<- <-]|[_ Hu]]; [right; set_solver|].
      left. by exists u, d.
    + intros f ->%list_elem_of_singleton. left. exists uid, c. by rewrite Hl, lookup_insert_eq.
  - exists false, t. unfold RegisterConnection. destruct (Z.ltb_spec fd 0); [lia|].
    destruct (Z.leb_spec (max_connections_ t) (CurrConnectionCnt (connection_manager_ t))); [|lia].
    split; [done|]. split_and!; [done|done|lia|done|by left|by right].
Qed.

Lemma takes_nil t : thread_ready t -> takes [] t t.
Proof. intros Ht. split_and!; [done|done|lia|done|by left|by intros fd ?%not_elem_of_nil]. Qed.

Lemma takes_trans t1 t2 t3 (fds fds' : list Z) : takes fds t1 t2 -> takes fds' t2 t3 -> takes (fds ++ fds') t1 t3.
Proof.
  intros (_ & S1 & C1 & L1 & N1 & A1) (R2 & S2 & C2 & L2 & N2 & A2).
  destruct S1 as (? & Hm & ? & ?), S2 as (? & ? & ? & ?).
  split_and!; [done|split_and!; congruence|lia|auto|..].
  - intros fd Hf. rewrite elem_of_app. destruct (N2 fd Hf) as [Hf2|]; [|by auto]. destruct (N1 fd Hf2); auto.
  - intros fd [Hf|Hf]%elem_of_app.
    + destruct (A1 fd Hf); [by left; apply L2|right; lia].
    + destruct (A2 fd Hf); [by left|right; lia].
Qed.

Lemma register_on_takes (env : Env) (ts : list thread) (fd : Z) (ip : bytes) (port now : Z) :
  ts <> [] -> zlen ts < 2 ^ 32 -> Forall thread_ready ts -> 0 < fd -> (forall t, t ∈ ts -> ~ live_fd t fd) ->
  exists i t t1, i = Z.to_nat (fd mod zlen ts) /\ ts !! i = Some t /\ takes [fd] t t1 /\
    register_on vm env ts fd ip port now = Ok (<[i := t1]> ts).
Proof.
  intros Hne Hlen Hts Hfd Hnew. unfold register_on, ServerConfig._RegisterConnection.
  destruct (Z.ltb_spec fd 0); [lia|]. assert (0 < zlen ts) as Hpos by (destruct ts; [done|simpl; lia]).
  pose proof (Z.mod_pos_bound fd (zlen ts) Hpos) as Hb.
  assert (match ts with [] => Fault Undefined | _ :: _ => Ok (Some (Z.to_nat (wrap32 (fd mod zlen ts)))) end
          = Ok (Some (Z.to_nat (fd mod zlen ts)))) as ->.
  { destruct ts; [done|]. unfold wrap32. by rewrite (Z.mod_small (fd mod _)) by lia. }
  cbn [mbind res_bind]. destruct (lookup_lt_is_Some_2 ts (Z.to_nat (fd mod zlen ts))) as [t Ht]; [lia|].
  rewrite Ht. rewrite Forall_forall in Hts. pose proof (list_elem_of_lookup_2 _ _ _ Ht) as Hin.
  destruct (register_takes t env fd ip port now) as (taken & t1 & -> & Htk); [by apply Hts|done|by apply Hnew|].
  cbn [mbind res_bind]. by exists (Z.to_nat (fd mod zlen ts)), t, t1.
Qed.

Lemma OnConnect_takes (env : Env) (l : list accept_result) (now : Z) (ts : list thread) :
  ts <> [] -> zlen ts < 2 ^ 32 -> Forall thread_ready ts ->
  Forall (fun fd => 0 < fd) (accepted l) -> NoDup (accepted l) ->
  (forall fd t, fd ∈ accepted l -> t ∈ ts -> ~ live_fd t fd) ->
  exists ret ts', _OnConnect vm inet_ntop env ts l now = Ok (ret, ts') /\ length ts' = length ts /\
    forall j t, ts !! j = Some t ->
      exists t', ts' !! j = Some t' /\ takes (filter (fun fd => Z.to_nat (fd mod zlen ts) = j) (accepted l)) t t'.
Proof.
  assert (forall ts', Forall thread_ready ts' -> forall j t, ts' !! j = Some t -> exists t', ts' !! j = Some t' /\ takes [] t t') as Hid.
  { intros ts' Hr j t Hj. exists t. split; [done|]. apply takes_nil. rewrite Forall_lookup in Hr. by eapply Hr. }
  revert ts. induction l as [|[fd addr port|err] l IH]; intros ts Hne Hlen Hts Hpos Hnd Hnew; cbn [_OnConnect accepted] in *.
  - exists 0, ts. split_and!; [done|done|]. by apply Hid.
  - apply Forall_cons in Hpos as [Hfd Hpos]. apply NoDup_cons in Hnd as [Hni Hnd].
    destruct (register_on_takes env ts fd (inet_ntop addr) (UnixSocket.htons port) now) as (i & t & t1 & Hi & Ht & Htk & ->);
      [done|done|done|done|intros t Hin; apply Hnew; [set_solver|done]|]. cbn [mbind res_bind].
    destruct (IH (<[i := t1]> ts)) as (ret & ts' & -> & Hl & Hall).
    + intros E%(f_equal length). rewrite length_insert in E. by destruct ts.
    + by rewrite length_insert.
    + apply Forall_insert; [done|apply Htk].
    + done.
    + done.
    + intros f u Hf (j & Hj)%list_elem_of_lookup. destruct (decide (j = i)) as [->|Hji].
      * rewrite list_lookup_insert_eq in Hj by (by eapply lookup_lt_Some). injection Hj as <-.
        intros Hlv. destruct Htk as (_ & _ & _ & _ & Hn & _). destruct (Hn f Hlv) as [Hlv'|Hin].
        -- eapply Hnew; [|by eapply list_elem_of_lookup_2|done]. set_solver.
        -- apply list_elem_of_singleton in Hin as ->. done.
      * rewrite list_lookup_insert_ne in Hj by done. apply Hnew; [set_solver|by eapply list_elem_of_lookup_2].
    + exists ret, ts'. rewrite length_insert in Hl, Hall. split_and!; [done|done|]. intros j u Hj. rewrite filter_cons.
      destruct (decide (Z.to_nat (fd mod zlen ts) = j)) as [Ej|Ej].
      * rewrite <- Ej, <- Hi in Hj. assert (u = t) as -> by congruence. subst i.
        destruct (Hall j t1) as (t' & Ht' & Htk'); [rewrite Ej; apply list_lookup_insert_eq; rewrite <- Ej; by eapply lookup_lt_Some|].
        exists t'. split; [done|]. by apply (takes_trans t t1 t' [fd]).
      * destruct (Hall j u) as (t' & Ht' & Htk'); [by rewrite list_lookup_insert_ne by congruence|]. by exists t'.
  - destruct (err =? SocketEpoll.EINTR); [by apply IH|].
    destruct (UnixSocket.IS_EAGAIN err); eexists _, ts; (split_and!; [done|done|]; by apply Hid).
Qed.

End Accept.

(** *** Failing waits *)

(** A turn in which epoll_wait was interrupted nine times or failed. *)
Definition wait_fails {Env} (x : turn Env) : Prop :=
  match SocketEpoll.first_answer 9 (waits x) with Some (SocketEpoll.Ready _) => False | _ => True end.

Lemma first_answer_not_EINTR (n : nat) (ws : list SocketEpoll.wait_result) (err : Z) :
  SocketEpoll.first_answer n ws = Some (SocketEpoll.WaitErr err) -> err <> SocketEpoll.EINTR.
Proof.
  revert ws. induction n as [|n IH]; intros ws; [done|]. cbn [SocketEpoll.first_answer].
  destruct (default (SocketEpoll.Ready []) (head ws)) as [|err']; [done|].
  destruct (Z.eqb_spec err' SocketEpoll.EINTR); [apply IH|by intros [= <-]].
Qed.

(** [errno_] is never [EINTR], so a failing wait always costs a retry. *)
Lemma Run_turn_fails {P D Env : Type} `{ApplicationProtocolParser P} (vm : Env -> NetThreadMethods P D)
    (st : run_state) (x : turn Env) :
  0 < SocketEpoll.epoll_fd_ (socket_epoll_ st) -> SocketEpoll.errno_ (socket_epoll_ st) <> SocketEpoll.EINTR ->
  wait_fails x ->
  exists e, Run_turn vm st x = Ok (1 <? epoll_retry st, mkRun (thread_ st) e (epoll_retry st - 1) (last_clear_ts st), []) /\
    SocketEpoll.epoll_fd_ e = SocketEpoll.epoll_fd_ (socket_epoll_ st) /\ SocketEpoll.errno_ e <> SocketEpoll.EINTR.
Proof.
  intros Hfd He Hx. unfold Run_turn, SocketEpoll.EpollWait.
  destruct (Z.ltb_spec 0 (SocketEpoll.epoll_fd_ (socket_epoll_ st))); [|lia].
  cbn [assert_ mbind res_bind]. rewrite SocketEpoll.wait_loop_answer. unfold wait_fails in Hx.
  replace (0 <? epoll_retry st - 1) with (1 <? epoll_retry st) by lia.
  destruct (SocketEpoll.first_answer 9 (waits x)) as [[evs|err]|] eqn:Ea; [done|..];
    cbn [mbind res_bind Z.ltb Z.compare]; unfold SocketEpoll.GetErrNo; cbn [SocketEpoll.errno_].
  - apply first_answer_not_EINTR in Ea. destruct (Z.eqb_spec err SocketEpoll.EINTR); [done|]. by eexists.
  - destruct (Z.eqb_spec (SocketEpoll.errno_ (socket_epoll_ st)) SocketEpoll.EINTR); [done|]. by eexists.
Qed.

Lemma Run_fails_cons {P D Env : Type} `{ApplicationProtocolParser P} (vm : Env -> NetThreadMethods P D)
    (t : NetThreadBase P D) (e : SocketEpoll.SocketEpoll) (r ts : Z) (x : turn Env) :
  running_ t = true -> 0 < SocketEpoll.epoll_fd_ e -> SocketEpoll.errno_ e <> SocketEpoll.EINTR -> wait_fails x ->
  exists e', 0 < SocketEpoll.epoll_fd_ e' /\ SocketEpoll.errno_ e' <> SocketEpoll.EINTR /\
    forall xs, Run vm (mkRun t e r ts) (x :: xs)
               = if 1 <? r then Run vm (mkRun t e' (r - 1) ts) xs else Ok (true, mkRun t e' (r - 1) ts, []).
Proof.
  intros Hr Hfd He Hx. destruct (Run_turn_fails vm (mkRun t e r ts) x Hfd He Hx) as (e' & E & Hf & Hn).
  exists e'. split_and!; [cbn in Hf; lia|done|]. intros xs. cbn [Run thread_]. rewrite Hr. cbn [negb].
  rewrite E. cbn [mbind res_bind epoll_retry thread_ last_clear_ts]. destruct (1 <? r); [|done].
  by destruct (Run vm _ xs) as [[[? ?] ?]|].
Qed.

Lemma Run_turn_keeps {P D Env : Type} `{ParserLaws P} (vm : Env -> NetThreadMethods P D)
    (outstanding : D -> list nat) `{forall env, ThreadLaws (vm env) outstanding}
    (st : run_state) (x : turn Env)
    (Hnet : net_inv (outstanding (derived_ (thread_ st))) (thread_ st))
    (Hfd : 0 < SocketEpoll.epoll_fd_ (socket_epoll_ st))
    (Hbatch : forall evs, SocketEpoll.first_answer 9 (waits x) = Some (SocketEpoll.Ready evs) ->
       zlen evs <= SocketEpoll.kMaxFds /\ (length evs <= length (SocketEpoll.epoll_events_ (socket_epoll_ st)))%nat /\
       batch_ok vm (thread_ st) evs /\ Z.of_nat (next_ (memory_ (thread_ st))) + 3 * zlen evs < 2 ^ 32) :
  match Run_turn vm st x with
  | Ok (_, st', _) => net_inv (outstanding (derived_ (thread_ st'))) (thread_ st')
  | Fault Dangling =>
      exists e n t notes outs, SocketEpoll.EpollWait (socket_epoll_ st) (waits x) = Ok (Z.of_nat n, e) /\
        events_loop vm (thread_ st) e 0 (ios x <$> seq 0 n) (now_ x) = Ok (Next, t, notes, outs) /\
        net_inv (outstanding (derived_ t)) t /\ notes_loop vm t notes (note_ios x) (now_ x) = Fault Dangling
  | Fault _ => True
  end.
Proof.
  unfold Run_turn, SocketEpoll.EpollWait. destruct (Z.ltb_spec 0 (SocketEpoll.epoll_fd_ (socket_epoll_ st))); [|lia].
  cbn [assert_ mbind res_bind]. rewrite SocketEpoll.wait_loop_answer.
  destruct (SocketEpoll.first_answer 9 (waits x)) as [[evs|err]|] eqn:Ea; cbn [mbind res_bind].
  2,3: cbn [Z.ltb Z.compare]; by destruct (_ =? _).
  destruct (Hbatch evs eq_refl) as (Hmax & Hroom & Hok & Hlt).
  destruct (SocketEpoll.store_events (socket_epoll_ st) evs) as [e|f] eqn:Est; cbn [mbind res_bind].
  2: { unfold SocketEpoll.store_events in Est. by destruct (Nat.leb_spec (length evs) (length (SocketEpoll.epoll_events_ (socket_epoll_ st)))); [|lia]. }
  destruct (Z.ltb_spec (zlen evs) 0); [lia|]. rewrite Nat2Z.id.
  pose proof (events_loop_safe vm outstanding (socket_epoll_ st) e evs (now_ x) evs (ios x <$> seq 0 (length evs))
                (thread_ st) [] Est eq_refl Hmax ltac:(by rewrite length_fmap, length_seq) Hnet Hok Hlt) as Hev.
  cbn [length Z.of_nat] in Hev.
  destruct (events_loop _ _ _ _ _ _) as [[[[a t] notes] outs]|f] eqn:Ee; cbn [mbind res_bind]; [|by destruct f].
  destruct a; [|done].
  destruct (notes_loop _ _ _ _ _) as [[t2 outs2]|f] eqn:En; cbn [mbind res_bind].
  - destruct (notes_loop_inv vm outstanding _ _ _ _ _ _ Hev En) as [Hnet2 _].
    destruct (_ <? _); [|done]. cbn [thread_]. destruct (net_clear t2 _ (now_ x) Hnet2) as (Hc & _ & _ & Hs & _).
    by rewrite Hs.
  - destruct f; try done. exists e, (length evs), t, notes, outs. split; [|done].
    destruct (Z.ltb_spec 0 (SocketEpoll.epoll_fd_ (socket_epoll_ st))); [|lia].
    cbn [assert_ mbind res_bind]. done.
Qed.

(** ** Properties *)

(** C6: A turn of the loop of a network thread whose methods keep their promises: if the thread's
    objects are consistent before the turn and epoll reports events of live connections, each
    connection at most once, then no event is handled through the address of a connection that is
    gone, whatever the events do to the connections and whatever the sockets return; and the
    objects are consistent after a turn that comes to its end. A dead object can only be touched
    later in the turn, by the handling of a notification. The theorem is about the use of dead objects:
    it does not say that a turn comes to its end, and leaves open that a parser or a method of the
    derived class stops it by an assertion, an exception or an undefined operation of its own. *)
Theorem Run_turn_safe {P D Env : Type} `{ParserLaws P} (vm : Env -> NetThreadMethods P D)
    (outstanding : D -> list nat) `{forall env, ThreadLaws (vm env) outstanding}
    (st : run_state) (x : turn Env)
    (Hnet : net_inv (outstanding (derived_ (thread_ st))) (thread_ st))
    (Hfd : 0 < SocketEpoll.epoll_fd_ (socket_epoll_ st))
    (Hbatch : forall evs, SocketEpoll.first_answer 9 (waits x) = Some (SocketEpoll.Ready evs) ->
       zlen evs <= SocketEpoll.kMaxFds /\ (length evs <= length (SocketEpoll.epoll_events_ (socket_epoll_ st)))%nat /\
       batch_ok vm (thread_ st) evs /\ Z.of_nat (next_ (memory_ (thread_ st))) + 3 * zlen evs < 2 ^ 32) :
  match Run_turn vm st x with
  | Ok (_, st', _) => net_inv (outstanding (derived_ (thread_ st'))) (thread_ st')
  | Fault Dangling =>
      exists e n t notes outs, SocketEpoll.EpollWait (socket_epoll_ st) (waits x) = Ok (Z.of_nat n, e) /\
        events_loop vm (thread_ st) e 0 (ios x <$> seq 0 n) (now_ x) = Ok (Next, t, notes, outs) /\
        net_inv (outstanding (derived_ t)) t /\ notes_loop vm t notes (note_ios x) (now_ x) = Fault Dangling
  | Fault _ => True
  end.
Proof. by apply Run_turn_keeps. Qed.

Definition empty_thread : NetThreadBase (HttpPacket.HttpParser HttpPacket.request_sub) unit :=
  mkThread new_manager 10 new_memory true None tt.

(** The thread with two connections that were accepted. *)
Definition two_accepted : list accept_result := [Accepted 7 0 0; Accepted 8 0 0].

Definition two_conns : NetThreadBase (HttpPacket.HttpParser HttpPacket.request_sub) unit :=
  match _OnConnect (fun _ : unit => demo_methods) (fun _ => str "10.0.0.1") tt [empty_thread] two_accepted 5 with
  | Ok (_, [t]) => t
  | _ => empty_thread
  end.

(** The addresses of the two connections. *)
Definition addr (u : nat) : nat :=
  match items (pool_ (connection_manager_ two_conns)) !! u with Some (Some c) => this_ c | _ => 0 end.

(** Epoll reports that the first connection can be read and written, and that the second can be
    written; the peer of the first has sent its FIN, so that its read event deletes it. *)
Definition busy_turn : turn unit :=
  mkTurn [SocketEpoll.Ready [SocketEpoll.mkEvent (Z.lor SocketEpoll.EPOLLIN SocketEpoll.EPOLLOUT) (Z.of_nat (addr 1));
                             SocketEpoll.mkEvent SocketEpoll.EPOLLOUT (Z.of_nat (addr 2))]]
    (fun _ => mkIo [UnixSocket.ReadEof] [] tt) (fun _ => mkIo [] [] tt) 6.

Lemma two_conns_inv : net_inv [] two_conns.
Proof.
  destruct (OnConnect_takes (fun _ : unit => demo_methods) (fun _ => []) (fun _ => str "10.0.0.1") tt two_accepted 5 [empty_thread])
    as (ret & ts' & E & Hl & Hall); [done|vm_compute; reflexivity|..].
  - repeat constructor; try (vm_compute; discriminate); apply new_thread_inv.
  - repeat constructor.
  - vm_compute. apply NoDup_cons. split; [set_solver|]. apply NoDup_singleton.
  - intros fd t _ Ht (u & c & Hc & _). assert (t = empty_thread) as -> by set_solver.
    unfold conns, empty_thread in Hc. cbn [connection_manager_] in Hc. by rewrite live_new, lookup_empty in Hc.
  - destruct (Hall 0%nat empty_thread eq_refl) as (t' & Ht' & Hr & _). unfold two_conns. rewrite E.
    destruct ts' as [|t1 [|]]; [done| |done]. injection Ht' as ->. apply Hr.
Qed.

Lemma Run_turn_safe_witness :
  match Run_turn (fun _ : unit => demo_methods) (mkRun two_conns SocketEpoll.demo_epoll 3 0) busy_turn with
  | Ok (_, st', _) => net_inv [] (thread_ st') /\ live_count (items (pool_ (connection_manager_ (thread_ st')))) = 1%nat
  | Fault _ => False
  end.
Proof.
  pose proof (Run_turn_safe (fun _ : unit => demo_methods) (fun _ => []) (mkRun two_conns SocketEpoll.demo_epoll 3 0)
                busy_turn) as H.
  specialize (H two_conns_inv eq_refl).
  destruct (Run_turn _ _ _) as [[[g st'] o]|f] eqn:E; [split; [apply H|]|vm_compute in E; discriminate].
  - intros evs [= <-]. split_and!; [vm_compute; discriminate|vm_compute; lia| |vm_compute; reflexivity].
    split; [|apply (bool_decide_unpack _); vm_compute; exact I].
    apply Forall_cons. split; [|apply Forall_cons; split; [|constructor]]; right; right.
    + eexists 1%nat, _. split; [apply live_lookup_Some; vm_compute; reflexivity|reflexivity].
    + eexists 2%nat, _. split; [apply live_lookup_Some; vm_compute; reflexivity|reflexivity].
  - vm_compute in E. injection E as _ <- _. vm_compute. reflexivity.
Defined.

(** C30: When the listening socket is ready, [_OnConnect] returns, and every connection it accepts goes
    to the thread whose number is its descriptor modulo the number of threads: it is registered
    there, unless the thread has reached its limit. The threads stay consistent, keep the
    connections they had, and get no others. It holds as long as the limit of a thread is at most
    the 384 places its pool can really hold. *)
Theorem OnConnect_distributes {P D Env : Type} `{ParserLaws P} (vm : Env -> NetThreadMethods P D)
    (outstanding : D -> list nat) `{forall env, ThreadLaws (vm env) outstanding} (inet_ntop : Z -> bytes) (env : Env)
    (ts : list (NetThreadBase P D)) (l : list accept_result) (now : Z)
    (Hne : ts <> []) (Hlen : zlen ts < 2 ^ 32) (Hready : Forall (thread_ready outstanding) ts)
    (Hpos : Forall (fun fd => 0 < fd) (accepted l)) (Hnd : NoDup (accepted l))
    (Hnew : forall fd t, fd ∈ accepted l -> t ∈ ts -> ~ live_fd t fd) :
  exists ret ts', _OnConnect vm inet_ntop env ts l now = Ok (ret, ts') /\ length ts' = length ts /\
    forall j t, ts !! j = Some t -> exists t', ts' !! j = Some t' /\
      thread_ready outstanding t' /\
      (forall fd, live_fd t fd -> live_fd t' fd) /\
      (forall fd, live_fd t' fd -> live_fd t fd \/ fd ∈ accepted l /\ Z.to_nat (fd mod zlen ts) = j) /\
      (forall fd, fd ∈ accepted l -> Z.to_nat (fd mod zlen ts) = j ->
         live_fd t' fd \/ max_connections_ t <= CurrConnectionCnt (connection_manager_ t')).
Proof.
  destruct (OnConnect_takes vm outstanding inet_ntop env l now ts Hne Hlen Hready Hpos Hnd Hnew) as (ret & ts' & E & Hl & Hall).
  exists ret, ts'. split_and!; [done|done|]. intros j t Hj.
  destruct (Hall j t Hj) as (t' & Hj' & Hr & _ & _ & Hk & Hn & Ha). exists t'. split_and!; [done|done|done|..].
  - intros fd Hf. destruct (Hn fd Hf) as [|[? ?]%list_elem_of_filter]; auto.
  - intros fd Hf Hm. apply Ha. by apply list_elem_of_filter.
Qed.

Lemma OnConnect_distributes_witness :
  exists ret ts', _OnConnect (fun _ : unit => demo_methods) (fun _ => str "10.0.0.1") tt [empty_thread; empty_thread]
                    [Accepted 7 0 0; AcceptErr SocketEpoll.EINTR; Accepted 8 0 0] 5 = Ok (ret, ts') /\
    exists t', ts' !! 1%nat = Some t' /\ (live_fd t' 7 \/ 10 <= CurrConnectionCnt (connection_manager_ t')).
Proof.
  destruct (OnConnect_distributes (fun _ : unit => demo_methods) (fun _ => []) (fun _ => str "10.0.0.1") tt
    [empty_thread; empty_thread] [Accepted 7 0 0; AcceptErr SocketEpoll.EINTR; Accepted 8 0 0] 5)
    as (ret & ts' & E & _ & Hall); [done|vm_compute; reflexivity|..].
  - repeat constructor; try (vm_compute; discriminate); apply new_thread_inv.
  - repeat constructor.
  - vm_compute. apply NoDup_cons. split; [set_solver|]. apply NoDup_singleton.
  - intros fd t _ Ht (u & c & Hc & _). assert (t = empty_thread) as -> by set_solver.
    unfold conns, empty_thread in Hc. cbn [connection_manager_] in Hc. by rewrite live_new, lookup_empty in Hc.
  - exists ret, ts'. split; [done|]. destruct (Hall 1%nat empty_thread eq_refl) as (t' & Ht' & _ & _ & _ & H).
    exists t'. split; [done|]. apply H; [vm_compute; by left|reflexivity].
Defined.

(** A network thread survives only two waits that fail: at the third the loop ends although the
    thread is still to run, and nothing restarts it. An interruption by a signal counts as a
    failure: [EpollWait] does not store its error number, so that the test for [EINTR] in [Run]
    never succeeds. *)
Theorem Run_gives_up {P D Env : Type} `{ApplicationProtocolParser P} (vm : Env -> NetThreadMethods P D)
    (t : NetThreadBase P D) (e : SocketEpoll.SocketEpoll) (ts : Z) (x1 x2 x3 : turn Env) (xs : list (turn Env))
    (Hrun : running_ t = true) (Hfd : 0 < SocketEpoll.epoll_fd_ e)
    (He : SocketEpoll.errno_ e <> SocketEpoll.EINTR)
    (H1 : wait_fails x1) (H2 : wait_fails x2) (H3 : wait_fails x3) :
  (exists e', Run vm (mkRun t e 3 ts) [x1; x2] = Ok (false, mkRun t e' 1 ts, [])) /\
  (exists e', Run vm (mkRun t e 3 ts) (x1 :: x2 :: x3 :: xs) = Ok (true, mkRun t e' 0 ts, [])).
Proof.
  destruct (Run_fails_cons vm t e 3 ts x1 Hrun Hfd He H1) as (e1 & Hf1 & Hn1 & E1).
  destruct (Run_fails_cons vm t e1 2 ts x2 Hrun ltac:(lia) Hn1 H2) as (e2 & Hf2 & Hn2 & E2).
  destruct (Run_fails_cons vm t e2 1 ts x3 Hrun ltac:(lia) Hn2 H3) as (e3 & _ & _ & E3).
  change (1 <? 3) with true in E1. change (1 <? 2) with true in E2. change (1 <? 1) with false in E3.
  change (3 - 1) with 2 in E1. change (2 - 1) with 1 in E2. change (1 - 1) with 0 in E3.
  rewrite !E1, !E2. split; [|exists e3; apply E3]. exists e2. cbn [Run thread_]. by rewrite Hrun.
Qed.

Definition demo_turn : turn unit :=
  mkTurn (replicate 9 (SocketEpoll.WaitErr SocketEpoll.EINTR)) (fun _ => mkIo [] [] tt) (fun _ => mkIo [] [] tt) 0.

Definition demo_thread : NetThreadBase (HttpPacket.HttpParser HttpPacket.request_sub) unit :=
  mkThread ServerBase.demo_manager 10 new_memory true None tt.

Lemma Run_gives_up_witness :
  exists e', Run (fun _ : unit => demo_methods) (mkRun demo_thread SocketEpoll.demo_epoll 3 0)
               [demo_turn; demo_turn; demo_turn] = Ok (true, mkRun demo_thread e' 0 0, []).
Proof.
  destruct (Run_gives_up (fun _ : unit => demo_methods) demo_thread SocketEpoll.demo_epoll 0 demo_turn demo_turn demo_turn [])
    as [_ H]; [done|done|done|done|done|done|exact H].
Defined.

End EventLoop.
