(* ===== verification/WebServer.v ===== *)
(** * The web server (webserver.h, webserver.cc)

    Its configuration, the binding of workers to network threads, what a
    network thread does with a parsed packet, and the loop of a worker. The
    response a worker computes ([HandleImpl], [HandleOverload]) is a parameter
    here; the dispatcher provides it. Also the notification with which a worker
    has the network thread send, and the heartbeat of the main thread. *)
From stdpp Require Import gmap fin_maps.
From S2P Require Import Prelude CLib StrUtil AutoBuffer FirstLine HeaderField HttpPacket WebSocket MessageQueue.
From S2P Require Import UnixSocket SocketEpoll TcpConnection ServerBase YamlUtil YamlTheory ServerConfig.

Module WebServer.
#[local] Existing Instance TcpConnection.http_request_parser.
#[local] Existing Instance TcpConnection.websocket_parser.
#[local] Existing Instance TcpConnection.TConnectionType_eq_dec.
#[local] Existing Instance ServerBase.profile_connection.
#[local] Existing Instance ServerBase.profile_connection_laws.
#[local] Existing Instance TcpConnection.TApplicationProtocol_eq_dec.

(** ** Definitions *)

(** *** Configuration *)

Record ServerConfig := mkWebConfig {
  max_backlog : Z;
  worker_thread_cnt : Z;
  reverse_proxy_ip : bytes;
  reverse_proxy_port : Z;
  is_send_heartbeat : bool;
  heartbeat_period : Z
}.

Definition key_max_backlog : bytes := str "max_backlog".
Definition key_worker_thread_cnt : bytes := str "worker_thread_cnt".
Definition key_reverse_proxy : bytes := str "reverse_proxy".
Definition key_ip : bytes := str "ip".
Definition key_is_send_heartbeat : bytes := str "send_heartbeat".
Definition key_heartbeat_period : bytes := str "heartbeat_period".
Definition kConfigFile : bytes := str "webserverconf.yml".
Definition kDefaultHeartBeatPeriod : Z := 60.

Definition new_ServerConfig : ServerConfig := mkWebConfig 0 0 [] 0 false kDefaultHeartBeatPeriod.

(** A leaf of an object; the null pointer is dereferenced. *)
Definition obj_leaf (st : list YamlUtil.Node) (o : list nat) (k : bytes) : res bytes :=
  l ← YamlUtil.ValueObj_GetLeaf st o k;
  match l with Some d => Ok d | None => Fault Undefined end.

(** The assignments of the [try] block. *)
Definition read_config (st : list YamlUtil.Node) (e : ServerConfig) : res ServerConfig :=
  backlog ← YamlUtil.GetLeaf st key_max_backlog;
  workers ← YamlUtil.GetLeaf st key_worker_thread_cnt;
  o ← YamlUtil.GetYmlObj st key_reverse_proxy;
  ip ← obj_leaf st o key_ip;
  port ← obj_leaf st o ServerConfig.key_port;
  send ← obj_leaf st o key_is_send_heartbeat;
  period ← obj_leaf st o key_heartbeat_period;
  Ok (mkWebConfig (ServerConfig.write_int (max_backlog e) (YamlUtil.To_int backlog).2)
        (ServerConfig.write_int (worker_thread_cnt e) (YamlUtil.To_int workers).2)
        (YamlUtil.To_string ip).2 (YamlUtil.To_uint16 port).2 (YamlUtil.To_bool send).2
        (YamlUtil.To_int period).2).

(** [_CustomConfig]. A failed attempt leaves the configuration unfinished, so
    what it had assigned is dropped. [max_backlog < 0] compares unsigned
    numbers; the product is an [int]. The remainder that is only computed for a
    warning divides by the number of threads, which [Config] has checked. *)
Definition _CustomConfig (st : list YamlUtil.Node) (c : ServerConfig.ServerConfigBase) (e : ServerConfig)
    : res (bool * ServerConfig) :=
  match read_config st e with
  | Fault (Throw _) => Ok (false, e)
  | Fault f => Fault f
  | Ok e =>
      if worker_thread_cnt e <? 1 then Ok (false, e)
      else if ServerConfig.net_thread_cnt c =? 0 then Fault Undefined
      else if max_backlog e <? 0 then Ok (false, e)
      else if heartbeat_period e <? 30 then Ok (false, e)
      else
        let period := heartbeat_period e * 1000 in
        if 2 ^ 31 <=? period then Fault Undefined
        else Ok (true, mkWebConfig (max_backlog e) (worker_thread_cnt e) (reverse_proxy_ip e)
                         (reverse_proxy_port e) (is_send_heartbeat e) period)
  end.

Definition EpollLoopInterval (c : ServerConfig.ServerConfigBase) (e : ServerConfig) : res Z :=
  _ ← assert_ (ServerConfig.is_config_done c);
  Ok (if is_send_heartbeat e then heartbeat_period e else 30 * 1000).

(** *** Network threads *)

(** A connection speaks HTTP and may be upgraded to WebSocket. *)
Inductive web_parser :=
| WHttp (p : HttpPacket.HttpParser HttpPacket.request_sub)
| WWs (p : WebSocket.WebSocketParser).

#[export] Instance web_protocol_parser : TcpConnection.ApplicationProtocolParser web_parser := {
  TcpConnection.parser_DoParse := fun p b =>
    match p with
    | WHttp h => '(z, h) ← TcpConnection.parser_DoParse h b; Ok (z, WHttp h)
    | WWs w => '(z, w) ← TcpConnection.parser_DoParse w b; Ok (z, WWs w)
    end;
  TcpConnection.parser_IsErr := fun p =>
    match p with WHttp h => TcpConnection.parser_IsErr h | WWs w => TcpConnection.parser_IsErr w end;
  TcpConnection.parser_IsEnd := fun p =>
    match p with WHttp h => TcpConnection.parser_IsEnd h | WWs w => TcpConnection.parser_IsEnd w end;
  TcpConnection.parser_IsUpgrade := fun p =>
    match p with WHttp h => TcpConnection.parser_IsUpgrade h | WWs w => TcpConnection.parser_IsUpgrade w end;
  TcpConnection.parser_UpgradeTo := fun p =>
    match p with WHttp h => TcpConnection.parser_UpgradeTo h | WWs w => TcpConnection.parser_UpgradeTo w end;
  TcpConnection.parser_Protocol := fun p =>
    match p with WHttp h => TcpConnection.parser_Protocol h | WWs w => TcpConnection.parser_Protocol w end;
  TcpConnection.parser_Reset := fun p b =>
    match p with
    | WHttp h => let '(h, b) := TcpConnection.parser_Reset h b in (WHttp h, b)
    | WWs w => let '(w, b) := TcpConnection.parser_Reset w b in (WWs w, b)
    end;
  TcpConnection.renew_packet := fun p =>
    match p with
    | WHttp h => WHttp (TcpConnection.renew_packet h)
    | WWs w => WWs (TcpConnection.renew_packet w)
    end
}.

Abbreviation Conn := (TcpConnection.ConnectionProfile web_parser).
Abbreviation RecvContext := (TcpConnection.RecvContext web_parser).

(** The members [NetThread] adds; a worker is its number. *)
Record web_thread := mkWebThread {
  recv_queue_ : MessageQueue.ThreadSafeDeque RecvContext;
  max_backlog_ : Z;
  send_queue_ : MessageQueue.ThreadSafeDeque (option nat);
  workers_ : list nat
}.

Abbreviation NetThread := (ServerBase.NetThreadBase web_parser web_thread).

Definition kDefaultMaxBacklog : Z := 1024.

(** The default size of a queue. *)
Definition kQueueSize : Z := 10240.

Definition new_NetThread : NetThread :=
  ServerBase.mkThread ServerBase.new_manager 0 TcpConnection.new_memory false None
    (mkWebThread (MessageQueue.new_queue kQueueSize) kDefaultMaxBacklog (MessageQueue.new_queue kQueueSize) []).

Definition set_recv_queue (t : NetThread) (q : MessageQueue.ThreadSafeDeque RecvContext) : NetThread :=
  let d := ServerBase.derived_ t in
  ServerBase.set_derived t (mkWebThread q (max_backlog_ d) (send_queue_ d) (workers_ d)).

Definition set_send_queue (t : NetThread) (q : MessageQueue.ThreadSafeDeque (option nat)) : NetThread :=
  let d := ServerBase.derived_ t in
  ServerBase.set_derived t (mkWebThread (recv_queue_ d) (max_backlog_ d) q (workers_ d)).

Definition Backlog (t : NetThread) : Z := zlen (MessageQueue.container_ (recv_queue_ (ServerBase.derived_ t))).

Definition IsWorkerOverload (t : NetThread) : bool :=
  wrap64 (max_backlog_ (ServerBase.derived_ t) * 9) / 10 <? Backlog t.

Definition IsWorkerFullyLoad (t : NetThread) : bool := max_backlog_ (ServerBase.derived_ t) <=? Backlog t.

Definition SetMaxBacklog (t : NetThread) (backlog : Z) : NetThread :=
  let d := ServerBase.derived_ t in
  ServerBase.set_derived t (mkWebThread (recv_queue_ d) backlog (send_queue_ d) (workers_ d)).

Definition BindNewWorker (t : NetThread) (worker : nat) : NetThread :=
  let d := ServerBase.derived_ t in
  ServerBase.set_derived t (mkWebThread (recv_queue_ d) (max_backlog_ d) (send_queue_ d) (workers_ d ++ [worker])).

(** [OnStart]: a thread without workers is refused. *)
Definition OnStart (t : NetThread) : res unit :=
  assert_ (negb (bool_decide (workers_ (ServerBase.derived_ t) = []))).

Definition AfterConfig (c : ServerConfig.ServerConfigBase) (e : ServerConfig) : res (list NetThread) :=
  ts ← ServerConfig.SetNetThreadImpl c new_NetThread [];
  let ts := (fun t => SetMaxBacklog t (max_backlog e)) <$> ts in
  ServerConfig.base_AfterConfig ServerBase.SetMaxConnection c ts.

(** The loop of [SetWorker]: worker [i] goes to thread [i % net_thread_cnt]. *)
Fixpoint set_workers (n i : nat) (net_thread_cnt : nat) (ts : list NetThread) : list NetThread :=
  match n with
  | O => ts
  | S n' => set_workers n' (S i) net_thread_cnt (alter (fun t => BindNewWorker t i) (i mod net_thread_cnt)%nat ts)
  end.

Definition SetWorker (c : ServerConfig.ServerConfigBase) (e : ServerConfig) (ts : list NetThread)
    : res (list NetThread) :=
  _ ← assert_ (ServerConfig.is_config_done c);
  Ok (set_workers (Z.to_nat (worker_thread_cnt e)) O (Z.to_nat (ServerConfig.net_thread_cnt c)) ts).

(** *** Packets *)

Definition ConfigApplicationLayer (conn : Conn) : res Conn :=
  if bool_decide (TcpConnection.conn_type conn = TcpConnection.kAcceptFrom)
  then TcpConnection.ConfigApplicationLayer conn (WHttp HttpPacket.new_request)
  else Ok conn.

Definition UpgradeApplicationProtocol (conn : Conn) (recv_ctx : RecvContext) : res Conn :=
  let upgrade_to := TcpConnection.ProtocolUpgradeTo conn in
  if bool_decide (upgrade_to = TcpConnection.kWebSocket)
     && bool_decide (TcpConnection.application_protocol_ conn = TcpConnection.kHttp1_1)
     && bool_decide (TcpConnection.conn_type conn = TcpConnection.kAcceptFrom)
  then
    match TcpConnection.rc_application_packet recv_ctx with
    | Some (WHttp p) =>
        TcpConnection.ConfigApplicationLayer conn
          (WWs (WebSocket.new_parser WebSocket.new_packet (HttpPacket.headers_ p)))
    | _ => Fault AssertFailed
    end
  else Ok conn.

(** Whether the packet of the context is to be handed to a worker. A context
    without a packet is a null dereference. *)
Definition acceptable (recv_ctx : RecvContext) : res bool :=
  match TcpConnection.rc_application_packet recv_ctx with
  | Some (WWs p) =>
      Ok (negb (WebSocket.op_code_ (WebSocket.ws_packet_ p) =? WebSocket.kOpcodeConnectionClose))
  | Some (WHttp _) => Ok true
  | None => Fault Undefined
  end.

(** [HandleApplicationPacket]: whether the connection was deleted. The result
    of [push_back] is ignored. *)
Definition HandleApplicationPacket (recv_ctx : RecvContext) (t : NetThread) : res (bool * NetThread) :=
  let uid := Z.to_nat (TcpConnection.rc_tcp_connection_uid recv_ctx) in
  ok ← (if IsWorkerFullyLoad t then Ok false else acceptable recv_ctx);
  if ok : bool then
    let '(_, q) := MessageQueue.push_back (recv_queue_ (ServerBase.derived_ t)) recv_ctx in
    Ok (false, set_recv_queue t q)
  else
    t ← ServerBase.thread_DelConnection t uid;
    Ok (true, t).

(** *** Sending *)

(** [NotifySend]: the descriptor of the notifier is registered for writing,
    with the id of the notification as its data, and epoll reports it. *)
Definition NotifySend (t : NetThread) : NetThread :=
  ServerBase.set_notify t (Some TcpConnection.notification_send_).

Definition __IsNotifySend (note : SocketEpoll.Notification) : bool :=
  SocketEpoll.Notification_eqb note
    (SocketEpoll.new_Notification (Z.of_nat TcpConnection.notification_send_)).

Definition CheckNotification (dat : Z) : bool := __IsNotifySend (SocketEpoll.mkNotification dat).

(** The loop of [HandleSend], which does not wait for the queue: [ws] are the
    results of the [write]s, [EAGAIN] when there are no more. The message it
    logs reads the descriptor of the socket before the flag of the context is
    looked at. *)
Fixpoint send_loop (fuel : nat) (t : NetThread) (ws : list UnixSocket.write_result) (now : Z)
    : res (NetThread * list (nat * bytes)) :=
  match fuel with
  | O => Fault Hang
  | S fuel' =>
      match MessageQueue.pop_front_to (send_queue_ (ServerBase.derived_ t)) with
      | (None, _) => Ok (t, [])
      | (Some send_ctx, q) =>
          let t := set_send_queue t q in
          p ← from_option Ok (Fault Undefined) send_ctx;
          ctx ← from_option Ok (Fault Dangling) (TcpConnection.ctxs_ (ServerBase.memory_ t) !! p);
          _ ← ServerBase.socket_FD t ctx;
          '(_, t, out) ← ServerBase.TrySendAndMarkPendingIfUndone t send_ctx
                           (default (UnixSocket.WriteErr UnixSocket.EAGAIN) (head ws)) now;
          '(t, outs) ← send_loop fuel' t (tail ws) now;
          Ok (t, (p, out) :: outs)
      end
  end.

(** [HandleSend]: what each packet of the queue sent. *)
Definition HandleSend (t : NetThread) (ws : list UnixSocket.write_result) (now : Z)
    : res (NetThread * list (nat * bytes)) :=
  send_loop (S (length (MessageQueue.container_ (send_queue_ (ServerBase.derived_ t))))) t ws now.

Definition HandleNotification (dat : Z) (ws : list UnixSocket.write_result) (now : Z) (t : NetThread)
    : res (NetThread * list (nat * bytes)) :=
  if __IsNotifySend (SocketEpoll.mkNotification dat) then HandleSend t ws now else Ok (t, []).

Definition web_methods : ServerBase.NetThreadMethods web_parser web_thread :=
  {| ServerBase.ConfigApplicationLayer := ConfigApplicationLayer;
     ServerBase.UpgradeApplicationProtocol := UpgradeApplicationProtocol;
     ServerBase.HandleApplicationPacket := HandleApplicationPacket;
     ServerBase.CheckNotification := CheckNotification;
     ServerBase.HandleNotification := HandleNotification |}.

(** [OnStop]: the workers find their queue terminated; they are joined and
    deleted, and their pointers are not used again. *)
Definition OnStop (t : NetThread) : NetThread :=
  set_recv_queue t (MessageQueue.Terminate (recv_queue_ (ServerBase.derived_ t))).

(** *** The heartbeat *)

(** What the system does during [SendHeartbeat]: the results of [socket],
    [connect] and [write], and the time. [inet_addr] is the conversion of the
    text of an address. *)
Record heartbeat_io := mkHeartbeatIo {
  hb_inet_addr : bytes -> Z;
  hb_fd : Z;
  hb_connects : list Z;
  hb_write : UnixSocket.write_result;
  hb_now : Z
}.

(** [SendHeartbeat]: [Serialize] is the text of the protobuf message with the
    backlog and the port. What it sent, if it sent anything. *)
Definition SendHeartbeat (Serialize : Z -> Z -> bytes) (c : ServerConfig.ServerConfigBase) (e : ServerConfig)
    (ts : list NetThread) (x : heartbeat_io) : res (list NetThread * option bytes) :=
  if negb (ServerConfig.is_config_done c) then Ok (ts, None)
  else
    let backlog := fold_left (fun b t => wrap32 (b + Backlog t)) ts 0 in
    let ba := Serialize backlog (ServerConfig.port c) in
    match ts with
    | [] => Fault Undefined
    | net_thread :: ts' =>
        '(conn, net_thread) ← ServerBase.MakeConnection web_methods (hb_inet_addr x) net_thread (reverse_proxy_ip e)
                                (reverse_proxy_port e) (hb_now x) (hb_fd x) (hb_connects x);
        match conn with
        | None => Ok (net_thread :: ts', None)
        | Some uid =>
            '(_, net_thread) ← ServerBase.conn_MakeSendContext net_thread uid;
            '(p, net_thread) ← ServerBase.conn_MakeSendContext net_thread uid;
            ctx ← from_option Ok (Fault Dangling) (TcpConnection.ctxs_ (ServerBase.memory_ net_thread) !! p);
            b ← HttpPacket.request_Pack (reverse_proxy_ip e) (str "/") None ba (TcpConnection.sc_buffer ctx);
            let mem := TcpConnection.set_ctx (ServerBase.memory_ net_thread) p (TcpConnection.set_buffer ctx b) in
            '(_, net_thread, out) ←
              ServerBase.TrySendAndMarkPendingIfUndone (ServerBase.set_memory net_thread mem) (Some p) (hb_write x) (hb_now x);
            Ok (net_thread :: ts', Some out)
        end
    end.

Definition LoopingEpollWait (Serialize : Z -> Z -> bytes) (c : ServerConfig.ServerConfigBase) (e : ServerConfig)
    (ts : list NetThread) (x : heartbeat_io) : res (list NetThread * option bytes) :=
  if is_send_heartbeat e then SendHeartbeat Serialize c e ts x else Ok (ts, None).

(** *** Workers *)

Section Worker.
(** The handlers write the response into the buffer of [return_packet]; the
    result holds the messages they add to [packets_push_others]. *)
Context (HandleImpl HandleOverload : RecvContext -> TcpConnection.memory ->
           res (TcpConnection.memory * list (option nat))).

Abbreviation SendQueue := (MessageQueue.ThreadSafeDeque (option nat)).

(** How a turn of the loop of [WorkerThread::Run] ends: the worker sleeps in
    [pop_front_to], goes on with the next turn, or leaves the loop. *)
Inductive worker_next := Waiting | Running | Stopped.

Definition push_all (send_queue : SendQueue) (l : list (option nat)) : SendQueue :=
  fold_left (fun q r => (MessageQueue.push_back q r).2) l send_queue.

(** A turn of the loop. A context without a packet is a null dereference. *)
Definition worker_turn (t : NetThread) : res (worker_next * NetThread) :=
  let d := ServerBase.derived_ t in
  let left t := if MessageQueue.terminated_ (recv_queue_ (ServerBase.derived_ t)) then Stopped else Running in
  if negb (MessageQueue.wait_done (recv_queue_ d) 0) then Ok (Waiting, t)
  else
    match MessageQueue.pop_front_to (recv_queue_ d) with
    | (None, _) => Ok (left t, t)
    | (Some recv_ctx, q) =>
        let t := set_recv_queue t q in
        packet ← from_option Ok (Fault Undefined) (TcpConnection.rc_application_packet recv_ctx);
        match TcpConnection.parser_Protocol packet with
        | TcpConnection.kHttp1_1 | TcpConnection.kWebSocket =>
            '(mem, others) ← (if IsWorkerOverload t then HandleOverload recv_ctx (ServerBase.memory_ t)
                              else HandleImpl recv_ctx (ServerBase.memory_ t));
            let t := ServerBase.set_memory t mem in
            let return_packet := TcpConnection.rc_return_packet recv_ctx in
            let send_queue := (MessageQueue.push_back (send_queue_ (ServerBase.derived_ t)) return_packet).2 in
            let send_queue :=
              if decide (TcpConnection.parser_Protocol packet = TcpConnection.kWebSocket)
              then push_all send_queue others else send_queue in
            Ok (Running, NotifySend (set_send_queue t send_queue))
        | _ => Ok (left t, t)
        end
    end.

(** The turns a worker makes until it waits or stops. *)
Fixpoint worker_loop (fuel : nat) (t : NetThread) : res (worker_next * NetThread) :=
  match fuel with
  | O => Fault Hang
  | S fuel' =>
      '(next, t) ← worker_turn t;
      match next with
      | Running => worker_loop fuel' t
      | _ => Ok (next, t)
      end
  end.

End Worker.

(** ** Lemmas *)

Lemma set_workers_length (n i N : nat) (ts : list NetThread) :
  length (set_workers n i N ts) = length ts.
Proof. revert i ts. induction n as [|n IH]; intros i ts; [done|]. cbn [set_workers]. by rewrite IH, length_alter. Qed.

(** Nothing but the workers of a thread changes. *)
Lemma set_workers_only (n i N j : nat) (ts : list NetThread) (t : NetThread) :
  set_workers n i N ts !! j = Some t ->
  exists t0 w, ts !! j = Some t0 /\
    t = ServerBase.set_derived t0 (mkWebThread (recv_queue_ (ServerBase.derived_ t0)) (max_backlog_ (ServerBase.derived_ t0))
                                     (send_queue_ (ServerBase.derived_ t0)) w).
Proof.
  revert i ts. induction n as [|n IH]; intros i ts; cbn [set_workers].
  - intros Ht. exists t, (workers_ (ServerBase.derived_ t)). split; [done|]. by destruct t as [? ? ? ? ? []].
  - intros (t1 & w & Ht1 & ->)%IH. destruct (decide (j = i mod N)%nat) as [->|Hne].
    + rewrite list_lookup_alter_eq in Ht1. apply fmap_Some in Ht1 as (t0 & Ht0 & ->). by exists t0, w.
    + rewrite list_lookup_alter_ne in Ht1 by done. by exists t1, w.
Qed.

Abbreviation workers t := (workers_ (ServerBase.derived_ t)).

Lemma set_workers_spread (n i N : nat) (ts : list NetThread) (j : nat) (t : NetThread) :
  length ts = N -> ts !! j = Some t ->
  exists t', set_workers n i N ts !! j = Some t' /\
    workers t' = workers t ++ filter (fun k => (k mod N)%nat = j) (seq i n).
Proof.
  intros HN. revert i ts t HN. induction n as [|n IH]; intros i ts t HN Hj.
  { exists t. cbn. by rewrite app_nil_r. }
  cbn [set_workers seq].
  assert (exists t1, alter (fun t => BindNewWorker t i) (i mod N)%nat ts !! j = Some t1 /\
            workers t1 = workers t ++ (if decide ((i mod N)%nat = j) then [i] else [])) as (t1 & Ht1 & Hw).
  { destruct (decide ((i mod N)%nat = j)) as [<-|Hne].
    - rewrite list_lookup_alter_eq, Hj. by eexists.
    - rewrite list_lookup_alter_ne, Hj by done. exists t. by rewrite app_nil_r. }
  destruct (IH (S i) _ t1 ltac:(by rewrite length_alter) Ht1) as (t' & Ht' & Hw').
  exists t'. split; [done|]. rewrite Hw', Hw, <- app_assoc. f_equal. rewrite filter_cons.
  by destruct (decide ((i mod N)%nat = j)).
Qed.

(** Worker [j] is the first of thread [j]. *)
Lemma first_worker (W N j : nat) :
  (j < N)%nat -> filter (fun k => (k mod N)%nat = j) (seq 0 W) <> [] <-> (j < W)%nat.
Proof.
  intros Hj. split.
  - intros Hne. destruct (filter _ _) as [|k l] eqn:E; [done|].
    assert (k ∈ filter (fun k => (k mod N)%nat = j) (seq 0 W)) as Hk by (rewrite E; by left).
    apply list_elem_of_filter in Hk as [Hm Hk%elem_of_seq]. pose proof (Nat.Div0.mod_le k N). lia.
  - intros HW E. assert (j ∈ filter (fun k => (k mod N)%nat = j) (seq 0 W)) as Hin.
    { apply list_elem_of_filter. rewrite elem_of_seq, Nat.mod_small by lia. lia. }
    rewrite E in Hin. by apply not_elem_of_nil in Hin.
Qed.

(** Pushing into a queue that is not full. *)
Lemma push_back_room {T} (q : MessageQueue.ThreadSafeDeque T) (v : T) :
  zlen (MessageQueue.container_ q) <= MessageQueue.max_size_ q ->
  MessageQueue.push_back q v
  = (true, MessageQueue.mkQueue (MessageQueue.max_size_ q) (MessageQueue.container_ q ++ [v])
             (MessageQueue.terminated_ q)).
Proof.
  intros H. unfold MessageQueue.push_back.
  destruct (Z.ltb_spec (MessageQueue.max_size_ q) (zlen (MessageQueue.container_ q))); [lia|done].
Qed.

(** How many elements a queue can still take. *)
Definition room {T} (q : MessageQueue.ThreadSafeDeque T) : nat :=
  Z.to_nat (MessageQueue.max_size_ q + 1 - zlen (MessageQueue.container_ q)).

(** Of several elements, those that find room are queued. *)
Lemma push_all_fits (l : list (option nat)) (q : MessageQueue.ThreadSafeDeque (option nat)) :
  push_all q l = MessageQueue.mkQueue (MessageQueue.max_size_ q) (MessageQueue.container_ q ++ take (room q) l)
                   (MessageQueue.terminated_ q).
Proof.
  revert q. induction l as [|r l IH]; intros q; cbn [push_all fold_left].
  - rewrite take_nil, app_nil_r. by destruct q.
  - change (fold_left _ l ?q) with (push_all q l). rewrite IH. unfold MessageQueue.push_back, room.
    destruct (Z.ltb_spec (MessageQueue.max_size_ q) (zlen (MessageQueue.container_ q))); cbn.
    + by rewrite Z2Nat.nonpos, !take_0 by lia.
    + rewrite length_app, <- app_assoc. cbn. f_equal. f_equal.
      replace (Z.to_nat (MessageQueue.max_size_ q + 1 - zlen (MessageQueue.container_ q)))
        with (S (Z.to_nat (MessageQueue.max_size_ q + 1 - Z.of_nat (length (MessageQueue.container_ q) + 1)))) by lia.
      done.
Qed.

Lemma push_all_app (l k : list (option nat)) (q : MessageQueue.ThreadSafeDeque (option nat)) :
  push_all (push_all q l) k = push_all q (l ++ k).
Proof. unfold push_all. by rewrite fold_left_app. Qed.

(** The work on the packets in the queue, one after the other: the memory the
    handlers leave, and the messages queued for sending, in order. A packet is
    answered as overloaded when too many are left behind it; the answer to a
    WebSocket packet is followed by what its handler pushes to others. *)
Fixpoint responses (HandleImpl HandleOverload : RecvContext -> TcpConnection.memory ->
                      res (TcpConnection.memory * list (option nat)))
    (limit : Z) (l : list RecvContext) (mem : TcpConnection.memory) : res (TcpConnection.memory * list (option nat)) :=
  match l with
  | [] => Ok (mem, [])
  | x :: l' =>
      '(mem, others) ← (if limit <? zlen l' then HandleOverload x mem else HandleImpl x mem);
      '(mem, rs) ← responses HandleImpl HandleOverload limit l' mem;
      match TcpConnection.rc_application_packet x with
      | Some (WWs _) => Ok (mem, TcpConnection.rc_return_packet x :: others ++ rs)
      | Some (WHttp _) => Ok (mem, TcpConnection.rc_return_packet x :: rs)
      | None => Fault Undefined
      end
  end.

(** A turn on a queue that is neither empty nor terminated. *)
Lemma turn_answers HandleImpl HandleOverload (x : RecvContext) (l : list RecvContext) (rs : list (option nat))
    (t : NetThread) (mem' : TcpConnection.memory) :
  let limit := wrap64 (max_backlog_ (ServerBase.derived_ t) * 9) / 10 in
  let sends u := send_queue_ (ServerBase.derived_ u) in
  MessageQueue.container_ (recv_queue_ (ServerBase.derived_ t)) = x :: l ->
  MessageQueue.terminated_ (recv_queue_ (ServerBase.derived_ t)) = false ->
  responses HandleImpl HandleOverload limit (x :: l) (ServerBase.memory_ t) = Ok (mem', rs) ->
  exists r1 rs' t1,
    worker_turn HandleImpl HandleOverload t = Ok (Running, t1) /\
    responses HandleImpl HandleOverload limit l (ServerBase.memory_ t1) = Ok (mem', rs') /\
    recv_queue_ (ServerBase.derived_ t1)
    = MessageQueue.mkQueue (MessageQueue.max_size_ (recv_queue_ (ServerBase.derived_ t))) l false /\
    max_backlog_ (ServerBase.derived_ t1) = max_backlog_ (ServerBase.derived_ t) /\
    sends t1 = push_all (sends t) r1 /\ rs = r1 ++ rs' /\ r1 <> [] /\
    ServerBase.connection_manager_ t1 = ServerBase.connection_manager_ t /\
    ServerBase.epoll_notify_ t1 = Some TcpConnection.notification_send_.
Proof.
  intros limit sends Hq Ht Hrs. cbn [responses] in Hrs.
  apply bind_Ok in Hrs as ([mem1 others] & Hr & Hrs). apply bind_Ok in Hrs as ([mem2 rs'] & Hrs & E).
  destruct t as [m mc mem run nt [[ms q tm] mb sq ws]]. cbn in Hq, Ht, Hr, limit, sends. subst q tm.
  unfold worker_turn, IsWorkerOverload, Backlog, set_recv_queue, set_send_queue, ServerBase.set_derived. cbn.
  unfold limit in Hr. destruct (TcpConnection.rc_application_packet x) as [[p|p]|]; simplify_eq; cbn.
  - rewrite Hr. cbn. by eexists [_], rs', _.
  - rewrite Hr. cbn. by eexists (_ :: others), rs', _.
Qed.

(** ** Properties *)

(** A packet that closes its WebSocket: RFC 6455 gives the close frame the operation code 8. *)
Definition closes (packet : web_parser) : bool :=
  match packet with
  | WWs p => WebSocket.op_code_ (WebSocket.ws_packet_ p) =? 8
  | WHttp _ => false
  end.

(** C34: a parsed packet is never lost while the backlog limit is within the size of the queue: when the
    workers are fully loaded (the backlog has reached its limit) or the packet closes a WebSocket, its
    connection is deleted and the queue is unchanged; in every other case the packet is put at the end of
    the receive queue and no connection is touched. The return value says which. *)
Theorem HandleApplicationPacket_accounts (t : NetThread) (rc : RecvContext) (packet : web_parser) (c : Conn)
    (Hm : ServerBase.mgr_inv (ServerBase.connection_manager_ t))
    (Hc : ServerBase.live (ServerBase.connection_manager_ t) !! Z.to_nat (TcpConnection.rc_tcp_connection_uid rc)
          = Some c)
    (Hpacket : TcpConnection.rc_application_packet rc = Some packet)
    (Hlimit : max_backlog_ (ServerBase.derived_ t)
              <= MessageQueue.max_size_ (recv_queue_ (ServerBase.derived_ t)) + 1) :
  let queue u := MessageQueue.container_ (recv_queue_ (ServerBase.derived_ u)) in
  let conns u := ServerBase.live (ServerBase.connection_manager_ u) in
  let deleted := (max_backlog_ (ServerBase.derived_ t) <=? zlen (queue t)) || closes packet in
  exists t', HandleApplicationPacket rc t = Ok (deleted, t') /\
    ServerBase.mgr_inv (ServerBase.connection_manager_ t') /\
    if deleted then
      queue t' = queue t /\ conns t' = delete (Z.to_nat (TcpConnection.rc_tcp_connection_uid rc)) (conns t)
    else queue t' = queue t ++ [rc] /\ conns t' = conns t.
Proof.
  cbv zeta. unfold HandleApplicationPacket, IsWorkerFullyLoad, Backlog.
  assert (acceptable rc = Ok (negb (closes packet))) as Ha by (unfold acceptable; rewrite Hpacket; by destruct packet).
  destruct (Z.leb_spec (max_backlog_ (ServerBase.derived_ t)) (zlen (MessageQueue.container_ (recv_queue_ (ServerBase.derived_ t))))) as [Hf|Hf];
    [|rewrite Ha; destruct (closes packet)]; cbn [mbind res_bind orb negb].
  1,2: destruct (ServerBase.thread_del_inv t _ c Hm Hc) as (t' & -> & Hm' & Hl & _ & _ & Hd);
    exists t'; rewrite Hd; by auto.
  rewrite push_back_room by lia. eexists. split; [done|]. by cbn.
Qed.

(** C33: a worker whose handlers return on the packets that wait empties its queue in as many turns as
    there are packets and then waits for the next one; it handles each packet exactly once and in order, with the overload handler exactly when
    more than nine tenths of the backlog limit are still waiting behind it, and puts its answer in the send
    queue, followed by the messages a WebSocket handler pushes to other connections; as long as the send
    queue has room, that is: what finds it full is dropped, the room being the size of the queue and one.
    When it has handled anything the thread is notified. On a terminated queue it stops at once and
    takes nothing. *)
Theorem worker_answers HandleImpl HandleOverload (t : NetThread) (mem' : TcpConnection.memory)
    (rs : list (option nat))
    (Hrs : responses HandleImpl HandleOverload (wrap64 (max_backlog_ (ServerBase.derived_ t) * 9) / 10)
             (MessageQueue.container_ (recv_queue_ (ServerBase.derived_ t))) (ServerBase.memory_ t)
           = Ok (mem', rs)) :
  let sends u := MessageQueue.container_ (send_queue_ (ServerBase.derived_ u)) in
  let room := MessageQueue.max_size_ (send_queue_ (ServerBase.derived_ t)) + 1 - zlen (sends t) in
  exists next t',
    worker_loop HandleImpl HandleOverload (S (Z.to_nat (Backlog t))) t = Ok (next, t') /\
    if MessageQueue.terminated_ (recv_queue_ (ServerBase.derived_ t))
    then next = Stopped /\ t' = t
    else next = Waiting /\ MessageQueue.container_ (recv_queue_ (ServerBase.derived_ t')) = [] /\
         sends t' = sends t ++ take (Z.to_nat room) rs /\
         ServerBase.memory_ t' = mem' /\
         ServerBase.connection_manager_ t' = ServerBase.connection_manager_ t /\
         (rs <> [] -> ServerBase.epoll_notify_ t' = Some TcpConnection.notification_send_).
Proof.
  cbv zeta. unfold Backlog. rewrite Nat2Z.id.
  destruct (MessageQueue.terminated_ (recv_queue_ (ServerBase.derived_ t))) eqn:Ht.
  { exists Stopped, t. split; [|done]. cbn [worker_loop]. unfold worker_turn, MessageQueue.wait_done.
    rewrite Ht, orb_true_r. cbn [negb]. unfold MessageQueue.pop_front_to. rewrite Ht. by destruct (MessageQueue.container_ _). }
  enough (exists t', worker_loop HandleImpl HandleOverload
            (S (length (MessageQueue.container_ (recv_queue_ (ServerBase.derived_ t))))) t = Ok (Waiting, t') /\
            MessageQueue.container_ (recv_queue_ (ServerBase.derived_ t')) = [] /\
            send_queue_ (ServerBase.derived_ t') = push_all (send_queue_ (ServerBase.derived_ t)) rs /\
            ServerBase.memory_ t' = mem' /\ ServerBase.connection_manager_ t' = ServerBase.connection_manager_ t /\
            (rs <> [] -> ServerBase.epoll_notify_ t' = Some TcpConnection.notification_send_)) as (t' & E & H1 & H2 & H3 & H4 & H5).
  { exists Waiting, t'. rewrite H2, push_all_fits. by split_and!. }
  remember (MessageQueue.container_ (recv_queue_ (ServerBase.derived_ t))) as l eqn:Hl. symmetry in Hl.
  revert t rs Hl Ht Hrs. induction l as [|x l IH]; intros t rs Hl Ht Hrs.
  - cbn in Hrs. simplify_eq. exists t. cbn [length worker_loop]. unfold worker_turn, MessageQueue.wait_done.
    rewrite Hl, Ht. by split_and!.
  - destruct (turn_answers HandleImpl HandleOverload x l rs t mem' Hl Ht Hrs)
      as (r1 & rs' & t1 & Et & Hrs' & Hq & Hb & Hs & -> & Hne & Hc & Hn).
    destruct (IH t1 rs') as (t' & Hd & He & Hsend & Hmem & Hc' & Hn'); [by rewrite Hq|by rewrite Hq|by rewrite Hb|].
    exists t'. split.
    { change (length (x :: l)) with (S (length l)). rewrite <- Hd. cbn [worker_loop]. by rewrite Et. }
    rewrite Hsend, Hs, push_all_app, Hc', Hc. split_and!; try done. intros _.
    destruct rs' as [|]; [|by apply Hn']. revert Hd. destruct l as [|y l].
    + cbn [length worker_loop]. unfold worker_turn, MessageQueue.wait_done. rewrite Hq. cbn. by intros [= <-].
    + cbn [responses] in Hrs'. res_inv. destruct a as [? ?]. res_inv. destruct a as [? ?].
      destruct (TcpConnection.rc_application_packet y) as [[]|]; by simplify_eq.
Qed.

(** [SetWorker] gives thread [j] exactly the workers [i] with [i mod n = j] for [n] threads; and
    all threads can start exactly when there are at least as many workers as threads: with fewer,
    a configuration that [_CustomConfig] accepts, the assertion of [OnStart] ends the process. *)
Theorem SetWorker_spread (c : ServerConfig.ServerConfigBase) (e : ServerConfig) (ts : list NetThread)
    (Hdone : ServerConfig.is_config_done c = true) (Hn : ServerConfig.net_thread_cnt c = zlen ts)
    (Hpos : ts <> []) (Hnew : Forall (fun t => workers t = []) ts) (Hw : 0 <= worker_thread_cnt e) :
  exists ts', SetWorker c e ts = Ok ts' /\ length ts' = length ts /\
    (forall j t, ts' !! j = Some t ->
       workers t = filter (fun i => (i mod length ts)%nat = j) (seq 0 (Z.to_nat (worker_thread_cnt e)))) /\
    (Forall (fun t => OnStart t = Ok tt) ts' <-> zlen ts <= worker_thread_cnt e).
Proof.
  unfold SetWorker. rewrite Hdone. cbn [assert_ mbind res_bind]. rewrite Hn, Nat2Z.id.
  set (W := Z.to_nat (worker_thread_cnt e)). set (ts' := set_workers W 0 (length ts) ts).
  assert (forall j t, ts' !! j = Some t ->
            workers t = filter (fun i => (i mod length ts)%nat = j) (seq 0 W)) as Hsp.
  { intros j t Ht. pose proof (lookup_lt_Some _ _ _ Ht) as Hl. unfold ts' in Hl. rewrite set_workers_length in Hl.
    destruct (lookup_lt_is_Some_2 ts j Hl) as [t0 Ht0].
    destruct (set_workers_spread W 0 (length ts) ts j t0 eq_refl Ht0) as (t1 & Ht1 & Hw1).
    rewrite Forall_lookup in Hnew. rewrite (Hnew j t0 Ht0) in Hw1. unfold ts' in Ht. by simplify_eq. }
  exists ts'. split_and!; [done|apply set_workers_length|done|]. rewrite Forall_lookup.
  assert (length ts' = length ts) as Hlen by apply set_workers_length.
  assert (forall j t, ts' !! j = Some t -> OnStart t = Ok tt <-> (j < W)%nat) as Hst.
  { intros j t Ht. pose proof (lookup_lt_Some _ _ _ Ht) as Hl. rewrite Hlen in Hl.
    rewrite <- (first_worker W (length ts) j Hl), <- (Hsp j t Ht). unfold OnStart.
    rewrite assert_Ok, negb_true_iff, bool_decide_eq_false. done. }
  split.
  - intros H. assert (0 < length ts)%nat as H0 by (by destruct ts; [|simpl; lia]).
    destruct (lookup_lt_is_Some_2 ts' (length ts - 1)) as [t Ht]; [lia|].
    pose proof (H _ _ Ht) as Hok. apply (Hst _ _ Ht) in Hok. unfold W in Hok. lia.
  - intros Hle j t Ht. apply (Hst j t Ht). pose proof (lookup_lt_Some _ _ _ Ht). unfold W. lia.
Qed.

(** *** A thread with one connection *)

Definition demo_config : ServerConfig.ServerConfigBase := ServerConfig.mkConfig 5002 3 100 true.

Definition demo_conn : Conn := TcpConnection.new_ConnectionProfile TcpConnection.kAcceptFrom (str "10.0.0.7") 4711 0 0 3.

Definition demo_manager : ServerBase.ConnectionManager Conn :=
  match ServerBase.AddConnection ServerBase.new_manager demo_conn with
  | Ok (_, m) => m
  | Fault _ => ServerBase.new_manager
  end.

Lemma web_manager_inv : ServerBase.mgr_inv demo_manager.
Proof.
  destruct (ServerBase.mgr_do_simulates ServerBase.new_manager (ServerBase.OpAdd demo_conn)
              ServerBase.new_manager_inv) as (m & E & Hm & _).
  { split; [rewrite ServerBase.live_new; vm_compute; lia|]. intros u c E.
    by rewrite ServerBase.live_new, lookup_empty in E. }
  assert (m = demo_manager) as <-; [|done].
  revert E. cbn [ServerBase.mgr_do]. unfold demo_manager.
  destruct (ServerBase.AddConnection ServerBase.new_manager demo_conn) as [[? ?]|]; cbn; congruence.
Qed.

Definition demo_thread (waiting : list RecvContext) : NetThread :=
  ServerBase.mkThread demo_manager 10 TcpConnection.new_memory true None
    (mkWebThread (MessageQueue.mkQueue kQueueSize waiting false) 1024 (MessageQueue.new_queue kQueueSize) [O]).

Definition demo_ctx (fd : Z) : RecvContext :=
  TcpConnection.mkRecvContext 1 fd (str "10.0.0.7") 4711 TcpConnection.kAcceptFrom
    (Some (WHttp HttpPacket.new_request)) (Some 1%nat).

Definition demo_ws_ctx (fd : Z) : RecvContext :=
  TcpConnection.mkRecvContext 1 fd (str "10.0.0.7") 4711 TcpConnection.kAcceptFrom
    (Some (WWs (WebSocket.new_parser WebSocket.AllocNewPacket []))) (Some 1%nat).

(** A packet that closes its WebSocket. *)
Definition closing_ctx : RecvContext :=
  TcpConnection.mkRecvContext 1 5 (str "10.0.0.7") 4711 TcpConnection.kAcceptFrom
    (Some (WWs (WebSocket.new_parser (WebSocket.SetFirstByte WebSocket.AllocNewPacket 136) []))) (Some 1%nat).

Lemma HandleApplicationPacket_accounts_witness :
  exists t1 t2, HandleApplicationPacket (demo_ctx 5) (demo_thread [demo_ctx 4]) = Ok (false, t1) /\
    HandleApplicationPacket closing_ctx (demo_thread [demo_ctx 4]) = Ok (true, t2) /\
    MessageQueue.container_ (recv_queue_ (ServerBase.derived_ t1)) = [demo_ctx 4; demo_ctx 5] /\
    ServerBase.live (ServerBase.connection_manager_ t2) = delete 1%nat (ServerBase.live demo_manager).
Proof.
  assert (ServerBase.live demo_manager !! 1%nat = Some (TcpConnection.SetUid demo_conn 1)) as Hc
    by (apply ServerBase.live_lookup_Some; vm_compute; reflexivity).
  destruct (HandleApplicationPacket_accounts (demo_thread [demo_ctx 4]) (demo_ctx 5) (WHttp HttpPacket.new_request)
              (TcpConnection.SetUid demo_conn 1) web_manager_inv Hc eq_refl) as (t1 & E1 & _ & H1); [vm_compute; discriminate|].
  destruct (HandleApplicationPacket_accounts (demo_thread [demo_ctx 4]) closing_ctx
              (WWs (WebSocket.new_parser (WebSocket.SetFirstByte WebSocket.AllocNewPacket 136) []))
              (TcpConnection.SetUid demo_conn 1) web_manager_inv Hc eq_refl) as (t2 & E2 & _ & H2); [vm_compute; discriminate|].
  exists t1, t2. split; [exact E1|]. split; [exact E2|]. split; [apply H1|apply H2].
Defined.

(** A send queue with room for three messages. *)
Definition narrow_thread (waiting : list RecvContext) : NetThread :=
  set_send_queue (demo_thread waiting) (MessageQueue.mkQueue 2 [] false).

Lemma worker_answers_witness :
  exists next t',
    worker_loop (fun _ m => Ok (m, [Some 9%nat])) (fun _ m => Ok (m, [])) 4
      (narrow_thread [demo_ctx 4; demo_ws_ctx 5; demo_ctx 6]) = Ok (next, t') /\
    next = Waiting /\ MessageQueue.container_ (recv_queue_ (ServerBase.derived_ t')) = [] /\
    MessageQueue.container_ (send_queue_ (ServerBase.derived_ t')) = [Some 1; Some 1; Some 9]%nat.
Proof.
  destruct (worker_answers (fun _ m => Ok (m, [Some 9%nat])) (fun _ m => Ok (m, []))
              (narrow_thread [demo_ctx 4; demo_ws_ctx 5; demo_ctx 6]) TcpConnection.new_memory
              [Some 1; Some 1; Some 9; Some 1]%nat) as (next & t' & E & H1 & H2 & H3 & _);
    [done|by exists next, t'].
Defined.

(** The text of a configuration document gives the web server the backlog limit and the number
    of workers it names, modulo 2^32, its reverse proxy, and the heartbeat period in milliseconds;
    periods below 30 seconds and missing workers are refused, negative backlogs are not. *)
Theorem CustomConfig_reads (st : list YamlUtil.Node) (d : YamlTheory.doc) (c : ServerConfig.ServerConfigBase)
    (fs : list YamlTheory.field) (tb tw ip port send period : bytes)
    (Hd : YamlTheory.read_doc st = Some d)
    (Hb : YamlTheory.lookup_item d key_max_backlog = Some (YamlTheory.ILeaf tb))
    (Hw : YamlTheory.lookup_item d key_worker_thread_cnt = Some (YamlTheory.ILeaf tw))
    (Hr : YamlTheory.lookup_item d key_reverse_proxy = Some (YamlTheory.IObj fs))
    (Hip : YamlTheory.lookup_field fs key_ip = Some ip)
    (Hport : YamlTheory.lookup_field fs ServerConfig.key_port = Some port)
    (Hsend : YamlTheory.lookup_field fs key_is_send_heartbeat = Some send)
    (Hperiod : YamlTheory.lookup_field fs key_heartbeat_period = Some period)
    (Hmax : to_int (strtol period) < 2147484) (Hc : 1 <= ServerConfig.net_thread_cnt c) :
  exists ok e, _CustomConfig st c new_ServerConfig = Ok (ok, e) /\
    (ok = true <-> 1 <= wrap32 (strtol tw) /\ 30 <= to_int (strtol period)) /\
    (ok = true ->
       e = mkWebConfig (wrap32 (strtol tb)) (wrap32 (strtol tw)) ip (wrap16 (strtol port))
             (bool_decide (send = str "true")) (to_int (strtol period) * 1000)).
Proof.
  destruct (YamlTheory.GetYmlObj_read st d _ fs Hd Hr) as (o & Ho & Hf).
  assert (read_config st new_ServerConfig
          = Ok (mkWebConfig (wrap32 (strtol tb)) (wrap32 (strtol tw)) ip (wrap16 (strtol port))
                  (bool_decide (send = str "true")) (to_int (strtol period)))) as Hrc.
  { unfold read_config, obj_leaf. rewrite (ServerConfig.leaf_read st d _ _ Hd Hb), (ServerConfig.leaf_read st d _ _ Hd Hw), Ho.
    cbn [mbind res_bind]. rewrite !Hf. unfold YamlTheory.field_of. rewrite Hip, Hport, Hsend, Hperiod.
    cbn [mbind res_bind new_ServerConfig max_backlog worker_thread_cnt].
    rewrite !ServerConfig.write_int_0. unfold YamlUtil.To_int, YamlUtil.To_uint16, YamlUtil.To_string, YamlUtil.To_bool.
    cbn [snd]. rewrite !ServerConfig.wrap32_to_int. by case_bool_decide. }
  unfold _CustomConfig. rewrite Hrc.
  cbn [worker_thread_cnt max_backlog heartbeat_period reverse_proxy_ip reverse_proxy_port is_send_heartbeat].
  destruct (Z.ltb_spec (wrap32 (strtol tw)) 1).
  { eexists false, _. split; [done|]. split; [|done]. split; [done|lia]. }
  destruct (Z.eqb_spec (ServerConfig.net_thread_cnt c) 0); [lia|].
  destruct (Z.ltb_spec (wrap32 (strtol tb)) 0) as [Hneg|_].
  { unfold wrap32 in Hneg. pose proof (Z.mod_pos_bound (strtol tb) (2 ^ 32)). lia. }
  destruct (Z.ltb_spec (to_int (strtol period)) 30).
  { eexists false, _. split; [done|]. split; [|done]. split; [done|lia]. }
  destruct (Z.leb_spec (2 ^ 31) (to_int (strtol period) * 1000)); [lia|].
  eexists true, _. split; [done|]. split; [|done]. split; [lia|done].
Qed.

Definition demo_fields : list YamlTheory.field :=
  [(key_ip, str "127.0.0.1"); (ServerConfig.key_port, str "80"); (key_is_send_heartbeat, str "true");
   (key_heartbeat_period, str "600")].

Definition demo_doc : YamlTheory.doc :=
  [(key_max_backlog, YamlTheory.ILeaf (str "-5")); (key_worker_thread_cnt, YamlTheory.ILeaf (str "4"));
   (key_reverse_proxy, YamlTheory.IObj demo_fields)].

Definition demo_tree : list YamlUtil.Node :=
  YamlTheory.R (str "w.yml") (YamlTheory.doc_places 1 demo_doc) :: YamlTheory.doc_nodes 1 demo_doc.

Lemma CustomConfig_reads_witness :
  exists e, _CustomConfig demo_tree demo_config new_ServerConfig = Ok (true, e) /\ max_backlog e = 2 ^ 32 - 5.
Proof.
  destruct (CustomConfig_reads demo_tree demo_doc demo_config demo_fields (str "-5") (str "4") (str "127.0.0.1")
              (str "80") (str "true") (str "600")) as (ok & e & E & Hok & He);
    try (vm_compute; (reflexivity || discriminate)).
  destruct Hok as [_ Hok]. rewrite Hok in E by (vm_compute; split; discriminate).
  exists e. split; [done|]. rewrite He; [vm_compute; reflexivity|].
  apply Hok. vm_compute; split; discriminate.
Defined.

Lemma SetWorker_spread_witness :
  exists ts', SetWorker demo_config (mkWebConfig 10 7 [] 0 false 60000) (replicate 3 new_NetThread) = Ok ts' /\
    Forall (fun t => OnStart t = Ok tt) ts'.
Proof.
  destruct (SetWorker_spread demo_config (mkWebConfig 10 7 [] 0 false 60000) (replicate 3 new_NetThread))
    as (ts' & E & _ & _ & H); [done|done|done|by repeat constructor|simpl; lia|].
  exists ts'. split; [done|]. apply H. vm_compute. discriminate.
Defined.

(** *** The shipped configuration *)

Definition webserverconf : bytes := str "# The port on which the server process listens.
port: 5002

# Number of threads who handles network events,
# by default one NetThread corresponds to one WorkerThread.
net_thread_cnt: 4

# Number of threads who handles upper level business logic.
worker_thread_cnt: 4

# Max connections at the same time.
max_connections: 10000

# The maximum backlog of waiting queue (who holds parsed HTTP packets
# but have not yet been processed by the worker thread).
max_backlog: 4096


# WebServer will send registration information to LoadBalancer
# at startup, and then send heartbeats periodically.
reverse_proxy:
  ip: 127.0.0.1
  port: 80
  send_heartbeat: true    # whether to send heartbeat to reverse proxy.
  heartbeat_period: 600    # in seconds.

".

Definition limits (t : NetThread) : Z * Z :=
  (ServerBase.max_connections_ t, max_backlog_ (ServerBase.derived_ t)).

(** The configuration of the repository makes four threads of 2500 connections. *)
Example web_shipped_config :
  ('(ts, _) ← ServerConfig.Config _CustomConfig AfterConfig kConfigFile [] (Some webserverconf) 1
                new_ServerConfig 3 0;
   Ok (map limits ts))
  = Ok (replicate 4 (2500, 4096)).
Proof. vm_compute. reflexivity. Qed.

End WebServer.
