(* ===== verification/ThreadLife.v ===== *)
(** * The life of a network thread (utils/thread.cc, serverbase.cc, webserver.cc)

    A network thread of the web server, its workers and the main thread run
    side by side. Their steps, at the grain of the operations that synchronize
    them: [Thread::Start] and [Entry], the turns of [Run] with [HandleSend], the
    turns of the workers with [NotifySend], and [NotifyStop]. One descriptor
    carries all notifications, so that a later one replaces an earlier one that
    epoll has not reported. *)
From stdpp Require Import gmap relations.
From S2P Require Import Prelude CLib AutoBuffer HttpPacket WebSocket MessageQueue UnixSocket SocketEpoll TcpConnection.
From S2P Require Import ServerBase EventLoop WebServer.

Module ThreadLife.
Import TcpConnection ServerBase WebServer.

(** ** Definitions *)

(** Where the network thread is: not started, in [Entry] before the flag is set,
    at the head of its loop, in [EpollWait], after it with a notification or
    without, in the loop of [HandleSend], after the loop of [Run], joining its
    workers, at its end. [retry] is the variable [epoll_retry] of [Run]. *)
Inductive net_place :=
| NotStarted
| Entering
| Looping (retry : nat)
| Waiting (retry : nat)
| Handling (retry : nat) (note : option nat)
| Draining (retry : nat)
| Leaving
| Joining
| Ended.

(** The notification the thread is about to handle; whether it is in the loop of
    [HandleSend]; whether it is in [EpollWait]. *)
Definition note_of (n : net_place) : option nat := match n with Handling _ k => k | _ => None end.
Definition draining (n : net_place) : bool := match n with Draining _ => true | _ => false end.
Definition waiting (n : net_place) : bool := match n with Waiting _ => true | _ => false end.

(** Where a worker is: waiting for a packet, with these responses still to queue
    before its [NotifySend], at its end. *)
Inductive worker_place := WIdle | WSending (responses : list (option nat)) | WEnded.

#[export] Instance worker_place_eq_dec : EqDecision worker_place.
Proof. solve_decision. Defined.

(** Where the main thread is with [NotifyStop] of this thread. *)
Inductive main_place := MServing | MStopping | MStopped.

Record life := mkLife {
  thr : NetThread;
  net : net_place;
  workers : list worker_place;
  main : main_place
}.

Definition sends (t : NetThread) : list (option nat) := MessageQueue.container_ (send_queue_ (derived_ t)).

(** [Thread::Start], and what [Entry] does before [Run]. *)
Definition Start (t : NetThread) : NetThread := set_running t true.
Definition Entry_start (t : NetThread) : NetThread := set_running t true.

(** What [Entry] does after [Run]; the workers are joined in the step after. *)
Definition Entry_finish (t : NetThread) : NetThread := OnStop (set_running t false).

(** The two halves of [NotifyStop]. *)
Definition clear_running (t : NetThread) : NetThread := set_running t false.
Definition notify_stop (t : NetThread) : NetThread := set_notify t (Some notification_stop_).

(** What handling events, timeouts and packets leaves alone. *)
Definition same_signals (t t' : NetThread) : Prop :=
  send_queue_ (derived_ t') = send_queue_ (derived_ t) /\ running_ t' = running_ t /\
  epoll_notify_ t' = epoll_notify_ t.

(** What sending and registering leave alone: flag, notification and queues. *)
Definition quiet (t t' : NetThread) : Prop :=
  derived_ t' = derived_ t /\ running_ t' = running_ t /\ epoll_notify_ t' = epoll_notify_ t.

(** The steps of the network thread. [EpollWait] returns with the notification,
    with other events or none (at the latest after ten seconds), or fails; what
    it reports it will not report again. A failure that is not an interruption
    counts, and the third one ends the loop. An exception that leaves [Run] is
    caught in [Entry], which clears the flag and goes on to [OnStop]
    ([HandleException] only logs). *)
Inductive net_step (ws : list worker_place) : NetThread -> net_place -> NetThread -> net_place -> Prop :=
| net_enter t : net_step ws t Entering (Entry_start t) (Looping 3)
| net_loop t r : running_ t = true -> net_step ws t (Looping r) t (Waiting r)
| net_leave t r : running_ t = false -> net_step ws t (Looping r) t Leaving
| net_notified t r n : epoll_notify_ t = Some n -> net_step ws t (Waiting r) (set_notify t None) (Handling r (Some n))
| net_woken t r : net_step ws t (Waiting r) t (Handling r None)
| net_interrupted t r : net_step ws t (Waiting r) t (Looping r)
| net_fails t r : (1 < r)%nat -> net_step ws t (Waiting r) t (Looping (r - 1))
| net_gives_up t r : (r <= 1)%nat -> net_step ws t (Waiting r) t Leaving
| net_stop t t' r :
    same_signals t t' -> net_step ws t (Handling r (Some notification_stop_)) (set_running t' false) Leaving
| net_send t t' r : same_signals t t' -> net_step ws t (Handling r (Some notification_send_)) t' (Draining r)
| net_events t t' r : same_signals t t' -> net_step ws t (Handling r None) t' (Looping r)
| net_pop t r c q t' :
    MessageQueue.pop_front_to (send_queue_ (derived_ t)) = (Some c, q) -> quiet (set_send_queue t q) t' ->
    net_step ws t (Draining r) t' (Draining r)
| net_drained t r q :
    MessageQueue.pop_front_to (send_queue_ (derived_ t)) = (None, q) -> net_step ws t (Draining r) t (Looping r)
| net_finish t : net_step ws t Leaving (Entry_finish t) Joining
| net_joined t : Forall (eq WEnded) ws -> net_step ws t Joining t Ended
| net_throws t t' r k : same_signals t t' -> net_step ws t (Handling r k) (set_running t' false) Leaving
| net_throws_sending t t' r : same_signals t t' -> net_step ws t (Draining r) (set_running t' false) Leaving.

(** The steps of a worker; the packet it takes was queued by the network thread,
    and a WebSocket packet may have responses for other connections too. A
    handler that throws ends the worker: [Entry] catches the exception. *)
Inductive worker_step : NetThread -> worker_place -> NetThread -> worker_place -> Prop :=
| worker_take t rc q others :
    MessageQueue.pop_front_to (recv_queue_ (derived_ t)) = (Some rc, q) ->
    worker_step t WIdle (set_recv_queue t q) (WSending (rc_return_packet rc :: others))
| worker_throws t rc q :
    MessageQueue.pop_front_to (recv_queue_ (derived_ t)) = (Some rc, q) ->
    worker_step t WIdle (set_recv_queue t q) WEnded
| worker_push t r rs :
    worker_step t (WSending (r :: rs))
      (set_send_queue t (MessageQueue.push_back (send_queue_ (derived_ t)) r).2) (WSending rs)
| worker_notify t : worker_step t (WSending []) (NotifySend t) WIdle
| worker_end t :
    MessageQueue.terminated_ (recv_queue_ (derived_ t)) = true -> worker_step t WIdle t WEnded.

Inductive life_step : life -> life -> Prop :=
| step_start t ws m : life_step (mkLife t NotStarted ws m) (mkLife (Start t) Entering ws m)
| step_net t n t' n' ws m : net_step ws t n t' n' -> life_step (mkLife t n ws m) (mkLife t' n' ws m)
| step_worker t n ws i w t' w' m :
    ws !! i = Some w -> worker_step t w t' w' ->
    life_step (mkLife t n ws m) (mkLife t' n (<[i := w']> ws) m)
| step_stop t n ws : n <> NotStarted -> life_step (mkLife t n ws MServing) (mkLife (clear_running t) n ws MStopping)
| step_stopped t n ws : life_step (mkLife t n ws MStopping) (mkLife (notify_stop t) n ws MStopped).

(** The steps of a network thread and its workers alone. *)
Inductive own_step : life -> life -> Prop :=
| own_net t n t' n' ws m : net_step ws t n t' n' -> own_step (mkLife t n ws m) (mkLife t' n' ws m)
| own_worker t n ws i w t' w' m :
    ws !! i = Some w -> worker_step t w t' w' -> own_step (mkLife t n ws m) (mkLife t' n (<[i := w']> ws) m).

(** Before the server starts. *)
Definition initial (s : life) : Prop :=
  net s = NotStarted /\ main s = MServing /\ Forall (eq WIdle) (workers s) /\ sends (thr s) = [] /\
  MessageQueue.terminated_ (send_queue_ (derived_ (thr s))) = false /\ epoll_notify_ (thr s) = None.

(** ** Lemmas *)

(** The two halves make [NotifyStop]. *)
Lemma NotifyStop_halves (t : NetThread) : notify_stop (clear_running t) = EventLoop.NotifyStop t.
Proof. done. Qed.

(** *** Responses are not forgotten *)

(** Where a queued response will be noticed: a worker has still to notify, the
    notification is pending, or the thread is on its way to the queue. *)
Definition noticed (s : life) : Prop :=
  (exists i rs, workers s !! i = Some (WSending rs)) \/ epoll_notify_ (thr s) = Some notification_send_ \/
  note_of (net s) = Some notification_send_ \/ draining (net s) = true.

Definition in_loop (n : net_place) : Prop := n <> Leaving /\ n <> Joining /\ n <> Ended.

Record send_inv (s : life) : Prop := {
  si_open : MessageQueue.terminated_ (send_queue_ (derived_ (thr s))) = false;
  si_note : main s <> MStopped -> epoll_notify_ (thr s) = None \/ epoll_notify_ (thr s) = Some notification_send_;
  si_handling : forall n, main s <> MStopped -> note_of (net s) = Some n -> n = notification_send_;
  si_noticed : main s <> MStopped -> in_loop (net s) -> sends (thr s) <> [] -> noticed s
}.

Lemma initial_inv (s : life) : initial s -> send_inv s.
Proof. intros (Hn & Hm & Hw & Hs & Ht & He). split; [done|by left|intros n _; by rewrite Hn|congruence]. Qed.

Lemma pop_front_None {T} (q q' : MessageQueue.ThreadSafeDeque T) :
  MessageQueue.terminated_ q = false -> MessageQueue.pop_front_to q = (None, q') -> MessageQueue.container_ q = [].
Proof. unfold MessageQueue.pop_front_to. intros ->. by destruct (MessageQueue.container_ q). Qed.

Lemma pop_front_open {T} (q q' : MessageQueue.ThreadSafeDeque T) (x : option T) :
  MessageQueue.pop_front_to q = (x, q') -> MessageQueue.terminated_ q' = MessageQueue.terminated_ q.
Proof.
  unfold MessageQueue.pop_front_to. destruct (MessageQueue.container_ q), (MessageQueue.terminated_ q) eqn:E;
    intros [= <- <-]; cbn; congruence.
Qed.

Lemma push_back_open {T} (q : MessageQueue.ThreadSafeDeque T) (x : T) :
  MessageQueue.terminated_ (MessageQueue.push_back q x).2 = MessageQueue.terminated_ q.
Proof. unfold MessageQueue.push_back. by case_match. Qed.

(** A step of the network thread that keeps the pending notification and lets the
    queue at most shrink leaves a waiting response noticed. *)
Lemma noticed_stays t n t' n' ws m :
  (noticed (mkLife t n ws m) -> epoll_notify_ t' = epoll_notify_ t) -> note_of n <> Some notification_send_ ->
  draining n = false -> noticed (mkLife t n ws m) -> noticed (mkLife t' n' ws m).
Proof. intros He H1 H2 H. pose proof (He H) as Heq. destruct H as [H|[H|[H|H]]]; cbn in *; [by left| |congruence..].
  right. left. cbn. congruence. Qed.

Lemma net_step_inv t n t' n' ws m :
  net_step ws t n t' n' -> send_inv (mkLife t n ws m) -> send_inv (mkLife t' n' ws m).
Proof.
  intros Hstep [Ho Hn Hh Hq]. cbn in *. unfold in_loop, sends in *. cbn in *.
  destruct Hstep as [t|t r Hr|t r Hr|t r k Hk|t r|t r|t r Hr|t r Hr|t t' r (E1 & E2 & E3)|t t' r (E1 & E2 & E3)|t t' r (E1 & E2 & E3)
    |t r c q t' Hp (E1 & E2 & E3)|t r q Hp|t|t Hj|t t' r k (E1 & E2 & E3)|t t' r (E1 & E2 & E3)];
    split; cbn; unfold sends, in_loop; cbn; try done; rewrite ?E1, ?E2, ?E3; try done; try tauto.
  - intros Hm _ Hne. by apply (noticed_stays t Entering), Hq.
  - intros Hm _ Hne. by apply (noticed_stays t (Looping r)), Hq.
  - intros k' Hm [= <-]. destruct (Hn Hm); congruence.
  - intros Hm _ _. destruct (Hn Hm) as [|Hs]; [congruence|]. rewrite Hs in Hk. injection Hk as <-.
    right. right. by left.
  - intros Hm _ Hne. by apply (noticed_stays t (Waiting r)), Hq.
  - intros Hm _ Hne. by apply (noticed_stays t (Waiting r)), Hq.
  - intros Hm _ Hne. by apply (noticed_stays t (Waiting r)), Hq.
  - intros _ _ _. right. right. by right.
  - intros Hm _ Hne. by apply (noticed_stays t (Handling r None)), Hq.
  - cbn. by rewrite (pop_front_open _ _ _ Hp).
  - intros _ _ _. right. right. by right.
  - intros _ _ Hne. by rewrite (pop_front_None _ _ Ho Hp) in Hne.
Qed.

Lemma worker_step_inv t n t' w w' i ws m :
  worker_step t w t' w' -> ws !! i = Some w -> send_inv (mkLife t n ws m) ->
  send_inv (mkLife t' n (<[i := w']> ws) m).
Proof.
  intros Hstep Hi [Ho Hn Hh Hq]. pose proof (lookup_lt_Some _ _ _ Hi) as Hlt. cbn in *. unfold sends in *.
  assert (Hat : <[i := w']> ws !! i = Some w') by by apply list_lookup_insert_eq.
  destruct Hstep as [t rc q others Hp|t rc q Hp|t r rs|t|t Ht]; split; cbn; unfold sends; cbn; try done.
  - intros _ _ _. left. by eexists _, _.
  - intros Hm Hl Hne. destruct (Hq Hm Hl Hne) as [(j & rs & Hj)|H]; [|by right].
    left. exists j, rs. cbn in *. rewrite list_lookup_insert_ne; [done|]. intros ->. congruence.
  - by rewrite push_back_open.
  - intros _ _ _. left. by eexists _, _.
  - intros _. by right.
  - intros _ _ _. right. by left.
  - intros Hm Hl Hne. destruct (Hq Hm Hl Hne) as [(j & rs & Hj)|H]; [|by right].
    left. exists j, rs. cbn in *. rewrite list_lookup_insert_ne; [done|]. intros ->. congruence.
Qed.

Lemma life_step_inv s s' : life_step s s' -> send_inv s -> send_inv s'.
Proof.
  intros [t ws m|t n t' n' ws m Hs|t n ws i w t' w' m Hi Hs|t n ws Hn|t n ws] Hinv.
  - destruct Hinv as [Ho Hn Hh Hq]. split; [done|done|done|]. intros Hm _ Hne. cbn in *.
    apply (noticed_stays t NotStarted); [done..|]. by apply Hq.
  - by eapply net_step_inv.
  - by eapply worker_step_inv.
  - destruct Hinv as [Ho Hn' Hh Hq]. cbn in *. split; cbn.
    + done.
    + intros _. by apply Hn'.
    + intros k _. by apply Hh.
    + intros _. by apply Hq.
  - destruct Hinv as [Ho Hn' Hh Hq]. by split; cbn.
Qed.

Lemma reachable_inv s s' : rtc life_step s s' -> send_inv s -> send_inv s'.
Proof. induction 1 as [|s s1 s2 Hs _ IH]; [done|]. intros Hinv. apply IH. by eapply life_step_inv. Qed.

(** *** Stopping *)

(** The thread has entered [Run] and has been told to stop. *)
Definition entered (n : net_place) : Prop := n <> NotStarted /\ n <> Entering.

Record stop_inv (s : life) : Prop := {
  st_entered : entered (net s);
  st_flag : running_ (thr s) = false;
  st_wakes : main s = MStopped -> waiting (net s) = true -> epoll_notify_ (thr s) <> None;
  st_main : main s <> MServing
}.

Lemma stop_inv_step s s' : life_step s s' -> stop_inv s -> stop_inv s'.
Proof.
  intros Hs [[He1 He2] Hf Hw Hm]. destruct Hs as [t ws m|t n t' n' ws m Hs|t n ws i w t' w' m Hi Hs|t n ws Hn|t n ws];
    cbn in *; try done.
  - destruct Hs as [t|t r Hr|t r Hr|t r k Hk|t r|t r|t r Hr|t r Hr|t t' r (E1 & E2 & E3)|t t' r (E1 & E2 & E3)|t t' r (E1 & E2 & E3)
    |t r c q t' Hp (E1 & E2 & E3)|t r q Hp|t|t Hj|t t' r k (E1 & E2 & E3)|t t' r (E1 & E2 & E3)]; split; cbn in *; unfold entered; try done; congruence.
  - destruct Hs as [t rc q others Hp|t rc q Hp|t r rs|t|t Ht]; split; cbn in *; unfold entered; done.
Qed.

Lemma stop_inv_reachable s s' : rtc life_step s s' -> stop_inv s -> stop_inv s'.
Proof. induction 1 as [|s s1 s2 Hs _ IH]; [done|]. intros Hinv. apply IH. by eapply stop_inv_step. Qed.

(** How far the thread is from its end. *)
Definition rank (n : net_place) : nat :=
  match n with
  | NotStarted => 8 | Entering => 7 | Waiting _ => 6 | Handling _ _ => 5 | Draining _ => 4
  | Looping _ => 3 | Leaving => 2 | Joining => 1 | Ended => 0
  end.

Lemma rank_step s s' : life_step s s' -> stop_inv s -> (rank (net s') <= rank (net s))%nat.
Proof.
  intros Hs Hinv. pose proof (st_flag _ Hinv) as Hf. pose proof (st_entered _ Hinv) as [H1 H2].
  destruct Hs as [| ? ? ? ? ? ? Hs | | |]; cbn in *; try done.
  destruct Hs; cbn; try lia; try done. congruence.
Qed.

Lemma rank_reachable s s' : rtc life_step s s' -> stop_inv s -> (rank (net s') <= rank (net s))%nat.
Proof.
  induction 1 as [|s s1 s2 Hs _ IH]; [done|]. intros Hinv.
  pose proof (rank_step _ _ Hs Hinv). pose proof (IH (stop_inv_step _ _ Hs Hinv)). lia.
Qed.

(** The notifications are the two of the program, and the threads that join
    their workers have terminated the queue. *)
Record notes_inv (s : life) : Prop := {
  ni_note : forall n, epoll_notify_ (thr s) = Some n -> n = notification_stop_ \/ n = notification_send_;
  ni_handling : forall n, note_of (net s) = Some n -> n = notification_stop_ \/ n = notification_send_;
  ni_joining : net s = Joining -> MessageQueue.terminated_ (recv_queue_ (derived_ (thr s))) = true
}.

Lemma notes_inv_step s s' : life_step s s' -> notes_inv s -> notes_inv s'.
Proof.
  intros Hs [Hn Hh Hj]. destruct Hs as [t ws m|t n t' n' ws m Hs|t n ws i w t' w' m Hi Hs|t n ws Hne|t n ws]; cbn in *.
  - by split.
  - destruct Hs as [t|t r Hr|t r Hr|t r k Hk|t r|t r|t r Hr|t r Hr|t t' r (E1 & E2 & E3)|t t' r (E1 & E2 & E3)|t t' r (E1 & E2 & E3)
    |t r c q t' Hp (E1 & E2 & E3)|t r q Hp|t|t Hj'|t t' r k (E1 & E2 & E3)|t t' r (E1 & E2 & E3)]; split; cbn; try done; rewrite ?E1, ?E2, ?E3; try done.
    intros k' [= <-]. by apply Hn.
  - destruct Hs as [t rc q others Hp|t rc q Hp|t r rs|t|t Ht]; split; cbn; try done.
    + intros E. by rewrite (pop_front_open _ _ _ Hp), Hj.
    + intros E. by rewrite (pop_front_open _ _ _ Hp), Hj.
    + intros k [= <-]. by right.
  - by split.
  - split; cbn; try done. intros k [= <-]. by left.
Qed.

Lemma notes_inv_reachable s s' : rtc life_step s s' -> notes_inv s -> notes_inv s'.
Proof. induction 1 as [|s s1 s2 Hs _ IH]; [done|]. intros Hinv. apply IH. by eapply notes_inv_step. Qed.

Lemma initial_notes (s : life) : initial s -> notes_inv s.
Proof. intros (Hn & Hm & Hw & Hs & Ht & He). split; [congruence|intros n; by rewrite Hn|congruence]. Qed.

(** *** Reaching the end *)

Definition recv_closed (t : NetThread) : Prop := MessageQueue.terminated_ (recv_queue_ (derived_ t)) = true.

(** A worker that finds its queue terminated sends what it has and ends. *)
Lemma worker_finishes t n ws i w m :
  recv_closed t -> ws !! i = Some w ->
  exists t', recv_closed t' /\ rtc life_step (mkLife t n ws m) (mkLife t' n (<[i := WEnded]> ws) m).
Proof.
  intros Hc Hi. assert (Hidle : forall t ws, recv_closed t -> ws !! i = Some WIdle ->
    life_step (mkLife t n ws m) (mkLife t n (<[i := WEnded]> ws) m)).
  { intros t1 ws1 Hc1 Hi1. eapply step_worker; [done|]. by apply worker_end. }
  destruct w as [|rs|].
  - exists t. split; [done|]. apply rtc_once. by apply Hidle.
  - revert t ws Hc Hi. induction rs as [|r rs IH]; intros t ws Hc Hi.
    + exists (NotifySend t). split; [done|]. pose proof (lookup_lt_Some _ _ _ Hi) as Hlt.
      eapply rtc_l; [eapply step_worker; [done|apply worker_notify]|]. apply rtc_once.
      rewrite <- (list_insert_insert_eq ws i WEnded WIdle). apply Hidle; [done|]. by apply list_lookup_insert_eq.
    + pose proof (lookup_lt_Some _ _ _ Hi) as Hlt.
      destruct (IH (set_send_queue t (MessageQueue.push_back (send_queue_ (derived_ t)) r).2) (<[i := WSending rs]> ws))
        as (t' & Hc' & Hr); [done|by apply list_lookup_insert_eq|].
      exists t'. split; [done|]. rewrite list_insert_insert_eq in Hr.
      eapply rtc_l; [eapply step_worker; [done|apply worker_push]|done].
  - exists t. split; [done|]. by rewrite list_insert_id.
Qed.

Lemma workers_finish (k : nat) t n ws m :
  recv_closed t -> (k <= length ws)%nat ->
  exists t' ws', recv_closed t' /\ length ws' = length ws /\ Forall (eq WEnded) (take k ws') /\
    rtc life_step (mkLife t n ws m) (mkLife t' n ws' m).
Proof.
  intros Hc. induction k as [|k IH]; intros Hk; [exists t, ws; split_and!; [done..|apply rtc_refl]|].
  destruct IH as (t1 & ws1 & Hc1 & Hl1 & Hf1 & Hr1); [lia|].
  destruct (lookup_lt_is_Some_2 ws1 k) as [w Hw]; [lia|].
  destruct (worker_finishes t1 n ws1 k w m Hc1 Hw) as (t2 & Hc2 & Hr2).
  exists t2, (<[k := WEnded]> ws1). split_and!; [done|by rewrite length_insert| |by etrans].
  rewrite (take_S_r _ _ WEnded) by (apply list_lookup_insert_eq; lia).
  apply Forall_app. split; [|by repeat constructor]. by rewrite take_insert_ge by lia.
Qed.

Lemma joining_ends t ws m :
  recv_closed t -> exists s, rtc life_step (mkLife t Joining ws m) s /\ net s = Ended.
Proof.
  intros Hc. destruct (workers_finish (length ws) t Joining ws m) as (t' & ws' & Hc' & Hl & Hf & Hr); [done..|].
  exists (mkLife t' Ended ws' m). split; [|done]. eapply rtc_r; [done|]. apply step_net, net_joined.
  by rewrite take_ge in Hf by lia.
Qed.

Lemma leaving_ends t ws m : exists s, rtc life_step (mkLife t Leaving ws m) s /\ net s = Ended.
Proof.
  destruct (joining_ends (Entry_finish t) ws m) as (s & Hr & He); [done|]. exists s. split; [|done].
  eapply rtc_l; [apply step_net, net_finish|done].
Qed.

Lemma looping_ends t r ws m :
  running_ t = false -> exists s, rtc life_step (mkLife t (Looping r) ws m) s /\ net s = Ended.
Proof.
  intros Hf. destruct (leaving_ends t ws m) as (s & Hr & He). exists s. split; [|done].
  eapply rtc_l; [by apply step_net, net_leave|done].
Qed.

Lemma draining_ends t r ws m :
  running_ t = false -> exists s, rtc life_step (mkLife t (Draining r) ws m) s /\ net s = Ended.
Proof.
  remember (length (sends t)) as l eqn:El. revert t El. induction l as [l IH] using lt_wf_ind. intros t El Hf.
  destruct (MessageQueue.pop_front_to (send_queue_ (derived_ t))) as [[c|] q] eqn:Hp.
  - destruct (IH (length (MessageQueue.container_ q))) with (t := set_send_queue t q) as (s & Hr & He); [|done..|].
    { revert Hp. rewrite El. unfold sends, MessageQueue.pop_front_to.
      destruct (send_queue_ (derived_ t)) as [sz [|x l'] []]; intros [= <- <-]; cbn; lia. }
    exists s. split; [|done]. eapply rtc_l; [|done]. apply step_net. by eapply net_pop.
  - destruct (looping_ends t r ws m Hf) as (s & Hr & He). exists s. split; [|done].
    eapply rtc_l; [|done]. apply step_net. by eapply net_drained.
Qed.

Lemma handling_ends t r k ws m :
  running_ t = false -> (forall n, k = Some n -> n = notification_stop_ \/ n = notification_send_) ->
  exists s, rtc life_step (mkLife t (Handling r k) ws m) s /\ net s = Ended.
Proof.
  intros Hf Hk. destruct k as [k|]; [destruct (Hk _ eq_refl) as [-> | ->]|].
  - destruct (leaving_ends (set_running t false) ws m) as (s & Hr & He). exists s. split; [|done].
    eapply rtc_l; [|done]. by apply step_net, net_stop.
  - destruct (draining_ends t r ws m) as (s & Hr & He); [done|]. exists s. split; [|done].
    eapply rtc_l; [|done]. by apply step_net, net_send.
  - destruct (looping_ends t r ws m) as (s & Hr & He); [done|]. exists s. split; [|done].
    eapply rtc_l; [|done]. by apply step_net, net_events.
Qed.

Lemma stopped_ends s : stop_inv s -> notes_inv s -> exists s', rtc life_step s s' /\ net s' = Ended.
Proof.
  destruct s as [t n ws m]. intros [[He1 He2] Hf _ _] [Hn Hh Hj]. cbn in *.
  destruct n as [| |r|r|r k|r| | |]; try done.
  - by apply looping_ends.
  - destruct (handling_ends t r None ws m) as (s & Hr & He); [done..|]. exists s. split; [|done].
    eapply rtc_l; [|done]. apply step_net, net_woken.
  - apply handling_ends; [done|]. intros n ->. by apply Hh.
  - by apply draining_ends.
  - apply leaving_ends.
  - by apply joining_ends, Hj.
  - by exists (mkLife t Ended ws m).
Qed.

(** *** Every run to the end is finite *)

(** What a worker has still to do. *)
Definition weight (w : worker_place) : nat :=
  match w with WIdle => 1 | WSending rs => 2 + length rs | WEnded => 0 end.

(** What a step makes smaller, the first component first: the way to the end, the packets that wait, the
    work of the workers, the responses that wait. *)
Definition measure (s : life) : nat * (nat * (nat * nat)) :=
  (rank (net s), (length (MessageQueue.container_ (recv_queue_ (derived_ (thr s)))),
    (sum_list_with weight (workers s), length (sends (thr s))))).

Definition lex {A B} (R : A -> A -> Prop) (Q : B -> B -> Prop) (x y : A * B) : Prop :=
  R x.1 y.1 \/ x.1 = y.1 /\ Q x.2 y.2.

Lemma lex_wf {A B} (R : A -> A -> Prop) (Q : B -> B -> Prop) : well_founded R -> well_founded Q -> well_founded (lex R Q).
Proof.
  intros HR HQ [a b]. revert b. induction (HR a) as [a _ IHa]. intros b. induction (HQ b) as [b _ IHb].
  constructor. intros [a' b'] [H|[E H]]; cbn in *; [by apply IHa|]. subst a'. by apply IHb.
Qed.

Definition smaller : relation (nat * (nat * (nat * nat))) := lex lt (lex lt (lex lt lt)).

Lemma smaller_wf : well_founded smaller.
Proof. repeat apply lex_wf; apply lt_wf. Qed.

Lemma sum_weight_insert (ws : list worker_place) (i : nat) (w w' : worker_place) :
  ws !! i = Some w -> (sum_list_with weight (<[i := w']> ws) + weight w = sum_list_with weight ws + weight w')%nat.
Proof.
  revert i. induction ws as [|x ws IH]; intros [|i] Hi; [done|done|..].
  - injection Hi as ->. change (<[0%nat := w']> (w :: ws)) with (w' :: ws). cbn [sum_list_with]. lia.
  - change (<[S i := w']> (x :: ws)) with (x :: <[i := w']> ws). cbn [sum_list_with]. specialize (IH i Hi). lia.
Qed.

Lemma pop_front_length {T} (q q' : MessageQueue.ThreadSafeDeque T) (x : T) :
  MessageQueue.pop_front_to q = (Some x, q') ->
  (length (MessageQueue.container_ q') < length (MessageQueue.container_ q))%nat.
Proof.
  unfold MessageQueue.pop_front_to. destruct (MessageQueue.container_ q), (MessageQueue.terminated_ q); intros [= <- <-]; cbn; lia.
Qed.

Lemma own_life (s s' : life) : own_step s s' -> life_step s s' /\ main s' = main s.
Proof. intros [t n t' n' ws m Hn|t n ws i w t' w' m Hi Hw]; (split; [|done]); [by apply step_net|by eapply step_worker]. Qed.

(** After its flag is cleared, every step of a thread or of one of its workers
    makes the measure smaller. *)
Lemma own_smaller (s s' : life) : own_step s s' -> stop_inv s -> smaller (measure s') (measure s).
Proof.
  intros [t n t' n' ws m Hn|t n ws i w t' w' m Hi Hw] [[H1 H2] Hf _ _]; cbn in *.
  - unfold smaller, lex, measure. cbn. destruct Hn as [t|t r Hr|t r Hr|t r k Hk|t r|t r|t r Hr|t r Hr|t t' r E|t t' r E|t t' r E
    |t r c q t' Hp (E1 & E2 & E3)|t r q Hp|t|t Hj|t t' r k E|t t' r E]; cbn; try (left; lia); try congruence.
    right. split; [done|]. unfold sends. rewrite E1. cbn. right. split; [done|]. right. split; [done|].
    by apply pop_front_length in Hp.
  - pose proof (sum_weight_insert ws i w w' Hi) as Hs. unfold smaller, lex, measure. cbn. right. split; [done|].
    destruct Hw as [t rc q others Hp|t rc q Hp|t r rs|t|t Ht]; cbn in *.
    + left. by apply pop_front_length in Hp.
    + left. by apply pop_front_length in Hp.
    + right. split; [done|]. left. lia.
    + right. split; [done|]. left. lia.
    + right. split; [done|]. left. lia.
Qed.

(** So the thread and its workers make only finitely many steps. *)
Lemma own_terminates (s : life) : stop_inv s -> Acc (fun s' s => own_step s s') s.
Proof.
  remember (measure s) as x eqn:Ex. revert s Ex. induction (smaller_wf x) as [x _ IH]. intros s -> Hs.
  constructor. intros s' Ho. eapply IH; [by apply own_smaller|done|]. eapply stop_inv_step; [by apply own_life|done].
Qed.

(** And as long as the thread has not ended one of them can make a step. *)
Lemma own_progress (s : life) : stop_inv s -> notes_inv s -> net s <> Ended -> exists s', own_step s s'.
Proof.
  destruct s as [t n ws m]. intros [[He1 He2] Hf _ _] [Hn Hh Hj] Hne. cbn in *.
  destruct n as [| |r|r|r k|r| | |]; try done.
  - eexists. by apply own_net, net_leave.
  - eexists. apply own_net, net_woken.
  - destruct k as [k|]; [destruct (Hh _ eq_refl) as [-> | ->]|]; eexists.
    + by apply own_net, (net_stop _ t t).
    + by apply own_net, (net_send _ t t).
    + by apply own_net, (net_events _ t t).
  - destruct (MessageQueue.pop_front_to (send_queue_ (derived_ t))) as [[c|] q] eqn:Hp; eexists.
    + by eapply own_net, net_pop.
    + by eapply own_net, net_drained.
  - eexists. apply own_net, net_finish.
  - destruct (decide (Forall (fun w => w = WEnded) ws)) as [Hall|Hnot].
    + eexists. apply own_net, net_joined. eapply Forall_impl; [exact Hall|]. by intros w ->.
    + apply not_Forall_Exists, Exists_exists in Hnot as (w & Hin & Hw); [|solve_decision].
      apply list_elem_of_lookup in Hin as [i Hi]. assert (exists t' w', worker_step t w t' w') as (t' & w' & Hst).
      { destruct w as [|[|r rs]|]; [|..|by destruct Hw]; eexists _, _; [by apply worker_end, Hj|apply worker_notify|apply worker_push]. }
      eexists. by eapply own_worker.
Qed.

(** *** A stop that got lost *)

Record lost (s : life) : Prop := {
  lo_main : main s = MStopped;
  lo_note : epoll_notify_ (thr s) <> Some notification_stop_;
  lo_handling : note_of (net s) <> Some notification_stop_;
  lo_flag : in_loop (net s) -> running_ (thr s) = true
}.

Lemma lost_step s s' : life_step s s' -> lost s -> lost s'.
Proof.
  intros Hs [Hm Hn Hh Hf]. unfold in_loop in *.
  destruct Hs as [t ws m|t n t' n' ws m Hs|t n ws i w t' w' m Hi Hs|t n ws Hne|t n ws]; cbn in *; try done.
  - destruct Hs as [t|t r Hr|t r Hr|t r k Hk|t r|t r|t r Hr|t r Hr|t t' r (E1 & E2 & E3)|t t' r (E1 & E2 & E3)|t t' r (E1 & E2 & E3)
    |t r c q t' Hp (E1 & E2 & E3)|t r q Hp|t|t Hj|t t' r k (E1 & E2 & E3)|t t' r (E1 & E2 & E3)]; split; cbn; unfold in_loop; try done; rewrite ?E1, ?E2, ?E3;
      try done; try (intros _; by apply Hf); try tauto.
    congruence.
  - destruct Hs as [t rc q others Hp|t rc q Hp|t r rs|t|t Ht]; by split.
Qed.

Lemma lost_reachable s s' : rtc life_step s s' -> lost s -> lost s'.
Proof. induction 1 as [|s s1 s2 Hs _ IH]; [done|]. intros Hinv. apply IH. by eapply lost_step. Qed.

(** A thread with one worker, and the packet of a request. *)
Definition demo_life : life := mkLife new_NetThread NotStarted [WIdle] MServing.
Definition demo_rc : RecvContext := mkRecvContext 1 5 [] 0 kAcceptFrom None (Some 0%nat).

Definition with_request (t : NetThread) : NetThread :=
  set_recv_queue t (MessageQueue.push_back (recv_queue_ (derived_ t)) demo_rc).2.

Lemma demo_initial : initial demo_life.
Proof. split_and!; try done. by repeat constructor. Qed.

(** The worker takes the request and queues its response. *)
Lemma worker_responds t n m :
  MessageQueue.pop_front_to (recv_queue_ (derived_ t)) =
    (Some demo_rc, MessageQueue.mkQueue 10240 [] false) ->
  rtc life_step (mkLife t n [WIdle] m)
    (mkLife (set_send_queue (set_recv_queue t (MessageQueue.mkQueue 10240 [] false))
               (MessageQueue.push_back (send_queue_ (derived_ t)) (Some 0%nat)).2) n [WSending []] m).
Proof.
  intros Hp. eapply rtc_l; [apply (step_worker _ _ [WIdle] 0 WIdle); [done|by eapply (worker_take t demo_rc _ [])]|].
  apply rtc_once. apply (step_worker _ _ [WSending [Some 0%nat]] 0 (WSending [Some 0%nat])); [done|]. apply (worker_push (set_recv_queue t (MessageQueue.mkQueue 10240 [] false)) (Some 0%nat) []).
Qed.

(** ** Theorems *)

(** C11: while a network thread is in its loop and its stop notification has not been given, no response is
    forgotten, in whatever order the steps of the thread, of its workers and
    of the main thread follow each other: while a queued response waits, a
    worker has still to call [NotifySend], or the notification is pending at
    epoll, or the thread is about to empty the queue. In particular a thread
    that sleeps in [EpollWait] with no notification and with idle workers has
    an empty queue. The thread is in its loop from its start until it is told to stop, an exception
    leaves [Run], or [EpollWait] fails for the third time; what is in the queue when it leaves is not
    sent. *)
Theorem no_lost_send (s0 s : life) :
  initial s0 -> rtc life_step s0 s -> main s <> MStopped -> in_loop (net s) ->
  (sends (thr s) <> [] -> noticed s) /\
  (waiting (net s) = true -> epoll_notify_ (thr s) = None -> Forall (eq WIdle) (workers s) -> sends (thr s) = []).
Proof.
  intros Hi Hr Hm Hl. pose proof (reachable_inv _ _ Hr (initial_inv _ Hi)) as Hinv.
  pose proof (si_noticed _ Hinv Hm Hl) as Hq. split; [done|]. intros Hw Hn Hws.
  destruct (sends (thr s)) eqn:E; [done|]. destruct Hq as [(i & rs & Hj)|[H|[H|H]]];
    [done|by apply (Forall_lookup_1 _ _ _ _ Hws) in Hj|congruence|destruct (net s); cbn in *; congruence..].
Qed.

(** C20: a network thread that has entered [Run] honours [NotifyStop]: from the
    moment its flag is cleared, whatever the threads do, the flag stays false
    and the thread never goes back to an earlier place of its loop; once the
    notification is given, [EpollWait] has something to report; and the thread
    can come to its end, its workers joined. *)
Theorem stop_honored (s0 s s1 s2 : life) :
  initial s0 -> rtc life_step s0 s -> entered (net s) -> life_step s s1 -> main s = MServing -> main s1 = MStopping ->
  rtc life_step s1 s2 ->
  running_ (thr s2) = false /\ (rank (net s2) <= rank (net s1))%nat /\
  (main s2 = MStopped -> waiting (net s2) = true -> epoll_notify_ (thr s2) <> None) /\
  exists s3, rtc life_step s2 s3 /\ net s3 = Ended.
Proof.
  intros Hi Hr He Hs Hm Hm1 Hr2.
  assert (stop_inv s1) as Hstop.
  { destruct Hs; cbn in *; try congruence. by split. }
  pose proof (stop_inv_reachable _ _ Hr2 Hstop) as Hstop2.
  split_and!; [by apply Hstop2|by apply rank_reachable|by apply Hstop2|].
  apply stopped_ends; [done|]. apply (notes_inv_reachable s0); [|by apply initial_notes].
  etrans; [done|]. by eapply rtc_l.
Qed.

(** A stop can be lost. The main thread clears the flag while the thread is
    still in [Entry], which sets it again; and a worker's [NotifySend] replaces
    the stop notification that epoll has not yet reported. From there on,
    whatever the threads do, the flag is true in the loop and no stop is pending
    or being handled: the thread runs on, and [Join] waits for it. *)
Theorem stop_lost :
  exists s0 s, initial s0 /\ rtc life_step s0 s /\ main s = MStopped /\ waiting (net s) = true /\
    forall s', rtc life_step s s' ->
      epoll_notify_ (thr s') <> Some notification_stop_ /\ note_of (net s') <> Some notification_stop_ /\
      (in_loop (net s') -> running_ (thr s') = true).
Proof.
  exists demo_life. eexists. split; [apply demo_initial|]. split_and!.
  - eapply rtc_l; [apply step_start|].
    eapply rtc_l; [by apply step_stop|].
    eapply rtc_l; [apply step_net, net_enter|].
    eapply rtc_l; [by apply step_net, net_loop|].
    eapply rtc_l; [apply step_net, net_woken|].
    eapply rtc_l; [by apply step_net, (net_events _ _ (with_request (Entry_start (clear_running (Start new_NetThread)))))|].
    etrans; [by apply worker_responds|].
    eapply rtc_l; [apply step_stopped|].
    eapply rtc_l; [apply (step_worker _ _ [WSending []] 0 (WSending [])); [done|apply worker_notify]|].
    apply rtc_once. by apply step_net, net_loop.
  - done.
  - done.
  - intros s' Hr. apply lost_reachable in Hr; [|by split]. by destruct Hr.
Qed.

(** ** Witnesses *)

Lemma no_lost_send_witness :
  exists s, rtc life_step demo_life s /\ sends (thr s) = [Some 0%nat] /\ noticed s.
Proof.
  assert (exists s, rtc life_step demo_life s /\ sends (thr s) = [Some 0%nat] /\ main s = MServing /\ in_loop (net s))
    as (s & Hr & Hs & Hm & Hl).
  { eexists. split_and!.
    - eapply rtc_l; [apply step_start|].
      eapply rtc_l; [apply step_net, net_enter|].
      eapply rtc_l; [by apply step_net, net_loop|].
      eapply rtc_l; [apply step_net, net_woken|].
      eapply rtc_l; [by apply step_net, (net_events _ _ (with_request (Entry_start (Start new_NetThread))))|].
      by apply worker_responds.
    - done.
    - done.
    - by split. }
  exists s. split_and!; [done..|]. apply (no_lost_send demo_life s demo_initial Hr); [congruence|done|].
  rewrite Hs. discriminate.
Defined.

Lemma stop_honored_witness :
  exists s3, rtc life_step (mkLife (clear_running (Start new_NetThread)) (Looping 3) [WIdle] MStopping) s3 /\ net s3 = Ended.
Proof.
  apply (stop_honored demo_life (mkLife (Start new_NetThread) (Looping 3) [WIdle] MServing)
           (mkLife (clear_running (Start new_NetThread)) (Looping 3) [WIdle] MStopping)).
  - apply demo_initial.
  - eapply rtc_l; [apply step_start|]. apply rtc_once. apply step_net. exact (net_enter _ (Start new_NetThread)).
  - by split.
  - by apply step_stop.
  - reflexivity.
  - reflexivity.
  - apply rtc_refl.
Defined.

End ThreadLife.
