(* ===== verification/ServerLife.v ===== *)
(** * The life of a server (serverbase.cc, webserver.cc)

    The main thread in [Serve] with all its network threads and their workers:
    starting them, the loop, and [_NotifyNetThreadsStop], which stops, joins and
    deletes one thread after the other while the others still run. Each thread is
    one of [ThreadLife]. The workers as objects are at the end. *)
From stdpp Require Import gmap relations.
From S2P Require Import Prelude CLib AutoBuffer HttpPacket WebSocket MessageQueue UnixSocket SocketEpoll TcpConnection.
From S2P Require Import ServerBase EventLoop WebServer ThreadLife.

Module ServerLife.
Import TcpConnection ServerBase WebServer ThreadLife.

(** ** Definitions *)

(** Where the main thread is: starting the threads, in the loop of [Serve], and for
    the thread of an index in [_NotifyNetThreadsStop]: about to clear its flag, to
    notify its epoll, in [Join]. *)
Inductive serve_place :=
| Starting (i : nat)
| Serving
| Stopping (i : nat)
| Notifying (i : nat)
| InJoin (i : nat)
| Finished.

#[export] Instance serve_place_eq_dec : EqDecision serve_place.
Proof. solve_decision. Defined.

(** The threads with whether their object still exists, and the main thread. *)
Record srv := mkSrv {
  lives : list (bool * life);
  place : serve_place
}.

(** The steps of the server. In its loop the main thread registers connections
    and sends heartbeats, which changes connections but no flag, notification or
    queue of a thread. [Join] returns when the thread has ended. *)
Inductive srv_step : srv -> srv -> Prop :=
| srv_thread ls pl i a s s' :
    ls !! i = Some (a, s) -> own_step s s' -> srv_step (mkSrv ls pl) (mkSrv (<[i := (a, s')]> ls) pl)
| srv_start ls i a t ws m :
    ls !! i = Some (a, mkLife t NotStarted ws m) ->
    srv_step (mkSrv ls (Starting i)) (mkSrv (<[i := (a, mkLife (Start t) Entering ws m)]> ls) (Starting (S i)))
| srv_started ls : srv_step (mkSrv ls (Starting (length ls))) (mkSrv ls Serving)
| srv_register ls i a t t' n ws m :
    ls !! i = Some (a, mkLife t n ws m) -> quiet t t' ->
    srv_step (mkSrv ls Serving) (mkSrv (<[i := (a, mkLife t' n ws m)]> ls) Serving)
| srv_leave ls : srv_step (mkSrv ls Serving) (mkSrv ls (Stopping 0))
| srv_clear ls i a t n ws :
    ls !! i = Some (a, mkLife t n ws MServing) ->
    srv_step (mkSrv ls (Stopping i)) (mkSrv (<[i := (a, mkLife (clear_running t) n ws MStopping)]> ls) (Notifying i))
| srv_notify ls i a t n ws :
    ls !! i = Some (a, mkLife t n ws MStopping) ->
    srv_step (mkSrv ls (Notifying i)) (mkSrv (<[i := (a, mkLife (notify_stop t) n ws MStopped)]> ls) (InJoin i))
| srv_joined ls i a s :
    ls !! i = Some (a, s) -> net s = Ended ->
    srv_step (mkSrv ls (InJoin i)) (mkSrv (<[i := (false, s)]> ls) (Stopping (S i)))
| srv_finished ls : srv_step (mkSrv ls (Stopping (length ls))) (mkSrv ls Finished).

(** Before [Serve]. *)
Definition srv_initial (v : srv) : Prop :=
  place v = Starting 0 /\ Forall (fun x => x.1 = true /\ initial x.2) (lives v).

(** The steps towards the end of [Serve]: those of the main thread, and those of
    the thread it is joining with its workers. *)
Inductive ending_step : srv -> srv -> Prop :=
| ending_main v v' : srv_step v v' -> place v' <> place v -> ending_step v v'
| ending_joined ls i a s s' :
    ls !! i = Some (a, s) -> own_step s s' -> ending_step (mkSrv ls (InJoin i)) (mkSrv (<[i := (a, s')]> ls) (InJoin i)).

(** The steps of the other threads. *)
Inductive other_step : srv -> srv -> Prop :=
| other_thread ls pl i a s s' :
    pl <> InJoin i -> ls !! i = Some (a, s) -> own_step s s' -> other_step (mkSrv ls pl) (mkSrv (<[i := (a, s')]> ls) pl).

(** A step towards the end, after any number of steps of other threads. *)
Definition ending_after (v v' : srv) : Prop := exists u, rtc other_step v u /\ ending_step u v'.

(** The thread the main thread will use next, and whether it uses one with this
    index at its place or later. *)
Definition uses (pl : serve_place) (i : nat) : Prop :=
  match pl with
  | Starting _ | Serving => True
  | Stopping j | Notifying j | InJoin j => (j <= i)%nat
  | Finished => False
  end.

(** *** Workers as objects *)

(** A worker: the thread it is bound to, its number, its flag. *)
Record WorkerThread := mkWorker {
  net_thread_ : option nat;
  thread_seq_ : Z;
  worker_running_ : bool
}.

(** [__MakeWorkerThreadSeq] and its static counter. *)
Definition __MakeWorkerThreadSeq (thread_seq : Z) : Z * Z := (thread_seq + 1, thread_seq + 1).

(** [WorkerThread::WorkerThread] *)
Definition new_WorkerThread (thread_seq : Z) : WorkerThread * Z :=
  let '(seq, thread_seq) := __MakeWorkerThreadSeq thread_seq in (mkWorker None seq false, thread_seq).

Definition GetWorkerSeqNum (w : WorkerThread) : Z := thread_seq_ w.

(** [BindNetThread]; [None] is a null pointer. *)
Definition BindNetThread (w : WorkerThread) (t : option nat) : WorkerThread :=
  match t with
  | Some _ => mkWorker t (thread_seq_ w) (worker_running_ w)
  | None => w
  end.

(** [WorkerThread::NotifyStop]: the queue of the thread the worker is bound to is
    terminated. *)
Definition worker_NotifyStop (w : WorkerThread) (ts : list NetThread) : res (list NetThread) :=
  match net_thread_ w with
  | None => Ok ts
  | Some i =>
      t ← from_option Ok (Fault Dangling) (ts !! i);
      Ok (<[i := set_recv_queue t (MessageQueue.Terminate (recv_queue_ (derived_ t)))]> ts)
  end.

(** The start of [WorkerThread::Run]: a worker without a thread ends; the others
    find the queues of theirs. *)
Definition worker_Run_start (w : WorkerThread) (ts : list NetThread)
    : res (WorkerThread * option NetThread) :=
  match net_thread_ w with
  | None => Ok (mkWorker None (thread_seq_ w) false, None)
  | Some i => t ← from_option Ok (Fault Dangling) (ts !! i); Ok (w, Some t)
  end.

(** The loop of [SetWorker] with the objects it creates. *)
Fixpoint make_workers (n i net_thread_cnt : nat) (thread_seq : Z) : list WorkerThread * Z :=
  match n with
  | O => ([], thread_seq)
  | S n' =>
      let '(w, thread_seq) := new_WorkerThread thread_seq in
      let w := BindNetThread w (Some (i mod net_thread_cnt)%nat) in
      let '(ws, thread_seq) := make_workers n' (S i) net_thread_cnt thread_seq in
      (w :: ws, thread_seq)
  end.

(** ** Lemmas *)

Definition joined_workers (s : life) : Prop := net s = Ended -> Forall (eq WEnded) (workers s).

Lemma own_joined (s s' : life) : own_step s s' -> joined_workers s -> joined_workers s'.
Proof.
  unfold joined_workers. intros [t n t' n' ws m Hn|t n ws i w t' w' m Hi Hw] Hj; cbn in *.
  - by destruct Hn.
  - intros E. apply (Forall_lookup_1 _ _ _ _ (Hj E)) in Hi as <-. by inversion Hw.
Qed.

Lemma own_ended (s s' : life) : own_step s s' -> joined_workers s -> net s <> Ended.
Proof.
  unfold joined_workers. intros [t n t' n' ws m Hn|t n ws i w t' w' m Hi Hw] Hj; cbn in *; [by destruct Hn|].
  intros E. apply (Forall_lookup_1 _ _ _ _ (Hj E)) in Hi as <-. by inversion Hw.
Qed.

(** The invariant: a thread whose object is gone has ended with its workers; the
    objects that are gone are those the main thread is done with. *)
Record srv_inv (v : srv) : Prop := {
  sv_joined : forall i a s, lives v !! i = Some (a, s) -> joined_workers s;
  sv_ended : forall i s, lives v !! i = Some (false, s) -> net s = Ended;
  sv_alive : forall i a s, lives v !! i = Some (a, s) -> uses (place v) i -> a = true
}.

Lemma srv_initial_inv (v : srv) : srv_initial v -> srv_inv v.
Proof.
  intros [Hp Hf]. split.
  - intros i a s Hi. apply (Forall_lookup_1 _ _ _ _ Hf) in Hi as [_ [Hn _]]. intros E. cbn in Hn. congruence.
  - intros i s Hi. by apply (Forall_lookup_1 _ _ _ _ Hf) in Hi as [? _].
  - intros i a s Hi _. by apply (Forall_lookup_1 _ _ _ _ Hf) in Hi as [? _].
Qed.

(** A step that changes one thread and the place of the main thread. *)
Lemma srv_inv_update (ls : list (bool * life)) (pl pl' : serve_place) (i : nat) (a a' : bool) (s s' : life) :
  srv_inv (mkSrv ls pl) -> ls !! i = Some (a, s) -> (joined_workers s -> joined_workers s') ->
  (a' = false -> net s' = Ended) -> (uses pl' i -> a' = true) -> (forall j, j <> i -> uses pl' j -> uses pl j) ->
  srv_inv (mkSrv (<[i := (a', s')]> ls) pl').
Proof.
  intros [Hj He Ha] Hi Hjs Hes Has Hu. split; cbn in *; intros j;
    (destruct (decide (j = i)) as [->|Hne];
      [rewrite list_lookup_insert_eq by (by eapply lookup_lt_Some)|rewrite list_lookup_insert_ne by done]).
  - intros b x [= <- <-]. by eapply Hjs, Hj.
  - by apply Hj.
  - intros x [= -> ->]. by apply Hes.
  - by apply He.
  - intros b x [= <- <-]. done.
  - intros b x Hx Hux. by eapply Ha; [|apply Hu].
Qed.

Lemma srv_step_inv (v v' : srv) : srv_step v v' -> srv_inv v -> srv_inv v'.
Proof.
  intros Hs Hinv. destruct Hs as [ls pl i a s s' Hi Ho|ls i a t ws m Hi|ls|ls i a t t' n ws m Hi Hsig|ls
    |ls i a t n ws Hi|ls i a t n ws Hi|ls i a s Hi He|ls].
  - eapply srv_inv_update; [done..| | | |done].
    + by apply own_joined.
    + intros ->. destruct (own_ended _ _ Ho (sv_joined _ Hinv _ _ _ Hi)). by apply (sv_ended _ Hinv i).
    + intros Hu. by apply (sv_alive _ Hinv i a s).
  - eapply srv_inv_update; [done..| | | |done]; [done| |by intros; eapply (sv_alive _ Hinv i)].
    intros ->. by apply (sv_ended _ Hinv i) in Hi.
  - by destruct Hinv.
  - eapply srv_inv_update; [done..| | | |done]; [done| |by intros; eapply (sv_alive _ Hinv i)].
    intros ->. by apply (sv_ended _ Hinv i) in Hi.
  - destruct Hinv as [Hj He Ha]. split; [done..|]. cbn in *. intros i a s Hi _. by eapply Ha.
  - eapply srv_inv_update; [done..| | | |done]; [done| |by intros; eapply (sv_alive _ Hinv i)].
    intros ->. by apply (sv_ended _ Hinv i) in Hi.
  - eapply srv_inv_update; [done..| | | |done]; [done| |by intros; eapply (sv_alive _ Hinv i)].
    intros ->. by apply (sv_ended _ Hinv i) in Hi.
  - eapply srv_inv_update; [done..| | |]; [done|cbn; lia|cbn; lia].
  - destruct Hinv as [Hj He Ha]. by split.
Qed.

Lemma srv_reachable_inv (v v' : srv) : rtc srv_step v v' -> srv_inv v -> srv_inv v'.
Proof. induction 1 as [|v1 v2 v3 Hs _ IH]; [done|]. intros H. by eapply IH, srv_step_inv. Qed.

(** The operations of the main thread on a thread are quiet. *)
Lemma quiet_add (t t' : NetThread) (neo : Conn) (uid : nat) : add_conn web_methods t neo = Ok (uid, t') -> quiet t t'.
Proof.
  unfold add_conn. intros H. res_inv. destruct a as [u m]. res_inv. unfold put_conn in E1. res_inv. by split_and!.
Qed.

Lemma RegisterConnection_quiet (t t' : NetThread) (fd : Z) (ip : bytes) (port now : Z) (b : bool) :
  RegisterConnection web_methods t fd ip port now = Ok (b, t') -> quiet t t'.
Proof.
  unfold RegisterConnection. destruct (fd <? 0); [by intros [= <- <-]|]. case_match; [by intros [= <- <-]|].
  intros Hq. cbn in Hq. res_inv. destruct a0 as [u t1]. res_inv. by apply quiet_add in E0.
Qed.

Lemma MakeConnection_quiet (inet_addr : bytes -> Z) (t t' : NetThread) (ip : bytes) (port now fd : Z) (rets : list Z)
    (o : option nat) :
  MakeConnection web_methods inet_addr t ip port now fd rets = Ok (o, t') -> quiet t t'.
Proof.
  unfold MakeConnection. destruct (alloc (memory_ t)) as [this mem]. intros H. res_inv.
  destruct a0 as [[|] neo]; res_inv; [|done]. destruct a0 as [u t1]. res_inv. by apply quiet_add in E1.
Qed.

(** *** Coming to the end *)

Lemma entered_own (s s' : life) : own_step s s' -> entered (net s) -> entered (net s').
Proof.
  unfold entered. intros [t n t' n' ws m Hn|t n ws i w t' w' m Hi Hw] [H1 H2]; cbn in *; [|done]. by destruct Hn.
Qed.

(** Each thread as [_NotifyNetThreadsStop] finds or leaves it. *)
Definition stop_phase (pl : serve_place) (i : nat) (a : bool) (s : life) : Prop :=
  match pl with
  | Stopping k => ((i < k)%nat -> a = false) /\ ((k <= i)%nat -> main s = MServing)
  | Notifying k => ((i < k)%nat -> a = false) /\ (i = k -> main s = MStopping /\ stop_inv s) /\ ((k < i)%nat -> main s = MServing)
  | InJoin k => ((i < k)%nat -> a = false) /\ (i = k -> main s = MStopped /\ stop_inv s) /\ ((k < i)%nat -> main s = MServing)
  | Finished => a = false
  | Starting _ | Serving => False
  end.

Definition place_bound (pl : serve_place) (n : nat) : Prop :=
  match pl with
  | Stopping k => (k <= n)%nat
  | Notifying k | InJoin k => (k < n)%nat
  | Starting _ | Serving => False
  | Finished => True
  end.

Record stop_run (v : srv) : Prop := {
  sr_bound : place_bound (place v) (length (lives v));
  sr_lives : forall i a s, lives v !! i = Some (a, s) -> notes_inv s /\ entered (net s) /\ stop_phase (place v) i a s
}.

(** A step that changes one thread and the place. *)
Lemma stop_run_update (ls : list (bool * life)) (pl pl' : serve_place) (i : nat) (a' : bool) (s' : life) :
  stop_run (mkSrv ls pl) -> place_bound pl' (length ls) -> notes_inv s' -> entered (net s') -> stop_phase pl' i a' s' ->
  (forall j a s, j <> i -> stop_phase pl j a s -> stop_phase pl' j a s) ->
  stop_run (mkSrv (<[i := (a', s')]> ls) pl').
Proof.
  intros [Hb Hl] Hb' Hn He Hp Ho. cbn in *. split; cbn; [by rewrite length_insert|]. intros j a s Hj.
  destruct (decide (j = i)) as [->|Hne].
  - rewrite list_lookup_insert_eq in Hj; [by injection Hj as <- <-|].
    apply lookup_lt_Some in Hj. by rewrite length_insert in Hj.
  - rewrite list_lookup_insert_ne in Hj by done. destruct (Hl _ _ _ Hj) as (H1 & H2 & H3). by auto.
Qed.

Lemma stop_phase_own (pl : serve_place) (i : nat) (a : bool) (s s' : life) :
  own_step s s' -> stop_phase pl i a s -> stop_phase pl i a s'.
Proof.
  intros [Hs Hm]%own_life. assert (Hst : stop_inv s -> stop_inv s') by by apply stop_inv_step.
  destruct pl; cbn; rewrite ?Hm; naive_solver.
Qed.

Lemma stop_run_step (v v' : srv) : srv_step v v' -> stop_run v -> stop_run v'.
Proof.
  intros Hs Hrun. pose proof Hrun as [Hb Hl]. destruct Hs as [ls pl i a s s' Hi Ho|ls i a t ws m Hi|ls|ls i a t t' n ws m Hi Hsig|ls
    |ls i a t n ws Hi|ls i a t n ws Hi|ls i a s Hi He|ls]; cbn in *; try done.
  - destruct (Hl _ _ _ Hi) as (Hn & Hen & Hp). eapply stop_run_update; [done|done|..|done].
    + eapply notes_inv_step; [|done]. by apply own_life.
    + by eapply entered_own.
    + by eapply stop_phase_own.
  - pose proof (lookup_lt_Some _ _ _ Hi). destruct (Hl _ _ _ Hi) as (Hn & Hen & Hp1 & Hp2).
    eapply stop_run_update; [done|done|..].
    + eapply notes_inv_step; [|done]. apply step_stop. apply Hen.
    + done.
    + cbn. split; [lia|]. split; [|lia]. intros _. by split.
    + cbn. intros j b x Hj [H1 H2]. split_and!; [done|done|]. intros. apply H2. lia.
  - pose proof (lookup_lt_Some _ _ _ Hi). destruct (Hl _ _ _ Hi) as (Hn & Hen & Hp1 & Hp2 & Hp3).
    eapply stop_run_update; [done|done|..].
    + eapply notes_inv_step; [|done]. apply step_stopped.
    + done.
    + cbn. split; [lia|]. split; [|lia]. intros _. split; [done|].
      eapply stop_inv_step; [apply step_stopped|]. by apply Hp2.
    + cbn. intros j b x Hj (H1 & H2 & H3). split_and!; [done|done|done].
  - pose proof (lookup_lt_Some _ _ _ Hi). destruct (Hl _ _ _ Hi) as (Hn & Hen & Hp1 & Hp2 & Hp3).
    eapply stop_run_update; [done|cbn; lia|done|done|..]; cbn; [split; [done|lia]|].
    intros j b x Hj (H1 & H2 & H3). split; [intros; apply H1; lia|intros; apply H3; lia].
  - split; [done|]. cbn. intros i a s Hi. destruct (Hl _ _ _ Hi) as (Hn & Hen & Hp1 & _). split_and!; [done..|].
    apply Hp1. by eapply lookup_lt_Some.
Qed.

Lemma stop_run_reachable (v v' : srv) : rtc srv_step v v' -> stop_run v -> stop_run v'.
Proof. induction 1 as [|v1 v2 v3 Hs _ IH]; [done|]. intros H. by eapply IH, stop_run_step. Qed.

(** *** Every run of [_NotifyNetThreadsStop] is finite *)

(** Each step is one towards the end or one of another thread. *)
Lemma stop_run_split (v v' : srv) : stop_run v -> srv_step v v' -> ending_step v v' \/ other_step v v'.
Proof.
  intros [Hb _] Hs. pose proof Hs as Hs'. destruct Hs' as [ls pl i a s s' Hi Ho| | | | | | | |]; cbn in *; try done;
    [|left; by apply ending_main..].
  destruct (decide (pl = InJoin i)) as [->|Hne]; [left; by eapply ending_joined|right; by eapply other_thread].
Qed.

Lemma ending_srv (v v' : srv) : ending_step v v' -> srv_step v v'.
Proof. intros [v1 v2 Hs _|ls i a s s' Hi Ho]; [done|by eapply srv_thread]. Qed.

Lemma other_srv (v v' : srv) : other_step v v' -> srv_step v v'.
Proof. intros [ls pl i a s s' _ Hi Ho]. by eapply srv_thread. Qed.

(** What is left: the places the main thread has still to pass, then the steps of
    the thread it is joining. *)
Definition places_left (pl : serve_place) (n : nat) : nat :=
  match pl with
  | Stopping k => 3 * (n - k) + 1
  | Notifying k => 3 * (n - k)
  | InJoin k => 3 * (n - k) - 1
  | Starting _ | Serving | Finished => 0
  end.

Definition joined_left (v : srv) : nat * (nat * (nat * nat)) :=
  match place v with
  | InJoin i => from_option (fun x => measure x.2) (0, (0, (0, 0)))%nat (lives v !! i)
  | _ => (0, (0, (0, 0)))%nat
  end.

Definition left_over (v : srv) := (places_left (place v) (length (lives v)), joined_left v).

Lemma other_left (v v' : srv) : other_step v v' -> left_over v' = left_over v.
Proof.
  intros [ls pl i a s s' Hne Hi Ho]. unfold left_over, joined_left. cbn. rewrite length_insert. f_equal.
  destruct pl; try done. rewrite list_lookup_insert_ne; [done|congruence].
Qed.

Lemma ending_smaller (v v' : srv) : ending_step v v' -> stop_run v -> lex lt smaller (left_over v') (left_over v).
Proof.
  intros [v1 v2 Hs Hne|ls i a s s' Hi Ho] [Hb Hl].
  - left. destruct Hs as [| | | | |ls i a t n ws Hi|ls i a t n ws Hi|ls i a s Hi He|ls]; cbn in *; try done;
      rewrite ?length_insert; try (apply lookup_lt_Some in Hi); lia.
  - destruct (Hl _ _ _ Hi) as (_ & _ & _ & Hp & _). destruct (Hp eq_refl) as [_ Hst].
    right. unfold left_over, joined_left. cbn. rewrite length_insert, Hi. split; [done|].
    rewrite list_lookup_insert_eq by (by eapply lookup_lt_Some). by apply own_smaller.
Qed.

Lemma rtc_other (v v' : srv) : rtc other_step v v' -> stop_run v -> stop_run v' /\ left_over v' = left_over v.
Proof.
  induction 1 as [v|v v1 v2 Ho _ IH]; [done|]. intros Hr.
  destruct IH as [H1 H2]; [by eapply stop_run_step; [apply other_srv|]|]. split; [done|]. rewrite H2. by apply other_left.
Qed.

Lemma ending_terminates (v : srv) : stop_run v -> Acc (fun v' v => ending_after v v') v.
Proof.
  remember (left_over v) as x eqn:Ex. revert v Ex. induction (lex_wf _ _ lt_wf smaller_wf x) as [x _ IH]. intros v -> Hr.
  constructor. intros v' (u & Hu & He). destruct (rtc_other _ _ Hu Hr) as [Hru Hlu].
  eapply IH; [rewrite <- Hlu; by apply ending_smaller|done|]. by eapply stop_run_step; [apply ending_srv|].
Qed.

(** And the main thread, or the thread it is joining, can make one. *)
Lemma ending_progress (v : srv) : stop_run v -> place v <> Finished -> exists v', ending_step v v'.
Proof.
  destruct v as [ls pl]. intros [Hb Hl] Hne. cbn in *. destruct pl as [| |k|k|k|]; try done; cbn in Hb.
  - destruct (decide (k = length ls)) as [->|Hk]; [eexists; by apply ending_main; [apply srv_finished|]|].
    destruct (lookup_lt_is_Some_2 ls k) as ([a [t n ws m]] & Hi); [lia|].
    destruct (Hl _ _ _ Hi) as (_ & _ & _ & Hm). specialize (Hm ltac:(done)). cbn in Hm. subst m.
    eexists. by apply ending_main; [by eapply srv_clear|].
  - destruct (lookup_lt_is_Some_2 ls k Hb) as ([a [t n ws m]] & Hi).
    destruct (Hl _ _ _ Hi) as (_ & _ & _ & Hp & _). destruct (Hp eq_refl) as [Hm _]. cbn in Hm. subst m.
    eexists. by apply ending_main; [by eapply srv_notify|].
  - destruct (lookup_lt_is_Some_2 ls k Hb) as ([a s] & Hi).
    destruct (Hl _ _ _ Hi) as (Hn & _ & _ & Hp & _). destruct (Hp eq_refl) as [_ Hst].
    destruct (decide (rank (net s) = 0%nat)) as [He|Hr].
    + eexists. apply ending_main; [eapply srv_joined; [done|by destruct (net s)]|done].
    + destruct (own_progress s Hst Hn) as [s' Ho]; [by destruct (net s)|]. eexists. by eapply ending_joined.
Qed.

(** Up to the loop, every thread serves. *)
Definition serve_run (v : srv) : Prop :=
  match place v with
  | Starting _ | Serving => forall i a s, lives v !! i = Some (a, s) -> notes_inv s /\ main s = MServing
  | _ => True
  end.

Lemma lookup_insert_case {A} (l : list A) (i j : nat) (x y : A) :
  <[i := x]> l !! j = Some y -> y = x \/ l !! j = Some y.
Proof. intros H. apply list_lookup_insert_Some in H. naive_solver. Qed.

Lemma serve_run_step (v v' : srv) : srv_step v v' -> serve_run v -> serve_run v'.
Proof.
  intros Hs Hl. unfold serve_run in *. destruct Hs as [ls pl i a s s' Hi Ho|ls i a t ws m Hi|ls|ls i a t t' n ws m Hi (Q1 & Q2 & Q3)|ls
    |ls i a t n ws Hi|ls i a t n ws Hi|ls i a s Hi He|ls]; cbn in *; try done.
  - destruct pl; try done; intros j b x [[= -> ->]|Hj]%lookup_insert_case; try (by eapply Hl);
      destruct (Hl _ _ _ Hi) as [Hn Hm], (own_life _ _ Ho) as [Hs Hm']; (split; [by eapply notes_inv_step|congruence]).
  - intros j b x [[= -> ->]|Hj]%lookup_insert_case; [|by eapply Hl]. destruct (Hl _ _ _ Hi) as [Hn Hm].
    split; [|done]. eapply notes_inv_step; [apply step_start|done].
  - intros j b x [[= -> ->]|Hj]%lookup_insert_case; [|by eapply Hl]. destruct (Hl _ _ _ Hi) as [[N1 N2 N3] Hm].
    split; [|done]. split; cbn in *; rewrite ?Q1, ?Q3; done.
Qed.

Lemma serve_run_reachable (v v' : srv) : rtc srv_step v v' -> serve_run v -> serve_run v'.
Proof. induction 1 as [|v1 v2 v3 Hs _ IH]; [done|]. intros H. by eapply IH, serve_run_step. Qed.

Lemma srv_initial_run (v : srv) : srv_initial v -> serve_run v.
Proof.
  intros [Hp Hf]. unfold serve_run. rewrite Hp. intros i a s Hi.
  apply (Forall_lookup_1 _ _ _ _ Hf) in Hi as [_ Hi]. split; [by apply initial_notes|]. apply Hi.
Qed.

(** ** Theorems *)

(** C12: The end of [Serve]. If every network thread has entered [Run] when the loop of
    [Serve] is left, then in every state reached from there, whatever the threads
    do: each step is one towards the end (one of the main thread, or of the thread
    it is joining) or one of another thread; only finitely many steps towards the
    end are left, however many steps of other threads come between them; and until
    [Serve] has come to its end one of them is possible. A thread being joined that
    is in [EpollWait] has a notification pending. When [Serve] has come to its end,
    every network thread and every worker has ended, and every object is deleted. *)
Theorem serve_ends (v0 v v1 v2 : srv)
    (H0 : srv_initial v0) (Hr : rtc srv_step v0 v) (Hp : place v = Serving)
    (Hent : Forall (fun x => entered (net x.2)) (lives v))
    (Hs : srv_step v v1) (Hp1 : place v1 = Stopping 0) (Hr2 : rtc srv_step v1 v2) :
  (forall v3, srv_step v2 v3 -> ending_step v2 v3 \/ other_step v2 v3) /\
  Acc (fun v' v => ending_after v v') v2 /\
  (place v2 <> Finished -> exists v3, ending_step v2 v3) /\
  (forall i a s, place v2 = InJoin i -> lives v2 !! i = Some (a, s) -> waiting (net s) = true ->
    epoll_notify_ (thr s) <> None) /\
  (place v2 = Finished ->
    Forall (fun x => x.1 = false /\ net x.2 = Ended /\ Forall (eq WEnded) (workers x.2)) (lives v2)).
Proof.
  pose proof (serve_run_reachable _ _ Hr (srv_initial_run _ H0)) as Hrun. unfold serve_run in Hrun. rewrite Hp in Hrun.
  assert (Hstop : stop_run v1).
  { destruct Hs as [ls pl i a s s' Hi Ho| | | |ls| | | |]; cbn in *; try congruence.
    split; cbn; [lia|]. intros i a s Hi. destruct (Hrun _ _ _ Hi) as [Hn Hm].
    split; [done|]. split; [by apply (Forall_lookup_1 _ _ _ _ Hent) in Hi|]. cbn. split; [lia|done]. }
  pose proof (stop_run_reachable _ _ Hr2 Hstop) as Hstop2. pose proof Hstop2 as [_ Hl].
  split_and!.
  - intros v3. by apply stop_run_split.
  - by apply ending_terminates.
  - by apply ending_progress.
  - intros i a s Hpl Hi Hw. destruct (Hl _ _ _ Hi) as (_ & _ & Hph). rewrite Hpl in Hph.
    destruct Hph as (_ & Hph & _). destruct (Hph eq_refl) as [Hm Hst]. by apply (st_wakes _ Hst).
  - intros Hf. assert (Hinv : srv_inv v2).
    { eapply srv_reachable_inv; [|by apply srv_initial_inv]. etrans; [done|]. by eapply rtc_l. }
    apply Forall_lookup_2. intros i [a s] Hi. destruct (Hl _ _ _ Hi) as (_ & _ & Hph). rewrite Hf in Hph. cbn in Hph. subst a.
    split_and!; [done|by eapply sv_ended|]. eapply sv_joined; [done..|]. by eapply sv_ended.
Qed.

Lemma make_workers_lookup (n i cnt k : nat) (q : Z) :
  (k < n)%nat ->
  (make_workers n i cnt q).1 !! k = Some (mkWorker (Some ((i + k) mod cnt)%nat) (q + Z.of_nat k + 1) false).
Proof.
  revert i q k. induction n as [|n IH]; intros i q k Hk; [lia|]. cbn.
  specialize (IH (S i) (q + 1)). destruct (make_workers n (S i) cnt (q + 1)) as [ws q'] eqn:E.
  destruct k as [|k]; [cbn [fst lookup list_lookup]|etrans; [apply (IH k); lia|]];
    do 2 f_equal; [f_equal; f_equal; lia|lia|f_equal; f_equal; lia|lia].
Qed.

(** The workers created by [SetWorker] are numbered from 1, worker [k] is bound to
    the network thread [(k - 1) % net_thread_cnt], finds that thread when it
    starts, and its [NotifyStop] terminates the queue of that thread and no
    other. *)
Theorem workers_bound (n cnt k : nat) (ts : list NetThread) (Hk : (k < n)%nat) (Hc : (0 < cnt)%nat)
    (Hts : length ts = cnt) :
  exists w t, (make_workers n 0 cnt 0).1 !! k = Some w /\ GetWorkerSeqNum w = Z.of_nat k + 1 /\
    ts !! (k mod cnt)%nat = Some t /\ worker_Run_start w ts = Ok (w, Some t) /\
    exists ts', worker_NotifyStop w ts = Ok ts' /\
      forall j u, ts' !! j = Some u ->
        if decide (j = (k mod cnt)%nat) then recv_closed u else ts !! j = Some u.
Proof.
  destruct (lookup_lt_is_Some_2 ts (k mod cnt)) as (t & Ht); [rewrite Hts; by apply Nat.mod_upper_bound; lia|].
  eexists _, t. rewrite make_workers_lookup by done. split_and!; [done|cbn; lia|done|cbn; by rewrite Ht|].
  unfold worker_NotifyStop. cbn. rewrite Ht. cbn. eexists. split; [done|]. intros j u Hj.
  apply list_lookup_insert_Some in Hj. case_decide; naive_solver.
Qed.

(** ** Witnesses *)

(** Two threads, of which both have entered [Run]. *)
Definition demo_srv (n : net_place) (pl : serve_place) : srv :=
  let t := match n with NotStarted => new_NetThread | _ => Start new_NetThread end in
  mkSrv [(true, mkLife t n [WIdle] MServing); (true, mkLife t n [WIdle] MServing)] pl.

Lemma demo_srv_initial : srv_initial (demo_srv NotStarted (Starting 0)).
Proof. split; [done|]. repeat constructor; done. Qed.

Lemma demo_srv_serving : rtc srv_step (demo_srv NotStarted (Starting 0)) (demo_srv (Looping 3) Serving).
Proof.
  eapply rtc_l; [by eapply (srv_start _ 0)|]. eapply rtc_l; [by eapply (srv_start _ 1)|].
  eapply rtc_l; [apply (srv_started [_; _])|].
  eapply rtc_l; [eapply (srv_thread _ _ 0); [done|]; apply own_net, net_enter|].
  eapply rtc_l; [eapply (srv_thread _ _ 1); [done|]; apply own_net, net_enter|]. apply rtc_refl.
Qed.

(** The loop is left, and the first thread told to stop while both are in their loops. *)
Lemma serve_ends_witness :
  let v2 := mkSrv [(true, mkLife (notify_stop (clear_running (Start new_NetThread))) (Looping 3) [WIdle] MStopped);
                   (true, mkLife (Start new_NetThread) (Looping 3) [WIdle] MServing)] (InJoin 0) in
  Acc (fun v' v => ending_after v v') v2 /\ exists v3, ending_step v2 v3.
Proof.
  intros v2.
  destruct (serve_ends (demo_srv NotStarted (Starting 0)) (demo_srv (Looping 3) Serving) (demo_srv (Looping 3) (Stopping 0)) v2
    demo_srv_initial demo_srv_serving) as (_ & Ha & He & _).
  - reflexivity.
  - repeat constructor; discriminate.
  - apply srv_leave.
  - reflexivity.
  - eapply rtc_l; [by eapply (srv_clear _ 0)|]. apply rtc_once.
    exact (srv_notify [(true, mkLife (clear_running (Start new_NetThread)) (Looping 3) [WIdle] MStopping);
                       (true, mkLife (Start new_NetThread) (Looping 3) [WIdle] MServing)] 0 true _ _ _ eq_refl).
  - split; [exact Ha|]. apply He. discriminate.
Defined.

Lemma workers_bound_witness :
  exists w t, (make_workers 3 0 2 0).1 !! 2%nat = Some w /\ GetWorkerSeqNum w = 3 /\
    [new_NetThread; new_NetThread] !! 0%nat = Some t /\ worker_Run_start w [new_NetThread; new_NetThread] = Ok (w, Some t) /\
    exists ts', worker_NotifyStop w [new_NetThread; new_NetThread] = Ok ts' /\
      forall j u, ts' !! j = Some u ->
        if decide (j = 0%nat) then recv_closed u else [new_NetThread; new_NetThread] !! j = Some u.
Proof. apply (workers_bound 3 2 2 [new_NetThread; new_NetThread]); [lia|lia|reflexivity]. Defined.

End ServerLife.
