(* ===== verification/ServerObjects.v ===== *)
(** * Objects of a server: construction, defaults, destruction

    The virtual methods [ServerBase] and [ApplicationProtocolParser] implement
    themselves, and what happens to the objects a network thread owns when the
    thread is deleted: the notifier leaves epoll, the manager deletes its
    connections, and each connection marks the packets that still point to it. *)
From stdpp Require Import gmap.
From S2P Require Import Prelude CLib AutoBuffer FirstLine HeaderField HttpPacket WebSocket UnixSocket SocketEpoll TcpConnection.
From S2P Require Import ServerBase NetThreadTheory ServerConfig EventLoop.

Module ServerObjects.
Import TcpConnection ServerBase NetThreadTheory.

(** ** Definitions *)

(** *** Defaults *)

(** [ServerBase::BeforeConfig], [LoopingEpollWait], [EpollLoopInterval], [_MakeConfig],
    [_CustomConfig]: what a server does unless its class says otherwise. *)
Definition base_BeforeConfig {A} (s : A) : A := s.
Definition base_LoopingEpollWait {A} (ts : list A) : res (list A) := Ok ts.
Definition base_EpollLoopInterval : Z := 30 * 1000.
Definition base_MakeConfig : ServerConfig.ServerConfigBase := ServerConfig.mkConfig 0 0 0 false.
Definition base_CustomConfig {E} (_ : list YamlUtil.YamlUtil.Node) (_ : ServerConfig.ServerConfigBase) (e : E)
    : res (bool * E) := Ok (true, e).

(** [ServerBase::_IsNotifyStop] *)
Definition _IsNotifyStop (note : SocketEpoll.Notification) : bool :=
  SocketEpoll.Notification_eqb note (SocketEpoll.new_Notification (Z.of_nat notification_stop_)).

(** [ApplicationProtocolParser]: [IsUpgradeProtocol], [ProtocolUpgradeTo]; a packet
    that does not say how to make a new one makes none. *)
Definition base_IsUpgradeProtocol : bool := false.
Definition base_ProtocolUpgradeTo : TApplicationProtocol := kNone.
Definition base_AllocNewPacket {A} : option A := None.

(** [SetPacketToParse]; the new packet is announced to the subclass. *)
Definition SetPacketToParse {A B} (OnApplicationPacketChanged : B -> A -> B) (p : option A * B) (neo : A)
    : option A * B :=
  (Some neo, OnApplicationPacketChanged p.2 neo).

Definition base_OnApplicationPacketChanged {A B} (p : B) (_ : A) : B := p.

(** [ApplicationProtoToString]; the array has one entry per protocol. *)
Definition ApplicationProtoToString : list bytes :=
  [str "Application Protocol Unknown"; str "Http 1.1"; str "Http 2.0"; str "Http 3.0"; str "WebSocket"].

(** The value of the enumerator. *)
Definition proto_index (p : TApplicationProtocol) : nat :=
  match p with kNone => 0 | kHttp1_1 => 1 | kHttp2_0 => 2 | kHttp3_0 => 3 | kWebSocket => 4 end.

(** [ConnectionProfile::ApplicationProtocolName] *)
Definition ApplicationProtocolName {P} (c : ConnectionProfile P) : res bytes :=
  match ApplicationProtoToString !! proto_index (application_protocol_ c) with
  | Some s => Ok s
  | None => Fault Undefined
  end.

(** *** Destruction *)

Section Destroy.
Context {P D : Type} `{TcpConnection.ApplicationProtocolParser P}.
Abbreviation Conn := (ConnectionProfile P).

(** [~ConnectionManager]: the loop over the pool. *)
Fixpoint delete_conns (l : list (option Conn)) (m : memory) : list (option Conn) * memory :=
  match l with
  | [] => ([], m)
  | Some c :: l => let '(l, m) := delete_conns l (destroy c m) in (None :: l, m)
  | None :: l => let '(l, m) := delete_conns l m in (None :: l, m)
  end.

Definition destroy_manager (mgr : ConnectionManager Conn) (m : memory) : ConnectionManager Conn * memory :=
  let '(l, m) := delete_conns (items (pool_ mgr)) m in
  (mkManager (mkVec l (cap (pool_ mgr))) (free_places_ mgr) (epoll_ mgr), m).

(** [~NetThreadBase]: the connections of the thread are deleted with their
    manager. *)
Definition destroy_NetThreadBase (t : NetThreadBase P D) : NetThreadBase P D :=
  let '(mgr, m) := destroy_manager (connection_manager_ t) (memory_ t) in
  mkThread mgr (max_connections_ t) m (running_ t) (epoll_notify_ t) (derived_ t).

End Destroy.

(** [~SocketEpoll]: the descriptor that is closed, if any. *)
Definition destroy_SocketEpoll (e : SocketEpoll.SocketEpoll) : SocketEpoll.SocketEpoll * option Z :=
  (SocketEpoll.mkEpoll (-1) (SocketEpoll.listen_fd_ e) [] (SocketEpoll.errno_ e) (SocketEpoll.interest_ e),
   if SocketEpoll.epoll_fd_ e =? -1 then None else Some (SocketEpoll.epoll_fd_ e)).

(** ** Lemmas *)

Section Lemmas.
Context {P D : Type} `{TcpConnection.ApplicationProtocolParser P}.
Abbreviation Conn := (ConnectionProfile P).

Lemma delete_conns_pool (l : list (option Conn)) (m : memory) : (delete_conns l m).1 = replicate (length l) None.
Proof.
  revert m. induction l as [|[c|] l IH]; intros m; cbn; [done|..].
  - specialize (IH (destroy c m)). destruct (delete_conns l (destroy c m)). cbn in *. by rewrite IH.
  - specialize (IH m). destruct (delete_conns l m). cbn in *. by rewrite IH.
Qed.

(** The contexts the connections of a pool have made. *)
Definition made (l : list (option Conn)) : list nat := omap id l ≫= send_contexts_.

(** A context is marked if one of the connections that are deleted made it; the
    rest of it stays. *)
Lemma delete_conns_meta (l : list (option Conn)) (m : memory) (p : nat) :
  meta_of (delete_conns l m).2 p =
    if decide (p ∈ made l) then (fun x => (x.1, false)) <$> meta_of m p else meta_of m p.
Proof.
  revert m. induction l as [|[c|] l IH]; intros m; cbn [delete_conns].
  - by case_decide as Hx; [apply elem_of_nil in Hx|].
  - specialize (IH (destroy c m)). destruct (delete_conns l (destroy c m)) as [l' m']. cbn [snd] in *.
    rewrite IH, destroy_meta. change (made (Some c :: l)) with (send_contexts_ c ++ made l).
    repeat case_decide; rewrite ?elem_of_app in *; try naive_solver. by destruct (meta_of m p) as [[[??]?]|].
  - specialize (IH m). destruct (delete_conns l m) as [l' m']. cbn [snd] in *. exact IH.
Qed.

Lemma made_live (mgr : ConnectionManager Conn) (u p : nat) (c : Conn) :
  live mgr !! u = Some c -> p ∈ send_contexts_ c -> p ∈ made (items (pool_ mgr)).
Proof.
  rewrite live_lookup_Some. intros Hu Hp. unfold made. apply list_elem_of_bind. exists c. split; [done|].
  apply list_elem_of_omap. exists (Some c). split; [by eapply list_elem_of_lookup_2|done].
Qed.

End Lemmas.

(** ** Theorems *)

(** Deleting a network thread, whatever it was doing: afterwards no connection is
    in its pool, and every packet that was still on its way, in a queue or with a
    worker, is marked as one whose connection is gone; sequence numbers and owners
    of the packets are as before. *)
Theorem thread_teardown {P D : Type} `{ApplicationProtocolParser P} (Q : list nat) (t : NetThreadBase P D)
    (Hinv : base_inv Q t) :
  let t' := destroy_NetThreadBase t in
  conns t' = ∅ /\ length (items (pool_ (connection_manager_ t'))) = length (items (pool_ (connection_manager_ t))) /\
  (forall p, p ∈ Q -> stale t' p) /\
  (forall p, fst <$> meta_of (memory_ t') p = fst <$> meta_of (memory_ t) p).
Proof.
  cbv zeta. unfold destroy_NetThreadBase, destroy_manager.
  pose proof (delete_conns_pool (items (pool_ (connection_manager_ t))) (memory_ t)) as Hp.
  pose proof (delete_conns_meta (items (pool_ (connection_manager_ t))) (memory_ t)) as Hm.
  destruct (delete_conns _ (memory_ t)) as [l m]. cbn in Hp, Hm. subst l. split_and!.
  - apply map_eq. intros u. rewrite lookup_empty. apply eq_None_not_Some. intros (c & E).
    unfold conns in E. apply live_lookup_Some in E. cbn in E. by apply lookup_replicate in E as [? _].
  - cbn. by rewrite length_replicate.
  - intros p Hq. unfold stale. cbn. rewrite Hm.
    destruct (ci_queue _ _ _ (bi_ctx _ _ Hinv) p Hq) as (s & a & v & Hv & Hown). rewrite Hv. exists s, a.
    case_decide as Hd; [done|]. destruct v; [|done]. destruct (Hown eq_refl) as (u & c & Hu & _ & Hs & _).
    destruct Hd. by eapply made_live.
  - intros p. cbn [memory_]. rewrite Hm. case_decide; [|done]. by destruct (meta_of (memory_ t) p) as [[[??]?]|].
Qed.

(** Every protocol has a name. *)
Theorem protocol_named {P} (c : ConnectionProfile P) : exists s, ApplicationProtocolName c = Ok s.
Proof. unfold ApplicationProtocolName. destruct (application_protocol_ c); by eexists. Qed.

(** The parser of responses has the methods of the base class. *)
Lemma response_parser_defaults (p : HttpPacket.HttpParser FirstLine.StatusLine) :
  parser_IsUpgrade p = base_IsUpgradeProtocol /\ parser_UpgradeTo p = base_ProtocolUpgradeTo.
Proof. done. Qed.

End ServerObjects.
