(* ===== verification/WebLoop.v ===== *)
(** * The web server's threads at work (webserver.cc, serverbase.cc)

    The network thread of the web server meets the interface of the event loop,
    so that all its objects stay consistent over any interleaving of accepted
    connections, events, workers and notifications. *)
From stdpp Require Import gmap fin_maps relations.
From S2P Require Import Prelude CLib StdMap AutoBuffer FirstLine HeaderField HttpPacket WebSocket MessageQueue.
From S2P Require Import UnixSocket SocketEpoll TcpConnection ServerBase NetThreadTheory ServerConfig EventLoop WebServer.

Module WebLoop.
Import TcpConnection ServerBase NetThreadTheory WebServer.

(** ** The interface of the event loop *)

#[export] Instance web_parser_laws : ParserLaws web_parser.
Proof.
  intros [h|w] b; cbn [parser_DoParse web_protocol_parser].
  - pose proof (parser_safe h b). solve_safe.
  - pose proof (parser_safe w b). solve_safe.
Qed.

(** The contexts a web thread holds: those the packets in the receive queue are
    to be answered with, and those in the send queue. *)
Definition outstanding (d : web_thread) : list nat :=
  omap rc_return_packet (MessageQueue.container_ (recv_queue_ d)) ++
  omap id (MessageQueue.container_ (send_queue_ d)).

Abbreviation web_inv t := (net_inv (outstanding (derived_ t)) t).

(** The invariant does not depend on the members of the derived class. *)
Lemma net_inv_derived (Q : list nat) (t : NetThread) (d : web_thread) :
  net_inv Q t -> net_inv Q (set_derived t d).
Proof. intros [Hm Hi Hv]. by split. Qed.

Lemma net_inv_drop (Q Q' : list nat) (t : NetThread) : net_inv Q t -> Q' ⊆+ Q -> net_inv Q' t.
Proof. intros [Hm Hi Hv] Hs. split; [done| |done]. by eapply ctx_inv_drop. Qed.

(** Pushing adds at most the new element. *)
Lemma push_back_cases {T} (q : MessageQueue.ThreadSafeDeque T) (v : T) :
  MessageQueue.container_ (MessageQueue.push_back q v).2 = MessageQueue.container_ q \/
  MessageQueue.container_ (MessageQueue.push_back q v).2 = MessageQueue.container_ q ++ [v].
Proof. unfold MessageQueue.push_back. destruct (_ <? _); auto. Qed.

Lemma config_links (c : Conn) (p : web_parser) :
  match TcpConnection.ConfigApplicationLayer c p with
  | Ok c' => same_links c c' /\ conn_Uid c' = conn_Uid c /\ conn_FD c' = conn_FD c
  | Fault f => f <> Dangling
  end.
Proof. unfold TcpConnection.ConfigApplicationLayer. by destruct (_ && _). Qed.

Lemma packet_kept (rc : RecvContext) (t : NetThread) (c : Conn) :
  let u := Z.to_nat (rc_tcp_connection_uid rc) in
  net_inv (option_list (rc_return_packet rc) ++ outstanding (derived_ t)) t -> conns t !! u = Some c ->
  match HandleApplicationPacket rc t with
  | Ok (deleted, t') =>
      web_inv t' /\ others_kept u t t' /\
      (deleted = false -> exists c', conns t' !! u = Some c' /\ this_ c' = this_ c) /\
      (next_ (memory_ t') <= next_ (memory_ t) + 2)%nat
  | Fault f => f <> Dangling
  end.
Proof.
  intros u Hnet Hc. unfold HandleApplicationPacket. fold u.
  assert (exists r : res bool, (if IsWorkerFullyLoad t then Ok false else acceptable rc) = r /\ r <> Fault Dangling) as (r & -> & Hr).
  { eexists. split; [done|]. unfold acceptable. destruct (IsWorkerFullyLoad t), (rc_application_packet rc) as [[]|]; done. }
  destruct r as [[|]|f]; cbn [mbind res_bind]; [..|congruence].
  - destruct (MessageQueue.push_back (recv_queue_ (derived_ t)) rc) as [b q] eqn:Eq.
    split_and!; [|intros v d _ Hd; eauto|eauto|cbn; lia]. apply net_inv_derived. cbn [set_recv_queue derived_ set_derived].
    eapply net_inv_drop; [done|]. unfold outstanding at 1. cbn [recv_queue_ send_queue_].
    pose proof (push_back_cases (recv_queue_ (derived_ t)) rc) as Hp. rewrite Eq in Hp. cbn [snd] in Hp.
    unfold outstanding. destruct Hp as [-> | ->].
    + by apply submseteq_inserts_l.
    + rewrite omap_app. cbn [omap list_omap].
      assert (match rc_return_packet rc with Some y => [y] | None => [] end = option_list (rc_return_packet rc)) as ->
        by (by destruct (rc_return_packet rc)).
      rewrite <- app_assoc. solve_submseteq.
  - destruct (net_del t _ u c Hnet Hc) as (t' & -> & Hnet' & Hl & Hn & Hd & _). cbn [mbind res_bind].
    rewrite Hd. split_and!; [|by apply kept_delete|done|lia]. eapply net_inv_drop; [done|]. by apply submseteq_inserts_l.
Qed.

Lemma omap_Some (ps : list nat) : omap id (Some <$> ps) = ps.
Proof. induction ps as [|p ps IH]; [done|]. cbn. f_equal. exact IH. Qed.

(** The contexts in the send queue are sent one after the other, up to the first
    whose connection is gone: there the message logged reads a socket that is
    gone. *)
Lemma send_loop_spec (fuel : nat) (t : NetThread) (ws : list UnixSocket.write_result) (now : Z)
    (l : list (option nat)) :
  web_inv t -> MessageQueue.container_ (send_queue_ (derived_ t)) = l ->
  MessageQueue.terminated_ (send_queue_ (derived_ t)) = false -> (length l < fuel)%nat ->
  (exists p, Some p ∈ l /\ stale t p /\ send_loop fuel t ws now = Fault Dangling) \/
  (None ∈ l /\ send_loop fuel t ws now = Fault Undefined) \/
  (Forall (fun p => ~ stale t p) (omap id l) /\ exists t' outs, send_loop fuel t ws now = Ok (t', outs) /\
     Some <$> outs.*1 = l /\
     net_inv (omap rc_return_packet (MessageQueue.container_ (recv_queue_ (derived_ t)))) t' /\
     next_ (memory_ t') = next_ (memory_ t) /\
     derived_ t' = mkWebThread (recv_queue_ (derived_ t)) (max_backlog_ (derived_ t))
                     (MessageQueue.mkQueue (MessageQueue.max_size_ (send_queue_ (derived_ t))) [] false)
                     (workers_ (derived_ t)) /\
     forall v c, conns t !! v = Some c -> exists c', conns t' !! v = Some c' /\ this_ c' = this_ c).
Proof.
  revert t ws l. induction fuel as [|fuel IH]; intros t ws l Hnet Hq Ht Hf; [lia|].
  cbn [send_loop]. unfold MessageQueue.pop_front_to. rewrite Hq, Ht. destruct l as [|[p|] l].
  - right; right. split; [constructor|]. exists t, []. split_and!; try done; [| |eauto].
    + eapply net_inv_drop; [done|]. unfold outstanding. apply submseteq_inserts_r. done.
    + destruct t as [m mc mem run nt [rq mb [ms ct tm] wk]]. cbn in *. by subst.
  - set (t1 := set_send_queue t _).
    set (Q1 := omap rc_return_packet (MessageQueue.container_ (recv_queue_ (derived_ t))) ++ omap id l).
    assert (outstanding (derived_ t) ≡ₚ p :: Q1) as Hperm.
    { unfold outstanding, Q1. rewrite Hq. change (omap id (Some p :: l)) with (p :: omap id l).
      by rewrite Permutation_middle. }
    assert (net_inv (p :: Q1) t1) as Hnet1.
    { apply net_inv_derived. eapply net_inv_drop; [done|]. by rewrite Hperm. }
    cbn [from_option mbind res_bind]. destruct Hnet1 as [Hm1 Hi1 Hv1] eqn:E1.
    destruct (ci_queue _ _ _ Hi1 p) as (s & a & v & Em & Hown); [by left|].
    destruct (meta_ctx _ _ _ Em) as (ctx & Hp & [= Es Ea Ev]). rewrite Hp. cbn [from_option mbind res_bind].
    destruct (net_send t1 Q1 p (default (UnixSocket.WriteErr UnixSocket.EAGAIN) (head ws)) now Hnet1)
      as [[Hst Hsend]|[Hst (d & t2 & out & Hsend & Hnet2 & Hn2 & Hs2 & Hmeta & Hk2)]].
    + left. exists p. split; [by left|]. split; [done|]. unfold socket_FD.
      destruct Hst as (s' & a' & Hst). rewrite Hst in Em. simplify_eq.
      rewrite (conn_at_None t1 (p :: Q1) _ Hi1); [done|]. intros w c Hc. by eapply ci_stale.
    + assert (exists fd, socket_FD t1 ctx = Ok fd) as [fd ->].
      { destruct v; [|by destruct Hst; exists s, a]. destruct (Hown eq_refl) as (w & c & Hw & Hc & _). unfold socket_FD.
        rewrite <- Ea. assert (conn_at t1 a = Some (w, c)) as -> by (by apply (conn_at_live t1 (p :: Q1))). by eexists. }
      cbn [mbind res_bind]. rewrite Hsend. cbn [mbind res_bind]. destruct Hs2 as (Hd2 & _).
      assert (forall q, stale t2 q <-> stale t q) as Hstale by (intros q; unfold stale; by setoid_rewrite Hmeta).
      destruct (IH t2 (tail ws) l) as [(q & Hq1 & Hq2 & ->)|[[Hnl ->]|[Hall (t3 & outs & -> & Ho & Hnet3 & Hn3 & Hd3 & Hk3)]]].
      * rewrite Hd2. eapply net_inv_drop; [exact Hnet2|]. done.
      * by rewrite Hd2.
      * by rewrite Hd2.
      * simpl in Hf. lia.
      * left. exists q. split; [by right|]. split; [by apply Hstale|done].
      * right; left. split; [by right|done].
      * right; right. split.
        { change (omap id (Some p :: l)) with (p :: omap id l). constructor; [done|]. eapply Forall_impl; [exact Hall|]. intros q. cbn. by rewrite Hstale. }
        cbn [mbind res_bind]. exists t3, ((p, out) :: outs). split_and!; [done|cbn; by rewrite Ho|..].
        -- rewrite Hd2 in Hnet3. done.
        -- by rewrite Hn3, Hn2.
        -- rewrite Hd3, Hd2. done.
        -- intros w c Hc. destruct (Hk2 w c Hc) as (c2 & Hc2 & E2). destruct (Hk3 w c2 Hc2) as (c3 & Hc3 & E3).
           exists c3. split; [done|congruence].
  - right; left. split; [by left|done].
Qed.

#[export] Instance web_laws : ThreadLaws web_methods outstanding.
Proof.
  split; cbn [ServerBase.ConfigApplicationLayer ServerBase.UpgradeApplicationProtocol ServerBase.HandleApplicationPacket
              ServerBase.HandleNotification web_methods].
  - intros c Hp. unfold ConfigApplicationLayer. destruct (bool_decide _); [|by exists c].
    pose proof (config_links c (WHttp HttpPacket.new_request)) as Hl.
    unfold TcpConnection.ConfigApplicationLayer in *. rewrite Hp in *. cbn [andb] in *. by eexists.
  - intros c rc. unfold UpgradeApplicationProtocol. destruct (_ && _); [|done].
    destruct (rc_application_packet rc) as [[p|p]|]; [apply config_links|done|done].
  - apply packet_kept.
  - intros d ws now t Hnet. unfold HandleNotification. destruct (__IsNotifySend _); [|done]. unfold HandleSend.
    destruct (MessageQueue.terminated_ (send_queue_ (derived_ t))) eqn:Et.
    { cbn [send_loop]. unfold MessageQueue.pop_front_to. rewrite Et. by destruct (MessageQueue.container_ _). }
    destruct (send_loop_spec (S (length (MessageQueue.container_ (send_queue_ (derived_ t))))) t ws now _ Hnet eq_refl Et
                ltac:(lia)) as [(p & Hp & Hst & ->)|[[_ ->]|(_ & t' & outs & -> & _ & Hnet' & Hn & Hd & _)]].
    + intros _. exists p. split; [|done]. unfold outstanding. apply elem_of_app. right.
      apply list_elem_of_omap. by exists (Some p).
    + done.
    + split; [|done]. rewrite Hd. unfold outstanding. cbn. by rewrite app_nil_r.
Qed.

(** ** Reachable states *)

(** What a worker's handlers may do: fill buffers with bytes of their own. (The
    handlers of the program push no messages to other connections.) *)
Definition handler_ok (Handle : RecvContext -> memory -> res (memory * list (option nat))) : Prop :=
  forall rc m m' others, Handle rc m = Ok (m', others) ->
    others = [] /\ next_ m' = next_ m /\ (forall p, meta_of m' p = meta_of m p) /\ (no_views m -> no_views m').

(** The events of the next turn of [Run], as epoll can report them. *)
Definition turn_allowed (st : EventLoop.run_state) (x : EventLoop.turn unit) : Prop :=
  0 < SocketEpoll.epoll_fd_ (EventLoop.socket_epoll_ st) /\
  forall evs, SocketEpoll.first_answer 9 (EventLoop.waits x) = Some (SocketEpoll.Ready evs) ->
    zlen evs <= SocketEpoll.kMaxFds /\
    (length evs <= length (SocketEpoll.epoll_events_ (EventLoop.socket_epoll_ st)))%nat /\
    EventLoop.batch_ok (fun _ : unit => web_methods) (EventLoop.thread_ st) evs /\
    Z.of_nat (next_ (memory_ (EventLoop.thread_ st))) + 3 * zlen evs < 2 ^ 32.

(** The steps of the threads that use a network thread of the web server, in any
    order: the main thread registers a connection or sends a heartbeat, a worker
    makes a turn of its loop, the thread itself makes a turn of its loop. *)
Inductive web_step : NetThread -> NetThread -> Prop :=
| step_register t fd ip port now taken t' :
    0 < fd -> can_add t fd ->
    RegisterConnection web_methods t fd ip port now = Ok (taken, t') -> web_step t t'
| step_heartbeat Serialize c e t ts x t' ts' out :
    0 < hb_fd x -> can_add t (hb_fd x) -> Z.of_nat (next_ (memory_ t)) + 3 < 2 ^ 32 ->
    SendHeartbeat Serialize c e (t :: ts) x = Ok (t' :: ts', out) -> web_step t t'
| step_worker HandleImpl HandleOverload t next t' :
    handler_ok HandleImpl -> handler_ok HandleOverload ->
    worker_turn HandleImpl HandleOverload t = Ok (next, t') -> web_step t t'
| step_turn st x go_on st' outs :
    turn_allowed st x -> EventLoop.Run_turn (fun _ : unit => web_methods) st x = Ok (go_on, st', outs) ->
    web_step (EventLoop.thread_ st) (EventLoop.thread_ st').

Lemma worker_keeps HandleImpl HandleOverload (t t' : NetThread) (next : worker_next) :
  handler_ok HandleImpl -> handler_ok HandleOverload -> web_inv t ->
  worker_turn HandleImpl HandleOverload t = Ok (next, t') -> web_inv t'.
Proof.
  intros HI HO Hnet. unfold worker_turn. destruct (negb _); [by intros [= <- <-]|].
  unfold MessageQueue.pop_front_to. destruct (MessageQueue.container_ (recv_queue_ (derived_ t))) as [|rc l] eqn:Eq;
    [by intros [= <- <-]|].
  destruct (MessageQueue.terminated_ (recv_queue_ (derived_ t))); [by intros [= <- <-]|]. intros E.
  apply bind_Ok in E as (packet & Hp & E).
  set (t1 := set_recv_queue t _) in E.
  assert (net_inv (option_list (rc_return_packet rc) ++ outstanding (derived_ t1)) t1) as Hnet1.
  { apply net_inv_derived. eapply net_inv_drop; [done|]. unfold outstanding. cbn. rewrite Eq. cbn [omap list_omap].
    destruct (rc_return_packet rc); done. }
  assert (forall mem, next_ mem = next_ (memory_ t1) -> (forall p, meta_of mem p = meta_of (memory_ t1) p) ->
    no_views mem ->
    web_inv (NotifySend (set_send_queue (set_memory t1 mem)
       (MessageQueue.push_back (send_queue_ (derived_ t1)) (rc_return_packet rc)).2))) as Hpush.
  { intros mem Hn Hmeta Hv. destruct Hnet1 as [Hm Hi _]. split; [done| |done].
    eapply ctx_inv_meta; [|exact Hn|exact Hmeta]. eapply ctx_inv_drop; [exact Hi|].
    unfold outstanding at 1. cbn [NotifySend set_notify set_send_queue set_derived derived_ recv_queue_ send_queue_ set_memory].
    unfold outstanding. destruct (push_back_cases (send_queue_ (derived_ t1)) (rc_return_packet rc)) as [-> | ->].
    - by apply submseteq_inserts_l.
    - rewrite omap_app. destruct (rc_return_packet rc); cbn; [solve_submseteq|by rewrite app_nil_r]. }
  assert (web_inv t1) as Hdone by (eapply net_inv_drop; [done|by apply submseteq_inserts_l]).
  assert (handler_ok (if IsWorkerOverload t1 then HandleOverload else HandleImpl)) as HH by (by destruct (IsWorkerOverload t1)).
  assert (forall k, ('(mem, others) ← (if IsWorkerOverload t1 then HandleOverload rc (memory_ t1) else HandleImpl rc (memory_ t1)); k mem others)
     = Ok (next, t') -> exists mem, next_ mem = next_ (memory_ t1) /\ (forall p, meta_of mem p = meta_of (memory_ t1) p) /\
       no_views mem /\ k mem [] = Ok (next, t')) as Hk.
  { intros k Ek. apply bind_Ok in Ek as ([mem others] & Eh & Ek). destruct (HH rc (memory_ t1) mem others) as (-> & H1 & H2 & H3).
    - by destruct (IsWorkerOverload t1).
    - exists mem. split_and!; [done|done|apply H3, Hnet1|done]. }
  destruct (parser_Protocol packet).
  - by injection E as <- <-.
  - apply Hk in E as (mem & H1 & H2 & H3 & E). injection E as _ <-. by apply Hpush.
  - by injection E as <- <-.
  - by injection E as <- <-.
  - apply Hk in E as (mem & H1 & H2 & H3 & E). injection E as _ <-. by apply Hpush.
Qed.

Lemma heartbeat_keeps Serialize c e (t t' : NetThread) (ts ts' : list NetThread) x out :
  web_inv t -> 0 < hb_fd x -> can_add t (hb_fd x) -> Z.of_nat (next_ (memory_ t)) + 3 < 2 ^ 32 ->
  SendHeartbeat Serialize c e (t :: ts) x = Ok (t' :: ts', out) -> web_inv t'.
Proof.
  intros Hnet Hfd Hadd Hlt. unfold SendHeartbeat. destruct (negb _); [by intros [= <- <- <-]|].
  destruct (net_make web_methods outstanding t _ (hb_inet_addr x) (reverse_proxy_ip e) (reverse_proxy_port e) (hb_now x)
              (hb_fd x) (hb_connects x) Hnet Hfd Hadd) as (o & t1 & -> & Hnet1 & Hs1 & Hn1 & _ & Ho). cbn [mbind res_bind].
  destruct Hs1 as (Hd1 & _). destruct o as [uid|].
  2: { intros [= <- <- <-]. by rewrite Hd1. }
  destruct Ho as (conn & _ & Hl & _ & _).
  assert (conns t1 !! uid = Some conn) as Hc1 by (by rewrite Hl, lookup_insert_eq).
  destruct (net_conn_make t1 _ uid conn Hnet1 Hc1) as (t2 & conn2 & -> & Hnet2 & Hl2 & _ & Hn2 & _ & _ & Hd2 & _); [lia|].
  cbn [mbind res_bind].
  assert (conns t2 !! uid = Some conn2) as Hc2 by (by rewrite Hl2, lookup_insert_eq).
  destruct (net_conn_make t2 (outstanding (derived_ t)) uid conn2) as (t3 & conn3 & -> & Hnet3 & _ & _ & _ & _ & (ctx & Hctx) & Hd3 & _);
    [eapply net_inv_drop; [done|]; by apply submseteq_cons|done|lia|].
  cbn [mbind res_bind]. rewrite Hctx. cbn [from_option mbind res_bind]. intros E. res_inv.
  destruct a0 as [[d t4] o4]. injection E as <- <- <-.
  apply request_Pack_own in E0.
  destruct (net_send _ (outstanding (derived_ t)) _ (hb_write x) (hb_now x) (net_fill t3 _ _ ctx a Hnet3 Hctx E0))
    as [[_ Hf]|[_ (d' & t5 & o5 & Hf & Hnet5 & _ & Hs5 & _)]]; rewrite Hf in E1; [done|].
  injection E1 as <- <- <-. destruct Hs5 as (Hd5 & _). rewrite Hd5. cbn. by rewrite Hd3, Hd2, Hd1.
Qed.

Lemma web_step_keeps (t t' : NetThread) : web_step t t' -> web_inv t -> web_inv t'.
Proof.
  intros Hs Hnet. destruct Hs as [t fd ip port now taken t' Hfd Hadd E|? ? ? ? ? ? ? ? ? ? ? ? E|HI HO t next t' H1 H2 E|st x go_on st' outs [Hfd Hb] E].
  - destruct (net_register web_methods outstanding t _ fd ip port now Hnet Hfd Hadd) as (tk & t2 & E2 & Hnet2 & (Hd & _) & _).
    rewrite E2 in E. injection E as _ <-. by rewrite Hd.
  - by eapply heartbeat_keeps.
  - exact (worker_keeps HI HO t t' next H1 H2 Hnet E).
  - pose proof (EventLoop.Run_turn_keeps (fun _ : unit => web_methods) outstanding st x Hnet Hfd Hb) as H. by rewrite E in H.
Qed.

(** The threads of the web server when it starts. *)
Lemma started_inv c e (ts0 ts : list NetThread) (t : NetThread) :
  AfterConfig c e = Ok ts0 -> SetWorker c e ts0 = Ok ts -> t ∈ ts -> web_inv t.
Proof.
  intros E0 E1 Ht.
  assert (forall t, t ∈ ts0 -> exists mx bl, t = mkThread new_manager mx new_memory false None
            (mkWebThread (MessageQueue.new_queue kQueueSize) bl (MessageQueue.new_queue kQueueSize) [])) as H0.
  { intros t0 Ht0. unfold AfterConfig, ServerConfig.SetNetThreadImpl, ServerConfig.base_AfterConfig in E0. res_inv.
    destruct (_ <$> _) as [|t1 l] eqn:El; [done|]. rewrite <- El in E0. clear t1 l El. apply ServerConfig.mapM_res_Forall2 in E0.
    apply list_elem_of_lookup in Ht0 as [i Hi]. destruct (Forall2_lookup_r _ _ _ _ _ E0 Hi) as (y & Hy & Eq).
    rewrite list_lookup_fmap in Hy. apply fmap_Some in Hy as (z & Hz & ->).
    apply lookup_replicate in Hz as [-> _]. unfold SetMaxConnection in Eq. res_inv. simplify_eq. eexists _, _. done. }
  unfold SetWorker in E1. res_inv. simplify_eq. apply list_elem_of_lookup in Ht as [i Hi].
  destruct (set_workers_only _ _ _ _ _ _ Hi) as (t0 & w & Hi0 & ->). apply list_elem_of_lookup_2 in Hi0.
  destruct (H0 t0 Hi0) as (mx & bl & ->). apply new_thread_inv.
Qed.

(** C3: In whatever order the main thread, the workers and the network thread itself work on a network
    thread of a configured web server, its objects stay consistent: the table of connections, its free
    ids and its epoll registrations agree; no context is queued twice; and the flag of a context that is
    waiting for a worker or to be sent says exactly whether its connection still exists. *)
Theorem web_threads_consistent c e (ts0 ts : list NetThread) (t t' : NetThread)
    (H0 : AfterConfig c e = Ok ts0) (H1 : SetWorker c e ts0 = Ok ts) (Ht : t ∈ ts) (Hrun : rtc web_step t t') :
  mgr_inv (connection_manager_ t') /\ NoDup (outstanding (derived_ t')) /\
  forall p, p ∈ outstanding (derived_ t') -> exists ctx, ctxs_ (memory_ t') !! p = Some ctx /\
    (sc_is_tcp_conn_valid ctx = true <-> exists u conn, conns t' !! u = Some conn /\ this_ conn = sc_owner ctx).
Proof.
  assert (web_inv t') as [Hm Hi _].
  { pose proof (started_inv c e ts0 ts t H0 H1 Ht) as Hnet. clear H0 H1 Ht. induction Hrun as [|t1 t2 t3 Hs _ IH]; [done|].
    apply IH. by eapply web_step_keeps. }
  split_and!; [done|apply Hi|]. intros p Hp. destruct (ci_queue _ _ _ Hi p Hp) as (s & a & v & Em & Hv).
  destruct (meta_ctx _ _ _ Em) as (ctx & Hctx & [= -> -> ->]). exists ctx. split; [done|]. split.
  - intros Hval. destruct (Hv Hval) as (u & conn & Hu & Ha & _). eauto.
  - intros (u & conn & Hu & Ha). destruct (sc_is_tcp_conn_valid ctx); [done|]. by destruct (ci_stale _ _ _ Hi p _ _ u conn Em Hu).
Qed.

(** A notification to send empties the send queue: every packet in it is handed to its socket, once and
    in order, or marked as pending there, and no connection goes. The exception is a packet whose
    connection has been deleted meanwhile: the message logged before the flag of the packet is looked
    at reads the descriptor of a socket that no longer exists. *)
Theorem HandleSend_sends_all (t : NetThread) (ps : list nat) (ws : list UnixSocket.write_result) (now : Z)
    (Hnet : web_inv t) (Hq : MessageQueue.container_ (send_queue_ (derived_ t)) = Some <$> ps)
    (Ht : MessageQueue.terminated_ (send_queue_ (derived_ t)) = false) :
  if decide (Forall (fun p => sc_is_tcp_conn_valid <$> ctxs_ (memory_ t) !! p = Some true) ps)
  then exists t' outs, HandleNotification (Z.of_nat notification_send_) ws now t = Ok (t', outs) /\ outs.*1 = ps /\
         MessageQueue.container_ (send_queue_ (derived_ t')) = [] /\
         recv_queue_ (derived_ t') = recv_queue_ (derived_ t) /\ web_inv t' /\
         (forall u c, conns t !! u = Some c -> exists c', conns t' !! u = Some c' /\ this_ c' = this_ c)
  else HandleNotification (Z.of_nat notification_send_) ws now t = Fault Dangling.
Proof.
  unfold HandleNotification. cbn [__IsNotifySend]. change (__IsNotifySend _) with true. cbn iota. unfold HandleSend.
  assert (forall p, p ∈ ps -> ~ stale t p <-> sc_is_tcp_conn_valid <$> ctxs_ (memory_ t) !! p = Some true) as Hst.
  { intros p Hp. destruct Hnet as [_ Hi _]. destruct (ci_queue _ _ _ Hi p) as (s & a & v & Em & _).
    { unfold outstanding. apply elem_of_app. right. apply list_elem_of_omap. exists (Some p). split; [|done].
      rewrite Hq. by apply list_elem_of_fmap_2. }
    destruct (meta_ctx _ _ _ Em) as (ctx & Hctx & [= -> -> ->]). rewrite Hctx. cbn. unfold stale. rewrite Em.
    destruct (sc_is_tcp_conn_valid ctx); naive_solver. }
  destruct (send_loop_spec _ t ws now _ Hnet eq_refl Ht (Nat.lt_succ_diag_r _))
    as [(p & Hp & Hs & E)|[[Hn _]|(Hall & t' & outs & E & Ho & Hnet' & _ & Hd & Hk)]].
  - rewrite E. rewrite Hq in Hp. apply list_elem_of_fmap in Hp as (? & [= ->] & Hp). destruct (decide _) as [Hf|]; [|done].
    rewrite Forall_forall in Hf. apply Hf in Hp as Hf'. by apply Hst in Hf'.
  - rewrite Hq in Hn. by apply list_elem_of_fmap in Hn as (? & ? & _).
  - rewrite E. rewrite Hq, omap_Some in Hall. destruct (decide _) as [_|Hf].
    + exists t', outs. rewrite Hd. split_and!; try done.
      * rewrite Hq in Ho. by apply (inj (fmap Some)) in Ho.
      * unfold outstanding. cbn. by rewrite app_nil_r.
    + destruct Hf. rewrite !Forall_forall in *. intros p Hp. apply Hst; [done|]. by apply Hall.
Qed.

(** *** A configured server *)

Definition demo_web_config : ServerConfig := mkWebConfig 10 7 [] 0 false 60000.

Definition started_threads : list NetThread :=
  match AfterConfig demo_config demo_web_config with Ok ts => ts | Fault _ => [] end.

Definition working_threads : list NetThread :=
  match SetWorker demo_config demo_web_config started_threads with Ok ts => ts | Fault _ => [] end.

Definition demo_worker_thread : NetThread := default new_NetThread (head working_threads).

(** A thread that has accepted one connection. *)
Definition accepting_thread : NetThread :=
  match RegisterConnection web_methods demo_worker_thread 5 (str "10.0.0.7") 4711 0 with
  | Ok (_, t) => t
  | Fault _ => demo_worker_thread
  end.

Lemma demo_step : web_step demo_worker_thread accepting_thread.
Proof.
  apply (step_register _ 5 (str "10.0.0.7") 4711 0 true); [lia| |vm_compute; reflexivity].
  assert (conns demo_worker_thread = ∅) as E by apply live_new.
  split; [rewrite E; vm_compute; lia|]. intros u c Hc. by rewrite E, lookup_empty in Hc.
Qed.

Lemma web_threads_consistent_witness :
  mgr_inv (connection_manager_ accepting_thread) /\ NoDup (outstanding (derived_ accepting_thread)).
Proof.
  destruct (web_threads_consistent demo_config demo_web_config started_threads working_threads demo_worker_thread
              accepting_thread) as (H1 & H2 & _); [vm_compute; reflexivity..| | |done].
  - apply list_elem_of_lookup. exists O. vm_compute. reflexivity.
  - apply rtc_once, demo_step.
Defined.

Lemma accepting_inv : web_inv accepting_thread.
Proof.
  eapply web_step_keeps; [apply demo_step|].
  eapply (started_inv demo_config demo_web_config started_threads working_threads); [vm_compute; reflexivity..|].
  apply list_elem_of_lookup. exists O. vm_compute. reflexivity.
Qed.

(** The connection has made a context, which is in the send queue. *)
Definition sending_thread : NetThread :=
  match conn_MakeSendContext accepting_thread 1 with
  | Ok (p, t) => set_send_queue t (MessageQueue.push_back (MessageQueue.new_queue kQueueSize) (Some p)).2
  | Fault _ => accepting_thread
  end.

Lemma sending_inv : web_inv sending_thread.
Proof.
  assert (exists c, conns accepting_thread !! 1%nat = Some c) as [c Hc].
  { eexists. apply live_lookup_Some. vm_compute. reflexivity. }
  destruct (net_conn_make accepting_thread _ 1 c accepting_inv Hc) as (t & c' & E & Hnet & _ & _ & _ & _ & _ & Hd & _);
    [vm_compute; reflexivity|].
  unfold sending_thread. rewrite E. apply net_inv_derived. eapply net_inv_drop; [exact Hnet|].
  unfold outstanding. cbn [set_send_queue set_derived derived_ recv_queue_ send_queue_]. rewrite Hd. by vm_compute.
Qed.

(** The context has the address 4. *)
Lemma HandleSend_sends_all_witness :
  exists t' outs, HandleNotification (Z.of_nat notification_send_) [] 0 sending_thread = Ok (t', outs) /\ outs.*1 = [4%nat].
Proof.
  pose proof (HandleSend_sends_all sending_thread [4%nat] [] 0 sending_inv) as H.
  destruct (decide _) as [|Hf]; [|destruct Hf; repeat constructor; vm_compute; reflexivity].
  destruct H as (t' & outs & E & Ho & _); [vm_compute; reflexivity..|]. by exists t', outs.
Defined.

End WebLoop.
