(* ===== verification/RequestPath.v ===== *)
(** * What becomes of a request (serverbase.cc, webserver.cc, netscenedispatcher.cc)

    The path of one HTTP request through the web server: the segments of a
    connection are received and parsed, the parsed packet is queued, a worker
    has the dispatcher answer it, the network thread is notified and sends the
    response. Also where the worker reads the body of a request whose
    connection is gone. *)
From stdpp Require Import gmap fin_maps relations.
From S2P Require Import Prelude CLib StdMap AutoBuffer FirstLine HeaderField HttpPacket HttpProps WebSocket MessageQueue.
From S2P Require Import NetSceneDispatcher DispatcherTheory.
From S2P Require Import UnixSocket SocketEpoll TcpConnection ServerBase NetThreadTheory ServerConfig EventLoop WebServer WebLoop.

Module RequestPath.
Import TcpConnection ServerBase NetThreadTheory WebServer WebLoop.
#[local] Existing Instance HttpPacket.request_methods.
#[local] Existing Instance FirstLine.THttpMethod_eq_dec.

(** ** Receiving *)

(** The segments complete a request: after the last one, and not before, the
    parser has reached its end, in state [q]. *)
Fixpoint completes (p : HttpPacket.HttpParser HttpPacket.request_sub) (a : bytes) (segs : list bytes)
    (q : HttpPacket.HttpParser HttpPacket.request_sub) : Prop :=
  match segs with
  | [] => False
  | [d] => exists r, HttpPacket.DoParse p (a ++ d) = Ok (r, q) /\ HttpPacket.IsEnd q = true /\ HttpPacket.IsErr q = false
  | d :: ds => exists r p', HttpPacket.DoParse p (a ++ d) = Ok (r, p') /\ HttpPacket.IsEnd p' = false /\
      HttpPacket.IsErr p' = false /\ completes p' (a ++ d) ds q
  end.

(** An accepted connection that speaks HTTP and has received [a] so far. *)
Record http_conn (c : Conn) (a : bytes) (p : HttpPacket.HttpParser HttpPacket.request_sub) : Prop := {
  hc_recv : receiving c a (WHttp p);
  hc_fin : has_received_Fin_ c = false;
  hc_type : conn_type c = kAcceptFrom;
  hc_long : is_longlink_app_proto_ c = false;
  hc_fd : 0 < conn_FD c
}.

(** Two states of a connection that differ in what it has received. *)
Definition same_but_recv (c c' : Conn) : Prop :=
  same_links c c' /\ conn_Uid c' = conn_Uid c /\ conn_FD c' = conn_FD c.

Lemma receive_http (c : Conn) (a d : bytes) (p q : HttpPacket.HttpParser HttpPacket.request_sub) (r : Z) :
  http_conn c a p -> AutoBuffer.capacity_ (tcp_byte_arr_ c) < 2 ^ 60 -> read_sized d ->
  HttpPacket.DoParse p (a ++ d) = Ok (r, q) -> HttpPacket.IsErr q = false ->
  exists c', (forall rs, Receive c (UnixSocket.ReadData d :: rs) =
      if HttpPacket.IsEnd q || negb (zlen d =? UnixSocket.kBufferSize) then Ok (0, c') else Receive c' rs) /\ http_conn c' (a ++ d) q /\ same_but_recv c c' /\
    AutoBuffer.capacity_ (tcp_byte_arr_ c') <= AutoBuffer.capacity_ (tcp_byte_arr_ c) + UnixSocket.kBufferSize
      + AutoBuffer.malloc_unit_size_ (tcp_byte_arr_ c) /\
    AutoBuffer.malloc_unit_size_ (tcp_byte_arr_ c') = AutoBuffer.malloc_unit_size_ (tcp_byte_arr_ c).
Proof.
  intros [Hr Hf Ht Hl Hfd] Hcap Hd Hp Hq.
  assert (parser_DoParse (WHttp p) (a ++ d) = Ok (r, WHttp q)) as Hp' by (cbn; by rewrite Hp).
  destruct (Receive_read c a d (WHttp p) Hr Hcap Hd) as [(f & Hf' & _)|(r' & q' & c' & Hp2 & E & Hr' & Hc & Hu & b & Hc')];
    [congruence|].
  rewrite Hp' in Hp2. simplify_eq. cbn [parser_IsErr parser_IsEnd web_protocol_parser http_request_parser] in E. rewrite Hq in E.
  eexists. split; [exact E|]. by split_and!.
Qed.

(** A segment that leaves the request incomplete. *)
Lemma read_more (t : NetThread) (u : nat) (c : Conn) (a d : bytes) (ds : list bytes) (p q : HttpPacket.HttpParser HttpPacket.request_sub) (r : Z) :
  web_inv t -> conns t !! u = Some c -> http_conn c a p -> AutoBuffer.capacity_ (tcp_byte_arr_ c) < 2 ^ 60 ->
  read_sized d -> HttpPacket.DoParse p (a ++ d) = Ok (r, q) -> HttpPacket.IsErr q = false ->
  HttpPacket.IsEnd q = false -> ds <> [] ->
  exists t' c', read_segments web_methods t u (d :: ds) = read_segments web_methods t' u ds /\ web_inv t' /\
    conns t' !! u = Some c' /\ http_conn c' (a ++ d) q /\ same_but_recv c c' /\ same_thread t t' /\ memory_ t' = memory_ t /\
    AutoBuffer.capacity_ (tcp_byte_arr_ c') <= AutoBuffer.capacity_ (tcp_byte_arr_ c) + UnixSocket.kBufferSize
      + AutoBuffer.malloc_unit_size_ (tcp_byte_arr_ c) /\
    AutoBuffer.malloc_unit_size_ (tcp_byte_arr_ c') = AutoBuffer.malloc_unit_size_ (tcp_byte_arr_ c) /\
    conns t' = <[u := c']> (conns t).
Proof.
  intros Hnet Hu Hc Hcap Hd Hp Hq Hend Hne.
  destruct (receive_http c a d p q r Hc Hcap Hd Hp Hq) as (c' & Er & Hc' & (Hl & Hid & Hfd) & Hcap' & Hunit).
  destruct (net_put t _ u c c' Hnet Hu Hid Hfd Hl) as (t' & Ep & Hnet' & Hl' & Hm' & Hs'). rewrite Hend in Er. cbn [orb] in Er.
  exists t', c'. split_and!; try done; [|by destruct Hs' as [-> _]|by rewrite Hl', lookup_insert_eq].
  apply (segment_read _ t t' u c c'); try done; [apply Hc'|].
  unfold IsParseDone. rewrite (rv_parser _ _ _ (hc_recv _ _ _ Hc')). cbn. by rewrite Hend.
Qed.

(** A new request [rc] is in the receive queue of [t'], to be answered with
    the packet [ptr] of the connection [u], whose state is now [c']. *)
Record queued (t t' : NetThread) (u : nat) (c c' : Conn) (q : HttpPacket.HttpParser HttpPacket.request_sub)
    (rc : RecvContext) (ptr : nat) : Prop := {
  qd_inv : web_inv t';
  qd_recv : recv_queue_ (derived_ t') = MessageQueue.mkQueue (MessageQueue.max_size_ (recv_queue_ (derived_ t)))
    (MessageQueue.container_ (recv_queue_ (derived_ t)) ++ [rc]) (MessageQueue.terminated_ (recv_queue_ (derived_ t)));
  qd_send : send_queue_ (derived_ t') = send_queue_ (derived_ t);
  qd_backlog : max_backlog_ (derived_ t') = max_backlog_ (derived_ t);
  qd_packet : rc_application_packet rc = Some (WHttp q);
  qd_return : rc_return_packet rc = Some ptr;
  qd_uid : rc_tcp_connection_uid rc = Z.of_nat u;
  qd_ctx : exists s uid, ctxs_ (memory_ t') !! ptr
             = Some (mkSendContext s uid (this_ c) (AutoBuffer.new AutoBuffer.kMallocUnit) true);
  qd_conns : conns t' = <[u := c']> (conns t);
  qd_same : this_ c' = this_ c /\ conn_FD c' = conn_FD c
}.

(** The segment that completes the request: it is put in the receive queue. *)
Lemma read_last (t : NetThread) (u : nat) (c : Conn) (a d : bytes) (p q : HttpPacket.HttpParser HttpPacket.request_sub) (r : Z) :
  web_inv t -> conns t !! u = Some c -> http_conn c a p -> AutoBuffer.capacity_ (tcp_byte_arr_ c) < 2 ^ 60 ->
  read_sized d -> HttpPacket.DoParse p (a ++ d) = Ok (r, q) -> HttpPacket.IsErr q = false ->
  HttpPacket.IsEnd q = true -> HttpPacket.is_upgrade_to_ws_ (HttpPacket.sub q) = false ->
  Backlog t < max_backlog_ (derived_ t) -> Backlog t <= MessageQueue.max_size_ (recv_queue_ (derived_ t)) ->
  Z.of_nat (next_ (memory_ t)) < 2 ^ 32 ->
  exists t' rc c', __OnReadEvent web_methods t u [UnixSocket.ReadData d] = Ok (false, t') /\
    queued t t' u c c' q rc (next_ (memory_ t)) /\ AutoBuffer.contents (tcp_byte_arr_ c') = a ++ d /\
    0 <= AutoBuffer.capacity_ (tcp_byte_arr_ c') <= AutoBuffer.capacity_ (tcp_byte_arr_ c) + UnixSocket.kBufferSize
      + AutoBuffer.malloc_unit_size_ (tcp_byte_arr_ c).
Proof.
  intros Hnet Hu Hc Hcap Hd Hp Hq Hend Hup Hroom Hroom2 Hlt. set (ptr := next_ (memory_ t)).
  destruct (receive_http c a d p q r Hc Hcap Hd Hp Hq) as (c' & Er & Hc' & (Hl & Hid & Hfd) & Hcap' & _).
  specialize (Er []). rewrite Hend in Er. cbn [orb] in Er. pose proof (net_read web_methods outstanding t u c [UnixSocket.ReadData d] Hnet Hu Hlt) as Hread. revert Hread.
  unfold __OnReadEvent, vec_get. pose proof Hu as Hu'. apply live_lookup_Some in Hu' as ->. cbn [mbind res_bind].
  rewrite Er. cbn [mbind res_bind].
  destruct (net_put t _ u c c' Hnet Hu Hid Hfd Hl) as (t1 & -> & Hnet1 & Hl1 & Hm1 & Hd1 & _).
  cbn [mbind res_bind Z.ltb Z.compare]. rewrite (hc_fin _ _ _ Hc').
  assert (IsParseDone c' = Ok true) as -> by (unfold IsParseDone; rewrite (rv_parser _ _ _ (hc_recv _ _ _ Hc')); cbn; by rewrite Hend).
  cbn [mbind res_bind]. unfold on_parsed, MakeRecvContext.
  assert (IsUpgradeApplicationProtocol c' = false) as ->
    by (unfold IsUpgradeApplicationProtocol; rewrite (rv_parser _ _ _ (hc_recv _ _ _ Hc')); cbn; by rewrite Hup).
  rewrite (rv_parser _ _ _ (hc_recv _ _ _ Hc')), (hc_long _ _ _ Hc'), (hc_type _ _ _ Hc').
  rewrite bool_decide_true by done. cbn [andb negb]. rewrite Hm1. unfold MakeSendContext at 1 2. cbn [alloc]. fold ptr.
  cbn [mbind res_bind]. set (c2 := set_sending c' _ _ _). set (m2 := set_ctx _ ptr _).
  unfold put_conn at 1 2, vec_set. cbn [set_memory connection_manager_].
  assert (u < length (items (pool_ (connection_manager_ t1))))%nat as Hlen.
  { assert (conns t1 !! u = Some c') as Hx by (by rewrite Hl1, lookup_insert_eq). apply live_lookup_Some in Hx. by eapply lookup_lt_Some. }
  destruct (Nat.ltb_spec u (length (items (pool_ (connection_manager_ t1))))); [|lia]. cbn [mbind res_bind].
  cbn [ServerBase.HandleApplicationPacket web_methods]. unfold HandleApplicationPacket, IsWorkerFullyLoad, Backlog.
  cbn [set_manager set_memory derived_]. rewrite Hd1.
  unfold Backlog in Hroom, Hroom2. destruct (Z.leb_spec (max_backlog_ (derived_ t)) (zlen (MessageQueue.container_ (recv_queue_ (derived_ t))))); [lia|].
  unfold acceptable. cbn [set_return_packet rc_application_packet mbind res_bind]. rewrite push_back_room by done. intros (Hnet2 & _ & Hkeep & _).
  eexists _, _, c2. split; [done|]. split; [split|]; [exact Hnet2|done|by cbn; rewrite Hd1|by cbn; rewrite Hd1|done|done|..].
  - cbn. change (uid_ c') with (conn_Uid c'). rewrite Hid. apply (mi_uid _ (ni_mgr _ _ Hnet)). by apply live_lookup_Some.
  - cbn. rewrite lookup_insert_eq. eexists _, _. do 2 f_equal. apply Hl.
  - unfold conns. cbn [set_recv_queue set_derived set_memory set_manager connection_manager_]. rewrite live_set by done.
    change (live (connection_manager_ t1)) with (conns t1). by rewrite Hl1, insert_insert_eq.
  - split; [apply Hl|exact Hfd].
  - split; [apply Hc'|]. destruct (hc_recv _ _ _ Hc') as [_ [_ _ _ Hl' _ _] _ _]. cbn in *. lia.
Qed.

(** What a connection may still receive. *)
Definition room (c : Conn) (n : nat) : Prop :=
  AutoBuffer.capacity_ (tcp_byte_arr_ c)
  + Z.of_nat n * (UnixSocket.kBufferSize + AutoBuffer.malloc_unit_size_ (tcp_byte_arr_ c)) < 2 ^ 60.

(** All segments of a request. *)
Lemma read_request (segs : list bytes) (t : NetThread) (u : nat) (c : Conn) (a : bytes)
    (p q : HttpPacket.HttpParser HttpPacket.request_sub) :
  web_inv t -> conns t !! u = Some c -> http_conn c a p -> room c (length segs) ->
  Forall read_sized segs -> completes p a segs q ->
  HttpPacket.is_upgrade_to_ws_ (HttpPacket.sub q) = false ->
  Backlog t < max_backlog_ (derived_ t) -> Backlog t <= MessageQueue.max_size_ (recv_queue_ (derived_ t)) ->
  Z.of_nat (next_ (memory_ t)) < 2 ^ 32 ->
  exists t' rc c', read_segments web_methods t u segs = Ok (false, t') /\
    queued t t' u c c' q rc (next_ (memory_ t)) /\ AutoBuffer.contents (tcp_byte_arr_ c') = a ++ concat segs /\
    0 <= AutoBuffer.capacity_ (tcp_byte_arr_ c') < 2 ^ 60.
Proof.
  intros Hnet Hu Hc Hr Hs. revert t c a p Hnet Hu Hc Hr.
  induction Hs as [|d ds Hd Hds IH]; intros t c a p Hnet Hu Hc Hr Hco Hup Hb1 Hb2 Hlt; [done|].
  pose proof (hc_recv _ _ _ Hc) as [_ [_ _ _ Hl Hun _] _ _]. unfold room, UnixSocket.kBufferSize in Hr. cbn [length] in Hr.
  rewrite Nat2Z.inj_succ in Hr. destruct ds as [|d2 ds].
  - destruct Hco as (r & Hp & He & Hn).
    destruct (read_last t u c a d p q r) as (t' & rc & c' & E & Hqd & Hcc & Hca); [done|done|done|nia|done..|].
    exists t', rc, c'. rewrite last_read. rewrite Hcc. cbn [concat]. rewrite app_nil_r.
    split_and!; [done|done|done|..]; unfold UnixSocket.kBufferSize in Hca; cbn [length] in Hr; lia.
  - destruct Hco as (r & p1 & Hp & He & Hn & Hco).
    destruct (read_more t u c a d (d2 :: ds) p p1 r) as (t1 & c1 & -> & Hnet1 & Hu1 & Hc1 & (Hl1 & Hid1 & Hfd1) & Hs1 & Hm1 & Hcap1 & Hun1 & Hcs);
      [done|done|done|nia|done..|]. destruct Hs1 as (Hd1 & _).
    destruct (IH t1 c1 (a ++ d) p1) as (t' & rc & c' & E & Hqd & Hcc & Hca);
      [done|done|done|unfold room, UnixSocket.kBufferSize in *; rewrite Hun1; nia|done|done|..].
    1-3: by unfold Backlog in *; rewrite ?Hd1, ?Hm1. 
    exists t', rc, c'. split; [exact E|]. split; [|by rewrite Hcc, <- app_assoc].
    destruct Hqd as [H1 H2 H3 H4 H5 H6 H7 (s & uid & H8) H9 [H10 H11]]. destruct Hl1 as (Ht1 & _). rewrite Hd1 in *. rewrite Hm1 in *.
    split; try done; [by rewrite Ht1 in H8; eauto|by rewrite H9, Hcs, insert_insert_eq|split; congruence].
Qed.

(** ** Sending *)

(** Sending a whole packet at once. *)
Lemma send_whole (t : NetThread) (Q : list nat) (p u : nat) (c : Conn) (ctx : SendContext) (msg : bytes) (now : Z) :
  net_inv (p :: Q) t -> conns t !! u = Some c -> this_ c = sc_owner ctx -> ctxs_ (memory_ t) !! p = Some ctx ->
  sc_is_tcp_conn_valid ctx = true -> 0 < conn_FD c -> AutoBuffer.holds (sc_buffer ctx) msg -> msg <> [] -> zlen msg < 2 ^ 31 ->
  exists t', TrySendAndMarkPendingIfUndone t (Some p) (UnixSocket.Wrote (zlen msg)) now = Ok (true, t', msg).
Proof.
  intros Hnet Hu Ht Hp Hval Hfd (Ho & Hc & Hpos & _) Hne Hl.
  assert (0 < zlen msg) by (destruct msg; [done|simpl; lia]).
  pose proof (AutoBuffer.contents_length _ Ho) as Hlen. rewrite Hc in Hlen.
  destruct (base_send t Q p u c ctx msg (UnixSocket.Wrote (zlen msg)) now (net_base _ _ Hnet) Hu Hp) as (t' & c' & E & _);
    try done; [|lia|cbn; lia|].
  - unfold AutoBuffer.bytes_of. rewrite (AutoBuffer.owned_ptr _ Ho). by destruct (_ =? _); rewrite Hc.
  - exists t'. rewrite E. cbn [wrote]. by rewrite Z.eqb_refl, Nat2Z.id, firstn_all.
Qed.

Lemma net_inv_ext {P D} (Q : list nat) (t t' : NetThreadBase P D) :
  connection_manager_ t' = connection_manager_ t -> memory_ t' = memory_ t -> net_inv Q t -> net_inv Q t'.
Proof. intros E1 E2 [H1 H2 H3]. split; unfold conns in *; by rewrite ?E1, ?E2. Qed.

(** The notification makes the thread send it. *)
Lemma notified_http (t : NetThread) (ptr u : nat) (c : Conn) (ctx : SendContext) (msg : bytes) (now : Z) :
  net_inv [ptr] t -> recv_queue_ (derived_ t) = MessageQueue.mkQueue kQueueSize [] false ->
  MessageQueue.container_ (send_queue_ (derived_ t)) = [Some ptr] ->
  MessageQueue.terminated_ (send_queue_ (derived_ t)) = false ->
  conns t !! u = Some c -> this_ c = sc_owner ctx -> ctxs_ (memory_ t) !! ptr = Some ctx ->
  sc_is_tcp_conn_valid ctx = true -> 0 < conn_FD c -> AutoBuffer.holds (sc_buffer ctx) msg -> msg <> [] -> zlen msg < 2 ^ 31 ->
  exists t' c', HandleNotification (Z.of_nat notification_send_) [UnixSocket.Wrote (zlen msg)] now t = Ok (t', [(ptr, msg)]) /\
    web_inv t' /\ outstanding (derived_ t') = [] /\ conns t' !! u = Some c' /\ this_ c' = this_ c.
Proof.
  intros Hnet Hrq Hsq Hsd Hu Ht Hctx Hval Hfd Hb Hne Hl.
  unfold HandleNotification. change (__IsNotifySend _) with true. cbn iota. unfold HandleSend. rewrite Hsq. cbn [length send_loop].
  unfold MessageQueue.pop_front_to. rewrite Hsq, Hsd. set (t1 := set_send_queue t _).
  assert (net_inv [ptr] t1) as Hnet1 by (by apply net_inv_derived).
  cbn [from_option mbind res_bind]. change (memory_ t1) with (memory_ t). rewrite Hctx. cbn [from_option mbind res_bind].
  assert (socket_FD t1 ctx = Ok (conn_FD c)) as ->.
  { unfold socket_FD. assert (conn_at t1 (sc_owner ctx) = Some (u, c)) as ->; [|done].
    apply (conn_at_live t1 [ptr]); [apply Hnet1|done]. }
  cbn [mbind res_bind default head].
  destruct (send_whole t1 [] ptr u c ctx msg now Hnet1 Hu Ht Hctx Hval Hfd Hb Hne Hl) as (t2 & E2). cbn [from_option id]. rewrite E2.
  destruct (net_send t1 [] ptr (UnixSocket.Wrote (zlen msg)) now Hnet1) as [[_ Hf]|[_ (dn & t3 & out & E3 & Hnet3 & _ & (Hd3 & _) & _ & Hk)]];
    [congruence|]. rewrite E2 in E3. injection E3 as <- <- <-. cbn [mbind res_bind].
  rewrite Hd3. cbn. destruct (Hk u c Hu) as (c' & Hc' & Et).
  exists t2, c'. split; [done|]. unfold outstanding. rewrite Hd3. cbn. rewrite Hrq. cbn. done.
Qed.

(** ** Answering *)

Section Answer.
Context {St : Type} (ParseReq : bytes -> option Z * option bytes).
Context (d : NetSceneDispatcher.NetSceneDispatcher St) (st : St).

(** The request as [HandleHttp] reads it. The body is a view of the receive
    buffer of the connection, [None] when that is gone; only the body of a POST
    is read. *)
Definition request_of (buffer : option bytes) (q : HttpPacket.HttpParser HttpPacket.request_sub)
    : res NetSceneDispatcher.HttpRequest :=
  let l := HttpPacket.request_line_ (HttpPacket.sub q) in
  body ← (if bool_decide (FirstLine.method_ l = FirstLine.kPOST)
          then Some <$> AutoBuffer.bytes_of (fun _ => buffer) (HttpPacket.body_ q) else Ok None);
  Ok (NetSceneDispatcher.mkRequest (FirstLine.method_ l) (FirstLine.url_ l) body).

(** [HandleImpl] of [NetSceneWorker] on an HTTP request, [other] on what is not
    one: the response is written into the buffer of [return_packet]. [blk] is the
    block the receive buffer was in when the request was parsed. *)
Definition scene_worker (other : RecvContext -> memory -> res (memory * list (option nat)))
    (t : NetThread) (blk : Z) (rc : RecvContext) (m : memory) : res (memory * list (option nat)) :=
  match rc_application_packet rc, rc_return_packet rc with
  | Some (WHttp q), Some p =>
      r ← request_of (deref t blk) q;
      ctx ← from_option Ok (Fault Dangling) (ctxs_ m !! p);
      '(b, _) ← NetSceneDispatcher.HandleHttp ParseReq d r st (sc_buffer ctx);
      Ok (set_ctx m p (set_buffer ctx b), [])
  | _, _ => other rc m
  end.

(** A worker answers the only request in the queue. *)
Lemma worker_http other overload (t : NetThread) (blk : Z) (rc : RecvContext)
    (q : HttpPacket.HttpParser HttpPacket.request_sub) (ptr : nat) (ctx : SendContext) r (msg : bytes)
    (st' : St) (b : AutoBuffer.AutoBuffer) :
  web_inv t -> recv_queue_ (derived_ t) = MessageQueue.mkQueue kQueueSize [rc] false ->
  send_queue_ (derived_ t) = MessageQueue.new_queue kQueueSize -> 0 < max_backlog_ (derived_ t) ->
  rc_application_packet rc = Some (WHttp q) -> rc_return_packet rc = Some ptr ->
  ctxs_ (memory_ t) !! ptr = Some ctx -> request_of (deref t blk) q = Ok r ->
  NetSceneDispatcher.HandleHttp ParseReq d r st (sc_buffer ctx) = Ok (b, st') -> AutoBuffer.holds b msg ->
  exists t', worker_turn (scene_worker other t blk) overload t = Ok (Running, t') /\
    epoll_notify_ t' = Some notification_send_ /\ net_inv [ptr] t' /\ conns t' = conns t /\
    ctxs_ (memory_ t') !! ptr = Some (set_buffer ctx b) /\
    recv_queue_ (derived_ t') = MessageQueue.mkQueue kQueueSize [] false /\
    MessageQueue.container_ (send_queue_ (derived_ t')) = [Some ptr] /\
    MessageQueue.terminated_ (send_queue_ (derived_ t')) = false.
Proof.
  intros Hnet Hrq Hsq Hmb Hpk Hret Hctx Hreq Hh Hb. unfold worker_turn. rewrite Hrq. cbn [MessageQueue.wait_done].
  unfold MessageQueue.wait_done, MessageQueue.pop_front_to. cbn [MessageQueue.container_ MessageQueue.terminated_ negb orb].
  set (t1 := set_recv_queue t _). rewrite Hpk. cbn [from_option mbind res_bind].
  assert (IsWorkerOverload t1 = false) as ->.
  { unfold IsWorkerOverload, Backlog. cbn. apply Z.ltb_ge, Z.div_pos; [|lia]. unfold wrap64. pose proof (Z.mod_pos_bound (max_backlog_ (derived_ t) * 9) (2 ^ 64)). lia. }
  assert (scene_worker other t blk rc (memory_ t1) = Ok (set_ctx (memory_ t) ptr (set_buffer ctx b), [])) as ->.
  { unfold scene_worker. rewrite Hpk, Hret, Hreq. cbn [mbind res_bind t1 set_recv_queue set_derived memory_]. rewrite Hctx.
    cbn [from_option mbind res_bind]. by rewrite Hh. }
  cbn [parser_Protocol web_protocol_parser http_request_parser mbind res_bind]. destruct (decide _); [done|].
  rewrite Hret. eexists. split; [done|]. cbn. rewrite Hsq.
  assert (net_inv [ptr] (set_memory t (set_ctx (memory_ t) ptr (set_buffer ctx b)))) as Hf.
  { apply net_fill; [|done|].
    - eapply net_inv_drop; [exact Hnet|]. unfold outstanding. rewrite Hrq, Hsq. cbn. by rewrite Hret.
    - unfold is_view. destruct Hb as (Ho & _). rewrite (AutoBuffer.owned_ptr _ Ho). by destruct (_ =? _). }
  split_and!; try done; [|by rewrite lookup_insert_eq]. by eapply net_inv_ext; [..|exact Hf].
Qed.

(** A POST cannot be read once its connection is gone. *)
Lemma worker_gone other overload (t : NetThread) (blk : Z) (rc : RecvContext) (l : list RecvContext)
    (q : HttpPacket.HttpParser HttpPacket.request_sub) (ptr : nat) (data body : bytes) :
  recv_queue_ (derived_ t) = MessageQueue.mkQueue kQueueSize (rc :: l) false ->
  zlen l <= max_backlog_ (derived_ t) * 9 / 10 -> 0 <= max_backlog_ (derived_ t) < 2 ^ 32 ->
  rc_application_packet rc = Some (WHttp q) -> rc_return_packet rc = Some ptr ->
  FirstLine.method_ (HttpPacket.request_line_ (HttpPacket.sub q)) = FirstLine.kPOST ->
  HttpProps.view (HttpPacket.body_ q) data = Some body ->
  deref t blk = None -> worker_turn (scene_worker other t blk) overload t = Fault Dangling.
Proof.
  intros Hrq Hl Hmb Hpk Hret Hm Hv Hd. unfold worker_turn. rewrite Hrq.
  unfold MessageQueue.wait_done, MessageQueue.pop_front_to. cbn [MessageQueue.container_ MessageQueue.terminated_ negb orb].
  set (t1 := set_recv_queue t _). rewrite Hpk. cbn [from_option mbind res_bind].
  assert (IsWorkerOverload t1 = false) as ->.
  { unfold IsWorkerOverload, Backlog. cbn. rewrite wrap64_id by lia. by apply Z.ltb_ge. }
  unfold scene_worker. rewrite Hpk, Hret. unfold request_of. rewrite bool_decide_true by done.
  unfold AutoBuffer.bytes_of. unfold HttpProps.view in Hv.
  destruct (AutoBuffer.byte_array_p_ _); try done. by rewrite Hd.
Qed.

End Answer.

(** ** Properties *)

(** What is assumed of a thread that gets a request: it is at rest, and the
    sizes of its receive buffers are sizes. *)
Record at_rest (t : NetThread) : Prop := {
  ar_inv : web_inv t;
  ar_recv : recv_queue_ (derived_ t) = MessageQueue.new_queue kQueueSize;
  ar_send : send_queue_ (derived_ t) = MessageQueue.new_queue kQueueSize;
  ar_backlog : 0 < max_backlog_ (derived_ t) < 2 ^ 32;
  ar_memory : Z.of_nat (next_ (memory_ t)) < 2 ^ 32;
  ar_sizes : forall v e, conns t !! v = Some e -> 0 <= AutoBuffer.capacity_ (tcp_byte_arr_ e) < 2 ^ 60
}.

(** A request as it arrives: the results of [read]s that complete it. *)
Definition arrives (c : Conn) (segs : list bytes) (q : HttpPacket.HttpParser HttpPacket.request_sub) : Prop :=
  http_conn c [] HttpPacket.new_request /\ room c (length segs) /\
  Forall read_sized segs /\ completes HttpPacket.new_request [] segs q /\
  HttpPacket.is_upgrade_to_ws_ (HttpPacket.sub q) = false.

(** A request on its way through the threads of the server. *)
Lemma answer_request {St : Type} (ParseReq : bytes -> option Z * option bytes)
    (d : NetSceneDispatcher.NetSceneDispatcher St) (st st' : St)
    (other overload : RecvContext -> memory -> res (memory * list (option nat)))
    (t : NetThread) (u : nat) (c : Conn) (segs : list bytes) (q : HttpPacket.HttpParser HttpPacket.request_sub)
    (r : NetSceneDispatcher.HttpRequest) (s : NetSceneDispatcher.NetSceneBase St) (input : bytes) (resp : option bytes)
    (now : Z)
    (Hrest : at_rest t) (Hu : conns t !! u = Some c) (Harr : arrives c segs q)
    (Hreq : request_of (Some (concat segs)) q = Ok r) (Hserve : DispatcherTheory.serves ParseReq d r s input)
    (Hdo : NetSceneDispatcher.DoScene s input st = (resp, st'))
    (Hresp : forall x, resp = Some x -> DispatcherTheory.sendable (DispatcherTheory.resp_headers s) x) :
  exists t1 c1 t2 b t3 c3 ptr,
    read_segments web_methods t u segs = Ok (false, t1) /\ conns t1 !! u = Some c1 /\
    worker_turn (scene_worker ParseReq d st other t1 (recv_block c1)) overload t1 = Ok (Running, t2) /\
    epoll_notify_ t2 = Some notification_send_ /\
    HandleNotification (Z.of_nat notification_send_) [UnixSocket.Wrote (AutoBuffer.Length b)] now t2
    = Ok (t3, [(ptr, AutoBuffer.contents b)]) /\
    match resp with
    | Some x => DispatcherTheory.client_reads b 200 (DispatcherTheory.resp_headers s) x
    | None => DispatcherTheory.client_reads b 500 DispatcherTheory.exception_headers NetSceneDispatcher.exception_resp
    end /\
    (sc_owner <$> ctxs_ (memory_ t2) !! ptr) = Some (this_ c) /\ conns t3 !! u = Some c3 /\ this_ c3 = this_ c /\
    web_inv t3 /\ outstanding (derived_ t3) = [] /\ AutoBuffer.contents b <> [] /\ zlen (AutoBuffer.contents b) < 2 ^ 31.
Proof.
  destruct Hrest as [Hnet Hrq Hsq Hmb Hlt Hsz], Harr as (Hc & Hr & Hs & Hco & Hup).
  destruct (read_request segs t u c [] _ q Hnet Hu Hc Hr Hs Hco Hup) as (t1 & rc & c1 & E1 & Hqd & Hcont & Hcap1);
    [unfold Backlog; rewrite Hrq; cbn; lia|unfold Backlog; rewrite Hrq; cbn; unfold kQueueSize; lia|done|].
  set (ptr := next_ (memory_ t)) in *. destruct Hqd as [Hnet1 Hrq1 Hsq1 Hmb1 Hpk Hret _ (sq & uid & Hctx) Hconns [Ht1 Hfd1]].
  assert (conns t1 !! u = Some c1) as Hu1 by (by rewrite Hconns, lookup_insert_eq).
  set (ctx := mkSendContext sq uid (this_ c) (AutoBuffer.new AutoBuffer.kMallocUnit) true) in *.
  destruct (DispatcherTheory.HandleHttp_writes ParseReq d r s input st st' resp (sc_buffer ctx) Hserve Hdo) as (b & msg & Hh & Hb & Hne & Hl & Hcl);
    [cbn; unfold AutoBuffer.kMallocUnit; lia|done|].
  assert (deref t1 (recv_block c1) = Some (concat segs)) as Hd1.
  { rewrite (deref_block t1 (outstanding (derived_ t1)) u c1); [by rewrite Hcont|apply Hnet1| |done].
    intros v e. rewrite Hconns. destruct (decide (v = u)) as [->|]; [rewrite lookup_insert_eq; intros [= <-]; lia|].
    rewrite lookup_insert_ne by done. intros He. pose proof (Hsz v e He). lia. }
  destruct (worker_http ParseReq d st other overload t1 (recv_block c1) rc q ptr ctx r msg st' b) as (t2 & E2 & Hn2 & Hnet2 & Hc2 & Hctx2 & Hrq2 & Hsq2 & Hst2);
    [done|by rewrite Hrq1, Hrq|by rewrite Hsq1|by rewrite Hmb1; lia|done|done|done|by rewrite Hd1|done|done|].
  destruct (notified_http t2 ptr u c1 (set_buffer ctx b) msg now) as (t3 & c3 & E3 & Hnet3 & Ho3 & Hu3 & Ht3);
    [done|done|done|done|by rewrite Hc2|done|done|done|by rewrite Hfd1; apply Hc|done|done|done|].
  assert (AutoBuffer.contents b = msg /\ AutoBuffer.Length b = zlen msg) as [Hcb Hlb].
  { destruct Hb as (Ho & Hcb & _). split; [done|]. unfold AutoBuffer.Length. by rewrite <- (AutoBuffer.contents_length _ Ho), Hcb. }
  exists t1, c1, t2, b, t3, c3, ptr. rewrite Hcb, Hlb, Hctx2. split_and!; try done. congruence.
Qed.


(** A worker that takes a POST whose connection has been closed meanwhile, here by an error event
    while the request waited in the queue, reads the body through a pointer into the receive buffer of
    the connection, which was freed with it. *)
Theorem post_body_outlived {St : Type} (ParseReq : bytes -> option Z * option bytes)
    (d : NetSceneDispatcher.NetSceneDispatcher St) (st : St)
    (other overload : RecvContext -> memory -> res (memory * list (option nat)))
    (t : NetThread) (u : nat) (c : Conn) (segs : list bytes) (q : HttpPacket.HttpParser HttpPacket.request_sub) (body : bytes)
    (Hrest : at_rest t) (Hu : conns t !! u = Some c) (Harr : arrives c segs q)
    (Hpost : FirstLine.method_ (HttpPacket.request_line_ (HttpPacket.sub q)) = FirstLine.kPOST)
    (Hbody : HttpProps.view (HttpPacket.body_ q) (concat segs) = Some body) :
  exists t1 c1 t2, read_segments web_methods t u segs = Ok (false, t1) /\ conns t1 !! u = Some c1 /\
    __OnErrEvent t1 u = Ok (0, t2) /\
    worker_turn (scene_worker ParseReq d st other t2 (recv_block c1)) overload t2 = Fault Dangling.
Proof.
  destruct Hrest as [Hnet Hrq Hsq Hmb Hlt Hsz], Harr as (Hc & Hr & Hs & Hco & Hup).
  destruct (read_request segs t u c [] _ q Hnet Hu Hc Hr Hs Hco Hup) as (t1 & rc & c1 & E1 & Hqd & Hcont & Hcap1);
    [unfold Backlog; rewrite Hrq; cbn; lia|unfold Backlog; rewrite Hrq; cbn; unfold kQueueSize; lia|done|].
  destruct Hqd as [Hnet1 Hrq1 Hsq1 Hmb1 Hpk Hret _ _ Hconns [Ht1 Hfd1]].
  assert (conns t1 !! u = Some c1) as Hu1 by (by rewrite Hconns, lookup_insert_eq).
  destruct (net_del t1 _ u c1 Hnet1 Hu1) as (t2 & E2 & Hnet2 & Hc2 & _ & Hd2 & _).
  exists t1, c1, t2. unfold __OnErrEvent. rewrite E2. split_and!; [done|done|done|].
  eapply worker_gone; [rewrite Hd2, Hrq1, Hrq; reflexivity|..]; try done.
  1,2: rewrite Hd2, Hmb1; cbn; lia.
  apply deref_gone; [|lia]. intros v e. rewrite Hc2. destruct (decide (v = u)) as [->|Hne]; [by rewrite lookup_delete_eq|].
  rewrite lookup_delete_ne by done. intros He. split.
  - intros Eq. apply Hne. eapply ci_inj; [apply Hnet1|done|done|done].
  - rewrite Hconns, lookup_insert_ne in He by done. pose proof (Hsz v e He). lia.
Qed.

(** A parser that has ended does not move on. *)
Lemma DoParse_ended (p : HttpPacket.HttpParser HttpPacket.request_sub) (b : bytes) :
  HttpPacket.IsEnd p = true -> HttpPacket.DoParse p b = Ok (0, p) /\ HttpPacket.IsErr p = false.
Proof.
  unfold HttpPacket.DoParse, HttpPacket.IsEnd, HttpPacket.IsErr, HttpPacket.parse_fuel.
  cbn [HttpPacket.parse_loop]. unfold HttpPacket.parse_turn.
  destruct (HttpPacket.position_ p) eqn:E; try done. intros _. by repeat case_match; cbn; rewrite ?E.
Qed.

(** A second request on a connection whose first request was complete is not read: whatever bytes
    arrive, the request that is queued, and answered once more, is the first one. *)
Theorem second_request_replayed (t : NetThread) (u : nat) (c : Conn) (a d : bytes)
    (p : HttpPacket.HttpParser HttpPacket.request_sub)
    (Hnet : web_inv t) (Hu : conns t !! u = Some c) (Hc : http_conn c a p)
    (Hend : HttpPacket.IsEnd p = true) (Hup : HttpPacket.is_upgrade_to_ws_ (HttpPacket.sub p) = false)
    (Hcap : AutoBuffer.capacity_ (tcp_byte_arr_ c) < 2 ^ 60) (Hd : read_sized d)
    (Hroom : Backlog t < max_backlog_ (derived_ t)) (Hroom2 : Backlog t <= MessageQueue.max_size_ (recv_queue_ (derived_ t)))
    (Hlt : Z.of_nat (next_ (memory_ t)) < 2 ^ 32) :
  exists t' rc, __OnReadEvent web_methods t u [UnixSocket.ReadData d] = Ok (false, t') /\ web_inv t' /\
    MessageQueue.container_ (recv_queue_ (derived_ t')) = MessageQueue.container_ (recv_queue_ (derived_ t)) ++ [rc] /\
    rc_application_packet rc = Some (WHttp p) /\ rc_tcp_connection_uid rc = Z.of_nat u.
Proof.
  destruct (DoParse_ended p (a ++ d) Hend) as [Hp Hq].
  destruct (read_last t u c a d p p 0 Hnet Hu Hc Hcap Hd Hp Hq Hend Hup Hroom Hroom2 Hlt)
    as (t' & rc & c' & E & [Hi Hr _ _ Hpk _ Huid _ _ _] & _).
  exists t', rc. rewrite Hr. by split_and!.
Qed.

(** *** Two requests *)

Definition demo_line (m : bytes) : bytes := m ++ str " / HTTP/1.1" ++ [13; 10] ++ str "Host: a" ++ [13; 10].
Definition get_segments : list bytes := [demo_line (str "GET"); str "Accept: b" ++ [13; 10; 13; 10]].
Definition post_segments : list bytes := [demo_line (str "POST"); str "Content-Length: 2" ++ [13; 10; 13; 10]; str "hi"].

Definition demo_conn : Conn :=
  default (new_ConnectionProfile kAcceptFrom [] 0 0 0 0) (slot accepting_thread 1).

Definition parsed (segs : list bytes) : HttpPacket.HttpParser HttpPacket.request_sub :=
  match HttpPacket.feed HttpPacket.new_request [] segs with Ok q => q | Fault _ => HttpPacket.new_request end.

Lemma demo_conn_live : conns accepting_thread !! 1%nat = Some demo_conn.
Proof. apply live_lookup_Some. vm_compute. reflexivity. Qed.

Lemma demo_at_rest : at_rest accepting_thread.
Proof.
  split; [apply accepting_inv|vm_compute; reflexivity|vm_compute; reflexivity|vm_compute; done|vm_compute; reflexivity|].
  intros v e He. assert (v = 1%nat) as ->.
  { apply live_lookup_Some in He. destruct (decide (v = 1%nat)) as [|Hne]; [done|]. exfalso.
    assert (v < 128)%nat by (apply lookup_lt_Some in He; exact He).
    do 128 (destruct v as [|v]; [vm_compute in He; congruence|]). lia. }
  rewrite demo_conn_live in He. injection He as <-. vm_compute. done.
Qed.

Lemma demo_http : http_conn demo_conn [] HttpPacket.new_request.
Proof.
  split; try (vm_compute; reflexivity). split; try (vm_compute; reflexivity). split; vm_compute; done.
Qed.

Lemma get_arrives : arrives demo_conn get_segments (parsed get_segments).
Proof.
  split_and!; [apply demo_http|vm_compute; reflexivity|repeat constructor; discriminate| |vm_compute; reflexivity].
  eexists _, _. split_and!; [vm_compute; reflexivity..|]. eexists. split_and!; vm_compute; reflexivity.
Qed.

Lemma post_arrives : arrives demo_conn post_segments (parsed post_segments).
Proof.
  split_and!; [apply demo_http|vm_compute; reflexivity|repeat constructor; discriminate| |vm_compute; reflexivity].
  eexists _, _. split_and!; [vm_compute; reflexivity..|]. eexists _, _. split_and!; [vm_compute; reflexivity..|].
  eexists. split_and!; vm_compute; reflexivity.
Qed.


(** The connection after the request line by line; it then sends another one. *)
Definition answered_thread : NetThread :=
  match read_segments web_methods accepting_thread 1 get_segments with Ok (_, t) => t | Fault _ => accepting_thread end.

Definition answered_conn : Conn := default demo_conn (slot answered_thread 1).

Lemma second_request_replayed_witness :
  exists t' rc, __OnReadEvent web_methods answered_thread 1 [UnixSocket.ReadData (demo_line (str "POST"))] = Ok (false, t') /\
    web_inv t' /\ MessageQueue.container_ (recv_queue_ (derived_ t')) =
      MessageQueue.container_ (recv_queue_ (derived_ answered_thread)) ++ [rc] /\
    rc_application_packet rc = Some (WHttp (parsed get_segments)) /\ rc_tcp_connection_uid rc = 1.
Proof.
  apply (second_request_replayed answered_thread 1 answered_conn (concat get_segments)).
  - destruct (read_request get_segments accepting_thread 1 demo_conn [] HttpPacket.new_request (parsed get_segments))
      as (t1 & rc & c1 & E & Hq & _).
    + apply accepting_inv.
    + apply demo_conn_live.
    + apply demo_http.
    + apply get_arrives.
    + apply get_arrives.
    + apply get_arrives.
    + vm_compute. reflexivity.
    + vm_compute. reflexivity.
    + vm_compute. discriminate.
    + vm_compute. reflexivity.
    + unfold answered_thread. rewrite E. apply Hq.
  - apply live_lookup_Some. vm_compute. reflexivity.
  - split; try (vm_compute; reflexivity). split; try (vm_compute; reflexivity). split; vm_compute; done.
  - vm_compute. reflexivity.
  - vm_compute. reflexivity.
  - vm_compute. reflexivity.
  - vm_compute. split; [reflexivity|discriminate].
  - vm_compute. reflexivity.
  - vm_compute. discriminate.
  - vm_compute. reflexivity.
Defined.

Lemma post_body_outlived_witness :
  exists t1 c1 t2, read_segments web_methods accepting_thread 1 post_segments = Ok (false, t1) /\ conns t1 !! 1%nat = Some c1 /\
    __OnErrEvent t1 1 = Ok (0, t2) /\
    worker_turn (scene_worker DispatcherTheory.demo_parse DispatcherTheory.demo 41 (fun _ m => Ok (m, [])) t2 (recv_block c1))
      (fun _ m => Ok (m, [])) t2 = Fault Dangling.
Proof.
  refine (post_body_outlived DispatcherTheory.demo_parse DispatcherTheory.demo 41 _ _ accepting_thread 1 demo_conn
            post_segments (parsed post_segments) (str "hi") demo_at_rest demo_conn_live post_arrives _ _);
    vm_compute; reflexivity.
Defined.

End RequestPath.
