(* ===== verification/LoadBalancer.v ===== *)
(** * The load balancer of the reverse proxy (reverseproxy/loadbalancer.h, loadbalancer.cc)

    The balancer keeps the registered web servers and selects one by
    polling, by weight or by the hash of the client address. *)
From S2P Require Import Prelude.

Module LoadBalancer.

(** ** Definitions *)

Record WebServerProfile := mkServer {
  ip : bytes;
  port : Z;
  weight : Z;
  last_down_ts : Z;
  last_heartbeat_ts : Z;
  is_down : bool;
  is_overload : bool;
  backlog : Z;
  svr_id : Z
}.

Definition kInvalidSeq : Z := 0.

(** The constructor; [seq] is the static counter of [MakeSeq]. *)
Definition new_WebServerProfile (seq : Z) : WebServerProfile * Z :=
  let seq := add64 seq 1 in
  (mkServer [] 0 0 0 0 false false 0 seq, seq).

Inductive TBalanceRule := kUnknown | kPoll | kWeight | kIpHash.

Definition kDefaultRetryPeriod : Z := 10 * 60 * 1000.
Definition kMaxWeight : Z := 10.
Definition kOverloadBacklog : Z := 4096.

(** A server is its place in [web_servers_], as is the iterator
    [last_selected_]. *)
Record LoadBalancer := mkBalancer {
  balance_rule_ : TBalanceRule;
  web_servers_ : list WebServerProfile;
  last_selected_ : nat;
  curr_weight_ : Z
}.

Definition new_LoadBalancer : LoadBalancer := mkBalancer kUnknown [] 0 0.

Definition set_server (b : LoadBalancer) (i : nat) (s : WebServerProfile) : LoadBalancer :=
  mkBalancer (balance_rule_ b) (<[i := s]> (web_servers_ b)) (last_selected_ b) (curr_weight_ b).

Definition set_selected (b : LoadBalancer) (i : nat) : LoadBalancer :=
  mkBalancer (balance_rule_ b) (web_servers_ b) i (curr_weight_ b).

Definition RegisterWebServer (b : LoadBalancer) (s : WebServerProfile) : res LoadBalancer :=
  _ ← assert_ (negb (kMaxWeight <? weight s));
  Ok (mkBalancer (balance_rule_ b) (web_servers_ b ++ [s]) 0 (curr_weight_ b)).

Definition ConfigRule (b : LoadBalancer) (r : TBalanceRule) : res LoadBalancer :=
  match r with
  | kUnknown => Fault AssertFailed
  | _ => Ok (mkBalancer r (web_servers_ b) (last_selected_ b) (curr_weight_ b))
  end.

Definition ReportWebServerDown (b : LoadBalancer) (i : nat) (now : Z) : LoadBalancer :=
  match web_servers_ b !! i with
  | Some s => set_server b i (mkServer (ip s) (port s) (weight s) now (last_heartbeat_ts s) true
                                (is_overload s) (backlog s) (svr_id s))
  | None => b
  end.

Definition OnRecvHeartbeat (b : LoadBalancer) (i : nat) (backlog : Z) (now : Z) : LoadBalancer :=
  match web_servers_ b !! i with
  | Some s => set_server b i (mkServer (ip s) (port s) (weight s) (last_down_ts s) now false
                                (kOverloadBacklog <? backlog) backlog (svr_id s))
  | None => b
  end.

(** Whether the server may be used, and the server, which a retry marks as up. *)
Definition __IsWebServerAvailable (s : WebServerProfile) (now : Z) : bool * WebServerProfile :=
  if weight s <=? 0 then (false, s)
  else if negb (is_down s) then (true, s)
  else if now <=? add64 (last_down_ts s) kDefaultRetryPeriod then
    (true, mkServer (ip s) (port s) (weight s) (last_down_ts s) (last_heartbeat_ts s) false
             (is_overload s) (backlog s) (svr_id s))
  else (false, s).

(** The loop of [__BalanceByPoll]. A turn that finds its server unavailable
    changes nothing but [last_selected_], so that a whole round without an
    available server repeats forever. *)
Fixpoint poll_loop (fuel : nat) (b : LoadBalancer) (now : Z) : res (nat * LoadBalancer) :=
  match fuel with
  | O => Fault Hang
  | S fuel' =>
      let next := S (last_selected_ b) in
      let next := if (next =? length (web_servers_ b))%nat then O else next in
      match web_servers_ b !! next with
      | None => Fault Undefined
      | Some s =>
          let '(ok, s) := __IsWebServerAvailable s now in
          let b := set_server (set_selected b next) next s in
          if ok : bool then Ok (next, b) else poll_loop fuel' b now
      end
  end.

Definition __BalanceByPoll (b : LoadBalancer) (now : Z) : res (nat * LoadBalancer) :=
  poll_loop (length (web_servers_ b)) b now.

(** [std::lock_guard<std::mutex>]: locking a mutex the thread already holds
    never returns. *)
Definition lock_guard (held : bool) : res unit := if held then Fault Hang else Ok ().

(** The weight a server is given; [kOverloadBacklog / kMaxWeight] and the
    backlog are converted to [int]. *)
Definition server_weight (s : WebServerProfile) : Z :=
  weight s * to_int (kOverloadBacklog / kMaxWeight) - to_int (backlog s).

(** The next entry of [selector]: the conditional binds weaker than the sum,
    so that the weight alone is pushed, not the running total. *)
Definition selector_next (back : Z) (s : WebServerProfile) : Z :=
  if is_overload s || is_down s then back
  else if 0 <? back + server_weight s then server_weight s else 0.

Fixpoint selector_from (back : Z) (l : list WebServerProfile) : list Z :=
  match l with
  | [] => []
  | s :: l' => let x := selector_next back s in x :: selector_from x l'
  end.

(** The first place whose entry, compared as an unsigned number, exceeds [r]. *)
Fixpoint first_above (r : Z) (i : nat) (selector : list Z) : option nat :=
  match selector with
  | [] => None
  | x :: l => if r <? wrap64 x then Some i else first_above r (S i) l
  end.

(** [held]: whether the thread already holds [mutex_]; [random] is what
    [random()] returns. The remainder by zero and the use of [end()] are
    undefined. *)
Definition __BalanceByWeight (held : bool) (b : LoadBalancer) (random : Z) : res (nat * LoadBalancer) :=
  _ ← lock_guard held;
  let selector := 0 :: selector_from 0 (web_servers_ b) in
  let back := default 0 (last selector) in
  if back =? 0 then Fault Undefined
  else
    let r := wrap64 (Z.rem random back) in
    let b := match first_above r 0 selector with Some i => set_selected b i | None => b end in
    if (last_selected_ b <? length (web_servers_ b))%nat then Ok (last_selected_ b, b)
    else Fault Undefined.

(** [addr] is what [inet_pton] makes of the text, [None] when it fails. *)
Definition __BalanceByIpHash (b : LoadBalancer) (addr : option Z) : res (option nat * LoadBalancer) :=
  match addr with
  | Some a =>
      let idx := Z.to_nat (a mod zlen (web_servers_ b)) in
      match web_servers_ b !! idx with
      | Some s => Ok (Some idx, mkBalancer (balance_rule_ b) (web_servers_ b) idx (weight s))
      | None => Fault Undefined
      end
  | None => Ok (None, b)
  end.

(** [Select]: the place of the selected server, [None] for [nullptr]. It takes
    the lock and holds it during the whole call. *)
Definition Select (b : LoadBalancer) (addr : option Z) (random now : Z) :
    res (option nat * LoadBalancer) :=
  _ ← lock_guard false;
  match web_servers_ b with
  | [] => Ok (None, b)
  | _ :: _ =>
      match balance_rule_ b with
      | kPoll => '(i, b) ← __BalanceByPoll b now; Ok (Some i, b)
      | kWeight => '(i, b) ← __BalanceByWeight true b random; Ok (Some i, b)
      | kIpHash => '(o, b) ← __BalanceByIpHash b addr; Ok (Some (default O o), b)
      | kUnknown => Ok (Some O, b)
      end
  end.

(** ** Specifications *)

Definition available (b : LoadBalancer) (now : Z) (i : nat) : Prop :=
  exists s, web_servers_ b !! i = Some s /\ (__IsWebServerAvailable s now).1 = true.

(** [k] places after the last selected one, in the circle. *)
Definition after (b : LoadBalancer) (k : nat) : nat :=
  ((last_selected_ b + k) mod length (web_servers_ b))%nat.

Definition balancer_ok (b : LoadBalancer) : Prop := (last_selected_ b < length (web_servers_ b))%nat.

(** Successive selections by polling. *)
Fixpoint selections (n : nat) (b : LoadBalancer) (random now : Z) : res (list nat) :=
  match n with
  | O => Ok []
  | S n' =>
      '(o, b) ← Select b None random now;
      l ← selections n' b random now;
      Ok (match o with Some i => i :: l | None => l end)
  end.

(** ** Lemmas *)

Lemma available_unchanged (s : WebServerProfile) (now : Z) :
  (__IsWebServerAvailable s now).1 = false -> (__IsWebServerAvailable s now).2 = s.
Proof. unfold __IsWebServerAvailable. by repeat case_match. Qed.

(** A retry does not make a server less available. *)
Lemma available_again (s : WebServerProfile) (now : Z) :
  (__IsWebServerAvailable (__IsWebServerAvailable s now).2 now).1 = (__IsWebServerAvailable s now).1.
Proof.
  unfold __IsWebServerAvailable. destruct (weight s <=? 0) eqn:Ew; cbn; [by rewrite Ew|].
  destruct (is_down s) eqn:Ed; cbn; [|by rewrite Ew, Ed].
  destruct (now <=? _) eqn:Et; cbn; [by rewrite Ew|by rewrite Ew, Ed, Et].
Qed.

Lemma next_after (b : LoadBalancer) :
  balancer_ok b ->
  (if (S (last_selected_ b) =? length (web_servers_ b))%nat then O else S (last_selected_ b)) = after b 1.
Proof.
  unfold balancer_ok, after. intros Hb. rewrite Nat.add_1_r.
  destruct (Nat.eqb_spec (S (last_selected_ b)) (length (web_servers_ b))) as [E|E].
  - by rewrite E, Nat.Div0.mod_same.
  - rewrite Nat.mod_small; [done|lia].
Qed.

Lemma after_lt (b : LoadBalancer) (k : nat) : balancer_ok b -> (after b k < length (web_servers_ b))%nat.
Proof. unfold balancer_ok, after. intros. apply Nat.mod_upper_bound. lia. Qed.

(** Skipping an unavailable server. *)
Lemma poll_skip (fuel : nat) (b : LoadBalancer) (now : Z) (k : nat) :
  balancer_ok b -> (forall j, (1 <= j <= k)%nat -> ~ available b now (after b j)) -> (k <= fuel)%nat ->
  poll_loop fuel b now = poll_loop (fuel - k) (set_selected b (after b k)) now.
Proof.
  intros Hb Hk Hf. induction k as [|k IH].
  - rewrite Nat.sub_0_r. f_equal. unfold after. rewrite Nat.add_0_r, Nat.mod_small by done. by destruct b.
  - rewrite IH by (lia || intros; apply Hk; lia). clear IH.
    destruct (fuel - k)%nat as [|f] eqn:E; [lia|]. replace (fuel - S k)%nat with f by lia.
    cbn [poll_loop]. pose proof (next_after (set_selected b (after b k)) (after_lt b k Hb)) as Hn.
    cbn [set_selected last_selected_ web_servers_] in Hn |- *. rewrite Hn.
    assert (after (set_selected b (after b k)) 1 = after b (S k)) as ->.
    { unfold after. cbn. rewrite Nat.Div0.add_mod_idemp_l. f_equal. lia. }
    destruct (lookup_lt_is_Some_2 (web_servers_ b) (after b (S k))) as [s Hs]; [by apply after_lt|].
    rewrite Hs. assert ((__IsWebServerAvailable s now).1 = false) as Ha.
    { destruct ((__IsWebServerAvailable s now).1) eqn:E2; [|done]. destruct (Hk (S k)); [lia|]. by exists s. }
    pose proof (available_unchanged s now Ha) as Hu.
    destruct (__IsWebServerAvailable s now) as [ok s']. cbn in Ha, Hu. subst ok s'.
    f_equal. unfold set_server, set_selected. cbn. by rewrite list_insert_id.
Qed.

(** The first available server in the circle is taken. *)
Lemma poll_first (b : LoadBalancer) (now : Z) (k : nat) :
  balancer_ok b -> (1 <= k <= length (web_servers_ b))%nat -> available b now (after b k) ->
  (forall j, (1 <= j < k)%nat -> ~ available b now (after b j)) ->
  exists b', __BalanceByPoll b now = Ok (after b k, b') /\ last_selected_ b' = after b k /\
    length (web_servers_ b') = length (web_servers_ b) /\ balance_rule_ b' = balance_rule_ b /\
    forall i, available b' now i <-> available b now i.
Proof.
  intros Hb Hk (s & Hs & Ha) Hj. unfold __BalanceByPoll.
  rewrite (poll_skip _ b now (k - 1)) by (lia || (intros; apply Hj; lia) || done).
  destruct (length (web_servers_ b) - (k - 1))%nat as [|f] eqn:E; [lia|]. cbn [poll_loop].
  pose proof (next_after (set_selected b (after b (k - 1))) (after_lt b _ Hb)) as Hn.
  cbn [set_selected last_selected_ web_servers_] in Hn |- *. rewrite Hn.
  assert (after (set_selected b (after b (k - 1))) 1 = after b k) as ->.
  { unfold after. cbn. rewrite Nat.Div0.add_mod_idemp_l. f_equal. lia. }
  rewrite Hs. pose proof (available_again s now) as Hag.
  destruct (__IsWebServerAvailable s now) as [ok s'] eqn:Es. cbn in Ha, Hag. subst ok.
  eexists. split; [done|]. cbn. rewrite length_insert. split_and!; try done.
  intros i. unfold available. cbn. pose proof (after_lt b k Hb) as Hlt.
  destruct (decide (i = after b k)) as [->|Hne].
  - rewrite list_lookup_insert_eq, Hs by done. split; intros (x & Hx & Hx2); simplify_eq.
    + exists s. by rewrite Es.
    + exists s'. by rewrite Hag.
  - by rewrite list_lookup_insert_ne.
Qed.

(** ** Properties *)

(** Polling selects the first available server after the last selected one in the circle, and
    returns whenever some server is available. *)
Theorem poll_selects_next (b : LoadBalancer) (random now : Z) (addr : option Z) (k : nat)
    (Hrule : balance_rule_ b = kPoll) (Hb : balancer_ok b)
    (Hk : (1 <= k <= length (web_servers_ b))%nat) (Hav : available b now (after b k))
    (Hfirst : forall j, (1 <= j < k)%nat -> ~ available b now (after b j)) :
  exists b', Select b addr random now = Ok (Some (after b k), b') /\ last_selected_ b' = after b k.
Proof.
  destruct (poll_first b now k Hb Hk Hav Hfirst) as (b' & E & Hl & _).
  unfold Select. unfold balancer_ok in Hb. destruct (web_servers_ b) eqn:Ew; [simpl in Hb; lia|].
  rewrite Hrule, E. cbn. by exists b'.
Qed.

Definition demo_server (w : Z) (down : bool) (ts : Z) : WebServerProfile :=
  mkServer (str "10.0.0.1") 80 w ts 0 down false 0 1.

Lemma poll_selects_next_witness :
  let b := mkBalancer kPoll [demo_server 1 false 0; demo_server 0 false 0; demo_server 5 false 0] 0 0 in
  exists b', Select b None 7 100 = Ok (Some 2%nat, b') /\ last_selected_ b' = 2%nat.
Proof.
  intros b. refine (poll_selects_next b 7 100 None 2 _ _ _ _ _);
    [done|vm_compute; lia|simpl; lia|by exists (demo_server 5 false 0)|].
  intros j Hj. replace j with 1%nat by lia. intros (s & Hs & Ha). vm_compute in Hs. simplify_eq.
Defined.

(** When every server is available, successive selections by polling visit the servers in
    turn: the i-th selection is the server i places after the last one, so that each server is
    selected once in every round. *)
Theorem poll_round_robin (n : nat) (b : LoadBalancer) (random now : Z)
    (Hrule : balance_rule_ b = kPoll) (Hb : balancer_ok b)
    (Hall : forall i, (i < length (web_servers_ b))%nat -> available b now i) :
  selections n b random now = Ok (after b <$> seq 1 n).
Proof.
  revert b Hrule Hb Hall. induction n as [|n IH]; intros b Hrule Hb Hall; [done|].
  cbn [selections]. unfold balancer_ok in Hb.
  destruct (poll_first b now 1 Hb ltac:(lia)) as (b' & E & Hl & Hlen & Hr & Hav);
    [by apply Hall, after_lt|lia|].
  unfold Select at 1. destruct (web_servers_ b) eqn:Ew; [simpl in Hb; lia|]. rewrite <- Ew in *.
  rewrite Hrule, E. cbn [lock_guard mbind res_bind]. rewrite IH; [|congruence| |].
  - cbn [mbind res_bind]. do 2 f_equal. cbn [seq]. rewrite fmap_cons. f_equal.
    rewrite <- (fmap_S_seq 1), <- list_fmap_compose. apply list_fmap_ext. intros _ j _.
    unfold after, compose. rewrite Hl, Hlen. unfold after. rewrite Nat.Div0.add_mod_idemp_l. f_equal. lia.
  - unfold balancer_ok. rewrite Hl, Hlen. by apply after_lt.
  - intros i Hi. apply Hav, Hall. lia.
Qed.

Lemma poll_round_robin_witness :
  let b := mkBalancer kPoll [demo_server 1 false 0; demo_server 2 false 0; demo_server 5 false 0] 0 0 in
  selections 4 b 7 100 = Ok [1; 2; 0; 1]%nat.
Proof.
  intros b. refine (poll_round_robin 4 b 7 100 _ _ _); [done|vm_compute; lia|].
  intros [|[|[|i]]] Hi; try (by eexists); simpl in Hi; lia.
Defined.

(** When no server is available, polling never returns, however many turns its loop is given,
    and keeps the lock; and selecting by weight never returns at all, because the lock [Select]
    holds is taken a second time. *)
Theorem Select_never_returns (b : LoadBalancer) (random now : Z) (addr : option Z)
    (Hb : balancer_ok b)
    (Hbad : balance_rule_ b = kWeight \/ balance_rule_ b = kPoll /\ forall i, ~ available b now i) :
  Select b addr random now = Fault Hang /\
  (balance_rule_ b = kPoll -> forall turns, poll_loop turns b now = Fault Hang).
Proof.
  unfold Select. pose proof Hb as Hlt. unfold balancer_ok in Hlt.
  destruct (web_servers_ b) as [|s0 l] eqn:Ew; [simpl in Hlt; lia|].
  destruct Hbad as [->|[-> Hno]]; [done|].
  assert (forall turns, poll_loop turns b now = Fault Hang) as Hall.
  { intros turns. rewrite (poll_skip turns b now turns); [by rewrite Nat.sub_diag|done|auto|done]. }
  unfold __BalanceByPoll. cbn [lock_guard mbind res_bind]. by rewrite Hall.
Qed.

Lemma Select_never_returns_witness :
  let b := mkBalancer kPoll [demo_server 0 false 0] 0 0 in
  Select b None 7 100 = Fault Hang /\ poll_loop 1000 b 100 = Fault Hang.
Proof.
  intros b. destruct (Select_never_returns b 7 100 None) as [H1 H2]; [vm_compute; lia| |by auto].
  right. split; [done|]. intros [|i] (s & Hs & Ha); [|done].
  vm_compute in Hs. by simplify_eq.
Defined.

(** Without the second lock the weighted selection would be one place off:
    the entries start at the second place, and the only server of a balancer
    is never reached. *)
Lemma weight_one_off (b : LoadBalancer) (s : WebServerProfile) (random : Z) :
  web_servers_ b = [s] -> is_overload s = false -> is_down s = false ->
  0 < server_weight s < 2 ^ 63 -> 0 <= random < 2 ^ 63 ->
  __BalanceByWeight false b random = Fault Undefined.
Proof.
  intros Hs Ho Hd Hw Hr. unfold __BalanceByWeight. rewrite Hs. cbn [selector_from lock_guard mbind res_bind].
  unfold selector_next. rewrite Ho, Hd. cbn [orb]. rewrite Z.add_0_l.
  destruct (Z.ltb_spec 0 (server_weight s)); [|lia]. cbn [last default from_option id].
  destruct (Z.eqb_spec (server_weight s) 0); [lia|].
  destruct (Z.rem_bound_pos random (server_weight s)); [lia..|]. cbn [first_above].
  set (r := Z.rem random (server_weight s)) in *.
  assert (wrap64 r = r) as -> by (apply wrap64_id; lia).
  assert (wrap64 (server_weight s) = server_weight s) as -> by (apply wrap64_id; lia).
  change (wrap64 0) with 0.
  destruct (Z.ltb_spec r 0); [lia|]. destruct (Z.ltb_spec r (server_weight s)); [|lia].
  cbn [set_selected last_selected_ web_servers_]. by rewrite Hs.
Qed.

(** A server with a positive weight that is marked down is available again exactly during the
    retry period after it went down, and never afterwards: the comparison of the retry test is
    the wrong way round. *)
Theorem retry_inverted (s : WebServerProfile) (now : Z)
    (Hw : 0 < weight s) (Hd : is_down s = true)
    (Ht : 0 <= last_down_ts s < 2 ^ 63) :
  (__IsWebServerAvailable s now).1 = true <-> now <= last_down_ts s + 600000.
Proof.
  unfold __IsWebServerAvailable, kDefaultRetryPeriod. destruct (Z.leb_spec (weight s) 0); [lia|].
  rewrite Hd. cbn [negb]. rewrite add64_id by lia.
  destruct (Z.leb_spec now (last_down_ts s + 10 * 60 * 1000)); cbn; split; done || lia.
Qed.

Lemma retry_inverted_witness :
  (__IsWebServerAvailable (demo_server 1 true 5000) 5001).1 = true <-> 5001 <= 5000 + 600000.
Proof. refine (retry_inverted (demo_server 1 true 5000) 5001 _ _ _); simpl; done || lia. Defined.

End LoadBalancer.
