(* ===== verification/ProxyServer.v ===== *)
(** * The reverse proxy (reverseproxy/proxyserver.h, proxyserver.cc)

    Its configuration and the heartbeats of the web servers. The profiles of
    the web servers are shared between the configuration and the load balancer,
    which holds pointers to them: they are kept once, in the balancer, in the
    order of the configuration. The generated code that parses a heartbeat is a
    parameter. Forwarding is in [ProxyForward]. *)
From S2P Require Import Prelude CLib StrUtil YamlUtil YamlTheory ServerConfig LoadBalancer.

Module ProxyServer.
Import LoadBalancer.

(** ** Definitions *)

Definition key_load_balance_rule : bytes := str "load_balance_rule".
Definition key_ip : bytes := str "ip".
Definition key_port : bytes := str "port".
Definition key_weight : bytes := str "weight".
Definition key_webservers : bytes := str "webservers".
Definition kLoadBalanceRulePoll : bytes := str "poll".
Definition kLoadBalanceRuleWeight : bytes := str "weight".
Definition kLoadBalanceRuleIpHash : bytes := str "ip_hash".
Definition kConfigFile : bytes := str "proxyserverconf.yml".

(** [ProxyConfig], the balancer of the server, and the counter of [MakeSeq]. *)
Record ProxyConfig := mkProxyConfig {
  webservers : list WebServerProfile;
  load_balance_rule : bytes;
  load_balancer_ : LoadBalancer;
  next_seq : Z
}.

(** The constructor of the server configures polling. *)
Definition new_ProxyConfig : res ProxyConfig :=
  b ← ConfigRule new_LoadBalancer kPoll;
  Ok (mkProxyConfig [] [] b kInvalidSeq).

Definition obj_leaf (st : list YamlUtil.Node) (o : list nat) (k : bytes) : res bytes :=
  l ← YamlUtil.ValueObj_GetLeaf st o k;
  match l with Some d => Ok d | None => Fault Undefined end.

(** One turn of the loop over the objects. *)
Definition read_webserver (st : list YamlUtil.Node) (e : YamlUtil.element) (seq : Z)
    : res (WebServerProfile * Z) :=
  match e with
  | YamlUtil.ELeaf _ => Fault Undefined
  | YamlUtil.EObj o =>
      let '(neo, seq) := new_WebServerProfile seq in
      tip ← obj_leaf st o key_ip;
      tport ← obj_leaf st o key_port;
      tweight ← obj_leaf st o key_weight;
      Ok (mkServer (YamlUtil.To_string tip).2 (YamlUtil.To_uint16 tport).2 (YamlUtil.To_uint16 tweight).2
            (last_down_ts neo) (last_heartbeat_ts neo) (is_down neo) (is_overload neo) (backlog neo)
            (svr_id neo), seq)
  end.

Fixpoint read_webservers (st : list YamlUtil.Node) (es : list YamlUtil.element) (seq : Z)
    : res (list WebServerProfile * Z) :=
  match es with
  | [] => Ok ([], seq)
  | e :: es' =>
      '(s, seq) ← read_webserver st e seq;
      '(l, seq) ← read_webservers st es' seq;
      Ok (s :: l, seq)
  end.

(** The rule of the name, [None] for an unknown one. *)
Definition rule_of (name : bytes) : option TBalanceRule :=
  if bool_decide (name = kLoadBalanceRulePoll) then Some kPoll
  else if bool_decide (name = kLoadBalanceRuleWeight) then Some kWeight
  else if bool_decide (name = kLoadBalanceRuleIpHash) then Some kIpHash
  else None.

(** The [try] block. *)
Definition read_config (st : list YamlUtil.Node) (e : ProxyConfig) : res (bool * ProxyConfig) :=
  a ← YamlUtil.GetArray st key_webservers;
  es ← YamlUtil.AsYmlObjects a;
  '(l, seq) ← read_webservers st es (next_seq e);
  rule ← YamlUtil.GetLeaf st key_load_balance_rule;
  let rule := (YamlUtil.To_string rule).2 in
  match rule_of rule with
  | Some r =>
      b ← ConfigRule (load_balancer_ e) r;
      Ok (true, mkProxyConfig (webservers e ++ l) rule b seq)
  | None => Ok (false, mkProxyConfig (webservers e ++ l) rule (load_balancer_ e) seq)
  end.

(** [_CustomConfig]. A failed attempt leaves the configuration unfinished, so
    what it had assigned is dropped. *)
Definition _CustomConfig (st : list YamlUtil.Node) (c : ServerConfig.ServerConfigBase) (e : ProxyConfig)
    : res (bool * ProxyConfig) :=
  match read_config st e with
  | Fault (Throw _) => Ok (false, e)
  | r => r
  end.

Fixpoint register_all (b : LoadBalancer) (l : list WebServerProfile) : res LoadBalancer :=
  match l with
  | [] => Ok b
  | s :: l' => b ← RegisterWebServer b s; register_all b l'
  end.

Section AfterConfig.
Context {T : Type} (new_thread : T) (SetMaxConnection : T -> Z -> res T).

(** [AfterConfig]: the balancer with all servers registered, and the threads. *)
Definition AfterConfig (c : ServerConfig.ServerConfigBase) (e : ProxyConfig) : res (LoadBalancer * list T) :=
  ts ← ServerConfig.SetNetThreadImpl c new_thread [];
  b ← register_all (load_balancer_ e) (webservers e);
  ts ← ServerConfig.base_AfterConfig SetMaxConnection c ts;
  Ok (b, ts).

End AfterConfig.

(** *** Heartbeats *)

Section Heartbeat.
(** [NetSceneSvrHeartbeatReq::ParseFromArray]: the port when the field is
    present, and the backlog. *)
Context (ParseHeartbeat : bytes -> option Z * Z).

(** The loop of [CheckHeartbeat] from place [i]: [body] is [None] where [Body()]
    is null; [parsed] is the port and the backlog once the body has been parsed. *)
Fixpoint heartbeat_loop (l : list WebServerProfile) (i : nat) (from_ip : bytes) (body : option bytes)
    (parsed : option (Z * Z)) (b : LoadBalancer) (now : Z) : res (bool * LoadBalancer) :=
  match l with
  | [] => Ok (false, b)
  | s :: l' =>
      if negb (bool_decide (ip s = from_ip)) then heartbeat_loop l' (S i) from_ip body parsed b now
      else
        parsed ← (match parsed with
                  | Some _ => Ok parsed
                  | None =>
                      match body with
                      | None => Fault Undefined
                      | Some bytes =>
                          match ParseHeartbeat bytes with
                          | (Some p, n) => Ok (Some (wrap16 p, wrap32 n))
                          | (None, _) => Ok None
                          end
                      end
                  end);
        match parsed with
        | None => Ok (false, b)
        | Some (p, n) =>
            if port s =? p then Ok (true, OnRecvHeartbeat b i n now)
            else heartbeat_loop l' (S i) from_ip body parsed b now
        end
  end.

Definition CheckHeartbeat (b : LoadBalancer) (from_ip : bytes) (body : option bytes) (now : Z)
    : res (bool * LoadBalancer) :=
  heartbeat_loop (web_servers_ b) O from_ip body None b now.

End Heartbeat.

(** ** Lemmas *)

Lemma register_all_app (l : list WebServerProfile) (b : LoadBalancer) :
  Forall (fun s => weight s <= kMaxWeight) l ->
  exists b', register_all b l = Ok b' /\ web_servers_ b' = web_servers_ b ++ l /\
    balance_rule_ b' = balance_rule_ b /\ (l <> [] -> last_selected_ b' = O).
Proof.
  intros Hl. revert b. induction Hl as [|s l Hs _ IH]; intros b.
  { exists b. cbn. by rewrite app_nil_r. }
  cbn [register_all]. unfold RegisterWebServer at 1. destruct (Z.ltb_spec kMaxWeight (weight s)); [lia|].
  cbn [negb assert_ mbind res_bind].
  destruct (IH (mkBalancer (balance_rule_ b) (web_servers_ b ++ [s]) 0 (curr_weight_ b))) as (b' & E & Hw & Hr & Hs0).
  exists b'. split; [done|]. cbn in Hw, Hr. rewrite Hw, <- app_assoc. split_and!; [done|done|].
  intros _. destruct l; [|by apply Hs0]. cbn in E. by simplify_eq.
Qed.

(** The servers of the objects of an array. *)
Definition server_of (fs : list YamlTheory.field) (seq : Z) : option WebServerProfile :=
  tip ← YamlTheory.lookup_field fs key_ip;
  tport ← YamlTheory.lookup_field fs key_port;
  tweight ← YamlTheory.lookup_field fs key_weight;
  Some (mkServer tip (wrap16 (strtol tport)) (wrap16 (strtol tweight)) 0 0 false false 0 (add64 seq 1)).

Fixpoint servers_of (objs : list (list YamlTheory.field)) (seq : Z) : option (list WebServerProfile) :=
  match objs with
  | [] => Some []
  | fs :: objs' => s ← server_of fs seq; l ← servers_of objs' (add64 seq 1); Some (s :: l)
  end.

Lemma read_webservers_ok (st : list YamlUtil.Node) (es : list YamlUtil.element)
    (objs : list (list YamlTheory.field)) (seq : Z) (l : list WebServerProfile) :
  mapM (YamlTheory.read_element st) es = Some objs -> servers_of objs seq = Some l ->
  exists seq', read_webservers st es seq = Ok (l, seq').
Proof.
  revert objs seq l. induction es as [|e es IH]; intros objs seq l Hm Hl; cbn [mapM] in Hm.
  { injection Hm as <-. injection Hl as <-. by eexists. }
  apply bind_Some in Hm as (fs & He & Hm). apply bind_Some in Hm as (objs' & Hes & Hm). injection Hm as <-.
  cbn [servers_of] in Hl. apply bind_Some in Hl as (s & Hs & Hl). apply bind_Some in Hl as (l' & Hl' & Hl).
  injection Hl as <-. destruct (IH _ _ _ Hes Hl') as [seq' Hr]. exists seq'. cbn [read_webservers].
  assert (read_webserver st e seq = Ok (s, add64 seq 1)) as ->; [|cbn [mbind res_bind]; by rewrite Hr].
  destruct e as [o|]; [|done]. cbn [YamlTheory.read_element] in He.
  unfold server_of in Hs. apply bind_Some in Hs as (tip & H1 & Hs). apply bind_Some in Hs as (tport & H2 & Hs).
  apply bind_Some in Hs as (tweight & H3 & Hs). simplify_eq.
  unfold read_webserver, obj_leaf. cbn [new_WebServerProfile].
  rewrite !(YamlTheory.get_field st o fs) by done. unfold YamlTheory.field_of. by rewrite H1, H2, H3.
Qed.

Lemma heartbeat_loop_parsed (ParseHeartbeat : bytes -> option Z * Z) (l : list WebServerProfile) (i : nat)
    (from_ip body : bytes) (parsed : option (Z * Z)) (p n : Z) (b : LoadBalancer) (now : Z) :
  ParseHeartbeat body = (Some p, n) -> parsed = None \/ parsed = Some (wrap16 p, wrap32 n) ->
  heartbeat_loop ParseHeartbeat l i from_ip (Some body) parsed b now
  = Ok (match list_find (fun s => ip s = from_ip /\ port s = wrap16 p) l with
        | Some (j, _) => (true, OnRecvHeartbeat b (i + j) (wrap32 n) now)
        | None => (false, b)
        end).
Proof.
  intros Hp. revert i parsed. induction l as [|s l IH]; intros i parsed Hparsed; [done|].
  cbn [heartbeat_loop list_find]. case_bool_decide as Hip; cbn [negb].
  - assert ((match parsed with
             | Some _ => Ok parsed
             | None => match ParseHeartbeat body with
                       | (Some p, n) => Ok (Some (wrap16 p, wrap32 n)) | (None, _) => Ok None end
             end) = Ok (Some (wrap16 p, wrap32 n))) as ->.
    { destruct Hparsed as [->| ->]; [by rewrite Hp|done]. }
    cbn [mbind res_bind]. destruct (Z.eqb_spec (port s) (wrap16 p)).
    + rewrite decide_True by done. by rewrite Nat.add_0_r.
    + rewrite decide_False by tauto. rewrite IH by auto.
      destruct (list_find _ l) as [[j x]|]; cbn; [by rewrite Nat.add_succ_r|done].
  - rewrite decide_False by tauto. rewrite IH by done.
    destruct (list_find _ l) as [[j x]|]; cbn; [by rewrite Nat.add_succ_r|done].
Qed.

(** ** Properties *)

(** From the text of a configuration with at least two web servers, the reverse proxy registers
    exactly those servers, in order, with the addresses and weights the text gives (modulo 2^16), and
    selects among them by the rule it names, starting at the first. *)
Theorem proxy_config_reads (path : bytes) (d : YamlTheory.doc) (fs : list YamlTheory.field)
    (objs : list (list YamlTheory.field)) (name : bytes) (r : TBalanceRule) (l : list WebServerProfile)
    (c : ServerConfig.ServerConfigBase)
    (Hd : YamlTheory.doc_ok d)
    (Hw : YamlTheory.lookup_item d key_webservers = Some (YamlTheory.IArr (fs :: objs)))
    (Hn : YamlTheory.lookup_item d key_load_balance_rule = Some (YamlTheory.ILeaf name))
    (Hr : rule_of name = Some r) (H2 : objs <> [] /\ (2 <= length fs)%nat)
    (Hl : servers_of (fs :: objs) kInvalidSeq = Some l) (Hweight : Forall (fun s => weight s <= kMaxWeight) l) :
  exists st e0 e b, YamlUtil.ParseYaml path (YamlTheory.render d) = Ok st /\ new_ProxyConfig = Ok e0 /\
    _CustomConfig st c e0 = Ok (true, e) /\ register_all (load_balancer_ e) (webservers e) = Ok b /\
    web_servers_ b = l /\ balance_rule_ b = r /\ last_selected_ b = O.
Proof.
  set (st := YamlTheory.R path (YamlTheory.doc_places 1 d) :: YamlTheory.doc_nodes 1 d).
  pose proof (YamlTheory.read_doc_nodes path d : YamlTheory.read_doc st = Some d) as Hst.
  destruct (YamlTheory.array_parsed path d key_webservers fs objs Hw) as (a & Ha & Hobj).
  destruct (YamlTheory.GetArray_read st d _ _ Hst Hw) as (a' & Ha' & Hm).
  assert (a' = a) as -> by (unfold st in Ha'; congruence).
  rewrite decide_True in Hobj by done.
  destruct (read_webservers_ok st (YamlUtil.arr a) _ kInvalidSeq l Hm Hl) as [seq' Hrw].
  destruct (register_all_app l (mkBalancer r [] 0 0) Hweight) as (b & Hb & Hbw & Hbr & Hb0).
  exists st, (mkProxyConfig [] [] (mkBalancer kPoll [] 0 0) kInvalidSeq),
    (mkProxyConfig l name (mkBalancer r [] 0 0) seq'), b.
  split_and!; [by apply YamlTheory.ParseYaml_render|done| |exact Hb|by rewrite Hbw|done|].
  - unfold _CustomConfig, read_config. fold st in Ha. rewrite Ha. cbn [mbind res_bind]. rewrite Hobj.
    cbn [mbind res_bind next_seq]. rewrite Hrw. cbn [mbind res_bind].
    rewrite (ServerConfig.leaf_read st d _ _ Hst Hn). cbn [mbind res_bind YamlUtil.To_string snd]. rewrite Hr.
    cbn [load_balancer_]. assert (ConfigRule (mkBalancer kPoll [] 0 0) r = Ok (mkBalancer r [] 0 0)) as ->.
    { unfold rule_of in Hr. by repeat case_bool_decide; simplify_eq. }
    done.
  - apply Hb0. intros ->. cbn [servers_of] in Hl. apply bind_Some in Hl as (s & _ & Hl).
    by apply bind_Some in Hl as (l' & _ & Hl).
Qed.

Lemma proxy_config_reads_witness :
  exists st e0 e b, YamlUtil.ParseYaml (str "p.yml") (YamlTheory.render YamlTheory.demo_doc) = Ok st /\
    new_ProxyConfig = Ok e0 /\ _CustomConfig st ServerConfig.new_ServerConfigBase e0 = Ok (true, e) /\
    register_all (load_balancer_ e) (webservers e) = Ok b /\
    web_servers_ b = [mkServer (str "127.0.0.1") 5002 1 0 0 false false 0 1;
                      mkServer (str "127.0.0.1") 5003 1 0 0 false false 0 2] /\
    balance_rule_ b = kPoll /\ last_selected_ b = O.
Proof.
  refine (proxy_config_reads (str "p.yml") YamlTheory.demo_doc (YamlTheory.demo_server "5002")
            [YamlTheory.demo_server "5003"] (str "poll") kPoll _ ServerConfig.new_ServerConfigBase
            YamlTheory.demo_doc_ok _ _ _ _ _ _); try (vm_compute; reflexivity).
  - split; [done|simpl; lia].
  - repeat constructor; vm_compute; discriminate.
Defined.

(** A heartbeat marks exactly the first web server registered with the sender's address and the
    port it names as up, with its backlog, and nothing else; without such a server nothing changes. *)
Theorem CheckHeartbeat_marks (ParseHeartbeat : bytes -> option Z * Z) (b : LoadBalancer) (from_ip body : bytes)
    (p n now : Z) (Hp : ParseHeartbeat body = (Some p, n)) :
  CheckHeartbeat ParseHeartbeat b from_ip (Some body) now
  = Ok (match list_find (fun s => ip s = from_ip /\ port s = wrap16 p) (web_servers_ b) with
        | Some (j, _) => (true, OnRecvHeartbeat b j (wrap32 n) now)
        | None => (false, b)
        end).
Proof. unfold CheckHeartbeat. by rewrite (heartbeat_loop_parsed ParseHeartbeat _ _ _ _ _ p n) by auto. Qed.

Lemma CheckHeartbeat_marks_witness :
  let b := mkBalancer kPoll [demo_server 1 true 0; demo_server 2 true 0] 0 0 in
  CheckHeartbeat (fun _ => (Some 80, 5)) b (str "10.0.0.1") (Some [8]) 77 = Ok (true, OnRecvHeartbeat b 0 5 77).
Proof.
  intros b. rewrite (CheckHeartbeat_marks (fun _ => (Some 80, 5)) b (str "10.0.0.1") [8] 80 5 77 eq_refl).
  vm_compute. reflexivity.
Defined.

(** A GET request from an address at which a web server is registered (in the shipped
    configuration, the local host) makes the proxy read the body of a request that has none: it
    dereferences a null pointer. *)
Theorem heartbeat_get_crashes (ParseHeartbeat : bytes -> option Z * Z) (b : LoadBalancer) (from_ip : bytes)
    (now : Z) (Hin : Exists (fun s => ip s = from_ip) (web_servers_ b)) :
  CheckHeartbeat ParseHeartbeat b from_ip None now = Fault Undefined.
Proof.
  unfold CheckHeartbeat. generalize O. induction Hin as [s l Hs|s l _ IH]; intros i; cbn [heartbeat_loop].
  - by rewrite bool_decide_true.
  - case_bool_decide; [done|]. apply IH.
Qed.

Lemma heartbeat_get_crashes_witness :
  CheckHeartbeat (fun _ => (None, 0)) (mkBalancer kPoll [demo_server 1 false 0] 0 0) (str "10.0.0.1") None 7
  = Fault Undefined.
Proof.
  refine (heartbeat_get_crashes (fun _ => (None, 0)) (mkBalancer kPoll [demo_server 1 false 0] 0 0)
            (str "10.0.0.1") 7 _). by constructor.
Defined.

(** *** The shipped configuration *)

Definition proxyserverconf : bytes := str "# The port on which the server process listens on.
port: 80

# The load balance rule, choose among: poll, weight, ip_hash.
load_balance_rule: poll

# Number of threads who handles network events
net_thread_cnt: 4

# Max connections at the same time.
max_connections: 10000

# All the webservers that reverse proxy can forward to.
webservers:
  -
  ip: 127.0.0.1
  port: 5002
  weight: 1     # from 0 to 10
  -
  ip: 127.0.0.1
  port: 5003
  weight: 0
  -
  ip: 127.0.0.1
  port: 5004
  weight: 0

".

Definition servers (b : LoadBalancer) : list (bytes * Z * Z) :=
  map (fun s => (ip s, port s, weight s)) (web_servers_ b).

(** The configuration of the repository registers three servers, of which
    polling only ever selects the first: the others have weight 0. *)
Example proxy_shipped_config :
  (e0 ← new_ProxyConfig;
   '((b, ts), _) ← ServerConfig.Config _CustomConfig (AfterConfig 0 (fun _ v => Ok v)) kConfigFile []
                     (Some proxyserverconf) 1 e0 3 0;
   Ok (servers b, ts))
  = Ok ([(str "127.0.0.1", 5002, 1); (str "127.0.0.1", 5003, 0); (str "127.0.0.1", 5004, 0)],
        [2500; 2500; 2500; 2500]).
Proof. vm_compute. reflexivity. Qed.

End ProxyServer.
