(* ===== verification/ProxyForward.v ===== *)
(** * Forwarding (reverseproxy/proxyserver.cc)

    What a network thread of the reverse proxy does with a packet: it forwards
    a request to the web server the balancer selects, and sends the response
    back to the client that asked. A request is forwarded, and a response sent
    back, as a view of the receive buffer of the other connection. *)
From stdpp Require Import gmap fin_maps.
From S2P Require Import Prelude CLib StdMap AutoBuffer FirstLine HeaderField HttpPacket HttpTheory HttpProps UnixSocket TcpConnection.
From S2P Require Import ServerBase NetThreadTheory EventLoop LoadBalancer ProxyServer.

Module ProxyForward.
Import TcpConnection ServerBase NetThreadTheory.

(** ** Definitions *)

(** A connection from a client parses requests, one to a web server responses. *)
Inductive proxy_parser :=
| PRequest (p : HttpPacket.HttpParser HttpPacket.request_sub)
| PResponse (p : HttpPacket.HttpParser FirstLine.StatusLine).

#[export] Instance proxy_protocol_parser : ApplicationProtocolParser proxy_parser := {
  parser_DoParse := fun p b =>
    match p with
    | PRequest h => '(z, h) ← parser_DoParse h b; Ok (z, PRequest h)
    | PResponse h => '(z, h) ← parser_DoParse h b; Ok (z, PResponse h)
    end;
  parser_IsErr := fun p => match p with PRequest h => parser_IsErr h | PResponse h => parser_IsErr h end;
  parser_IsEnd := fun p => match p with PRequest h => parser_IsEnd h | PResponse h => parser_IsEnd h end;
  parser_IsUpgrade := fun p => match p with PRequest h => parser_IsUpgrade h | PResponse h => parser_IsUpgrade h end;
  parser_UpgradeTo := fun p => match p with PRequest h => parser_UpgradeTo h | PResponse h => parser_UpgradeTo h end;
  parser_Protocol := fun p => match p with PRequest h => parser_Protocol h | PResponse h => parser_Protocol h end;
  parser_Reset := fun p b =>
    match p with
    | PRequest h => let '(h, b) := parser_Reset h b in (PRequest h, b)
    | PResponse h => let '(h, b) := parser_Reset h b in (PResponse h, b)
    end;
  renew_packet := fun p =>
    match p with PRequest h => PRequest (renew_packet h) | PResponse h => PResponse (renew_packet h) end
}.

Abbreviation Conn := (ConnectionProfile proxy_parser).
Abbreviation RecvContext := (RecvContext proxy_parser).

(** [conn_map_]: for the connection to a web server, the client and the packet
    to answer it with. [balancer_] is the balancer of the server, which its
    threads share: what a thread finds and leaves. *)
Record proxy_thread := mkProxyThread {
  conn_map_ : gmap nat (nat * option nat);
  balancer_ : LoadBalancer.LoadBalancer
}.

Abbreviation NetThread := (NetThreadBase proxy_parser proxy_thread).

Definition new_NetThread (b : LoadBalancer.LoadBalancer) : NetThread :=
  mkThread new_manager 0 new_memory false None (mkProxyThread ∅ b).

Definition set_conn_map (t : NetThread) (m : gmap nat (nat * option nat)) : NetThread :=
  set_derived t (mkProxyThread m (balancer_ (derived_ t))).
Definition set_balancer (t : NetThread) (b : LoadBalancer.LoadBalancer) : NetThread :=
  set_derived t (mkProxyThread (conn_map_ (derived_ t)) b).

(** [conn_map_\[k\]], which makes an entry when there is none. *)
Definition conn_map_at (t : NetThread) (k : nat) : (nat * option nat) * NetThread :=
  match conn_map_ (derived_ t) !! k with
  | Some e => (e, t)
  | None => ((kInvalidUid, None), set_conn_map t (<[k := (kInvalidUid, None)]> (conn_map_ (derived_ t))))
  end.

Definition ConfigApplicationLayer (conn : Conn) : res Conn :=
  match conn_type conn with
  | kAcceptFrom => TcpConnection.ConfigApplicationLayer conn (PRequest HttpPacket.new_request)
  | kConnectTo => TcpConnection.ConfigApplicationLayer conn (PResponse HttpPacket.new_response)
  | kUnknown => Ok conn
  end.

(** The methods as far as [MakeConnection] uses them. *)
Definition config_methods : NetThreadMethods proxy_parser proxy_thread :=
  {| ServerBase.ConfigApplicationLayer := ConfigApplicationLayer;
     ServerBase.UpgradeApplicationProtocol := EventLoop.base_UpgradeApplicationProtocol;
     ServerBase.HandleApplicationPacket := fun _ t => Ok (false, t);
     ServerBase.CheckNotification := EventLoop.base_CheckNotification;
     ServerBase.HandleNotification := EventLoop.base_HandleNotification |}.

(** What the system does while a packet is handled: the address [inet_pton]
    makes of a text, [random], the text of an address as a number, the results
    of [socket], [connect] and [write], and the time. *)
Record forward_io := mkForwardIo {
  fw_addr : bytes -> option Z;
  fw_random : Z;
  fw_inet_addr : bytes -> Z;
  fw_fd : Z;
  fw_connects : list Z;
  fw_write : UnixSocket.write_result;
  fw_now : Z
}.

Section Handlers.
Context (ParseHeartbeat : bytes -> option Z * Z) (x : forward_io).

Definition LoadBalance (b : LoadBalancer.LoadBalancer) (ip : bytes) : res (option nat * LoadBalancer.LoadBalancer) :=
  LoadBalancer.Select b (fw_addr x ip) (fw_random x) (fw_now x).

Definition ReportWebServerDown (b : LoadBalancer.LoadBalancer) (down_svr : nat) : LoadBalancer.LoadBalancer :=
  LoadBalancer.ReportWebServerDown b down_svr (fw_now x).

(** The connection [GetConnection] returns; a null pointer is dereferenced. *)
Definition get_conn (t : NetThread) (uid : nat) : res Conn :=
  o ← thread_GetConnection t uid;
  from_option Ok (Fault Undefined) o.

(** The buffer of the packet at [p] is changed. *)
Definition change_buffer (t : NetThread) (p : option nat)
    (f : AutoBuffer.AutoBuffer -> res AutoBuffer.AutoBuffer) : res NetThread :=
  p ← from_option Ok (Fault Undefined) p;
  ctx ← from_option Ok (Fault Dangling) (ctxs_ (memory_ t) !! p);
  b ← f (sc_buffer ctx);
  Ok (set_memory t (set_ctx (memory_ t) p (set_buffer ctx b))).

(** [ShallowCopyFrom] of what a connection has received. *)
Definition view_of (c : Conn) (b : AutoBuffer.AutoBuffer) : res AutoBuffer.AutoBuffer :=
  Ok (AutoBuffer.ShallowCopyFrom b (AutoBuffer.PExt (recv_block c) 0) (AutoBuffer.Length (tcp_byte_arr_ c))).

Definition forward_failed_msg : bytes := str "Internal Server Error: Reverse Proxy Error".

(** The handlers also return what they sent. *)
Definition HandleForwardFailed (recv_ctx : RecvContext) (t : NetThread) : res (NetThread * list (nat * bytes)) :=
  let return_packet := rc_return_packet recv_ctx in
  t ← change_buffer t return_packet
        (HttpPacket.response_Pack FirstLine.kHTTP_1_1 500 FirstLine.kStatusDescOk None (Some forward_failed_msg));
  '(_, t, out) ← TrySendAndMarkPendingIfUndone t return_packet (fw_write x) (fw_now x);
  Ok (t, (fun p => (p, out)) <$> option_list return_packet).

(** The body of the request, which [CheckHeartbeat] reads: a view of what its
    connection has received. *)
Definition heartbeat_body (recv_ctx : RecvContext) (c : Conn) : res (option bytes) :=
  match rc_application_packet recv_ctx with
  | Some (PRequest q) =>
      match HttpPacket.request_Body q with
      | Some b => Some <$> AutoBuffer.bytes_of (fun _ => Some (AutoBuffer.contents (tcp_byte_arr_ c))) b
      | None => Ok None
      end
  | _ => Fault Undefined
  end.

(** [HandleHttpRequest]. The message logged when no connection could be made
    calls a method of the null pointer, so that the [while] loop ends there and
    the server is not reported as down. *)
Definition HandleHttpRequest (recv_ctx : RecvContext) (t : NetThread) : res (bool * NetThread * list (nat * bytes)) :=
  _ ← assert_ (bool_decide (rc_type recv_ctx = kAcceptFrom));
  let uid := Z.to_nat (rc_tcp_connection_uid recv_ctx) in
  client ← get_conn t uid;
  body ← heartbeat_body recv_ctx client;
  '(heartbeat, b) ← ProxyServer.CheckHeartbeat ParseHeartbeat (balancer_ (derived_ t)) (rc_from_ip recv_ctx) body (fw_now x);
  let t := set_balancer t b in
  if heartbeat : bool then
    t ← thread_DelConnection t uid;
    Ok (true, t, [])
  else
    '(forward_host, b) ← LoadBalance (balancer_ (derived_ t)) (rc_from_ip recv_ctx);
    let t := set_balancer t b in
    match forward_host with
    | None => '(t, outs) ← HandleForwardFailed recv_ctx t; Ok (false, t, outs)
    | Some i =>
        host ← from_option Ok (Fault Undefined) (LoadBalancer.web_servers_ b !! i);
        '(conn_to_webserver, t) ←
          MakeConnection config_methods (fw_inet_addr x) t (LoadBalancer.ip host) (LoadBalancer.port host) (fw_now x) (fw_fd x) (fw_connects x);
        match conn_to_webserver with
        | None => Fault Undefined
        | Some webserver_uid =>
            '(p, t) ← conn_MakeSendContext t webserver_uid;
            let t := set_conn_map t (<[webserver_uid := (uid, rc_return_packet recv_ctx)]> (conn_map_ (derived_ t))) in
            http_conn ← get_conn t uid;
            t ← change_buffer t (Some p) (view_of http_conn);
            '(_, t, out) ← TrySendAndMarkPendingIfUndone t (Some p) (fw_write x) (fw_now x);
            Ok (false, t, [(p, out)])
        end
    end.

(** [HandleHttpResponse] *)
Definition HandleHttpResponse (recv_ctx : RecvContext) (t : NetThread) : res (NetThread * list (nat * bytes)) :=
  _ ← assert_ (bool_decide (rc_type recv_ctx = kConnectTo));
  let webserver_uid := Z.to_nat (rc_tcp_connection_uid recv_ctx) in
  let '((client_uid, _), t) := conn_map_at t webserver_uid in
  client_conn ← thread_GetConnection t client_uid;
  match client_conn with
  | None =>
      let t := set_conn_map t (delete client_uid (conn_map_ (derived_ t))) in
      t ← thread_DelConnection t webserver_uid;
      Ok (t, [])
  | Some _ =>
      let '((_, return_packet), t) := conn_map_at t webserver_uid in
      http_conn ← get_conn t webserver_uid;
      t ← change_buffer t return_packet (view_of http_conn);
      '(send_done, t, out) ← TrySendAndMarkPendingIfUndone t return_packet (fw_write x) (fw_now x);
      let t := set_conn_map t (delete client_uid (conn_map_ (derived_ t))) in
      t ← (if send_done : bool then Ok t
           else
             change_buffer t return_packet (fun b =>
               let nsend := AutoBuffer.Pos b in
               let http_packet := tcp_byte_arr_ http_conn in
               AutoBuffer.Write (AutoBuffer.Reset b) (Some (drop (Z.to_nat nsend) (AutoBuffer.contents http_packet)))
                 (sub64 (AutoBuffer.Length http_packet) nsend)));
      t ← thread_DelConnection t webserver_uid;
      Ok (t, (fun p => (p, out)) <$> option_list return_packet)
  end.

Definition HandleWebSocketPacket (_ : RecvContext) (t : NetThread) : res (bool * NetThread * list (nat * bytes)) :=
  Ok (false, t, []).

Definition HandleHttpPacket (recv_ctx : RecvContext) (t : NetThread) : res (bool * NetThread * list (nat * bytes)) :=
  match rc_type recv_ctx with
  | kAcceptFrom => HandleHttpRequest recv_ctx t
  | kConnectTo => '(t, outs) ← HandleHttpResponse recv_ctx t; Ok (true, t, outs)
  | kUnknown =>
      t ← thread_DelConnection t (Z.to_nat (rc_tcp_connection_uid recv_ctx));
      Ok (true, t, [])
  end.

Definition HandleApplicationPacket (recv_ctx : RecvContext) (t : NetThread)
    : res (bool * NetThread * list (nat * bytes)) :=
  packet ← from_option Ok (Fault Undefined) (rc_application_packet recv_ctx);
  match parser_Protocol packet with
  | kHttp1_1 => HandleHttpPacket recv_ctx t
  | kWebSocket => HandleWebSocketPacket recv_ctx t
  | _ =>
      t ← thread_DelConnection t (Z.to_nat (rc_tcp_connection_uid recv_ctx));
      Ok (true, t, [])
  end.

(** The methods of a network thread of the proxy. *)
Definition proxy_methods : NetThreadMethods proxy_parser proxy_thread :=
  {| ServerBase.ConfigApplicationLayer := ConfigApplicationLayer;
     ServerBase.UpgradeApplicationProtocol := EventLoop.base_UpgradeApplicationProtocol;
     ServerBase.HandleApplicationPacket :=
       fun rc t => '(deleted, t, _) ← HandleApplicationPacket rc t; Ok (deleted, t);
     ServerBase.CheckNotification := EventLoop.base_CheckNotification;
     ServerBase.HandleNotification := EventLoop.base_HandleNotification |}.

End Handlers.

(** ** Lemmas *)

(** [MakeConnection] uses no other method. *)
Lemma MakeConnection_methods (ParseHeartbeat : bytes -> option Z * Z) (x : forward_io) :
  MakeConnection (proxy_methods ParseHeartbeat x) = MakeConnection config_methods.
Proof. done. Qed.

Lemma proxy_config_law : config_law config_methods.
Proof.
  intros c Hp. cbn [ServerBase.ConfigApplicationLayer config_methods]. unfold ConfigApplicationLayer.
  destruct (conn_type c); [by exists c|..]; unfold TcpConnection.ConfigApplicationLayer; rewrite Hp; cbn [andb]; by eexists.
Qed.

(** The sizes of the receive buffers are sizes. *)
Definition sizes (t : NetThread) : Prop :=
  forall v e, conns t !! v = Some e -> 0 <= AutoBuffer.capacity_ (tcp_byte_arr_ e) < 2 ^ 64.

(** A packet made a view of what a live connection has received. *)
Lemma view_bytes (t : NetThread) (Q : list nat) (u : nat) (c : Conn) (b : AutoBuffer.AutoBuffer) :
  base_inv Q t -> sizes t -> conns t !! u = Some c -> AutoBuffer.owned (tcp_byte_arr_ c) -> AutoBuffer.pos_ b = 0 ->
  let data := AutoBuffer.contents (tcp_byte_arr_ c) in
  exists b', view_of c b = Ok b' /\ AutoBuffer.bytes_of (deref t) b' = Ok data /\ AutoBuffer.pos_ b' = 0 /\
    AutoBuffer.length_ b' = zlen data /\ AutoBuffer.malloc_unit_size_ b' = AutoBuffer.malloc_unit_size_ b.
Proof.
  intros Hb Hsz Hu Ho Hpos data. pose proof (AutoBuffer.contents_length _ Ho) as Hlen. fold data in Hlen.
  eexists. split; [done|]. split_and!; [|done|done|done].
  unfold AutoBuffer.bytes_of. cbn [AutoBuffer.ShallowCopyFrom AutoBuffer.byte_array_p_ AutoBuffer.length_].
  rewrite (deref_block t Q u c); [|apply Hb|done|done]. fold data. unfold AutoBuffer.Length. rewrite <- Hlen.
  destruct (Z.leb_spec (0 + zlen data) (zlen data)); [|lia]. cbn [andb Z.leb Z.compare]. by rewrite drop_0, Nat2Z.id, firstn_all.
Qed.

(** The buffer of a packet is changed, and nothing else. *)
Lemma change_buffer_ok (t : NetThread) (Q : list nat) (p : nat) (ctx : SendContext)
    (f : AutoBuffer.AutoBuffer -> res AutoBuffer.AutoBuffer) (b : AutoBuffer.AutoBuffer) :
  base_inv Q t -> ctxs_ (memory_ t) !! p = Some ctx -> f (sc_buffer ctx) = Ok b ->
  exists t', change_buffer t (Some p) f = Ok t' /\ base_inv Q t' /\ conns t' = conns t /\
    memory_ t' = set_ctx (memory_ t) p (set_buffer ctx b) /\ same_thread t t' /\ (forall k, deref t' k = deref t k).
Proof.
  intros [Hm Hi] Hp Hf. unfold change_buffer. cbn [from_option mbind res_bind]. rewrite Hp. cbn [from_option mbind res_bind].
  rewrite Hf. eexists. split; [done|]. split_and!; try done. split; [done|]. cbn.
  eapply ctx_inv_meta; [done|done|]. intros q. by apply meta_set_buffer.
Qed.

(** The context of one connection is not one of another. *)
Lemma not_its_context (t : NetThread) (Q : list nat) (u v p : nat) (c e : Conn) (ctx : SendContext) :
  base_inv Q t -> conns t !! u = Some c -> conns t !! v = Some e -> u <> v ->
  ctxs_ (memory_ t) !! p = Some ctx -> sc_owner ctx = this_ c -> p ∉ send_contexts_ e.
Proof.
  intros [_ Hi] Hu Hv Hne Hp Hown Hin. destruct (co_sends _ _ (ci_conn _ _ _ Hi v e Hv) p Hin) as (s & Em & _).
  unfold meta_of in Em. rewrite Hp in Em. cbn in Em. injection Em as _ Hc _.
  apply Hne. eapply ci_inj; [done..|congruence].
Qed.

Lemma thread_get (t : NetThread) (Q : list nat) (u : nat) (c : Conn) :
  base_inv Q t -> conns t !! u = Some c -> thread_GetConnection t u = Ok (Some c) /\ get_conn t u = Ok c.
Proof.
  intros [Hm _] Hu. unfold get_conn, thread_GetConnection. rewrite (GetConnection_live _ u c Hm Hu). done.
Qed.

(** A request of the client [C], to be answered with the packet [p], has been
    forwarded over the connection [W] to a web server. *)
Record forwarding (t : NetThread) (Q : list nat) (W C p : nat) (wc cc : Conn) (ctx : SendContext) : Prop := {
  fo_inv : base_inv (p :: Q) t;
  fo_web : conns t !! W = Some wc;
  fo_client : conns t !! C = Some cc;
  fo_ne : W <> C;
  fo_map : conn_map_ (derived_ t) !! W = Some (C, Some p);
  fo_ctx : ctxs_ (memory_ t) !! p = Some ctx;
  fo_valid : sc_is_tcp_conn_valid ctx = true;
  fo_owner : sc_owner ctx = this_ cc;
  fo_fd : 0 < conn_FD cc;
  fo_pos : AutoBuffer.pos_ (sc_buffer ctx) = 0;
  fo_unit : 0 < AutoBuffer.malloc_unit_size_ (sc_buffer ctx) < 2 ^ 32
}.

(** The rest of a response, copied before its connection goes. *)
Lemma copy_rest (b : AutoBuffer.AutoBuffer) (c : Conn) (n : Z) :
  let data := AutoBuffer.contents (tcp_byte_arr_ c) in
  AutoBuffer.owned (tcp_byte_arr_ c) -> 0 < AutoBuffer.malloc_unit_size_ b < 2 ^ 32 -> 0 <= n <= zlen data ->
  zlen data < 2 ^ 31 ->
  exists b', AutoBuffer.Write (AutoBuffer.Reset b) (Some (drop (Z.to_nat n) data)) (sub64 (AutoBuffer.Length (tcp_byte_arr_ c)) n)
             = Ok b' /\ AutoBuffer.holds b' (drop (Z.to_nat n) data).
Proof.
  intros data Ho Hu Hn Hl. unfold AutoBuffer.Length. pose proof (AutoBuffer.contents_length _ Ho) as Hlen. fold data in Hlen.
  rewrite <- Hlen, sub64_id by lia. assert (zlen data - n = zlen (drop (Z.to_nat n) data)) as -> by (rewrite length_drop; lia).
  apply (AutoBuffer.WriteString_holds (AutoBuffer.Reset b) []); [by apply AutoBuffer.holds_Reset|].
  cbn [app]. rewrite length_drop. lia.
Qed.

Lemma set_map_inv (t : NetThread) (Q : list nat) (m : gmap nat (nat * option nat)) :
  base_inv Q t -> base_inv Q (set_conn_map t m).
Proof. intros []. by split. Qed.

(** Sending the view of the response, and copying what is left of it. *)
Lemma send_response (x : forward_io) (t : NetThread) (Q : list nat) (W C p : nat) (wc cc : Conn) (ctx : SendContext) :
  forwarding t Q W C p wc cc ctx -> sizes t ->
  AutoBuffer.owned (tcp_byte_arr_ wc) -> AutoBuffer.contents (tcp_byte_arr_ wc) <> [] ->
  zlen (AutoBuffer.contents (tcp_byte_arr_ wc)) < 2 ^ 31 ->
  0 <= wrote (fw_write x) <= zlen (AutoBuffer.contents (tcp_byte_arr_ wc)) ->
  let data := AutoBuffer.contents (tcp_byte_arr_ wc) in
  let n := wrote (fw_write x) in
  exists t1 t2 cc' b, change_buffer t (Some p) (view_of wc) = Ok t1 /\
    TrySendAndMarkPendingIfUndone t1 (Some p) (fw_write x) (fw_now x) = Ok (n =? zlen data, t2, take (Z.to_nat n) data) /\
    base_inv Q t2 /\ conns t2 = <[C := cc']> (conns t) /\ after_send cc cc' p (n =? zlen data) /\
    ctxs_ (memory_ t2) !! p = Some (set_buffer ctx b) /\ AutoBuffer.pos_ b = n /\
    0 < AutoBuffer.malloc_unit_size_ b < 2 ^ 32 /\ derived_ t2 = derived_ t.
Proof.
  intros [Hb HW HC Hne Hmap Hctx Hval Hown Hfd Hpos Hunit] Hsz Ho Hd Hl Hn data n. fold data in Hd, Hl, Hn. fold n in Hn.
  destruct (view_bytes t _ W wc (sc_buffer ctx) Hb Hsz HW Ho Hpos) as (b1 & Ev & Hb1 & Hp1 & Hl1 & Hu1).
  destruct (change_buffer_ok t _ p ctx (view_of wc) b1 Hb Hctx Ev) as (t1 & E1 & Hi1 & Hc1 & Hm1 & (Hd1 & _) & Hder).
  assert (0 < zlen data) by (destruct data; [done|simpl; lia]).
  destruct (base_send t1 Q p C cc (set_buffer ctx b1) data (fw_write x) (fw_now x) Hi1)
    as (t2 & cc' & E2 & Hi2 & Hc2 & Has & Hm2 & (Hd2 & _)); try done.
  - by rewrite Hc1.
  - rewrite Hm1. cbn. by rewrite lookup_insert_eq.
  - cbn [set_buffer sc_buffer]. etrans; [|exact Hb1]. unfold AutoBuffer.bytes_of.
    destruct (AutoBuffer.byte_array_p_ b1); try done. by rewrite Hder.
  - lia.
  - cbn [set_buffer sc_buffer]. unfold UnixSocket.write_ok. rewrite Hl1, Hp1. fold data.
    unfold n, wrote in *. destruct (fw_write x); [lia|done].
  - exists t1, t2, cc', (AutoBuffer.set_pos b1 n). split_and!; try done; [by rewrite Hc2, Hc1| |cbn; lia|cbn; lia|congruence].
    rewrite Hm2. cbn. by rewrite lookup_insert_eq.
Qed.

(** A request that is to be forwarded: the client, its packet to answer with,
    and what it has sent. *)
Record requesting (t : NetThread) (Q : list nat) (rc : RecvContext) (C p : nat) (cc : Conn) (ctx : SendContext)
    (data : bytes) : Prop := {
  rq_inv : base_inv (p :: Q) t;
  rq_sizes : sizes t;
  rq_type : rc_type rc = kAcceptFrom;
  rq_uid : rc_tcp_connection_uid rc = Z.of_nat C;
  rq_return : rc_return_packet rc = Some p;
  rq_client : conns t !! C = Some cc;
  rq_ctx : ctxs_ (memory_ t) !! p = Some ctx;
  rq_valid : sc_is_tcp_conn_valid ctx = true;
  rq_owner : sc_owner ctx = this_ cc;
  rq_fd : 0 < conn_FD cc;
  rq_pos : AutoBuffer.pos_ (sc_buffer ctx) = 0;
  rq_unit : 0 < AutoBuffer.malloc_unit_size_ (sc_buffer ctx) < 2 ^ 32;
  rq_owned : AutoBuffer.owned (tcp_byte_arr_ cc);
  rq_data : AutoBuffer.contents (tcp_byte_arr_ cc) = data;
  rq_len : 0 < zlen data < 2 ^ 31
}.

(** A connection that has received nothing yet. *)
Definition idle (c : Conn) : Prop :=
  tcp_byte_arr_ c = AutoBuffer.new AutoBuffer.kMallocUnit /\ input_flags c = (false, false, false).

(** The connection to the web server [host] and the packet with the request,
    before it is sent. *)
Lemma connect_host (x : forward_io) (t : NetThread) (Q : list nat) (C p : nat) (cc : Conn)
    (host : LoadBalancer.WebServerProfile) :
  base_inv Q t -> sizes t -> conns t !! C = Some cc -> 0 < fw_fd x -> can_add t (fw_fd x) ->
  Z.of_nat (next_ (memory_ t)) + 2 < 2 ^ 32 ->
  exists o t1, MakeConnection config_methods (fw_inet_addr x) t (LoadBalancer.ip host) (LoadBalancer.port host)
                 (fw_now x) (fw_fd x) (fw_connects x) = Ok (o, t1) /\
    (if o then true else false) = connects 3 (fw_connects x) /\
    forall W, o = Some W -> exists t2 wc seq, conn_MakeSendContext t1 W = Ok (S (next_ (memory_ t)), t2) /\
      base_inv (S (next_ (memory_ t)) :: Q) t2 /\ conns t !! W = None /\ conns t2 = <[W := wc]> (conns t) /\
      derived_ t2 = derived_ t /\ sizes t2 /\ pending_send_ctx_ wc = [] /\ conn_FD wc = fw_fd x /\ idle wc /\
      (remote_ip_ wc, remote_port_ wc, conn_type wc, parser_ wc)
      = (LoadBalancer.ip host, LoadBalancer.port host, kConnectTo, Some (PResponse HttpPacket.new_response)) /\
      memory_ t2 = set_ctx (mkMemory (ctxs_ (memory_ t)) (S (S (next_ (memory_ t))))) (S (next_ (memory_ t)))
                     (mkSendContext seq (Z.of_nat W) (this_ wc) (AutoBuffer.new AutoBuffer.kMallocUnit) true).
Proof.
  intros Hb Hsz HC Hfd Hadd Hlt.
  destruct (base_make config_methods proxy_config_law t Q (fw_inet_addr x) (LoadBalancer.ip host) (LoadBalancer.port host)
    (fw_now x) (fw_fd x) (fw_connects x) Hb Hfd Hadd) as (o & t1 & E1 & Hb1 & (Hd1 & _) & Hm1 & Ho & Hcase).
  exists o, t1. split_and!; [done|done|]. intros W ->.
  destruct Hcase as (c0 & c & Hnone & Hc1 & Hcfd & _ & (_ & _ & Hp0 & _ & Hpar) & (Hip & Hport & Htype & Hbuf & Hflags) & Hcfg).
  cbn [ServerBase.ConfigApplicationLayer config_methods] in Hcfg. unfold ConfigApplicationLayer in Hcfg. cbn [SetUid conn_type] in Hcfg.
  rewrite Htype in Hcfg. unfold TcpConnection.ConfigApplicationLayer in Hcfg. cbn [SetUid parser_] in Hcfg. rewrite Hpar in Hcfg.
  cbn [andb] in Hcfg.
  destruct (base_conn_make t1 Q W c Hb1) as (t2 & c2 & m & Em & E2 & Hb2 & Hc2 & Hm2 & (Hd2 & _));
    [by rewrite Hc1, lookup_insert_eq|rewrite Hm1; cbn; lia|].
  unfold MakeSendContext, alloc in Em. rewrite Hm1 in *. cbn [alloc snd next_ ctxs_] in *.
  exists t2, c2. eexists. split; [exact E2|]. injection Em as <- <-. injection Hcfg as <-.
  split_and!; try done.
  - by rewrite Hc2, Hc1, insert_insert_eq.
  - congruence.
  - intros v e. rewrite Hc2, Hc1, insert_insert_eq. destruct (decide (v = W)) as [->|Hne].
    + rewrite lookup_insert_eq. intros [= <-]. cbn. rewrite Hbuf. cbn. lia.
    + rewrite lookup_insert_ne by done. apply Hsz.
  - split; [exact Hbuf|]. unfold input_flags. cbn. injection Hflags as -> ->. done.
  - cbn. congruence.
Qed.

(** [HandleHttpResponse] of a response that was waited for. *)
Lemma return_response (x : forward_io) (rc : RecvContext) (t : NetThread) (Q : list nat) (W C p : nat)
    (wc cc : Conn) (ctx : SendContext)
    (Hf : forwarding t Q W C p wc cc ctx) (Hsz : sizes t)
    (Htype : rc_type rc = kConnectTo) (Huid : rc_tcp_connection_uid rc = Z.of_nat W)
    (Ho : AutoBuffer.owned (tcp_byte_arr_ wc)) (Hne : AutoBuffer.contents (tcp_byte_arr_ wc) <> [])
    (Hl : zlen (AutoBuffer.contents (tcp_byte_arr_ wc)) < 2 ^ 31)
    (Hw : 0 <= wrote (fw_write x) <= zlen (AutoBuffer.contents (tcp_byte_arr_ wc))) :
  exists t' cc' out rest, HandleHttpResponse x rc t = Ok (t', [(p, out)]) /\
    out ++ rest = AutoBuffer.contents (tcp_byte_arr_ wc) /\ zlen out = wrote (fw_write x) /\
    base_inv Q t' /\ conns t' = delete W (<[C := cc']> (conns t)) /\ this_ cc' = this_ cc /\
    if decide (rest = []) then pending_send_ctx_ cc' = pending_send_ctx_ cc
    else pending_send_ctx_ cc' = pending_send_ctx_ cc ++ [p] /\
         exists ctx', ctxs_ (memory_ t') !! p = Some ctx' /\ AutoBuffer.holds (sc_buffer ctx') rest.
Proof.
  destruct (send_response x t Q W C p wc cc ctx Hf Hsz Ho Hne Hl Hw)
    as (t1 & t2 & cc' & b & E1 & E2 & Hi2 & Hc2 & (Ht' & _ & _ & _ & _ & Hpe) & Hctx2 & Hpos & Hunit & Hd2).
  destruct Hf as [Hb HW HC Hwc Hmap Hctx Hval Hown Hfd _ _]. set (data := AutoBuffer.contents (tcp_byte_arr_ wc)) in *.
  set (n := wrote (fw_write x)) in *. unfold HandleHttpResponse. rewrite bool_decide_true by done. cbn [assert_ mbind res_bind].
  rewrite Huid, Nat2Z.id. unfold conn_map_at. rewrite Hmap. destruct (thread_get t _ C cc Hb HC) as [-> _]. cbn [mbind res_bind].
  rewrite Hmap. destruct (thread_get t _ W wc Hb HW) as [_ ->]. cbn [mbind res_bind]. rewrite E1. cbn [mbind res_bind].
  rewrite E2. cbn [mbind res_bind option_list fmap list_fmap]. set (t3 := set_conn_map t2 _).
  assert (base_inv Q t3) as Hi3 by by apply set_map_inv.
  assert (conns t3 !! W = Some wc) as HW3 by (change (conns t3) with (conns t2); rewrite Hc2, lookup_insert_ne; done).
  assert (conns t3 !! C = Some cc') as HC3 by (change (conns t3) with (conns t2); by rewrite Hc2, lookup_insert_eq).
  destruct (Z.eqb_spec n (zlen data)) as [En|En].
  - destruct (base_del t3 Q W wc Hi3 HW3) as (t' & E4 & Hi4 & Hc4 & _). cbn [mbind res_bind]. rewrite E4. cbn [mbind res_bind].
    exists t', cc', (take (Z.to_nat n) data), []. rewrite En, Nat2Z.id, firstn_all, app_nil_r.
    split_and!; try done. by rewrite Hc4; change (conns t3) with (conns t2); rewrite Hc2.
  - destruct (copy_rest b wc n Ho Hunit Hw Hl) as (b2 & Ew & Hh).
    destruct (change_buffer_ok t3 Q p (set_buffer ctx b)
      (fun b => AutoBuffer.Write (AutoBuffer.Reset b) (Some (drop (Z.to_nat (AutoBuffer.Pos b)) data))
                  (sub64 (AutoBuffer.Length (tcp_byte_arr_ wc)) (AutoBuffer.Pos b))) b2 Hi3 Hctx2)
      as (t4 & E4 & Hi4 & Hc4 & Hm4 & _); [cbn [set_buffer sc_buffer]; unfold AutoBuffer.Pos; by rewrite Hpos|].
    cbv zeta. fold data. rewrite E4. cbn [mbind res_bind].
    destruct (base_del t4 Q W wc Hi4) as (t' & E5 & Hi5 & Hc5 & Hm5 & _); [by rewrite Hc4|]. rewrite E5. cbn [mbind res_bind].
    exists t', cc', (take (Z.to_nat n) data), (drop (Z.to_nat n) data). rewrite take_drop.
    split_and!; try done; [rewrite length_take; unfold n in *; lia|by rewrite Hc5, Hc4; change (conns t3) with (conns t2); rewrite Hc2|].
    destruct (decide _) as [En2|_]; [apply (f_equal length) in En2; rewrite length_drop in En2; cbn in En2; lia|].
    split; [done|]. exists (set_buffer (set_buffer ctx b) b2). split; [|exact Hh].
    assert (p ∉ send_contexts_ wc) as Hnot.
    { eapply (not_its_context t4 Q C W p cc' wc); [done|by rewrite Hc4|by rewrite Hc4|done| |].
      - rewrite Hm4. cbn. by rewrite lookup_insert_eq.
      - cbn. by rewrite Hown. }
    rewrite Hm5, destroy_lookup. destruct (decide _); [done|]. rewrite Hm4. cbn. by rewrite lookup_insert_eq.
Qed.

(** The packet [q] is a view of what the client has sent, [n] bytes of which
    are sent. *)
Definition request_view (t : NetThread) (q : nat) (cc : Conn) (data : bytes) (n : Z) : Prop :=
  exists qctx, ctxs_ (memory_ t) !! q = Some qctx /\
    AutoBuffer.byte_array_p_ (sc_buffer qctx) = AutoBuffer.PExt (recv_block cc) 0 /\
    AutoBuffer.length_ (sc_buffer qctx) = zlen data /\ AutoBuffer.pos_ (sc_buffer qctx) = n.

(** [HandleHttpRequest] of a request that is forwarded. *)
Lemma forward_request (ParseHeartbeat : bytes -> option Z * Z) (x : forward_io) (rc : RecvContext) (t : NetThread)
    (Q : list nat) (C p : nat) (cc : Conn) (ctx : SendContext) (data : bytes) (body : option bytes) (i : nat)
    (b0 b1 : LoadBalancer.LoadBalancer) (host : LoadBalancer.WebServerProfile)
    (Hrq : requesting t Q rc C p cc ctx data) (Hbody : heartbeat_body rc cc = Ok body)
    (Hheart : ProxyServer.CheckHeartbeat ParseHeartbeat (balancer_ (derived_ t)) (rc_from_ip rc) body (fw_now x)
              = Ok (false, b0))
    (Hbal : LoadBalance x b0 (rc_from_ip rc) = Ok (Some i, b1))
    (Hhost : LoadBalancer.web_servers_ b1 !! i = Some host)
    (Hfd : 0 < fw_fd x) (Hadd : can_add t (fw_fd x)) (Hlt : Z.of_nat (next_ (memory_ t)) + 2 < 2 ^ 32)
    (Hw : 0 <= wrote (fw_write x) <= zlen data) :
  if connects 3 (fw_connects x) then
    exists t' W wc q, HandleHttpRequest ParseHeartbeat x rc t = Ok (false, t', [(q, take (Z.to_nat (wrote (fw_write x))) data)]) /\
      conns t !! W = None /\ conns t' = <[W := wc]> (conns t) /\ forwarding t' Q W C p wc cc ctx /\
      (remote_ip_ wc, remote_port_ wc, conn_type wc, parser_ wc)
      = (LoadBalancer.ip host, LoadBalancer.port host, kConnectTo, Some (PResponse HttpPacket.new_response)) /\
      pending_send_ctx_ wc = (if wrote (fw_write x) =? zlen data then [] else [q]) /\ balancer_ (derived_ t') = b1 /\
      conn_FD wc = fw_fd x /\ sizes t' /\ request_view t' q cc data (wrote (fw_write x)) /\ idle wc
  else HandleHttpRequest ParseHeartbeat x rc t = Fault Undefined.
Proof.
  destruct Hrq as [Hb Hsz Htype Huid Hret HC Hctx Hval Hown Hcfd Hpos Hunit Ho Hdata Hlen].
  unfold HandleHttpRequest. rewrite bool_decide_true by done. cbn [assert_ mbind res_bind]. rewrite Huid, Nat2Z.id.
  destruct (thread_get t _ C cc Hb HC) as [_ ->]. cbn [mbind res_bind]. rewrite Hbody. cbn [mbind res_bind]. rewrite Hheart.
  cbn [mbind res_bind]. change (balancer_ (derived_ (set_balancer t b0))) with b0. rewrite Hbal. cbn [mbind res_bind]. rewrite Hhost.
  cbn [from_option mbind res_bind]. set (t0 := set_balancer _ b1).
  assert (base_inv (p :: Q) t0) as Hb0 by (destruct Hb; by split).
  destruct (connect_host x t0 (p :: Q) C p cc host Hb0 Hsz HC Hfd Hadd Hlt) as (o & t1 & E1 & Eo & HW). rewrite E1.
  cbn [mbind res_bind]. rewrite <- Eo. destruct o as [W|]; [|done].
  destruct (HW W eq_refl) as (t2 & wc & sq & E2 & Hb2 & Hnone & Hc2 & Hd2 & Hsz2 & Hpe2 & Hfd2 & [Hib Hif] & Hw2 & Hm2). rewrite E2.
  cbn [mbind res_bind]. change (memory_ t0) with (memory_ t) in *. set (q := S (next_ (memory_ t))) in *.
  change (conns t0) with (conns t) in *. set (t3 := set_conn_map t2 _).
  assert (W <> C) as Hne by (intros ->; congruence).
  assert (base_inv (q :: p :: Q) t3) as Hb3 by (by apply set_map_inv).
  assert (conns t3 !! C = Some cc) as HC3 by (change (conns t3) with (conns t2); by rewrite Hc2, lookup_insert_ne).
  destruct (thread_get t3 _ C cc Hb3 HC3) as [_ ->]. cbn [mbind res_bind].
  set (qctx := mkSendContext sq (Z.of_nat W) (this_ wc) _ true) in Hm2.
  assert (ctxs_ (memory_ t3) !! q = Some qctx) as Hq3 by (change (memory_ t3) with (memory_ t2); rewrite Hm2; cbn; by rewrite lookup_insert_eq).
  destruct (view_bytes t3 _ C cc (sc_buffer qctx) Hb3 Hsz2 HC3 Ho eq_refl) as (b & Ev & Hb4 & Hp4 & Hl4 & _). rewrite Hdata in *.
  destruct (change_buffer_ok t3 _ q qctx (view_of cc) b Hb3 Hq3 Ev) as (t4 & E4 & Hi4 & Hc4 & Hm4 & (Hd4 & _) & Hder). rewrite E4.
  cbn [mbind res_bind].
  destruct (base_send t4 (p :: Q) q W wc (set_buffer qctx b) data (fw_write x) (fw_now x) Hi4)
    as (t5 & wc' & E5 & Hi5 & Hc5 & (Ht5 & Hby5 & Hfd5 & Hfl5 & Hr5 & Hpe5) & Hm5 & (Hd5 & _)); try done; [..|lia| |].
  { rewrite Hc4. change (conns t3) with (conns t2). by rewrite Hc2, lookup_insert_eq. }
  { rewrite Hm4. cbn. by rewrite lookup_insert_eq. }
  { by rewrite Hfd2. }
  { cbn [set_buffer sc_buffer]. etrans; [|exact Hb4]. unfold AutoBuffer.bytes_of.
    destruct (AutoBuffer.byte_array_p_ b); try done. by rewrite Hder. }
  { cbn [set_buffer sc_buffer]. unfold UnixSocket.write_ok. rewrite Hl4, Hp4. unfold wrote in Hw. destruct (fw_write x); [lia|done]. }
  rewrite E5. cbn [mbind res_bind].
  assert (conns t5 = <[W := wc']> (conns t)) as Hc5'.
  { rewrite Hc5, Hc4. change (conns t3) with (conns t2). by rewrite Hc2, insert_insert_eq. }
  assert (p <> q) as Hpq.
  { destruct Hb as [_ Hi]. destruct (ci_next _ _ _ Hi p (sc_seq ctx) (sc_owner ctx) true) as [Hp _]; [|unfold q; lia].
    unfold meta_of. rewrite Hctx. cbn. by rewrite Hval. }
  exists t5, W, wc', q. split; [done|]. split_and!; [done|done| |by rewrite Hr5|by rewrite Hpe5, Hpe2; destruct (_ =? _)|by rewrite Hd5, Hd4; cbn; rewrite Hd2|by rewrite Hfd5| | |split; congruence].
  2: { intros v e. rewrite Hc5'. destruct (decide (v = W)) as [->|Hvn]; [|rewrite lookup_insert_ne by done; apply Hsz].
       rewrite lookup_insert_eq. intros [= <-]. rewrite Hby5. apply (Hsz2 W). by rewrite Hc2, lookup_insert_eq. }
  2: { eexists. rewrite Hm5. cbn [set_ctx ctxs_]. rewrite lookup_insert_eq. split; [done|]. cbn [set_buffer sc_buffer].
       split_and!; [|done|done]. unfold view_of in Ev. injection Ev as <-. done. }
  split; try done.
  - by rewrite Hc5', lookup_insert_eq.
  - by rewrite Hc5', lookup_insert_ne.
  - rewrite Hd5, Hd4. cbn. rewrite Hret. by rewrite lookup_insert_eq.
  - rewrite Hm5, Hm4. change (memory_ t3) with (memory_ t2). rewrite Hm2. cbn. by rewrite !lookup_insert_ne.
Qed.

(** The web server's connection receives. *)
Lemma forwarding_input (t : NetThread) (Q : list nat) (W C p : nat) (wc cc : Conn) (ctx : SendContext) (resp : AutoBuffer.AutoBuffer) :
  forwarding t Q W C p wc cc ctx -> sizes t -> AutoBuffer.owned resp -> AutoBuffer.capacity_ resp < 2 ^ 60 ->
  let wc' := set_input wc (socket_ wc) resp in
  exists t', put_conn t W wc' = Ok t' /\ forwarding t' Q W C p wc' cc ctx /\ sizes t'.
Proof.
  intros [Hb HW HC Hne Hmap Hctx Hval Hown Hcfd Hpos Hunit] Hsz Hresp Hcap wc'.
  destruct (base_put t (p :: Q) (p :: Q) W wc wc' (memory_ t) (bi_mgr _ _ Hb) HW eq_refl eq_refl) as (t2 & E2 & Hb2 & Hc2 & Hm2 & (Hd2 & _)).
  { eapply ctx_inv_links; [apply Hb|done|done]. }
  replace (set_memory t (memory_ t)) with t in E2 by by destruct t. exists t2. split_and!; [done|split; try done|].
  - by rewrite Hc2, lookup_insert_eq.
  - by rewrite Hc2, lookup_insert_ne.
  - by rewrite Hd2.
  - by rewrite Hm2.
  - intros v e. rewrite Hc2. destruct (decide (v = W)) as [->|Hvn]; [|rewrite lookup_insert_ne by done; apply Hsz].
    rewrite lookup_insert_eq. intros [= <-]. cbn. destruct Hresp as [_ _ _ Hle _ _]. lia.
Qed.

(** The client closes its connection. *)
Lemma client_gone (t : NetThread) (Q : list nat) (W C p : nat) (wc cc : Conn) (ctx : SendContext) :
  forwarding t Q W C p wc cc ctx ->
  exists t', thread_DelConnection t C = Ok t' /\ base_inv (p :: Q) t' /\ conns t' = delete C (conns t) /\
    conns t' !! W = Some wc /\ conn_map_ (derived_ t') !! W = Some (C, Some p) /\ stale t' p.
Proof.
  intros [Hb HW HC Hne Hmap Hctx Hval Hown _ _ _].
  destruct (base_del t _ C cc Hb HC) as (t' & E & Hb' & Hc' & Hm' & (Hd' & _)). exists t'.
  split_and!; [done|done|done|by rewrite Hc', lookup_delete_ne|by rewrite Hd'|].
  destruct (ci_queue _ _ _ (bi_ctx _ _ Hb) p) as (s & a & v & Em & Hq); [by left|].
  pose proof Em as Em'. unfold meta_of in Em'. rewrite Hctx in Em'. cbn in Em'. injection Em' as _ <- <-.
  destruct (Hq Hval) as (u & c & Hu & Ht & Hs & _). assert (u = C) as -> by (eapply ci_inj; [apply Hb|done|done|congruence]).
  assert (c = cc) as -> by congruence. exists (sc_seq ctx), (sc_owner ctx). unfold meta_of. rewrite Hm', destroy_lookup.
  rewrite decide_True by done. by rewrite Hctx.
Qed.

(** ** Properties *)

(** The response of a web server reaches the client whose request was forwarded to it, whole and
    unchanged: what the socket takes at once is sent, and the rest is copied into the packet, which is
    pending at the client's connection; so that nothing refers to the buffer of the connection to the
    web server, which is deleted. No other connection changes. *)
Theorem response_returned (x : forward_io) (rc : RecvContext) (t : NetThread) (Q : list nat) (W C p : nat)
    (wc cc : Conn) (ctx : SendContext)
    (Hf : forwarding t Q W C p wc cc ctx) (Hsz : sizes t)
    (Htype : rc_type rc = kConnectTo) (Huid : rc_tcp_connection_uid rc = Z.of_nat W)
    (Ho : AutoBuffer.owned (tcp_byte_arr_ wc)) (Hne : AutoBuffer.contents (tcp_byte_arr_ wc) <> [])
    (Hl : zlen (AutoBuffer.contents (tcp_byte_arr_ wc)) < 2 ^ 31)
    (Hw : 0 <= wrote (fw_write x) <= zlen (AutoBuffer.contents (tcp_byte_arr_ wc))) :
  exists t' cc' out rest, HandleHttpResponse x rc t = Ok (t', [(p, out)]) /\
    out ++ rest = AutoBuffer.contents (tcp_byte_arr_ wc) /\
    base_inv Q t' /\ conns t' = delete W (<[C := cc']> (conns t)) /\ this_ cc' = this_ cc /\
    if decide (rest = []) then pending_send_ctx_ cc' = pending_send_ctx_ cc
    else pending_send_ctx_ cc' = pending_send_ctx_ cc ++ [p] /\
         exists ctx', ctxs_ (memory_ t') !! p = Some ctx' /\ AutoBuffer.holds (sc_buffer ctx') rest.
Proof.
  destruct (return_response x rc t Q W C p wc cc ctx Hf Hsz Htype Huid Ho Hne Hl Hw) as (t' & cc' & out & rest & H1 & H2 & _ & H3).
  by exists t', cc', out, rest.
Qed.

(** A request that is no heartbeat is forwarded to the web server the balancer selects: over a new
    connection to its address, which expects a response; unchanged, as far as the socket takes it at
    once; and the proxy remembers which client to answer and with which packet. If no connection can be
    made, the message that is logged dereferences a null pointer, although other servers may be up. *)
Theorem request_forwarded (ParseHeartbeat : bytes -> option Z * Z) (x : forward_io) (rc : RecvContext) (t : NetThread)
    (Q : list nat) (C p : nat) (cc : Conn) (ctx : SendContext) (data : bytes) (body : option bytes) (i : nat)
    (b0 b1 : LoadBalancer.LoadBalancer) (host : LoadBalancer.WebServerProfile)
    (Hrq : requesting t Q rc C p cc ctx data) (Hbody : heartbeat_body rc cc = Ok body)
    (Hheart : ProxyServer.CheckHeartbeat ParseHeartbeat (balancer_ (derived_ t)) (rc_from_ip rc) body (fw_now x)
              = Ok (false, b0))
    (Hbal : LoadBalance x b0 (rc_from_ip rc) = Ok (Some i, b1))
    (Hhost : LoadBalancer.web_servers_ b1 !! i = Some host)
    (Hfd : 0 < fw_fd x) (Hadd : can_add t (fw_fd x)) (Hlt : Z.of_nat (next_ (memory_ t)) + 2 < 2 ^ 32)
    (Hw : 0 <= wrote (fw_write x) <= zlen data) :
  if connects 3 (fw_connects x) then
    exists t' W wc q, HandleHttpRequest ParseHeartbeat x rc t = Ok (false, t', [(q, take (Z.to_nat (wrote (fw_write x))) data)]) /\
      conns t !! W = None /\ conns t' = <[W := wc]> (conns t) /\ forwarding t' Q W C p wc cc ctx /\
      (remote_ip_ wc, remote_port_ wc, conn_type wc, parser_ wc)
      = (LoadBalancer.ip host, LoadBalancer.port host, kConnectTo, Some (PResponse HttpPacket.new_response)) /\
      pending_send_ctx_ wc = (if wrote (fw_write x) =? zlen data then [] else [q]) /\ balancer_ (derived_ t') = b1
  else HandleHttpRequest ParseHeartbeat x rc t = Fault Undefined.
Proof.
  pose proof (forward_request ParseHeartbeat x rc t Q C p cc ctx data body i b0 b1 host Hrq Hbody Hheart Hbal Hhost Hfd Hadd Hlt Hw) as H.
  destruct (connects 3 (fw_connects x)); [|done]. destruct H as (t' & W & wc & q & H1 & H2 & H3 & H4 & H5 & H6 & H7 & _).
  by exists t', W, wc, q.
Qed.

(** What becomes of a response whose client has closed its connection meanwhile. If the id of the
    client is free the response is dropped and the connection to the web server deleted; but the
    entry of [conn_map_] stays, since it is looked for under the id of the client. If the id has been given
    to another connection, the message logged by [TrySendAndMarkPendingIfUndone] reads the socket of
    the connection that is gone. *)
Theorem late_response (x : forward_io) (rc : RecvContext) (t : NetThread) (Q : list nat) (W C p : nat) (wc : Conn)
    (Hb : base_inv (p :: Q) t) (HW : conns t !! W = Some wc)
    (Hmap : conn_map_ (derived_ t) !! W = Some (C, Some p)) (Hgone : stale t p)
    (HC : (0 < C < length (items (pool_ (connection_manager_ t))))%nat)
    (Htype : rc_type rc = kConnectTo) (Huid : rc_tcp_connection_uid rc = Z.of_nat W) (Hne : W <> C) :
  match conns t !! C with
  | None => exists t', HandleHttpResponse x rc t = Ok (t', []) /\ conns t' = delete W (conns t) /\
              conn_map_ (derived_ t') !! W = Some (C, Some p)
  | Some _ => HandleHttpResponse x rc t = Fault Dangling
  end.
Proof.
  unfold HandleHttpResponse. rewrite bool_decide_true by done. cbn [assert_ mbind res_bind]. rewrite Huid, Nat2Z.id.
  unfold conn_map_at. rewrite Hmap. assert (thread_GetConnection t C = Ok (conns t !! C)) as Eg by exact (GetConnection_slot _ C (bi_mgr _ _ Hb) HC).
  rewrite Eg. destruct (conns t !! C) as [cc|] eqn:EC; cbn [mbind res_bind].
  - rewrite Hmap. destruct (thread_get t _ W wc Hb HW) as [_ ->]. cbn [mbind res_bind].
    destruct Hgone as (s & a & Em). destruct (meta_ctx _ _ _ Em) as (ctx & Hctx & [= _ Ea Ev]).
    destruct (change_buffer_ok t _ p ctx (view_of wc) _ Hb Hctx eq_refl) as (t1 & -> & Hb1 & Hc1 & Hm1 & _). cbn [mbind res_bind].
    unfold TrySendAndMarkPendingIfUndone. cbn [from_option mbind res_bind]. rewrite Hm1. cbn [set_ctx ctxs_]. rewrite lookup_insert_eq.
    cbn [from_option mbind res_bind set_buffer sc_is_tcp_conn_valid]. rewrite <- Ev. cbn [negb]. unfold socket_FD. cbn [sc_owner].
    rewrite (conn_at_None t1 (p :: Q)); [done|apply Hb1|]. intros u c Hu. rewrite Hc1 in Hu. cbn. rewrite <- Ea.
    eapply ci_stale; [apply Hb|done|done].
  - set (t1 := set_conn_map t _). assert (base_inv (p :: Q) t1) as Hb1 by by apply set_map_inv.
    destruct (base_del t1 _ W wc Hb1 HW) as (t' & -> & _ & Hc' & _ & (Hd' & _)). cbn [mbind res_bind]. exists t'.
    split_and!; [done|done|]. rewrite Hd'. cbn. by rewrite lookup_delete_ne.
Qed.

(** A request that the socket of the web server does not take at once is kept as a view of the receive
    buffer of the client. If the client closes its connection before the rest is sent, the next write
    event of the web server's connection reads freed memory. *)
Theorem forwarded_view_dangles (ParseHeartbeat : bytes -> option Z * Z) (x : forward_io) (rc : RecvContext) (t : NetThread)
    (Q : list nat) (C p : nat) (cc : Conn) (ctx : SendContext) (data : bytes) (body : option bytes) (i : nat)
    (b0 b1 : LoadBalancer.LoadBalancer) (host : LoadBalancer.WebServerProfile) (ws : list UnixSocket.write_result) (now : Z)
    (Hrq : requesting t Q rc C p cc ctx data) (Hbody : heartbeat_body rc cc = Ok body)
    (Hheart : ProxyServer.CheckHeartbeat ParseHeartbeat (balancer_ (derived_ t)) (rc_from_ip rc) body (fw_now x)
              = Ok (false, b0))
    (Hbal : LoadBalance x b0 (rc_from_ip rc) = Ok (Some i, b1))
    (Hhost : LoadBalancer.web_servers_ b1 !! i = Some host)
    (Hfd : 0 < fw_fd x) (Hadd : can_add t (fw_fd x)) (Hlt : Z.of_nat (next_ (memory_ t)) + 2 < 2 ^ 32)
    (Hconn : connects 3 (fw_connects x) = true) (Hw : 0 <= wrote (fw_write x) < zlen data) :
  exists t1 W t2 out, HandleHttpRequest ParseHeartbeat x rc t = Ok (false, t1, out) /\
    __OnErrEvent t1 C = Ok (0, t2) /\ __OnWriteEvent t2 W ws now = Fault Dangling.
Proof.
  pose proof (forward_request ParseHeartbeat x rc t Q C p cc ctx data body i b0 b1 host Hrq Hbody Hheart Hbal Hhost Hfd Hadd Hlt) as H.
  rewrite Hconn in H. destruct H as (t1 & W & wc & q & E1 & Hnone & Hc1 & Hf & _ & Hpe & _ & Hwfd & Hsz1 & (qctx & Hq & Hptr & Hlen & Hpos) & _); [lia|].
  destruct Hf as [Hb1 HW HC Hne _ _ _ _ _ _ _]. destruct (base_del t1 _ C cc Hb1 HC) as (t2 & E2 & Hb2 & Hc2 & Hm2 & _).
  exists t1, W, t2, [(q, take (Z.to_nat (wrote (fw_write x))) data)]. unfold __OnErrEvent. rewrite E2. split_and!; [done|done|].
  assert (conns t2 !! W = Some wc) as HW2 by (by rewrite Hc2, lookup_delete_ne).
  unfold __OnWriteEvent, vec_get. pose proof HW2 as HW2'. apply live_lookup_Some in HW2' as ->. cbn [mbind res_bind].
  destruct (Z.eqb_spec (wrote (fw_write x)) (zlen data)); [lia|]. unfold HasPendingPacketToSend, TrySendPendingPackets. rewrite Hpe.
  cbn [length send_pending]. rewrite Hpe. unfold TrySend. rewrite Hm2, destroy_lookup, Hq.
  assert (exists qctx', (if decide (q ∈ send_contexts_ cc) then invalidate <$> Some qctx else Some qctx) = Some qctx' /\
            sc_buffer qctx' = sc_buffer qctx) as (qctx' & -> & Hbuf) by (destruct (decide _); by eexists).
  rewrite Hbuf. unfold sent_bytes, AutoBuffer.Pos, AutoBuffer.Length. rewrite Hpos, Hlen, sub64_id by (destruct Hrq; lia).
  change (UnixSocket.fd_ (socket_ wc)) with (conn_FD wc). destruct (Z.leb_spec (conn_FD wc) 0); [lia|].
  destruct (Z.eqb_spec (zlen data - wrote (fw_write x)) 0); [lia|]. cbn [orb]. unfold AutoBuffer.bytes_of. rewrite Hptr.
  rewrite deref_gone; [done| |by apply (Hsz1 C)]. intros v e. rewrite Hc2. destruct (decide (v = C)) as [->|Hvn]; [by rewrite lookup_delete_eq|].
  rewrite lookup_delete_ne by done. intros He. split; [|by apply (Hsz1 v)]. intros Et. apply Hvn. eapply ci_inj; [apply Hb1|done..].
Qed.

(** *** A client and a web server *)

Definition demo_data : bytes := str "GET / HTTP/1.1".
Definition demo_resp : bytes := str "HTTP/1.1 200 OK".

Definition buffer_of (d : bytes) : AutoBuffer.AutoBuffer :=
  match AutoBuffer.WriteString (AutoBuffer.new AutoBuffer.kMallocUnit) d with
  | Ok b => b
  | Fault _ => AutoBuffer.new AutoBuffer.kMallocUnit
  end.

Lemma buffer_of_holds (d : bytes) : zlen d < 2 ^ 60 -> AutoBuffer.holds (buffer_of d) d.
Proof.
  intros Hd. destruct (AutoBuffer.WriteString_holds (AutoBuffer.new AutoBuffer.kMallocUnit) [] d) as (b & E & Hb);
    [by apply AutoBuffer.holds_new|done|]. unfold buffer_of. by rewrite E.
Qed.

Definition demo_host : LoadBalancer.WebServerProfile := LoadBalancer.mkServer (str "10.0.0.9") 5002 1 0 0 false false 0 1.
Definition demo_balancer : LoadBalancer.LoadBalancer := LoadBalancer.mkBalancer LoadBalancer.kPoll [demo_host] 0 0.

Definition proxy_start : NetThread := mkThread new_manager 10 new_memory true None (mkProxyThread ∅ demo_balancer).

(** A client is accepted, its request received, and a packet made to answer it. *)
Definition proxy_accepted : NetThread :=
  match RegisterConnection config_methods proxy_start 5 (str "10.0.0.7") 4711 0 with Ok (_, t) => t | Fault _ => proxy_start end.

Definition demo_client : Conn :=
  let c := default (new_ConnectionProfile kAcceptFrom [] 0 0 0 0) (slot proxy_accepted 1) in
  set_input c (socket_ c) (buffer_of demo_data).

Definition proxy_received : NetThread :=
  match put_conn proxy_accepted 1 demo_client with Ok t => t | Fault _ => proxy_accepted end.

Definition proxy_requested : NetThread :=
  match conn_MakeSendContext proxy_received 1 with Ok (_, t) => t | Fault _ => proxy_received end.

Definition demo_cc : Conn := default demo_client (slot proxy_requested 1).
Definition demo_ctx : SendContext := mkSendContext 1 1 3 (AutoBuffer.new AutoBuffer.kMallocUnit) true.

Definition demo_rc : RecvContext :=
  mkRecvContext 1 5 (str "10.0.0.7") 4711 kAcceptFrom (Some (PRequest HttpPacket.new_request)) (Some 4%nat).

Lemma proxy_requested_inv : base_inv [4%nat] proxy_requested.
Proof.
  assert (base_inv [] proxy_start) as H0 by apply net_base, new_thread_inv.
  assert (conns proxy_start = ∅) as Ee by apply live_new.
  destruct (base_register config_methods proxy_config_law proxy_start [] 5 (str "10.0.0.7") 4711 0 H0)
    as (taken & t1 & E1 & H1 & _); [lia|split; [rewrite Ee; vm_compute; lia|intros u c; by rewrite Ee]|].
  assert (t1 = proxy_accepted) as -> by (unfold proxy_accepted; by rewrite E1).
  assert (exists c, conns proxy_accepted !! 1%nat = Some c /\ conn_Uid demo_client = conn_Uid c /\
            conn_FD demo_client = conn_FD c /\ same_links c demo_client) as (c & Hc & Hid & Hfd & Hl).
  { eexists. split; [apply live_lookup_Some; vm_compute; reflexivity|]. by vm_compute. }
  destruct (base_put proxy_accepted [] [] 1 c demo_client (memory_ proxy_accepted) (bi_mgr _ _ H1) Hc Hid Hfd)
    as (t2 & E2 & H2 & Hc2 & Hm2 & _); [eapply ctx_inv_links; [apply H1|done|done]|].
  assert (t2 = proxy_received) as ->.
  { unfold proxy_received. replace proxy_accepted with (set_memory proxy_accepted (memory_ proxy_accepted)) at 1
      by (by destruct proxy_accepted). by rewrite E2. }
  destruct (base_conn_make proxy_received [] 1 demo_client H2) as (t3 & c3 & m & _ & E3 & H3 & _);
    [by rewrite Hc2, lookup_insert_eq|vm_compute; reflexivity|].
  unfold proxy_requested. rewrite E3. exact H3.
Qed.

Lemma proxy_requested_conns (u : nat) (c : Conn) : conns proxy_requested !! u = Some c -> u = 1%nat.
Proof.
  intros Hc%live_lookup_Some. destruct (decide (u = 1%nat)) as [|Hne]; [done|]. exfalso.
  assert (u < 128)%nat by (apply lookup_lt_Some in Hc; exact Hc).
  do 128 (destruct u as [|u]; [vm_compute in Hc; congruence|]). lia.
Qed.

Lemma demo_cc_live : conns proxy_requested !! 1%nat = Some demo_cc.
Proof. apply live_lookup_Some. vm_compute. reflexivity. Qed.

Lemma demo_requesting : requesting proxy_requested [] demo_rc 1 4 demo_cc demo_ctx demo_data.
Proof.
  split; [apply proxy_requested_inv| |reflexivity|reflexivity|reflexivity|apply demo_cc_live|..].
  2-7,9: vm_compute; try split; reflexivity.
  - intros v e He. assert (v = 1%nat) as -> by (by eapply proxy_requested_conns). rewrite demo_cc_live in He.
    injection He as <-. vm_compute. split; [discriminate|reflexivity].
  - apply (buffer_of_holds demo_data). vm_compute. reflexivity.
  - vm_compute. split; reflexivity.
Qed.

Definition demo_io (n : Z) : forward_io :=
  mkForwardIo (fun _ => None) 0 (fun _ => 0) 6 [0] (UnixSocket.Wrote n) 0.

Lemma demo_can_add : can_add proxy_requested 6.
Proof.
  split.
  - unfold conns. rewrite live_size. vm_compute. lia.
  - intros u c Hc. assert (u = 1%nat) as -> by (by eapply proxy_requested_conns). rewrite demo_cc_live in Hc.
    injection Hc as <-. by vm_compute.
Qed.

Lemma request_forwarded_witness :
  exists t' q, HandleHttpRequest (fun _ => (None, 0)) (demo_io 3) demo_rc proxy_requested = Ok (false, t', [(q, str "GET")]).
Proof.
  destruct (request_forwarded (fun _ => (None, 0)) (demo_io 3) demo_rc proxy_requested [] 1 4 demo_cc demo_ctx demo_data
    (Some []) 0 demo_balancer demo_balancer demo_host demo_requesting) as (t' & W & wc & q & E & _);
    try (vm_compute; reflexivity); [apply demo_can_add|vm_compute; split; discriminate|by exists t', q].
Defined.

Lemma forwarded_view_dangles_witness :
  exists t1 W t2 out, HandleHttpRequest (fun _ => (None, 0)) (demo_io 3) demo_rc proxy_requested = Ok (false, t1, out) /\
    __OnErrEvent t1 1 = Ok (0, t2) /\ __OnWriteEvent t2 W [] 0 = Fault Dangling.
Proof.
  refine (forwarded_view_dangles (fun _ => (None, 0)) (demo_io 3) demo_rc proxy_requested [] 1 4 demo_cc demo_ctx demo_data
    (Some []) 0 demo_balancer demo_balancer demo_host [] 0 demo_requesting _ _ _ _ _ demo_can_add _ _ _);
    try (vm_compute; reflexivity). vm_compute. split; [discriminate|reflexivity].
Defined.

(** The request forwarded, and the response received. *)
Definition proxy_forwarded : NetThread :=
  match HandleHttpRequest (fun _ => (None, 0)) (demo_io 14) demo_rc proxy_requested with
  | Ok (_, t, _) => t
  | Fault _ => proxy_requested
  end.

Lemma proxy_forwarded_ok : exists W wc, forwarding proxy_forwarded [] W 1 4 wc demo_cc demo_ctx /\ sizes proxy_forwarded.
Proof.
  destruct (forward_request (fun _ => (None, 0)) (demo_io 14) demo_rc proxy_requested [] 1 4 demo_cc demo_ctx demo_data
    (Some []) 0 demo_balancer demo_balancer demo_host demo_requesting) as (t' & W & wc & q & E & _ & _ & Hf & _ & _ & _ & _ & Hsz & _);
    [vm_compute; reflexivity|vm_compute; reflexivity|vm_compute; reflexivity|vm_compute; reflexivity|vm_compute; reflexivity
    |apply demo_can_add|vm_compute; reflexivity|vm_compute; split; discriminate|].
  exists W, wc. unfold proxy_forwarded. rewrite E. exact (conj Hf Hsz).
Qed.

Definition demo_resp_rc (W : nat) : RecvContext :=
  mkRecvContext (Z.of_nat W) 6 (str "10.0.0.9") 5002 kConnectTo None None.

Lemma response_returned_witness :
  exists t1 W wc t2 out rest, put_conn proxy_forwarded W (set_input wc (socket_ wc) (buffer_of demo_resp)) = Ok t1 /\
    HandleHttpResponse (demo_io 4) (demo_resp_rc W) t1 = Ok (t2, [(4%nat, out)]) /\ out ++ rest = demo_resp.
Proof.
  destruct proxy_forwarded_ok as (W & wc & Hf & Hsz).
  pose proof (buffer_of_holds demo_resp ltac:(vm_compute; reflexivity)) as (Ho & Hc & _).
  destruct (forwarding_input _ _ _ _ _ _ _ _ (buffer_of demo_resp) Hf Hsz Ho ltac:(vm_compute; reflexivity)) as (t1 & E1 & Hf1 & Hsz1).
  destruct (response_returned (demo_io 4) (demo_resp_rc W) t1 [] W 1 4 _ demo_cc demo_ctx Hf1 Hsz1 eq_refl eq_refl Ho)
    as (t2 & cc' & out & rest & E2 & Hout & _).
  - cbn [set_input tcp_byte_arr_]. rewrite Hc. discriminate.
  - cbn [set_input tcp_byte_arr_]. rewrite Hc. vm_compute. reflexivity.
  - cbn [set_input tcp_byte_arr_]. rewrite Hc. vm_compute. split; discriminate.
  - exists t1, W, wc, t2, out, rest. cbn [set_input tcp_byte_arr_] in Hout. rewrite Hc in Hout. exact (conj E1 (conj E2 Hout)).
Defined.

Lemma late_response_witness :
  exists t1 t2 W, thread_DelConnection proxy_forwarded 1 = Ok t1 /\ HandleHttpResponse (demo_io 4) (demo_resp_rc W) t1 = Ok (t2, []) /\
    conn_map_ (derived_ t2) !! W = Some (1%nat, Some 4%nat).
Proof.
  destruct proxy_forwarded_ok as (W & wc & Hf & Hsz).
  destruct (client_gone _ _ _ _ _ _ _ _ Hf) as (t1 & E1 & Hb1 & Hc1 & HW1 & Hm1 & Hst).
  pose proof (late_response (demo_io 4) (demo_resp_rc W) t1 [] W 1 4 wc Hb1 HW1 Hm1 Hst) as H.
  rewrite Hc1, lookup_delete_eq in H. destruct H as (t2 & E2 & _ & Hm2).
  - assert (Ok t1 = thread_DelConnection proxy_forwarded 1) as E by (symmetry; exact E1). vm_compute in E. injection E as ->.
    vm_compute. lia.
  - reflexivity.
  - reflexivity.
  - apply Hf.
  - exists t1, t2, W. exact (conj E1 (conj E2 Hm2)).
Defined.

End ProxyForward.
