(* ===== verification/ProxyLoop.v ===== *)
(** * The events of a proxy thread (reverseproxy/proxyserver.cc, networkmodel/serverbase.cc)

    A network thread of the proxy accepts clients, reads requests and responses, sends,
    and loses connections, in any order. The files before this one describe one
    request at a time; here the thread is a transition system whose steps are the
    handlers of the event loop. Every connection to a web server has the packet
    of one client to answer, and however the events come, a response never leaves
    on the connection of another client. *)
From stdpp Require Import gmap fin_maps relations.
From S2P Require Import Prelude CLib StdMap AutoBuffer FirstLine HeaderField HttpPacket HttpTheory HttpProps UnixSocket SocketEpoll TcpConnection.
From S2P Require Import ServerBase NetThreadTheory EventLoop LoadBalancer ProxyServer ProxyForward.

Module ProxyLoop.
Import TcpConnection ServerBase NetThreadTheory ProxyForward.

(** ** Specifications *)

(** What a connection is, however its state changes. *)
Definition kind (c : Conn) : nat * TConnectionType := (this_ c, conn_type c).

(** What becomes of a thread when connections are changed, deleted or accepted,
    but none is made to a web server: a connection stays what it is, or its contexts
    are told that it is gone; contexts stay with the connection that made them. *)
Record evolves (t t' : NetThread) : Prop := {
  ev_old : forall v c', conns t' !! v = Some c' ->
    (exists c, conns t !! v = Some c /\ kind c' = kind c) \/ conns t !! v = None /\ conn_type c' = kAcceptFrom;
  ev_kept : forall v c, conns t !! v = Some c ->
    (exists c', conns t' !! v = Some c' /\ kind c' = kind c) \/
    (forall p, p ∈ send_contexts_ c -> forall s a, meta_of (memory_ t') p <> Some (s, a, true));
  ev_meta : forall p s a v, meta_of (memory_ t) p = Some (s, a, v) ->
    exists v', meta_of (memory_ t') p = Some (s, a, v') /\ (v' = true -> v = true)
}.

(** The packet [p] is to answer the client with the id [C], as long as the
    connection that made it is there. *)
Definition client_of (t : NetThread) (C p : nat) : Prop :=
  exists s a v, meta_of (memory_ t) p = Some (s, a, v) /\
    (v = true -> exists cc, conns t !! C = Some cc /\ kind cc = (a, kAcceptFrom)).

(** The entry of [conn_map_] for the connection [W] to a web server. *)
Definition entry (t : NetThread) (W : nat) : option (nat * option nat) := conn_map_ (derived_ t) !! W.

(** Every connection to a web server, but those in [E], has its entry: the packet
    of a client, which no other has and which is on its way. *)
Record owed_ok (E : nat -> Prop) (t : NetThread) (Q : list nat) : Prop := {
  ow_entry : forall W wc, conns t !! W = Some wc -> conn_type wc = kConnectTo -> ~ E W ->
    exists C p, entry t W = Some (C, Some p) /\ p ∈ Q /\ client_of t C p;
  ow_inj : forall W W' wc wc' C C' p, conns t !! W = Some wc -> conns t !! W' = Some wc' ->
    conn_type wc = kConnectTo -> conn_type wc' = kConnectTo -> ~ E W -> ~ E W' ->
    entry t W = Some (C, Some p) -> entry t W' = Some (C', Some p) -> W = W'
}.

Abbreviation nobody := (fun _ : nat => False).

Definition proxy_inv (t : NetThread) : Prop := exists Q, base_inv Q t /\ owed_ok nobody t Q.

(** What an event leaves as it is: the entry of a connection to a web server that
    stays, and which connection made a packet. *)
Record step_ok (t t' : NetThread) : Prop := {
  so_inv : proxy_inv t';
  so_entries : forall W wc wc', conns t !! W = Some wc -> conns t' !! W = Some wc' -> this_ wc' = this_ wc ->
    conn_type wc = kConnectTo -> conn_type wc' = kConnectTo /\ entry t' W = entry t W;
  so_metas : forall p s a v, meta_of (memory_ t) p = Some (s, a, v) -> exists v', meta_of (memory_ t') p = Some (s, a, v')
}.

(** What leaves when a response is handled: the packet of the client whose
    request was forwarded over this connection. *)
Definition leaves_to_client (t : NetThread) (W : nat) (outs : list (nat * bytes)) : Prop :=
  forall q o, (q, o) ∈ outs -> exists C cc s, entry t W = Some (C, Some q) /\ conns t !! C = Some cc /\
    conn_type cc = kAcceptFrom /\ meta_of (memory_ t) q = Some (s, this_ cc, true).

(** The system gives a new descriptor, there is room for another connection, and
    the counters do not wrap. *)
Record system_ok (x : forward_io) (t : NetThread) : Prop := {
  sy_fd : 0 < fw_fd x;
  sy_add : can_add t (fw_fd x);
  sy_next : Z.of_nat (next_ (memory_ t)) + 3 < 2 ^ 32
}.

(** The connections an event makes to web servers are for this client and this
    packet. *)
Definition forwards_for (t t' : NetThread) (C p : nat) : Prop :=
  forall W wc, conns t !! W = None -> conns t' !! W = Some wc -> conn_type wc = kConnectTo /\ entry t' W = Some (C, Some p).

(** The read event of the connection [u] is to handle the packet of [rc], in the state [tm]. *)
Definition hands_over (t : NetThread) (u : nat) (reads : list UnixSocket.read_result) (rc : RecvContext) (tm : NetThread) : Prop :=
  forall vm : NetThreadMethods proxy_parser proxy_thread,
    ServerBase.UpgradeApplicationProtocol vm = EventLoop.base_UpgradeApplicationProtocol ->
    __OnReadEvent vm t u reads = ServerBase.HandleApplicationPacket vm rc tm.

(** The state [tm] in which the packet of [rc], which came on the connection [u], is
    handled: a client's packet comes with the packet to answer it with. *)
Record handed (t tm : NetThread) (Q : list nat) (u : nat) (c : Conn) (rc : RecvContext) : Prop := {
  ha_inv : base_inv (option_list (rc_return_packet rc) ++ Q) tm;
  ha_conns : exists c', conns tm = <[u := c']> (conns t) /\ kind c' = kind c /\ conn_FD c' = conn_FD c;
  ha_derived : derived_ tm = derived_ t;
  ha_metas : forall p y, meta_of (memory_ t) p = Some y -> meta_of (memory_ tm) p = Some y;
  ha_next : (next_ (memory_ tm) <= S (next_ (memory_ t)))%nat;
  ha_uid : rc_tcp_connection_uid rc = Z.of_nat u;
  ha_type : rc_type rc = conn_type c;
  ha_return : forall p, rc_return_packet rc = Some p -> exists s, meta_of (memory_ tm) p = Some (s, this_ c, true);
  ha_answer : conn_type c = kAcceptFrom -> is_Some (rc_return_packet rc)
}.

(** *** Runs *)

Definition proxy_thread_start (mx : Z) (b : LoadBalancer.LoadBalancer) : NetThread :=
  mkThread new_manager mx new_memory true None (mkProxyThread ∅ b).

Section Steps.
Context (PH : bytes -> option Z * Z).

(** What happens in the loop of a network thread of the proxy: an event is handled,
    a client is accepted, or connections time out. A step is one that returns. *)
Inductive proxy_step (t t' : NetThread) : Prop :=
| step_event (e : SocketEpoll.SocketEpoll) (idx : Z) (x : EventLoop.io forward_io) (now : Z) (a : EventLoop.after)
    (notes : list Z) (outs : list (nat * bytes)) :
    system_ok (EventLoop.io_env x) t ->
    EventLoop.on_event (proxy_methods PH) t e idx x now = Ok (a, t', notes, outs) -> proxy_step t t'
| step_accept (x : forward_io) (fd : Z) (ip : bytes) (port now : Z) (taken : bool) :
    0 < fd -> can_add t fd -> RegisterConnection (proxy_methods PH x) t fd ip port now = Ok (taken, t') -> proxy_step t t'
| step_timeout (now : Z) : t' = thread_ClearTimeout t now -> proxy_step t t'.

(** The connection with the id [W] and the address [a] is there. *)
Definition alive (t : NetThread) (W a : nat) : Prop := exists wc, conns t !! W = Some wc /\ this_ wc = a.

(** A step after which the connection is still there. *)
Definition step_with (W a : nat) (t t' : NetThread) : Prop := proxy_step t t' /\ alive t' W a.

End Steps.

(** ** Lemmas *)

Lemma evolves_refl (t : NetThread) : evolves t t.
Proof. split; eauto. Qed.

Lemma metas_evolve (t t' : NetThread) (p : nat) (s : Z) (a : nat) (v : bool) :
  evolves t t' -> meta_of (memory_ t) p = Some (s, a, v) -> exists v', meta_of (memory_ t') p = Some (s, a, v').
Proof. intros He Hp. destruct (ev_meta _ _ He p s a v Hp) as (v' & ? & _). eauto. Qed.

(** Events that change no entry. *)
Lemma evolves_step (t t' : NetThread) (Q : list nat) :
  evolves t t' -> conn_map_ (derived_ t') = conn_map_ (derived_ t) -> base_inv Q t' -> owed_ok nobody t' Q -> step_ok t t'.
Proof.
  intros He Hd Hb Ho. split; [by exists Q| |by intros; eapply metas_evolve]. intros W wc wc' HW HW' Ht Hty.
  unfold entry. rewrite Hd. split; [|done]. destruct (ev_old _ _ He W wc' HW') as [(c & Hc & Hk)|[Hn _]]; [|congruence].
  unfold kind in Hk. congruence.
Qed.

(** Only contents of buffers, or members of the derived class, change. *)
Lemma evolves_same (t t' : NetThread) :
  conns t' = conns t -> (forall p, meta_of (memory_ t') p = meta_of (memory_ t) p) -> evolves t t'.
Proof. intros E Em. split; rewrite ?E; [eauto..|]. intros p s a v. rewrite Em. eauto. Qed.

(** One connection goes to another state. *)
Lemma evolves_put (t t' : NetThread) (u : nat) (c c' : Conn) :
  conns t !! u = Some c -> conns t' = <[u := c']> (conns t) -> kind c' = kind c ->
  (forall p x, meta_of (memory_ t) p = Some x -> meta_of (memory_ t') p = Some x) -> evolves t t'.
Proof.
  intros Hu E Hk Hm. split.
  - intros v d. rewrite E. intros [[<- <-]|[Hne Hv]]%lookup_insert_Some; left; eauto.
  - intros v d Hv. left. rewrite E. destruct (decide (v = u)) as [->|Hne].
    + rewrite lookup_insert_eq. assert (d = c) as -> by congruence. eauto.
    + rewrite lookup_insert_ne by done. eauto.
  - intros p s a v Hp. exists v. by rewrite (Hm _ _ Hp).
Qed.

(** The entries survive what happens to the thread, if the packets do. *)
Lemma owed_evolves (E E' : nat -> Prop) (t t' : NetThread) (Q Q' Q0 : list nat) :
  base_inv Q0 t -> Q ⊆ Q0 -> owed_ok E t Q -> evolves t t' ->
  (forall W wc wc', conns t !! W = Some wc -> conns t' !! W = Some wc' -> kind wc' = kind wc -> conn_type wc = kConnectTo ->
     ~ E' W -> ~ E W /\ entry t' W = entry t W /\
     forall C p, entry t W = Some (C, Some p) -> p ∈ Q -> p ∈ Q') ->
  owed_ok E' t' Q'.
Proof.
  intros Hb HQ [H1 H2] [E1 E2 E3] Hkeep.
  assert (Hback : forall W wc', conns t' !! W = Some wc' -> conn_type wc' = kConnectTo -> ~ E' W ->
    exists wc, conns t !! W = Some wc /\ conn_type wc = kConnectTo /\ ~ E W /\ entry t' W = entry t W /\
      forall C p, entry t W = Some (C, Some p) -> p ∈ Q -> p ∈ Q').
  { intros W wc' HW Hty HE. destruct (E1 W wc' HW) as [(wc & Hwc & Hk)|[_ Ht]]; [|congruence].
    assert (conn_type wc = kConnectTo) as Hty' by (unfold kind in Hk; congruence).
    destruct (Hkeep W wc wc' Hwc HW Hk Hty' HE) as (? & ? & ?). eauto 10. }
  split.
  - intros W wc' HW Hty HE. destruct (Hback W wc' HW Hty HE) as (wc & Hwc & Hty' & HE' & He & Hq).
    destruct (H1 W wc Hwc Hty' HE') as (C & p & Hen & Hp & s & a & v & Hm & Hv).
    exists C, p. rewrite He. split_and!; [done|by eapply Hq|]. destruct (E3 p s a v Hm) as (v' & Hm' & Hv').
    exists s, a, v'. split; [done|]. intros ->. specialize (Hv' eq_refl). subst v.
    destruct (Hv eq_refl) as (cc & Hcc & Hk). destruct (E2 C cc Hcc) as [(cc' & Hcc' & Hk')|Hgone]; [by exists cc'; rewrite Hk'|].
    destruct (ci_queue _ _ _ (bi_ctx _ _ Hb) p) as (s0 & a0 & v0 & Hm0 & Hq0); [by apply HQ|].
    rewrite Hm in Hm0. injection Hm0 as <- <- <-. destruct (Hq0 eq_refl) as (u & c & Hu & Ha & Hs & _).
    assert (u = C) as -> by (eapply ci_inj; [apply Hb|done|done|unfold kind in Hk; congruence]).
    assert (c = cc) as -> by congruence. by destruct (Hgone p Hs s a).
  - intros W W' wc wc' C C' p HW HW' Ht Ht' HE HE' He He'.
    destruct (Hback W wc HW Ht HE) as (w & Hw & Hty & HEw & Hen & _).
    destruct (Hback W' wc' HW' Ht' HE') as (w' & Hw' & Hty' & HEw' & Hen' & _).
    eapply (H2 W W' w w'); [done..|by rewrite <- Hen|by rewrite <- Hen'].
Qed.

(** *** What the operations of a thread do *)

Lemma evolves_del (t t' : NetThread) (u : nat) (c : Conn) :
  conns t !! u = Some c -> conns t' = delete u (conns t) -> memory_ t' = destroy c (memory_ t) -> evolves t t'.
Proof.
  intros Hu E Em. split.
  - intros v d. rewrite E. intros [_ Hv]%lookup_delete_Some. left. eauto.
  - intros v d Hv. destruct (decide (v = u)) as [->|Hne].
    + right. assert (d = c) as -> by congruence. intros p Hp s a. rewrite Em, destroy_meta, decide_True by done.
      by destruct (meta_of (memory_ t) p).
    + left. rewrite E, lookup_delete_ne by done. eauto.
  - intros p s a v Hp. rewrite Em, destroy_meta, Hp. destruct (decide _); eexists; by split.
Qed.

(** Sending changes the buffer of the packet and nothing else of it. *)
Lemma TrySend_meta (deref : Z -> option bytes) (so so' : UnixSocket.Socket) (m m' : memory) (p : nat)
    (w : UnixSocket.write_result) (d : bool) (out : bytes) :
  TrySend deref so m (Some p) w = Ok (d, so', m', out) ->
  UnixSocket.fd_ so' = UnixSocket.fd_ so /\ next_ m' = next_ m /\ forall q, meta_of m' q = meta_of m q.
Proof.
  unfold TrySend. destruct (ctxs_ m !! p) as [ctx|] eqn:Hp; [|done]. intros E. apply bind_Ok in E as (o & _ & E).
  destruct (UnixSocket.Send so (sc_buffer ctx) w) as [[[[d1 n1] s1] b1] o1] eqn:Es. injection E as <- <- <- <-.
  split_and!; [by eapply Send_fd|done|]. intros q. by apply meta_set_buffer.
Qed.

Lemma SendDone_kind (c : Conn) (m : memory) (p : nat) (now : Z) : kind (SendContextSendDoneCallback c m p now) = kind c.
Proof. unfold SendContextSendDoneCallback. by destruct (is_longlink_app_proto_ c), (seq_of m p). Qed.

(** [TrySendAndMarkPendingIfUndone] that returns, of whatever packet that is on its
    way: its connection is there. *)
Lemma base_send_any (t t' : NetThread) (Q : list nat) (p : nat) (w : UnixSocket.write_result) (now : Z) (d : bool) (out : bytes) :
  base_inv (p :: Q) t -> TrySendAndMarkPendingIfUndone t (Some p) w now = Ok (d, t', out) ->
  base_inv Q t' /\ evolves t t' /\ same_thread t t' /\ dom (conns t') = dom (conns t) /\
  exists s a u c, meta_of (memory_ t) p = Some (s, a, true) /\ conns t !! u = Some c /\ this_ c = a.
Proof.
  intros [Hm Hi] E. destruct (ci_queue _ _ _ Hi p) as (s & a & v & Em & Hq); [by left|].
  destruct (meta_ctx _ _ _ Em) as (ctx & Hp & [= Es Ea Ev]). unfold TrySendAndMarkPendingIfUndone in E.
  cbn [from_option mbind res_bind] in E. rewrite Hp in E. cbn [from_option mbind res_bind] in E. rewrite <- Ev, <- Ea in E.
  assert (p ∉ Q) as HpQ by (pose proof (ci_nodup _ _ _ Hi) as [? _]%NoDup_cons; done).
  destruct v; cbn [negb] in E.
  2: { unfold socket_FD in E. rewrite <- Ea, (conn_at_None t (p :: Q) a Hi) in E; [done|]. intros u c Hc. by eapply ci_stale. }
  destruct (Hq eq_refl) as (u & c & Hu & Ht & Hs & Hn).
  assert (conn_at t a = Some (u, c)) as Eat by (by apply (conn_at_live t (p :: Q))). rewrite Eat in E.
  cbn [from_option mbind res_bind] in E. apply bind_Ok in E as ([[[d1 s'] m'] o1] & Et & E).
  destruct (TrySend_meta _ _ _ _ _ _ _ _ _ Et) as (Hfd & Hnx & Hmeta).
  assert (ctx_inv (conns t) m' (p :: Q)) as Hi' by (by eapply ctx_inv_meta).
  pose proof (conn_ok_links m' c (set_socket c s') ltac:(done) (ci_conn _ _ _ Hi' u c Hu)) as Hok.
  assert (Hi2 : ctx_inv (conns t) m' Q) by (eapply ctx_inv_drop; [done|by apply submseteq_cons]).
  set (c' := if d1 : bool then _ else _) in E.
  assert (exists t1, put_conn (set_memory t m') u c' = Ok t1 /\ base_inv Q t1 /\ conns t1 = <[u := c']> (conns t) /\
            memory_ t1 = m' /\ same_thread t t1 /\ kind c' = kind c) as (t1 & Ep & Hb & Hl & Hm1 & Hsame & Hk).
  { destruct d1; unfold c'.
    - destruct (SendDone_ok m' (set_socket c s') p now Hok Hs Hn) as (Hok' & Ht' & Hpe & Hid & Hso & Hin).
      destruct (base_put t Q Q u c (SendContextSendDoneCallback (set_socket c s') m' p now) m') as (t1 & ? & ? & ? & ? & ?);
        [done|done|done|by cbn; rewrite Hso| |].
      + eapply ctx_inv_insert; [done|done|done|done|]. intros q Hq1 Hq2 Hq3. rewrite Hpe. split; [|done].
        apply Hin. split; [done|]. by intros ->.
      + exists t1. split_and!; try done. by rewrite SendDone_kind.
    - destruct (base_put t Q Q u c (AddPendingPacketToSend (set_socket c s') p) m') as (t1 & ? & ? & ? & ? & ?); [done|done|done|done| |].
      + eapply ctx_inv_insert; [done|done|by apply AddPending_ok|done|]. intros q Hq1 Hq2 Hq3. cbn. set_solver.
      + exists t1. by split_and!. }
  rewrite Ep in E. cbn [mbind res_bind] in E. injection E as <- <- <-. split_and!; [done| |done| |eauto 10].
  - eapply evolves_put; [done|done|done|]. intros q y. by rewrite Hm1, Hmeta.
  - rewrite Hl. by apply dom_insert_lookup_L.
Qed.

(** The loop of [TrySendPendingPackets], if it returns. *)
Lemma send_pending_any (deref : Z -> option bytes) (L : gmap nat Conn) (Q : list nat) (u n : nat) (c c' : Conn)
    (m m' : memory) (ws : list UnixSocket.write_result) (now : Z) (r : bool) (outs : list (nat * bytes)) :
  ctx_inv (<[u := c]> L) m Q -> send_pending deref n c m ws now = Ok (r, c', m', outs) ->
  ctx_inv (<[u := c']> L) m' Q /\ (forall q, meta_of m' q = meta_of m q) /\ kind c' = kind c /\
  conn_Uid c' = conn_Uid c /\ conn_FD c' = conn_FD c.
Proof.
  revert c m ws r outs. induction n as [|n IH]; intros c m ws r outs Hi E;
    cbn [send_pending] in E; destruct (pending_send_ctx_ c) as [|p rest] eqn:Ep; try (by injection E as <- <- <- <-); [done|].
  apply bind_Ok in E as ([[[d s'] m1] out] & Et & E). destruct (TrySend_meta _ _ _ _ _ _ _ _ _ Et) as (Hfd & Hnx & Hmeta).
  pose proof (ci_conn _ _ _ Hi u c (lookup_insert_eq _ _ _)) as Hok.
  pose proof (co_pending _ _ Hok) as [Hnd Hsub]. rewrite Ep in Hnd, Hsub. apply NoDup_cons in Hnd as [Hnp _].
  assert (ctx_inv (<[u := c]> L) m1 Q) as Hi' by (by eapply ctx_inv_meta).
  pose proof (conn_ok_links m1 c (set_socket c s') ltac:(done) (ci_conn _ _ _ Hi' u c (lookup_insert_eq _ _ _))) as Hok'.
  destruct d.
  - rewrite pop_pending_done in E. apply bind_Ok in E as ([[[r2 c2] m2] outs2] & E2 & E). injection E as <- <- <- <-.
    destruct (SendDone_ok m1 (pop_pending (set_socket c s')) p now) as (Hok2 & Ht & Hpe & Hid & Hso & Hin);
      [by apply pop_pending_ok|cbn; set_solver|cbn; by rewrite Ep|].
    set (c1 := SendContextSendDoneCallback (pop_pending (set_socket c s')) m1 p now) in *. cbn in Hpe. rewrite Ep in Hpe.
    destruct (IH c1 m1 (tail ws) r2 outs2) as (Hi3 & Hm3 & Hk3 & Hid3 & Hfd3); [|done|].
    { rewrite <- (insert_insert_eq L u c1 c). eapply ctx_inv_insert; [done|by apply lookup_insert_eq|done|done|].
      intros q Hq1 Hq2 Hq3. rewrite Hpe. rewrite Ep in Hq3. split; [|set_solver]. apply Hin. set_solver. }
    split_and!; [done|intros q; by rewrite Hm3, Hmeta|by rewrite Hk3; unfold c1; rewrite SendDone_kind|..].
    + rewrite Hid3. cbn. by rewrite Hid.
    + rewrite Hfd3. cbn. rewrite Hso. done.
  - injection E as <- <- <- <-. split_and!; try done.
    rewrite <- (insert_insert_eq L u (set_socket c s') c). eapply ctx_inv_insert; [done|by apply lookup_insert_eq|done|done|done].
Qed.

Lemma base_write_any (t t' : NetThread) (Q : list nat) (u : nat) (ws : list UnixSocket.write_result) (now : Z) (outs : list (nat * bytes)) :
  base_inv Q t -> __OnWriteEvent t u ws now = Ok (t', outs) ->
  base_inv Q t' /\ evolves t t' /\ same_thread t t' /\ dom (conns t') = dom (conns t).
Proof.
  intros [Hm Hi] E. unfold __OnWriteEvent, vec_get in E.
  destruct (items (pool_ (connection_manager_ t)) !! u) as [[c|]|] eqn:Hu; cbn [mbind res_bind] in E; [|done..].
  assert (conns t !! u = Some c) as Hu' by by apply live_lookup_Some.
  destruct (HasPendingPacketToSend c); [|injection E as <- <-; split_and!; try done; apply evolves_refl].
  apply bind_Ok in E as ([[[r c'] m'] o] & Es & E). unfold TrySendPendingPackets in Es. rewrite <- (insert_id _ _ _ Hu') in Hi.
  destruct (send_pending_any _ _ _ _ _ _ _ _ _ _ _ _ _ Hi Es) as (Hi' & Hmeta & Hk & Hid & Hfd).
  destruct (base_put t Q Q u c c' m' Hm Hu' Hid Hfd Hi') as (t1 & Ep & Hb & Hl & Hm1 & Hsame). rewrite Ep in E.
  injection E as <- <-. split_and!; [done| |done|rewrite Hl; by apply dom_insert_lookup_L].
  eapply evolves_put; [done|done|done|]. intros q y. by rewrite Hm1, Hmeta.
Qed.

(** Connections that time out. *)
Lemma clear_evolves (t : NetThread) (Q : list nat) (now : Z) :
  base_inv Q t -> base_inv Q (thread_ClearTimeout t now) /\ evolves t (thread_ClearTimeout t now).
Proof.
  intros Hb. destruct (base_clear t Q now Hb) as (Hb' & Hc & Hmeta & Hgone). split; [done|].
  assert (Hsub : conns (thread_ClearTimeout t now) ⊆ conns t) by (rewrite Hc; apply map_filter_subseteq). split.
  - intros v c' Hv. left. exists c'. split; [by eapply lookup_weaken|done].
  - intros v c Hv. destruct (conns (thread_ClearTimeout t now) !! v) as [c'|] eqn:Hv'; [left|right].
    + assert (c' = c) as -> by (pose proof (lookup_weaken _ _ _ _ Hv' Hsub); congruence). eauto.
    + intros p Hp. by eapply Hgone.
  - intros p s a v Hp. destruct (Hmeta p) as [->| ->]; rewrite Hp; eexists; by split.
Qed.

(** A client is accepted, or turned away. *)
Lemma register_evolves (PH : bytes -> option Z * Z) (x : forward_io) (t t' : NetThread) (Q : list nat) (fd : Z) (ip : bytes)
    (port now : Z) (taken : bool) :
  base_inv Q t -> 0 < fd -> can_add t fd -> RegisterConnection (proxy_methods PH x) t fd ip port now = Ok (taken, t') ->
  base_inv Q t' /\ evolves t t' /\ same_thread t t'.
Proof.
  intros Hb Hfd Hadd E.
  destruct (base_register (proxy_methods PH x) proxy_config_law t Q fd ip port now Hb Hfd Hadd)
    as (tk & t1 & E1 & Hb1 & Hs & _ & Hm & Hc). rewrite E in E1. injection E1 as <- <-. split_and!; [done| |done].
  destruct taken; [|by subst; apply evolves_refl]. destruct Hc as (uid & c & c0 & Hn & Hc & _ & Hty & Hcfg).
  assert (conn_type c = kAcceptFrom) as Htc.
  { cbn [ServerBase.ConfigApplicationLayer proxy_methods] in Hcfg. unfold ConfigApplicationLayer in Hcfg. rewrite Hty in Hcfg.
    unfold TcpConnection.ConfigApplicationLayer in Hcfg. destruct (_ && _); [done|]. by injection Hcfg as <-. }
  split.
  - intros v d. rewrite Hc. intros [[<- <-]|[_ Hv]]%lookup_insert_Some; eauto.
  - intros v d Hv. left. exists d. split; [|done]. rewrite Hc, lookup_insert_ne by congruence. done.
  - intros p s a v Hp. exists v. unfold meta_of in *. by rewrite Hm.
Qed.

(** The buffer of a packet is changed. *)
Lemma change_buffer_inv (t t' : NetThread) (Q : list nat) (p : nat) (f : AutoBuffer.AutoBuffer -> res AutoBuffer.AutoBuffer) :
  base_inv Q t -> change_buffer t (Some p) f = Ok t' ->
  base_inv Q t' /\ conns t' = conns t /\ (forall q, meta_of (memory_ t') q = meta_of (memory_ t) q) /\ derived_ t' = derived_ t.
Proof.
  intros Hb E. unfold change_buffer in E. cbn [from_option mbind res_bind] in E.
  destruct (ctxs_ (memory_ t) !! p) as [ctx|] eqn:Hp; [|done]. cbn [from_option mbind res_bind] in E.
  apply bind_Ok in E as (b & Ef & E). injection E as <-.
  destruct (change_buffer_ok t Q p ctx f b Hb Hp Ef) as (t1 & E1 & Hb1 & Hc1 & Hm1 & (Hd1 & _) & _).
  unfold change_buffer in E1. cbn [from_option mbind res_bind] in E1. rewrite Hp in E1. cbn [from_option mbind res_bind] in E1.
  rewrite Ef in E1. injection E1 as <-. split_and!; [done|done| |done]. intros q. cbn. by apply meta_set_buffer.
Qed.

(** A connection to a web server is made: it has no entry yet. *)
Lemma owed_new (t t' : NetThread) (Q : list nat) (W : nat) (wc : Conn) :
  owed_ok nobody t Q -> conns t !! W = None -> conns t' = <[W := wc]> (conns t) ->
  (forall p, meta_of (memory_ t') p = meta_of (memory_ t) p) -> derived_ t' = derived_ t -> owed_ok (fun v => v = W) t' Q.
Proof.
  intros [H1 H2] Hn Hc Hm Hd.
  assert (Hback : forall v c, conns t' !! v = Some c -> v <> W -> conns t !! v = Some c)
    by (intros v c Hv Hne; by rewrite Hc, lookup_insert_ne in Hv).
  split; unfold entry; rewrite Hd.
  - intros v c Hv Hty Hne. destruct (H1 v c) as (C & p & He & Hp & s & a & vl & Hmeta & Hcl); [by apply Hback|done|tauto|].
    exists C, p. split_and!; [done|done|]. exists s, a, vl. rewrite Hm. split; [done|]. intros Hvl.
    destruct (Hcl Hvl) as (cc & Hcc & Hk). exists cc. split; [|done]. rewrite Hc, lookup_insert_ne; [done|]. congruence.
  - intros v v' c c' C C' p Hv Hv' Ht Ht' Hne Hne'. apply (H2 v v' c c'); try done; [by apply Hback..|tauto|tauto].
Qed.

(** It gets its entry, with a packet that is new. *)
Lemma owed_insert (t : NetThread) (Q : list nat) (W C p : nat) :
  owed_ok (fun v => v = W) t Q -> p ∉ Q -> client_of t C p ->
  owed_ok nobody (set_conn_map t (<[W := (C, Some p)]> (conn_map_ (derived_ t)))) (p :: Q).
Proof.
  intros [H1 H2] Hp Hcl. set (t' := set_conn_map t _).
  assert (Hen : forall v, entry t' v = if decide (v = W) then Some (C, Some p) else entry t v).
  { intros v. unfold entry, t'. cbn. destruct (decide (v = W)) as [->|]; [by rewrite lookup_insert_eq|by rewrite lookup_insert_ne]. }
  assert (Hin : forall v c C' q, conns t !! v = Some c -> conn_type c = kConnectTo -> v <> W -> entry t v = Some (C', Some q) -> q ∈ Q).
  { intros v c C' q Hv Hty Hne He. destruct (H1 v c Hv Hty Hne) as (C2 & p2 & He2 & Hp2 & _). congruence. }
  split.
  - intros v c Hv Hty _. rewrite Hen. destruct (decide (v = W)) as [->|Hne]; [exists C, p; split_and!; [done|by left|done]|].
    destruct (H1 v c Hv Hty Hne) as (C2 & p2 & He2 & Hp2 & Hcl2). exists C2, p2. split_and!; [done|by right|done].
  - intros v v' c c' C1 C2 q Hv Hv' Ht Ht' _ _. rewrite !Hen.
    destruct (decide (v = W)) as [->|Hne], (decide (v' = W)) as [->|Hne']; try done.
    + intros [= <- <-] He. by destruct Hp; eapply (Hin v' c').
    + intros He [= <- <-]. by destruct Hp; eapply (Hin v c).
    + by apply (H2 v v' c c').
Qed.

(** Entries of connections that are there stay as they are. *)
Lemma owed_keep (E : nat -> Prop) (t t' : NetThread) (Q Q0 : list nat) :
  base_inv Q0 t -> Q ⊆ Q0 -> owed_ok E t Q -> evolves t t' ->
  (forall W wc, conns t !! W = Some wc -> conn_type wc = kConnectTo -> entry t' W = entry t W) -> owed_ok E t' Q.
Proof. intros Hb HQ Ho He Hen. eapply owed_evolves; [done..|]. intros W wc wc' HW _ _ Hty HE. split_and!; [done|by eapply Hen|done]. Qed.

(** A connection to a web server is deleted. *)
Lemma owed_del (t t' : NetThread) (Q : list nat) (W : nat) (wc : Conn) :
  base_inv Q t -> conns t !! W = Some wc -> owed_ok (fun v => v = W) t Q -> thread_DelConnection t W = Ok t' ->
  base_inv Q t' /\ owed_ok nobody t' Q /\ derived_ t' = derived_ t /\ conns t' = delete W (conns t) /\ evolves t t'.
Proof.
  intros Hb HW Ho E. destruct (base_del t Q W wc Hb HW) as (t1 & E1 & Hb1 & Hc1 & Hm1 & Hd1 & _).
  assert (t1 = t') as -> by congruence. assert (evolves t t') as Hev by by eapply evolves_del. split_and!; try done.
  eapply owed_evolves; [exact Hb|done|exact Ho|exact Hev|]. intros v c c' Hv Hv' _ _ _. rewrite Hc1 in Hv'.
  apply lookup_delete_Some in Hv' as [Hne _]. unfold entry. rewrite Hd1. split_and!; [congruence|done|done].
Qed.

Lemma GetConnection_None (t : NetThread) (Q : list nat) (u : nat) :
  base_inv Q t -> thread_GetConnection t u = Ok None -> conns t !! u = None.
Proof. intros Hb E. destruct (conns t !! u) as [c|] eqn:Hu; [|done]. destruct (thread_get t Q u c Hb Hu). congruence. Qed.

Lemma base_drop (t : NetThread) (Q Q' : list nat) : base_inv Q t -> Q' ⊆+ Q -> base_inv Q' t.
Proof. intros [Hm Hi] Hp. split; [done|by eapply ctx_inv_drop]. Qed.

Lemma map_evolves (t : NetThread) (m : gmap nat (nat * option nat)) : evolves t (set_conn_map t m).
Proof. by apply evolves_same. Qed.

(** The packet of [W] is taken from those on their way. *)
Lemma owed_take (t : NetThread) (Q Qr : list nat) (W C p : nat) (wc : Conn) :
  base_inv Q t -> owed_ok nobody t Q -> conns t !! W = Some wc -> conn_type wc = kConnectTo ->
  entry t W = Some (C, Some p) -> Q ≡ₚ p :: Qr -> owed_ok (fun v => v = W) t Qr.
Proof.
  intros Hb Ho HW Hty He Hp. eapply owed_evolves; [exact Hb|done|exact Ho|apply evolves_refl|].
  intros v c c' Hv _ _ Htv Hne. split_and!; [tauto|done|]. intros C' q Hq Hin. rewrite Hp in Hin.
  apply elem_of_cons in Hin as [->|Hin]; [|done]. destruct Hne. by eapply (ow_inj _ _ _ Ho v W c wc C' C p); try tauto.
Qed.

Lemma evolves_eq (t t1 t2 : NetThread) :
  conns t1 = conns t -> (forall r, meta_of (memory_ t1) r = meta_of (memory_ t) r) -> evolves t1 t2 -> evolves t t2.
Proof.
  intros Hc Hm [E1 E2 E3]. rewrite Hc in *. split; [done|done|]. intros p s a v Hp. apply E3. by rewrite Hm.
Qed.

(** The buffer of a packet is filled and the packet is sent. *)
Lemma fill_and_send (E : nat -> Prop) (t t1 t2 : NetThread) (Q : list nat) (p : nat) (f : AutoBuffer.AutoBuffer -> res AutoBuffer.AutoBuffer)
    (w : UnixSocket.write_result) (now : Z) (d : bool) (out : bytes) :
  base_inv (p :: Q) t -> owed_ok E t Q -> change_buffer t (Some p) f = Ok t1 ->
  TrySendAndMarkPendingIfUndone t1 (Some p) w now = Ok (d, t2, out) ->
  base_inv Q t2 /\ owed_ok E t2 Q /\ derived_ t2 = derived_ t /\ evolves t t2 /\ dom (conns t2) = dom (conns t) /\
  exists s a, meta_of (memory_ t) p = Some (s, a, true).
Proof.
  intros Hb Ho E1 E2. destruct (change_buffer_inv _ _ _ _ _ Hb E1) as (Hb1 & Hc1 & Hm1 & Hd1).
  destruct (base_send_any _ _ _ _ _ _ _ _ Hb1 E2) as (Hb2 & Hev2 & (Hd2 & _) & Hdom & s & a & _ & _ & Hp & _).
  rewrite Hm1 in Hp. split_and!; [done| |congruence|by eapply (evolves_eq t t1)|congruence|eauto]. eapply (owed_keep _ t1); [exact Hb1|set_solver| |done|].
  - eapply (owed_keep _ t); [exact Hb|set_solver|done|by apply evolves_same|]. intros v c _ _. unfold entry. by rewrite Hd1.
  - intros v c _ _. unfold entry. by rewrite Hd2.
Qed.

(** After the response is sent: the entry of the client is deleted, the rest is
    copied if there is one, and the connection to the web server is deleted. *)
Lemma finish_response (t2 t4 t5 : NetThread) (Q : list nat) (W C p : nat) (wc : Conn) (d : bool)
    (f : AutoBuffer.AutoBuffer -> res AutoBuffer.AutoBuffer) :
  let t3 := set_conn_map t2 (delete C (conn_map_ (derived_ t2))) in
  base_inv Q t2 -> owed_ok (fun v => v = W) t2 Q -> conns t2 !! W = Some wc ->
  (forall v c, conns t2 !! v = Some c -> conn_type c = kConnectTo -> v <> C) ->
  (if d then Ok t3 else change_buffer t3 (Some p) f) = Ok t4 -> thread_DelConnection t4 W = Ok t5 ->
  base_inv Q t5 /\ owed_ok nobody t5 Q /\ conn_map_ (derived_ t5) = delete C (conn_map_ (derived_ t2)) /\
  conns t5 = delete W (conns t2) /\ evolves t2 t5.
Proof.
  intros t3 Hb2 Ho2 HW HnC E4 E5. assert (base_inv Q t3) as Hb3 by by apply set_map_inv.
  assert (owed_ok (fun v => v = W) t3 Q) as Ho3.
  { eapply (owed_keep _ t2); [exact Hb2|done|done|apply map_evolves|]. intros v c Hv Htv. unfold entry, t3. cbn.
    rewrite lookup_delete_ne; [done|]. by apply not_eq_sym, (HnC v c). }
  assert (base_inv Q t4 /\ owed_ok (fun v => v = W) t4 Q /\ conns t4 = conns t2 /\ derived_ t4 = derived_ t3 /\
            (forall r, meta_of (memory_ t4) r = meta_of (memory_ t2) r)) as (Hb4 & Ho4 & Hc4 & Hd4 & Hm4).
  { destruct d; [by injection E4 as <-|]. destruct (change_buffer_inv _ _ _ _ _ Hb3 E4) as (Hb4 & Hc4 & Hm4 & Hd4).
    split_and!; try done. eapply (owed_keep _ t3); [exact Hb3|done|done|by apply evolves_same|]. intros v c _ _. unfold entry. by rewrite Hd4. }
  destruct (owed_del t4 t5 Q W wc Hb4 ltac:(by rewrite Hc4) Ho4 E5) as (Hb5 & Ho5 & Hd5 & Hc5 & Hev5).
  split_and!; [done|done|by rewrite Hd5, Hd4|by rewrite Hc5, Hc4|by apply (evolves_eq t2 t4)].
Qed.

(** [HandleHttpResponse], if it returns. *)
Lemma handle_response_inv (x : forward_io) (rc : RecvContext) (t t' : NetThread) (Q : list nat) (W : nat) (wc : Conn)
    (outs : list (nat * bytes)) :
  base_inv Q t -> owed_ok nobody t Q -> conns t !! W = Some wc -> conn_type wc = kConnectTo ->
  rc_tcp_connection_uid rc = Z.of_nat W -> HandleHttpResponse x rc t = Ok (t', outs) ->
  step_ok t t' /\ leaves_to_client t W outs.
Proof.
  intros Hb Ho HW Hty Huid E. destruct (ow_entry _ _ _ Ho W wc HW Hty) as (C & p & He & Hp & Hcl); [tauto|].
  apply elem_of_Permutation in Hp as [Qr Hp]. pose proof (owed_take t Q Qr W C p wc Hb Ho HW Hty He Hp) as Ho0.
  unfold HandleHttpResponse in E. apply bind_Ok in E as (_ & _ & E). rewrite Huid, Nat2Z.id in E. unfold conn_map_at in E.
  pose proof He as He'. unfold entry in He'. rewrite He' in E. apply bind_Ok in E as (o & Eg & E). destruct o as [cc|].
  - rewrite He' in E. destruct (thread_get t Q W wc Hb HW) as [_ Egw]. rewrite Egw in E. cbn [mbind res_bind] in E.
    apply bind_Ok in E as (t1 & E1 & E). apply bind_Ok in E as ([[d t2] out] & E2 & E). apply bind_Ok in E as (t4 & E4 & E).
    apply bind_Ok in E as (t5 & E5 & E). cbn [option_list fmap list_fmap] in E. injection E as <- <-.
    assert (base_inv (p :: Qr) t) as Hb0 by (eapply base_drop; [done|by rewrite Hp]).
    destruct (fill_and_send _ _ _ _ _ _ _ _ _ _ _ Hb0 Ho0 E1 E2) as (Hb2 & Ho2 & Hd2 & Hev2 & Hdom & s & a & Hmp).
    destruct Hcl as (s' & a' & v' & Hmp' & Hlive). rewrite Hmp in Hmp'. injection Hmp' as <- <- <-.
    destruct (Hlive eq_refl) as (cc1 & HC & Hk). injection Hk as Ha Hac.
    assert (Hold : forall v c, conns t2 !! v = Some c -> exists c0, conns t !! v = Some c0 /\ conn_type c = conn_type c0).
    { intros v c Hv. destruct (ev_old _ _ Hev2 v c Hv) as [(c0 & Hv0 & [= _ Hk0])|[Hn0 _]]; [by exists c0|].
      apply elem_of_dom_2 in Hv. rewrite Hdom in Hv. apply elem_of_dom in Hv as [? ?]. congruence. }
    assert (exists wc2, conns t2 !! W = Some wc2) as (wc2 & HW2) by (apply elem_of_dom; rewrite Hdom; by eapply elem_of_dom_2).
    destruct (finish_response t2 t4 t5 Qr W C p wc2 d _ Hb2 Ho2 HW2 ltac:(intros v c Hv ? ->; destruct (Hold C c Hv) as (? & ? & ?); congruence) E4 E5)
      as (Hb5 & Ho5 & Hd5 & Hc5 & Hev5). split; [split; [by exists Qr|..]|].
    + intros v c c' Hv Hv' _ Htv. unfold entry. rewrite Hd5, lookup_delete_ne, Hd2 by congruence. split; [|done].
      rewrite Hc5 in Hv'. apply lookup_delete_Some in Hv' as [_ Hv']. destruct (Hold v c' Hv') as (? & ? & ?). congruence.
    + intros r rs ra rv Hr. destruct (metas_evolve _ _ _ _ _ _ Hev2 Hr) as [v2 Hr2]. by eapply metas_evolve.
    + intros q o [= -> ->]%list_elem_of_singleton. exists C, cc1, s. by rewrite Ha.
  - set (t1 := set_conn_map t _) in E. apply bind_Ok in E as (t2 & E2 & E). injection E as <- <-.
    pose proof (GetConnection_None t Q C Hb Eg) as HC.
    assert (Hen : forall v c, conns t !! v = Some c -> entry t1 v = entry t v).
    { intros v c Hv. unfold entry, t1. cbn. rewrite lookup_delete_ne; [done|]. congruence. }
    destruct (owed_del t1 t2 Qr W wc) as (Hb2 & Ho2 & Hd2 & Hc2 & He2); [|done| |done|].
    + apply set_map_inv. eapply base_drop; [done|]. rewrite Hp. by apply submseteq_cons.
    + eapply (owed_keep _ t); [exact Hb|by rewrite Hp; set_solver|done|apply map_evolves|]. intros v c Hv _. by eapply Hen.
    + split; [|by intros ? ? ?%elem_of_nil]. split; [by exists Qr| |intros; by eapply metas_evolve; [exact He2|]].
      intros v c c' Hv Hv' _ Hty'. rewrite Hc2 in Hv'. apply lookup_delete_Some in Hv' as [_ Hv'].
      change (conns t1) with (conns t) in Hv'. unfold entry at 1. rewrite Hd2. split; [congruence|]. by apply (Hen v c).
Qed.

(** Whatever connection is deleted. *)
Lemma owed_del_any (t t' : NetThread) (Q : list nat) (u : nat) (c : Conn) :
  base_inv Q t -> conns t !! u = Some c -> owed_ok nobody t Q -> thread_DelConnection t u = Ok t' ->
  base_inv Q t' /\ owed_ok nobody t' Q /\ derived_ t' = derived_ t /\ conns t' = delete u (conns t) /\ evolves t t'.
Proof.
  intros Hb Hu Ho E. destruct (base_del t Q u c Hb Hu) as (t1 & E1 & Hb1 & Hc1 & Hm1 & Hd1 & _).
  assert (t1 = t') as -> by congruence. assert (evolves t t') as Hev by by eapply evolves_del. split_and!; try done.
  eapply owed_keep; [exact Hb|done|done|done|]. intros v d _ _. unfold entry. by rewrite Hd1.
Qed.

Lemma make_send_meta (L : gmap nat Conn) (Q : list nat) (c c' : Conn) (m m' : memory) (p r : nat) (y : Z * nat * bool) :
  ctx_inv L m Q -> MakeSendContext c m = (p, c', m') -> meta_of m r = Some y -> meta_of m' r = Some y.
Proof.
  intros Hi E Hr. pose proof (ctx_inv_fresh _ _ _ Hi) as Hn. unfold MakeSendContext, alloc in E. injection E as <- <- <-.
  assert (r <> next_ m) by congruence. unfold meta_of, set_ctx. cbn [ctxs_]. by rewrite lookup_insert_ne.
Qed.

(** A connection to a web server and the packet with the request are made, and
    the client to answer is remembered. *)
Lemma forward_inv (x : forward_io) (t t1 t2 : NetThread) (Q : list nat) (C p W q : nat) (cc : Conn) (s : Z)
    (host : LoadBalancer.WebServerProfile) :
  base_inv (p :: Q) t -> owed_ok nobody t Q -> conns t !! C = Some cc -> conn_type cc = kAcceptFrom ->
  meta_of (memory_ t) p = Some (s, this_ cc, true) ->
  0 < fw_fd x -> can_add t (fw_fd x) -> Z.of_nat (next_ (memory_ t)) + 2 < 2 ^ 32 ->
  MakeConnection config_methods (fw_inet_addr x) t (LoadBalancer.ip host) (LoadBalancer.port host)
    (fw_now x) (fw_fd x) (fw_connects x) = Ok (Some W, t1) -> conn_MakeSendContext t1 W = Ok (q, t2) ->
  let t3 := set_conn_map t2 (<[W := (C, Some p)]> (conn_map_ (derived_ t2))) in
  base_inv (q :: p :: Q) t3 /\ owed_ok nobody t3 (p :: Q) /\ conns t !! W = None /\ derived_ t2 = derived_ t /\
  (forall r y, meta_of (memory_ t) r = Some y -> meta_of (memory_ t3) r = Some y) /\
  exists wc, conns t3 = <[W := wc]> (conns t) /\ conn_type wc = kConnectTo.
Proof.
  intros Hb Ho HC Hty Hp Hfd Hadd Hlt E1 E2.
  destruct (base_make config_methods proxy_config_law t (p :: Q) (fw_inet_addr x) (LoadBalancer.ip host) (LoadBalancer.port host)
    (fw_now x) (fw_fd x) (fw_connects x) Hb Hfd Hadd) as (o & t1' & E1' & Hb1 & (Hd1 & _) & Hm1 & _ & Hcase).
  rewrite E1 in E1'. injection E1' as <- <-.
  destruct Hcase as (c0 & c & Hnone & Hc1 & _ & _ & _ & (_ & _ & Htype & _) & Hcfg).
  assert (conn_type c = kConnectTo) as Htc.
  { cbn [ServerBase.ConfigApplicationLayer config_methods] in Hcfg. unfold ConfigApplicationLayer in Hcfg. cbn [SetUid conn_type] in Hcfg.
    rewrite Htype in Hcfg. unfold TcpConnection.ConfigApplicationLayer in Hcfg. destruct (_ && _); [done|]. by injection Hcfg as <-. }
  assert (Hmeta1 : forall r, meta_of (memory_ t1) r = meta_of (memory_ t) r) by (intros r; by rewrite Hm1).
  pose proof (owed_new t t1 Q W c Ho Hnone Hc1 Hmeta1 Hd1) as Ho1.
  assert (conns t1 !! W = Some c) as HW1 by by rewrite Hc1, lookup_insert_eq.
  destruct (base_conn_make t1 (p :: Q) W c Hb1 HW1) as (t2' & c2 & m & Em & E2' & Hb2 & Hc2 & Hm2 & (Hd2 & _));
    [rewrite Hm1; cbn; lia|]. rewrite E2 in E2'. injection E2' as -> <-.
  assert (kind c2 = kind c) as Hk by (unfold MakeSendContext, alloc in Em; by injection Em as <- <-).
  assert (Hmeta2 : forall r y, meta_of (memory_ t1) r = Some y -> meta_of (memory_ t2) r = Some y).
  { intros r y Hr. rewrite Hm2. eapply make_send_meta; [apply Hb1|done|done]. }
  assert (owed_ok (fun v => v = W) t2 Q) as Ho2.
  { eapply (owed_keep _ t1); [exact Hb1|set_solver|done|by eapply evolves_put|]. intros v d _ _. unfold entry. by rewrite Hd2. }
  assert (conns t2 = <[W := c2]> (conns t)) as Hc2' by by rewrite Hc2, Hc1, insert_insert_eq.
  intros t3. split_and!; [by apply set_map_inv| |done|congruence| |].
  - apply owed_insert; [done| |].
    + pose proof (ci_nodup _ _ _ (bi_ctx _ _ Hb)) as [? _]%NoDup_cons. done.
    + exists s, (this_ cc), true. split; [apply Hmeta2; by rewrite Hmeta1|]. intros _. exists cc.
      rewrite Hc2', lookup_insert_ne by congruence. by rewrite <- Hty.
  - intros r y Hr. apply Hmeta2. by rewrite Hmeta1.
  - exists c2. split; [done|]. unfold kind in Hk. congruence.
Qed.

(** A connection to a web server is made and has its entry. *)
Lemma forward_step (t t3 t5 : NetThread) (Q : list nat) (C p W : nat) (wc : Conn) :
  conns t !! W = None -> conns t3 = <[W := wc]> (conns t) -> conn_type wc = kConnectTo ->
  conn_map_ (derived_ t3) = <[W := (C, Some p)]> (conn_map_ (derived_ t)) ->
  (forall r y, meta_of (memory_ t) r = Some y -> meta_of (memory_ t3) r = Some y) ->
  base_inv Q t5 -> owed_ok nobody t5 Q -> derived_ t5 = derived_ t3 -> evolves t3 t5 -> dom (conns t5) = dom (conns t3) ->
  step_ok t t5 /\ forwards_for t t5 C p.
Proof.
  intros HW Hc3 Htw Hmap Hm3 Hb5 Ho5 Hd5 Hev Hdom.
  assert (Hold : forall v c', conns t5 !! v = Some c' -> exists c, <[W := wc]> (conns t) !! v = Some c /\ conn_type c' = conn_type c).
  { intros v c' Hv. destruct (ev_old _ _ Hev v c' Hv) as [(c & Hc & Hk)|[Hn _]].
    - exists c. rewrite <- Hc3. split; [done|]. unfold kind in Hk. congruence.
    - apply elem_of_dom_2 in Hv. rewrite Hdom in Hv. apply elem_of_dom in Hv as [? ?]. congruence. }
  assert (Hen : forall v, entry t5 v = (<[W := (C, Some p)]> (conn_map_ (derived_ t)) : gmap _ _) !! v)
    by (intros v; unfold entry; by rewrite Hd5, Hmap). split; [split|].
  - by exists Q.
  - intros v c c' Hv Hv' _ Hty. destruct (Hold v c' Hv') as (c1 & Hc1 & Ht1). assert (v <> W) as Hne by congruence.
    rewrite lookup_insert_ne in Hc1 by done. rewrite Hen, lookup_insert_ne by done. split; [congruence|done].
  - intros r rs ra rv Hr. eapply metas_evolve; [done|]. by apply Hm3.
  - intros v c' Hv Hv'. destruct (Hold v c' Hv') as (c1 & Hc1 & Ht1). rewrite Hen.
    apply lookup_insert_Some in Hc1 as [[<- <-]|[Hne Hc1]]; [by rewrite lookup_insert_eq, Ht1|congruence].
Qed.

(** [HandleHttpRequest], if it returns. *)
Lemma handle_request_inv (PH : bytes -> option Z * Z) (x : forward_io) (rc : RecvContext) (t t' : NetThread) (Q : list nat)
    (C p : nat) (cc : Conn) (s : Z) (d : bool) (outs : list (nat * bytes)) :
  base_inv (p :: Q) t -> owed_ok nobody t Q -> conns t !! C = Some cc -> conn_type cc = kAcceptFrom ->
  meta_of (memory_ t) p = Some (s, this_ cc, true) ->
  0 < fw_fd x -> can_add t (fw_fd x) -> Z.of_nat (next_ (memory_ t)) + 2 < 2 ^ 32 ->
  rc_tcp_connection_uid rc = Z.of_nat C -> rc_return_packet rc = Some p ->
  HandleHttpRequest PH x rc t = Ok (d, t', outs) -> step_ok t t' /\ forwards_for t t' C p.
Proof.
  intros Hb Ho HC Hty Hp Hfd Hadd Hlt Huid Hret E. unfold HandleHttpRequest in E. apply bind_Ok in E as (_ & _ & E).
  rewrite Huid, Nat2Z.id in E. apply bind_Ok in E as (c0 & _ & E). apply bind_Ok in E as (body & _ & E).
  apply bind_Ok in E as ([heart b] & _ & E). set (t0 := set_balancer t b) in E.
  assert (Hsame : forall b', base_inv (p :: Q) (set_balancer t b') /\ owed_ok nobody (set_balancer t b') Q).
  { intros b'. split; [destruct Hb; by split|]. by eapply (owed_keep _ t); [exact Hb|set_solver|done|by apply evolves_same|]. }
  assert (Hdrop : forall t1, base_inv (p :: Q) t1 -> base_inv Q t1) by (intros t1 H1; eapply base_drop; [done|by apply submseteq_cons]).
  destruct heart.
  - apply bind_Ok in E as (t1 & E1 & E). injection E as <- <- <-. destruct (Hsame b) as [Hb0 Ho0].
    destruct (owed_del_any t0 t1 Q C cc (Hdrop _ Hb0) HC Ho0 E1) as (Hb1 & Ho1 & Hd1 & Hc1 & Hev1). split.
    + eapply evolves_step; [|by rewrite Hd1|done|done]. by apply (evolves_eq t t0).
    + intros W wc HW. rewrite Hc1. intros [_ HW']%lookup_delete_Some. change (conns t0) with (conns t) in HW'. congruence.
  - apply bind_Ok in E as ([fh b1] & _ & E). destruct (Hsame b1) as [Hb0 Ho0]. destruct fh as [i|].
    + apply bind_Ok in E as (host & _ & E). apply bind_Ok in E as ([[W|] t1] & E1 & E); [|done].
      apply bind_Ok in E as ([q t2] & E2 & E). rewrite Hret in E. set (t3 := set_conn_map t2 _) in E.
      apply bind_Ok in E as (hc & _ & E). apply bind_Ok in E as (t4 & E4 & E). apply bind_Ok in E as ([[d5 t5] out] & E5 & E).
      injection E as <- <- <-.
      destruct (forward_inv x (set_balancer t b1) t1 t2 Q C p W q cc s host) as (Hb3 & Ho3 & HW & Hd3 & Hm3 & wc & Hc3 & Htw);
        try done. fold t3 in Hb3, Ho3, Hm3, Hc3. change (conns (set_balancer t b1)) with (conns t) in *.
      destruct (fill_and_send _ t3 t4 t5 (p :: Q) q _ _ _ _ _ Hb3 Ho3 E4 E5) as (Hb5 & Ho5 & Hd5 & Hev5 & Hdom & _).
      by eapply (forward_step t t3 t5 (p :: Q) C p W wc); try done; unfold t3; cbn; rewrite Hd3.
    + apply bind_Ok in E as ([t1 outs1] & E1 & E). injection E as <- <- <-. unfold HandleForwardFailed in E1. rewrite Hret in E1.
      apply bind_Ok in E1 as (t2 & E2 & E1). apply bind_Ok in E1 as ([[d3 t3] out] & E3 & E1). injection E1 as <- <-.
      destruct (fill_and_send _ _ _ _ Q p _ _ _ _ _ Hb0 Ho0 E2 E3) as (Hb3 & Ho3 & Hd3 & Hev3 & Hdom & _).
      assert (evolves t t3) as Hev by by apply (evolves_eq t (set_balancer t b1)). split; [by eapply evolves_step; [done|rewrite Hd3|..]|].
      intros W wc HW HW'. apply elem_of_dom_2 in HW'. rewrite Hdom in HW'. apply elem_of_dom in HW' as [c HW'].
      change (conns (set_balancer t b1)) with (conns t) in HW'. congruence.
Qed.

(** *** Read events *)

Lemma receive_turn_keeps (c c' : Conn) (r : UnixSocket.read_result) (o : option Z) :
  receive_turn c r = Ok (o, c') -> same_links c c' /\ conn_type c' = conn_type c.
Proof.
  unfold receive_turn. intros E. apply bind_Ok in E as ([[[n full] s] b] & _ & E).
  destruct (UnixSocket.IsEAgain s); [by injection E as <- <-|]. destruct (n <? 0); [by injection E as <- <-|].
  destruct (n =? 0); [by injection E as <- <-|]. apply bind_Ok in E as ([ret c1] & Ep & E).
  assert (same_links c c1 /\ conn_type c1 = conn_type c) as Hc1.
  { unfold ParseProtocol in Ep. destruct (parser_ (set_input c s b)); [|by injection Ep as <- <-]. apply bind_Ok in Ep as ([z q] & _ & Ep).
    by injection Ep as <- <-. }
  destruct (_ || _); [by injection E as <- <-|]. apply bind_Ok in E as (d & _ & E). by injection E as <- <-.
Qed.

Lemma Receive_keeps (reads : list UnixSocket.read_result) (c c' : Conn) (ret : Z) :
  Receive c reads = Ok (ret, c') -> same_links c c' /\ conn_type c' = conn_type c.
Proof.
  revert c. induction reads as [|r reads IH]; intros c E; cbn [Receive] in E; apply bind_Ok in E as ([o c1] & E1 & E);
    apply receive_turn_keeps in E1; destruct o as [z|]; try done; try by injection E as <- <-.
  destruct E1 as [(L1 & L2 & L3 & L4) Ht]. destruct (IH c1 E) as [(M1 & M2 & M3 & M4) Ht']. split; [split_and!|]; congruence.
Qed.

(** The connection is stored, with a new packet to answer with. *)
Lemma handed_packet (t : NetThread) (Q : list nat) (u q : nat) (c c1 c2 : Conn) (m : memory) (rc : RecvContext) :
  base_inv Q t -> conns t !! u = Some c -> Z.of_nat (next_ (memory_ t)) < 2 ^ 32 ->
  same_links c c1 -> conn_Uid c1 = conn_Uid c -> conn_FD c1 = conn_FD c -> conn_type c1 = conn_type c ->
  MakeSendContext c1 (memory_ t) = (q, c2, m) -> rc_tcp_connection_uid rc = Z.of_nat u -> rc_type rc = conn_type c ->
  rc_return_packet rc = Some q ->
  exists tm, put_conn (set_memory t m) u c2 = Ok tm /\ handed t tm Q u c rc.
Proof.
  intros [Hm Hi] Hu Hlt Hl Hid Hfd Hty Em Hru Hrt Hr.
  pose proof (ctx_inv_links _ _ _ u c c1 Hi Hu Hl) as Hi1. pose proof (lookup_insert_eq (conns t) u c1) as Hu1.
  pose proof (MakeSendContext_inv _ _ _ _ u q c1 c2 Hi1 Hu1 Em Hlt) as Hi2. rewrite insert_insert_eq in Hi2.
  destruct (MakeSendContext_spec c1 c2 (memory_ t) m q Em (ci_conn _ _ _ Hi1 u c1 Hu1) (ctx_inv_fresh _ _ _ Hi) Hlt)
    as (_ & Hn & Hmq & _ & Ht & _).
  pose proof Em as Em'. unfold MakeSendContext, alloc in Em'. injection Em' as _ Ec2 _. destruct Hl as (Ht1 & _).
  destruct (base_put t Q (q :: Q) u c c2 m Hm Hu) as (tm & E & Hb & Hc & Hmm & (Hd & _)); [by rewrite <- Ec2|by rewrite <- Ec2|done|].
  exists tm. split; [done|]. split; rewrite ?Hmm; try done.
  - by rewrite Hr.
  - exists c2. split; [done|]. rewrite <- Ec2. unfold kind. cbn. split; [congruence|exact Hfd].
  - intros p y. by eapply make_send_meta.
  - lia.
  - rewrite Hr. intros p [= <-]. rewrite Hmq, Ht1. by eexists.
Qed.

(** [MakeRecvContext] leaves the type of the connection, and tells it. *)
Lemma MakeRecvContext_type (c : Conn) (m : memory) (b : bool) :
  let '(rc, c', _) := MakeRecvContext c m b in rc_type rc = conn_type c /\ conn_type c' = conn_type c.
Proof.
  unfold MakeRecvContext. set (c1 := match parser_ c with Some p => _ | None => c end).
  assert (conn_type c1 = conn_type c) as Hc.
  { unfold c1. destruct (parser_ c) as [p|]; [|done]. destruct (is_longlink_app_proto_ c); [|done].
    by destruct (parser_Reset p (tcp_byte_arr_ c)). }
  destruct b; [|done]. destruct (MakeSendContext c1 m) as [[p c'] m'] eqn:E. split; [done|].
  unfold MakeSendContext, alloc in E. by injection E as <- <- <-.
Qed.

Lemma links_trans (c1 c2 c3 : Conn) : same_links c1 c2 -> same_links c2 c3 -> same_links c1 c3.
Proof. intros (? & ? & ? & ?) (? & ? & ? & ?). split_and!; congruence. Qed.

(** Once the packet of a connection is complete, it is handed over. *)
Lemma parsed_handed (t : NetThread) (Q : list nat) (u : nat) (c : Conn) :
  base_inv Q t -> conns t !! u = Some c -> Z.of_nat (next_ (memory_ t)) < 2 ^ 32 ->
  exists rc tm, handed t tm Q u c rc /\
    forall vm : NetThreadMethods proxy_parser proxy_thread,
      ServerBase.UpgradeApplicationProtocol vm = EventLoop.base_UpgradeApplicationProtocol ->
      on_parsed vm t u c = ServerBase.HandleApplicationPacket vm rc tm.
Proof.
  intros Hb Hu Hlt. unfold on_parsed.
  assert (conn_Uid c = Z.of_nat u) as Huid by (apply (mi_uid _ (bi_mgr _ _ Hb)); by apply live_lookup_Some).
  pose proof (MakeRecvContext_type c (memory_ t) false) as Hty2.
  destruct (MakeRecvContext_spec c (memory_ t) false) as (c2 & Hl2 & Hid2 & Hfd2 & Hrc).
  destruct (MakeRecvContext c (memory_ t) false) as [[rc c2'] m2]. destruct Hrc as (Hru & -> & -> & Hret), Hty2 as [Hrt2 Hty2].
  destruct (IsUpgradeApplicationProtocol c).
  - rewrite andb_false_r. pose proof (MakeRecvContext_type c2 (memory_ t) true) as Hty4.
    destruct (MakeRecvContext_spec c2 (memory_ t) true) as (c4 & Hl4 & Hid4 & Hfd4 & Hrc).
    destruct (MakeRecvContext c2 (memory_ t) true) as [[rc4 c4'] m4] eqn:E4. destruct Hrc as (Hru4 & q & Em & Hr4), Hty4 as [Hrt4 Hty4].
    assert (conn_type c4 = conn_type c4') as Hty5 by (unfold MakeSendContext, alloc in Em; by injection Em as <- <- <-).
    destruct (handed_packet t Q u q c c4 c4' m4 rc4) as (tm & E & Hh); try done; try congruence.
    + by eapply links_trans.
    + rewrite Hru4. change (uid_ c2) with (conn_Uid c2). congruence.
    + exists rc4, tm. split; [done|]. intros vm Hvm. rewrite Hvm. cbn [EventLoop.base_UpgradeApplicationProtocol mbind res_bind].
      rewrite E4. cbn [mbind res_bind]. by rewrite E.
  - rewrite andb_true_r. destruct (bool_decide_reflect (conn_type c2 = kAcceptFrom)) as [Ha|Ha].
    + destruct (MakeSendContext c2 (memory_ t)) as [[q c4] m4] eqn:Em.
      destruct (handed_packet t Q u q c c2 c4 m4 (set_return_packet rc q)) as (tm & E & Hh); try done.
      * cbn. by rewrite Hru.
      * exists (set_return_packet rc q), tm. split; [done|]. intros vm _. cbn [mbind res_bind]. by rewrite E.
    + destruct (base_put t Q Q u c c2 (memory_ t) (bi_mgr _ _ Hb) Hu Hid2 Hfd2) as (tm & E & Hb2 & Hc2 & Hm2 & (Hd2 & _)).
      { eapply ctx_inv_links; [apply Hb|done|done]. }
      exists rc, tm. split; [|intros vm _; cbn [mbind res_bind]; by rewrite E]. split; rewrite ?Hm2, ?Hret; try done.
      * exists c2. split; [done|]. split; [unfold kind; destruct Hl2; congruence|done].
      * lia.
      * by rewrite Hru.
      * congruence.
Qed.

Lemma handed_put (t t1 tm : NetThread) (Q : list nat) (u : nat) (c c1 : Conn) (rc : RecvContext) :
  conns t1 = <[u := c1]> (conns t) -> memory_ t1 = memory_ t -> derived_ t1 = derived_ t -> kind c1 = kind c ->
  conn_FD c1 = conn_FD c -> handed t1 tm Q u c1 rc -> handed t tm Q u c rc.
Proof.
  intros Hc Hm Hd Hk Hfd [H1 (c' & H2 & H2' & H2'') H3 H4 H5 H6 H7 H8 H9]. rewrite ?Hm in *. injection Hk as Ht Hty.
  split; rewrite <- ?Ht, <- ?Hty; try done; try congruence. exists c'. rewrite H2, Hc, insert_insert_eq. split; [done|]. unfold kind in *. split; congruence.
Qed.

(** What a read event does: it hands a packet over, or the connection has received
    something, or is deleted. *)
Lemma read_cases (t : NetThread) (Q : list nat) (u : nat) (c : Conn) (reads : list UnixSocket.read_result) :
  base_inv Q t -> conns t !! u = Some c -> Z.of_nat (next_ (memory_ t)) < 2 ^ 32 ->
  (exists rc tm, hands_over t u reads rc tm /\ handed t tm Q u c rc) \/
  (exists r, (forall vm : NetThreadMethods proxy_parser proxy_thread, __OnReadEvent vm t u reads = r) /\
     forall d t', r = Ok (d, t') -> base_inv Q t' /\ evolves t t' /\ derived_ t' = derived_ t).
Proof.
  intros Hb Hu Hlt. unfold hands_over, __OnReadEvent, vec_get. pose proof Hu as Hu'. apply live_lookup_Some in Hu' as ->.
  cbn [mbind res_bind]. destruct (Receive c reads) as [[ret c1]|f] eqn:Er; cbn [mbind res_bind]; [|right; by exists (Fault f)].
  destruct (Receive_same reads c c1 ret Er) as [Hid Hfd]. destruct (Receive_keeps reads c c1 ret Er) as [Hl Hty].
  destruct (base_put t Q Q u c c1 (memory_ t) (bi_mgr _ _ Hb) Hu Hid Hfd) as (t1 & E & Hb1 & Hc1 & Hm1 & (Hd1 & _)).
  { eapply ctx_inv_links; [apply Hb|done|done]. }
  replace (set_memory t (memory_ t)) with t in E by by destruct t. rewrite E. cbn [mbind res_bind].
  assert (kind c1 = kind c) as Hk by (unfold kind; destruct Hl; congruence).
  assert (conns t1 !! u = Some c1) as Hu1 by by rewrite Hc1, lookup_insert_eq.
  assert (forall d t', (t2 ← thread_DelConnection t1 u; Ok (true, t2)) = Ok (d, t') ->
            base_inv Q t' /\ evolves t t' /\ derived_ t' = derived_ t) as Hdel.
  { intros d t' E2. destruct (base_del t1 Q u c1 Hb1 Hu1) as (t2 & E3 & Hb2 & Hc2 & Hm2 & (Hd2 & _)). rewrite E3 in E2.
    injection E2 as <- <-. rewrite Hc1, delete_insert_eq in Hc2. split_and!; [done| |congruence].
    eapply evolves_del; [exact Hu|done|]. rewrite Hm2, Hm1. unfold destroy. destruct Hl as (_ & _ & -> & _). done. }
  destruct (ret <? 0); [right; by eexists|]. destruct (has_received_Fin_ c1); [right; by eexists|].
  destruct (IsParseDone c1) as [[]|f]; cbn [mbind res_bind]; [left|right; eexists; split; [done|]; intros d t' [= <- <-]|right; by exists (Fault f)].
  - destruct (parsed_handed t1 Q u c1 Hb1 Hu1) as (rc & tm & Hh & Hv); [by rewrite Hm1|]. exists rc, tm. split; [exact Hv|].
    by eapply handed_put.
  - split_and!; [done| |done]. eapply evolves_put; [done|done|done|]. by rewrite Hm1.
Qed.

(** From the state before a packet is handed over to the one in which it is handled. *)
Lemma handed_evolves (t tm : NetThread) (Q : list nat) (u : nat) (c : Conn) (rc : RecvContext) :
  base_inv Q t -> owed_ok nobody t Q -> conns t !! u = Some c -> handed t tm Q u c rc ->
  evolves t tm /\ base_inv Q tm /\ owed_ok nobody tm Q /\ dom (conns tm) = dom (conns t) /\
  exists cm, conns tm !! u = Some cm /\ kind cm = kind c.
Proof.
  intros Hb Ho Hu [H1 (c' & H2 & Hk & _) H3 H4 _ _ _ _ _]. assert (evolves t tm) as Hev by by eapply evolves_put.
  split_and!; [done| | | |].
  - eapply base_drop; [done|]. apply submseteq_inserts_l. done.
  - eapply (owed_keep _ t); [exact Hb|done|done|done|]. intros v d _ _. unfold entry. by rewrite H3.
  - rewrite H2. by apply dom_insert_lookup_L.
  - exists c'. by rewrite H2, lookup_insert_eq.
Qed.

Lemma handed_step (t tm t' : NetThread) (Q : list nat) (u : nat) (c : Conn) (rc : RecvContext) :
  conns t !! u = Some c -> handed t tm Q u c rc -> step_ok tm t' -> step_ok t t'.
Proof.
  intros Hu [_ (c' & H2 & Hk & _) H3 H4 _ _ _ _ _] [S1 S2 S3]. split; [done| |].
  - intros W wc wc' HW HW' Ht Hty. replace (entry t W) with (entry tm W) by (unfold entry; by rewrite H3).
    destruct (decide (W = u)) as [->|Hne].
    + assert (wc = c) as -> by congruence. injection Hk as Hkt Hkty.
      apply (S2 u c' wc'); [by rewrite H2, lookup_insert_eq|done|congruence|congruence].
    + apply (S2 W wc wc'); try done. by rewrite H2, lookup_insert_ne.
  - intros p s a v Hp. eapply S3. by apply H4.
Qed.

Lemma handed_system (x : forward_io) (t tm : NetThread) (Q : list nat) (u : nat) (c : Conn) (rc : RecvContext) :
  conns t !! u = Some c -> handed t tm Q u c rc -> system_ok x t ->
  can_add tm (fw_fd x) /\ Z.of_nat (next_ (memory_ tm)) + 2 < 2 ^ 32.
Proof.
  intros Hu [_ (c' & H2 & _ & Hfd) _ _ H5 _ _ _ _] [_ [A1 A2] A3]. split; [|lia]. unfold can_add. rewrite H2. split.
  - by rewrite map_size_insert_Some.
  - intros v d [[<- <-]|[_ Hv]]%lookup_insert_Some; [rewrite Hfd|]; by eapply A2.
Qed.

(** [HandleApplicationPacket], if it returns: what it sends of a response is for
    the client whose request was forwarded, and connections are made to web servers
    for the client whose packet it is. *)
Lemma handle_packet_inv (PH : bytes -> option Z * Z) (x : forward_io) (rc : RecvContext) (t tm t' : NetThread) (Q : list nat)
    (u : nat) (c : Conn) (d : bool) (outs : list (nat * bytes)) :
  base_inv Q t -> owed_ok nobody t Q -> conns t !! u = Some c -> system_ok x t -> handed t tm Q u c rc ->
  HandleApplicationPacket PH x rc tm = Ok (d, t', outs) ->
  step_ok t t' /\ (conn_type c = kConnectTo -> leaves_to_client tm u outs) /\
  (conn_type c = kAcceptFrom -> exists p s v, meta_of (memory_ t') p = Some (s, this_ c, v) /\ forwards_for t t' u p).
Proof.
  intros Hb Ho Hu Hsys Hh E. destruct (handed_evolves _ _ _ _ _ _ Hb Ho Hu Hh) as (Hev & Hbm & Hom & Hdom & cm & Hum & Hk).
  destruct (handed_system _ _ _ _ _ _ _ Hu Hh Hsys) as [Hadd Hnext]. pose proof Hk as [= Hkt Hkty].
  assert (Hnone : forall p, dom (conns t') ⊆ dom (conns t) -> forwards_for t t' u p).
  { intros p Hsub W wc HW HW'. apply elem_of_dom_2, Hsub, elem_of_dom in HW' as [? ?]. congruence. }
  assert (Hans : conn_type c = kAcceptFrom -> exists p s, rc_return_packet rc = Some p /\ meta_of (memory_ tm) p = Some (s, this_ c, true)).
  { intros Ha. destruct (ha_answer _ _ _ _ _ _ Hh Ha) as [p Hp]. destruct (ha_return _ _ _ _ _ _ Hh p Hp) as [s Hs]. eauto. }
  assert (Hquiet : dom (conns t') ⊆ dom (conns t) -> outs = [] -> step_ok tm t' ->
    step_ok t t' /\ (conn_type c = kConnectTo -> leaves_to_client tm u outs) /\
    (conn_type c = kAcceptFrom -> exists p s v, meta_of (memory_ t') p = Some (s, this_ c, v) /\ forwards_for t t' u p)).
  { intros Hsub -> Hst. split_and!; [by eapply handed_step|by intros _ q o ?%elem_of_nil|].
    intros Ha. destruct (Hans Ha) as (p & s & _ & Hp). destruct (so_metas _ _ Hst p _ _ _ Hp) as [v Hv]. exists p, s, v. split; [done|by apply Hnone]. }
  assert (Hdel : forall t1, thread_DelConnection tm u = Ok t1 -> step_ok tm t1 /\ dom (conns t1) ⊆ dom (conns t)).
  { intros t1 E1. destruct (owed_del_any tm t1 Q u cm Hbm Hum Hom E1) as (Hb1 & Ho1 & Hd1 & Hc1 & Hev1).
    split; [by eapply evolves_step; [done|rewrite Hd1|..]|]. rewrite Hc1, dom_delete_L, Hdom. set_solver. }
  unfold HandleApplicationPacket in E. apply bind_Ok in E as (pk & _ & E). rewrite (ha_uid _ _ _ _ _ _ Hh), Nat2Z.id in E.
  destruct (parser_Protocol pk); try (apply bind_Ok in E as (t1 & E1 & E); injection E as <- <- <-; destruct (Hdel t1 E1); by apply Hquiet).
  - unfold HandleHttpPacket in E. rewrite (ha_type _ _ _ _ _ _ Hh), (ha_uid _ _ _ _ _ _ Hh), Nat2Z.id in E.
    destruct (conn_type c) eqn:Hct.
    + apply bind_Ok in E as (t1 & E1 & E); injection E as <- <- <-; destruct (Hdel t1 E1); by apply Hquiet.
    + destruct (Hans eq_refl) as (p & s & Hret & Hp). pose proof (ha_inv _ _ _ _ _ _ Hh) as Hbi. rewrite Hret in Hbi.
      destruct (handle_request_inv PH x rc tm t' Q u p cm s d outs) as [Hst Hfw]; try done; [congruence|apply Hsys|apply Hh|].
      split_and!; [by eapply handed_step|done|]. intros _. destruct (so_metas _ _ Hst p _ _ _ Hp) as [v Hv].
      exists p, s, v. split; [done|]. intros W wc HW. apply Hfw.
      apply not_elem_of_dom. rewrite Hdom. by apply not_elem_of_dom.
    + apply bind_Ok in E as ([t1 o1] & E1 & E). injection E as <- <- <-.
      destruct (handle_response_inv x rc tm t1 Q u cm o1) as [Hst Hl]; try done; [apply Hh|].
      split_and!; [by eapply handed_step|done|done].
  - unfold HandleWebSocketPacket in E. injection E as <- <- <-. apply Hquiet; [by rewrite Hdom|done|].
    eapply evolves_step; [apply evolves_refl|done|done|done].
Qed.

(** The methods with another handler. *)
Definition handled_by (h : RecvContext -> NetThread -> res (bool * NetThread)) : NetThreadMethods proxy_parser proxy_thread :=
  {| ServerBase.ConfigApplicationLayer := ConfigApplicationLayer;
     ServerBase.UpgradeApplicationProtocol := EventLoop.base_UpgradeApplicationProtocol;
     ServerBase.HandleApplicationPacket := h;
     ServerBase.CheckNotification := EventLoop.base_CheckNotification;
     ServerBase.HandleNotification := EventLoop.base_HandleNotification |}.

(** A packet that is handed over comes with what it takes to answer it. *)
Lemma hands_over_handed (t tm : NetThread) (Q : list nat) (u : nat) (c : Conn) (reads : list UnixSocket.read_result) (rc : RecvContext) :
  base_inv Q t -> conns t !! u = Some c -> Z.of_nat (next_ (memory_ t)) < 2 ^ 32 ->
  hands_over t u reads rc tm -> handed t tm Q u c rc.
Proof.
  intros Hb Hu Hlt Hh. destruct (read_cases t Q u c reads Hb Hu Hlt) as [(rc' & tm' & Hh' & Ha)|(r & Hr & _)].
  - assert (Heq : forall h, h rc tm = h rc' tm' :> res (bool * NetThread)).
    { intros h. etrans; [symmetry; exact (Hh (handled_by h) eq_refl)|exact (Hh' (handled_by h) eq_refl)]. }
    pose proof (Heq (fun _ t => Ok (true, t))) as [= <-].
    assert (Hf : forall f : RecvContext -> bool, f rc = f rc') by (intros f; pose proof (Heq (fun rc t => Ok (f rc, t))) as [=]; done).
    assert (Hg : forall (A : Type) `{EqDecision A} (g : RecvContext -> A), g rc = g rc').
    { intros A HA g. specialize (Hf (fun y => bool_decide (g y = g rc'))). cbn in Hf.
      by rewrite (bool_decide_true (g rc' = _)), bool_decide_eq_true in Hf. }
    pose proof (Hg _ _ rc_return_packet) as E1. pose proof (Hg _ _ rc_type) as E2. pose proof (Hg _ _ rc_tcp_connection_uid) as E3.
    destruct Ha. split; rewrite ?E1, ?E2, ?E3; done.
  - exfalso. pose proof (Hh (handled_by (fun _ t => Ok (true, t))) eq_refl) as E1.
    pose proof (Hh (handled_by (fun _ _ => Fault Undefined)) eq_refl) as E2. rewrite Hr in E1, E2. cbn in E1, E2. congruence.
Qed.

(** *** The events *)

(** A step that leaves the thread as far as its connections go. *)
Lemma keep_step (t t' : NetThread) (Q : list nat) :
  base_inv Q t -> owed_ok nobody t Q -> base_inv Q t' -> evolves t t' -> derived_ t' = derived_ t -> step_ok t t'.
Proof.
  intros Hb Ho Hb' Hev Hd. apply (evolves_step t t' Q); [done|by rewrite Hd|done|].
  eapply (owed_keep _ t); [exact Hb|done|done|done|]. intros v e _ _. unfold entry. by rewrite Hd.
Qed.

Lemma read_step (PH : bytes -> option Z * Z) (x : forward_io) (t t' : NetThread) (u : nat) (reads : list UnixSocket.read_result) (d : bool) :
  proxy_inv t -> system_ok x t -> __OnReadEvent (proxy_methods PH x) t u reads = Ok (d, t') -> step_ok t t'.
Proof.
  intros (Q & Hb & Ho) Hsys E. assert (exists c, conns t !! u = Some c) as [c Hu].
  { unfold __OnReadEvent, vec_get in E. destruct (items (pool_ (connection_manager_ t)) !! u) as [[c|]|] eqn:Hu; try done.
    exists c. by apply live_lookup_Some. }
  pose proof Hsys as [_ _ Hn]. destruct (read_cases t Q u c reads Hb Hu ltac:(lia)) as [(rc & tm & Hh & Ha)|(r & Hr & Hq)].
  - rewrite (Hh (proxy_methods PH x) eq_refl) in E. cbn [ServerBase.HandleApplicationPacket proxy_methods] in E.
    apply bind_Ok in E as ([[d1 t1] outs] & E & E1). injection E1 as <- <-.
    by destruct (handle_packet_inv PH x rc t tm t1 Q u c d1 outs Hb Ho Hu Hsys Ha E).
  - rewrite Hr in E. destruct (Hq d t' E) as (Hb' & Hev & Hd). by eapply keep_step.
Qed.

Lemma write_step (t t' : NetThread) (u : nat) (ws : list UnixSocket.write_result) (now : Z) (outs : list (nat * bytes)) :
  proxy_inv t -> __OnWriteEvent t u ws now = Ok (t', outs) -> step_ok t t' /\ dom (conns t') = dom (conns t) /\ evolves t t'.
Proof.
  intros (Q & Hb & Ho) E. destruct (base_write_any _ _ _ _ _ _ _ Hb E) as (Hb' & Hev & (Hd & _) & Hdom).
  split_and!; [by eapply keep_step|done|done].
Qed.

(** Nothing is deleted in the second of two steps. *)
Lemma step_then (t t1 t2 : NetThread) :
  step_ok t t1 -> step_ok t1 t2 -> dom (conns t2) = dom (conns t1) -> evolves t1 t2 -> step_ok t t2.
Proof.
  intros [_ E1 M1] [I2 E2 M2] Hdom Hev. split; [done| |].
  - intros W wc wc' HW HW' Ht Hty. destruct (ev_old _ _ Hev W wc' HW') as [(c & Hc & Hk)|[Hn _]].
    + injection Hk as Hk1 Hk2. destruct (E1 W wc c HW Hc ltac:(congruence) Hty) as [Hty1 He1].
      destruct (E2 W c wc' Hc HW' ltac:(congruence) Hty1) as [Hty2 He2]. split; [done|congruence].
    + apply elem_of_dom_2 in HW'. rewrite Hdom in HW'. apply elem_of_dom in HW' as [? ?]. congruence.
  - intros p s a v Hp. destruct (M1 p s a v Hp) as [v1 Hp1]. by eapply M2.
Qed.

(** A turn of the loop over the events. *)
Lemma event_step (PH : bytes -> option Z * Z) (t t' : NetThread) (e : SocketEpoll.SocketEpoll) (idx : Z) (x : EventLoop.io forward_io)
    (now : Z) (a : EventLoop.after) (notes : list Z) (outs : list (nat * bytes)) :
  proxy_inv t -> system_ok (EventLoop.io_env x) t ->
  EventLoop.on_event (proxy_methods PH) t e idx x now = Ok (a, t', notes, outs) -> step_ok t t'.
Proof.
  intros Hi Hsys E. pose proof Hi as (Q & Hb & Ho). assert (Hsame : step_ok t t) by by eapply (keep_step t t); [..|apply evolves_refl|].
  unfold EventLoop.on_event in E. apply bind_Ok in E as (dat & _ & E).
  destruct (EventLoop.__IsNotifyStop _).
  { injection E as <- <- <- <-. eapply (keep_step t _ Q); [done|done| |by apply evolves_same|done]. destruct Hb. by split. }
  cbn [ServerBase.CheckNotification proxy_methods EventLoop.base_CheckNotification] in E. apply bind_Ok in E as (err & _ & E).
  destruct (negb (err =? 0)).
  { apply bind_Ok in E as (uid & Ec & E). apply bind_Ok in E as ([z t1] & E1 & E). injection E as <- <- <- <-.
    unfold EventLoop.conn_of in Ec. destruct (conn_at t (Z.to_nat err)) as [[v c]|] eqn:Ea; [|done]. injection Ec as <-.
    unfold __OnErrEvent in E1. apply bind_Ok in E1 as (t2 & E1 & E2). injection E2 as <- <-.
    apply (conn_at_live t Q) in Ea as [Hv _]; [|apply Hb].
    destruct (owed_del_any t t2 Q v c Hb Hv Ho E1) as (Hb2 & Ho2 & Hd2 & _ & Hev2). by eapply keep_step. }
  apply bind_Ok in E as (rd & _ & E). apply bind_Ok in E as ([deleted t1] & E1 & E).
  assert (step_ok t t1) as H1.
  { destruct (negb (rd =? 0)); [|by injection E1 as <- <-]. apply bind_Ok in E1 as (uid & _ & E1). by eapply read_step. }
  destruct deleted; [by injection E as <- <- <- <-|]. apply bind_Ok in E as (wr & _ & E).
  destruct (negb (wr =? 0)); [|by injection E as <- <- <- <-]. apply bind_Ok in E as (uid & _ & E).
  apply bind_Ok in E as ([t2 o2] & E2 & E). injection E as <- <- <- <-.
  destruct (write_step _ _ _ _ _ _ (so_inv _ _ H1) E2) as (H2 & Hdom & Hev). by eapply step_then.
Qed.

Section Runs.
Context (PH : bytes -> option Z * Z).

Lemma step_keeps (t t' : NetThread) : proxy_inv t -> proxy_step PH t t' -> step_ok t t'.
Proof.
  intros Hi Hs. destruct Hs as [e idx x now a notes outs Hsys E|x fd ip port now taken Hfd Hadd E|now ->]; [by eapply event_step|..];
    destruct Hi as (Q & Hb & Ho).
  - destruct (register_evolves _ _ _ _ _ _ _ _ _ _ Hb Hfd Hadd E) as (Hb' & Hev & (Hd & _)). by eapply keep_step.
  - destruct (clear_evolves t Q now Hb) as [Hb' Hev]. by eapply keep_step.
Qed.

Lemma start_inv (mx : Z) (b : LoadBalancer.LoadBalancer) : proxy_inv (proxy_thread_start mx b).
Proof.
  exists []. assert (Hc : forall v, conns (proxy_thread_start mx b) !! v = None) by (intros v; unfold conns, proxy_thread_start; cbn [connection_manager_]; by rewrite live_new).
  split; [apply net_base, new_thread_inv|]. split; intros *; by rewrite Hc.
Qed.

Lemma proxy_run_inv (mx : Z) (b : LoadBalancer.LoadBalancer) (t : NetThread) :
  rtc (proxy_step PH) (proxy_thread_start mx b) t -> proxy_inv t.
Proof.
  intros Hr. pose proof (start_inv mx b) as Hi. induction Hr as [|t1 t2 t3 Hs _ IH]; [done|]. by eapply IH, so_inv, step_keeps.
Qed.

(** As long as a connection to a web server is there, it is the same client that
    waits for its response. *)
Lemma run_with (W C p a ca : nat) (t t' : NetThread) :
  rtc (step_with PH W a) t t' -> proxy_inv t -> alive t W a ->
  (forall wc, conns t !! W = Some wc -> conn_type wc = kConnectTo) -> entry t W = Some (C, Some p) ->
  (exists s v, meta_of (memory_ t) p = Some (s, ca, v)) ->
  proxy_inv t' /\ alive t' W a /\ (forall wc, conns t' !! W = Some wc -> conn_type wc = kConnectTo) /\
  entry t' W = Some (C, Some p) /\ exists s v, meta_of (memory_ t') p = Some (s, ca, v).
Proof.
  intros Hr Hi Ha Hty He Hp. induction Hr as [t|t t1 t2 [Hs Ha1] _ IH]; [done|].
  destruct (step_keeps t t1 Hi Hs) as [Hi1 E1 M1]. destruct Ha as (wc & HW & Hwa), Ha1 as (wc1 & HW1 & Hwa1).
  destruct (E1 W wc wc1 HW HW1 ltac:(congruence) (Hty wc HW)) as [Hty1 He1]. destruct Hp as (s & v & Hp). destruct (M1 p s ca v Hp) as [v1 Hp1].
  apply IH; [done|by exists wc1|intros wc2 HW2; congruence|congruence|eauto].
Qed.

End Runs.

(** ** Properties *)

(** C7: However the events of a proxy's network thread come, each of its connections to web servers has an
    entry in [conn_map_]: the id of a client and the packet to answer it with. The packet is on its way,
    it is the packet of no other connection, and as long as the client is connected the id is its. *)
Theorem proxy_threads_consistent (PH : bytes -> option Z * Z) (mx : Z) (b : LoadBalancer.LoadBalancer) (t : NetThread)
    (Hrun : rtc (proxy_step PH) (proxy_thread_start mx b) t) :
  exists Q, base_inv Q t /\
    (forall W wc, conns t !! W = Some wc -> conn_type wc = kConnectTo ->
       exists C p s a v, conn_map_ (derived_ t) !! W = Some (C, Some p) /\ p ∈ Q /\ meta_of (memory_ t) p = Some (s, a, v) /\
         (v = true -> exists cc, conns t !! C = Some cc /\ this_ cc = a /\ conn_type cc = kAcceptFrom)) /\
    forall W W' wc wc' C C' p, conns t !! W = Some wc -> conns t !! W' = Some wc' ->
      conn_type wc = kConnectTo -> conn_type wc' = kConnectTo ->
      conn_map_ (derived_ t) !! W = Some (C, Some p) -> conn_map_ (derived_ t) !! W' = Some (C', Some p) -> W = W'.
Proof.
  destruct (proxy_run_inv PH mx b t Hrun) as (Q & Hb & [H1 H2]). exists Q. split_and!; [done| |].
  - intros W wc HW Hty. destruct (H1 W wc HW Hty) as (C & p & He & Hp & s & a & v & Hm & Hv); [tauto|].
    exists C, p, s, a, v. split_and!; try done. intros Et. destruct (Hv Et) as (cc & Hcc & Hk). injection Hk as Ha Hc. eauto.
  - intros W W' wc wc' C C' p HW HW' Ht Ht' He He'. by eapply (H2 W W' wc wc' C C' p); try tauto.
Qed.

(** C4: A response never goes to another client. The request of the client [C] is handled and a connection
    [W] is made to a web server; then anything may happen in the thread while [W] is there: clients come
    and go, time out, send requests, get responses. When [W] hands over a packet, all that is sent is sent
    on the connection of the client [C] that made the request: the same connection, not a later one that
    got its id. *)
Theorem proxy_no_crosstalk (PH : bytes -> option Z * Z) (mx : Z) (b : LoadBalancer.LoadBalancer)
    (t0 tm0 t1 t2 tm2 t3 : NetThread) (C W : nat) (cc wc : Conn) (reads0 reads2 : list UnixSocket.read_result)
    (rc0 rc2 : RecvContext) (x0 x2 : forward_io) (d0 d2 : bool) (outs0 outs2 : list (nat * bytes)) (q : nat) (o : bytes)
    (Hrun0 : rtc (proxy_step PH) (proxy_thread_start mx b) t0) (Hsys0 : system_ok x0 t0)
    (HC : conns t0 !! C = Some cc) (Hclient : conn_type cc = kAcceptFrom)
    (Hread0 : hands_over t0 C reads0 rc0 tm0) (Hreq : HandleApplicationPacket PH x0 rc0 tm0 = Ok (d0, t1, outs0))
    (HW0 : conns t0 !! W = None) (HW1 : conns t1 !! W = Some wc)
    (Hrun2 : rtc (step_with PH W (this_ wc)) t1 t2) (Hsys2 : system_ok x2 t2)
    (Hread2 : hands_over t2 W reads2 rc2 tm2) (Hresp : HandleApplicationPacket PH x2 rc2 tm2 = Ok (d2, t3, outs2))
    (Hout : (q, o) ∈ outs2) :
  exists cc2 s, conns tm2 !! C = Some cc2 /\ this_ cc2 = this_ cc /\ conn_type cc2 = kAcceptFrom /\
    meta_of (memory_ tm2) q = Some (s, this_ cc, true).
Proof.
  destruct (proxy_run_inv PH mx b t0 Hrun0) as (Q & Hb & Ho).
  pose proof (hands_over_handed t0 tm0 Q C cc reads0 rc0 Hb HC ltac:(destruct Hsys0; lia) Hread0) as Hh0.
  destruct (handle_packet_inv PH x0 rc0 t0 tm0 t1 Q C cc d0 outs0 Hb Ho HC Hsys0 Hh0 Hreq) as (Hst & _ & Hfw).
  destruct (Hfw Hclient) as (p & s & v & Hp & Hnew). destruct (Hnew W wc HW0 HW1) as [Hty He].
  destruct (run_with PH W C p (this_ wc) (this_ cc) t1 t2 Hrun2 (so_inv _ _ Hst)) as ((Q2 & Hb2 & Ho2) & (wc2 & HW2 & _) & Hty2 & He2 & s2 & v2 & Hp2);
    [by exists wc|intros ? ?; congruence|done|by exists s, v|].
  pose proof (hands_over_handed t2 tm2 Q2 W wc2 reads2 rc2 Hb2 HW2 ltac:(destruct Hsys2; lia) Hread2) as Hh2.
  destruct (handle_packet_inv PH x2 rc2 t2 tm2 t3 Q2 W wc2 d2 outs2 Hb2 Ho2 HW2 Hsys2 Hh2 Hresp) as (_ & Hl & _).
  destruct (Hl (Hty2 wc2 HW2) q o Hout) as (C' & cc2 & s3 & He3 & Hcc2 & Hac & Hm3).
  assert (entry tm2 W = entry t2 W) as Hee by (unfold entry; by rewrite (ha_derived _ _ _ _ _ _ Hh2)).
  assert (C' = C /\ q = p) as [-> ->] by (split; congruence). apply (ha_metas _ _ _ _ _ _ Hh2) in Hp2.
  rewrite Hm3 in Hp2. injection Hp2 as -> Hthis _. exists cc2, s2. split_and!; [done|done|done|]. by rewrite <- Hthis.
Qed.

(** *** A client, a web server, and another client in between *)

Definition demo_heartbeat : bytes -> option Z * Z := fun _ => (None, 0).
Definition demo_get : bytes := str "GET / HTTP/1.1" ++ [13; 10] ++ str "Host: h" ++ [13; 10; 13; 10].
Definition demo_answer : bytes :=
  str "HTTP/1.1 200 OK" ++ [13; 10] ++ str "Content-Length: 2" ++ [13; 10] ++ str "Server: s" ++ [13; 10; 13; 10] ++ str "hi".

(** The state in which the packet that comes with [data] is handled. *)
Definition handed_state (t : NetThread) (u : nat) (data : bytes) : NetThread :=
  match __OnReadEvent (handled_by (fun _ t => Ok (false, t))) t u [UnixSocket.ReadData data] with Ok (_, t') => t' | Fault _ => t end.

Definition handled_state (x : forward_io) (rc : RecvContext) (t : NetThread) : NetThread :=
  match HandleApplicationPacket demo_heartbeat x rc t with Ok (_, t', _) => t' | Fault _ => t end.

Definition accept_demo (t : NetThread) (fd : Z) : NetThread :=
  match RegisterConnection (proxy_methods demo_heartbeat (demo_io 0)) t fd (str "10.0.0.7") 4711 0 with Ok (_, t') => t' | Fault _ => t end.

Definition loop_accepted : NetThread := accept_demo (proxy_thread_start 10 demo_balancer) 5.
Definition loop_requested : NetThread := handed_state loop_accepted 1 demo_get.
Definition loop_rc (t : NetThread) : RecvContext :=
  mkRecvContext 1 5 (str "10.0.0.7") 4711 kAcceptFrom (c ← slot t 1; parser_ c) (Some 4%nat).
Definition loop_forwarded : NetThread := handled_state (demo_io 27) (loop_rc loop_requested) loop_requested.
Definition loop_crowded : NetThread := accept_demo loop_forwarded 7.
Definition loop_responded : NetThread := handed_state loop_crowded 2 demo_answer.
Definition loop_resp_rc (t : NetThread) : RecvContext :=
  mkRecvContext 2 6 (str "10.0.0.9") 5002 kConnectTo (c ← slot t 2; parser_ c) None.
Definition resp_io : forward_io := mkForwardIo (fun _ => None) 0 (fun _ => 0) 8 [0] (UnixSocket.Wrote 51) 0.
Definition loop_returned : NetThread := handled_state resp_io (loop_resp_rc loop_responded) loop_responded.

Lemma accept_demo_step (t : NetThread) (fd : Z) (taken : bool) :
  0 < fd -> can_add t fd ->
  RegisterConnection (proxy_methods demo_heartbeat (demo_io 0)) t fd (str "10.0.0.7") 4711 0 = Ok (taken, accept_demo t fd) ->
  proxy_step demo_heartbeat t (accept_demo t fd).
Proof. intros Hfd Hadd E. by eapply step_accept. Qed.

Lemma loop_accepted_run : rtc (proxy_step demo_heartbeat) (proxy_thread_start 10 demo_balancer) loop_accepted.
Proof.
  apply rtc_once. apply (accept_demo_step _ 5 true); [lia| |vm_compute; reflexivity].
  apply can_add_compute; vm_compute; [lia|reflexivity].
Qed.

Lemma system_compute (x : forward_io) (t : NetThread) :
  0 < fw_fd x -> can_add t (fw_fd x) -> Z.of_nat (next_ (memory_ t)) + 3 < 2 ^ 32 -> system_ok x t.
Proof. by split. Qed.

(** The request comes as a read event of the connection at the address 3. *)
Lemma loop_forwarded_run : rtc (proxy_step demo_heartbeat) (proxy_thread_start 10 demo_balancer) loop_forwarded.
Proof.
  eapply rtc_r; [exact loop_accepted_run|].
  eapply (step_event _ _ _ (SocketEpoll.mkEpoll 3 4 [SocketEpoll.mkEvent SocketEpoll.EPOLLIN 3] 0 ∅) 0
    (EventLoop.mkIo [UnixSocket.ReadData demo_get] [] (demo_io 27)) 0).
  - apply system_compute; [|apply can_add_compute|]; vm_compute; [reflexivity|lia|reflexivity|reflexivity].
  - vm_compute. reflexivity.
Qed.

Lemma live_compute (t : NetThread) (u : nat) : conns t !! u = mjoin (items (pool_ (connection_manager_ t)) !! u).
Proof. unfold conns. rewrite live_lookup. by destruct (items (pool_ (connection_manager_ t)) !! u) as [[|]|]. Qed.

Definition demo_conn (t : NetThread) (u : nat) : Conn := default (new_ConnectionProfile kUnknown [] 0 0 0 0) (slot t u).

Lemma proxy_no_crosstalk_witness :
  HandleApplicationPacket demo_heartbeat resp_io (loop_resp_rc loop_responded) loop_responded
    = Ok (true, loop_returned, [(4%nat, demo_answer)]) /\
  exists cc2 s, conns loop_responded !! 1%nat = Some cc2 /\ this_ cc2 = this_ (demo_conn loop_accepted 1) /\
    conn_type cc2 = kAcceptFrom /\ meta_of (memory_ loop_responded) 4 = Some (s, this_ (demo_conn loop_accepted 1), true).
Proof.
  assert (Hh : forall t u d rc, (forall vm : NetThreadMethods proxy_parser proxy_thread,
             ServerBase.UpgradeApplicationProtocol vm = EventLoop.base_UpgradeApplicationProtocol ->
             __OnReadEvent vm t u [UnixSocket.ReadData d] = ServerBase.HandleApplicationPacket vm rc (handed_state t u d)) ->
             hands_over t u [UnixSocket.ReadData d] rc (handed_state t u d)) by done.
  split; [vm_compute; reflexivity|].
  refine (proxy_no_crosstalk demo_heartbeat 10 demo_balancer loop_accepted loop_requested loop_forwarded loop_crowded loop_responded
    loop_returned 1 2 (demo_conn loop_accepted 1) (demo_conn loop_forwarded 2) [UnixSocket.ReadData demo_get] [UnixSocket.ReadData demo_answer]
    (loop_rc loop_requested) (loop_resp_rc loop_responded) (demo_io 27) resp_io false true [(6%nat, demo_get)] [(4%nat, demo_answer)]
    4 demo_answer loop_accepted_run _ _ eq_refl _ _ _ _ _ _ _ _ _).
  - apply system_compute; [|apply can_add_compute|]; vm_compute; [reflexivity|lia|reflexivity|reflexivity].
  - rewrite live_compute. vm_compute. reflexivity.
  - apply Hh. intros vm Hvm. vm_compute. reflexivity.
  - vm_compute. reflexivity.
  - rewrite live_compute. vm_compute. reflexivity.
  - rewrite live_compute. vm_compute. reflexivity.
  - apply rtc_once. split; [apply (accept_demo_step _ 7 true); [lia|apply can_add_compute; vm_compute; [lia|reflexivity]|vm_compute; reflexivity]|].
    exists (demo_conn loop_crowded 2). split; [rewrite live_compute|]; vm_compute; reflexivity.
  - apply system_compute; [|apply can_add_compute|]; vm_compute; [reflexivity|lia|reflexivity|reflexivity].
  - apply Hh. intros vm Hvm. vm_compute. reflexivity.
  - vm_compute. reflexivity.
  - by left.
Defined.

Lemma proxy_threads_consistent_witness :
  exists Q s a v, base_inv Q loop_forwarded /\ 4%nat ∈ Q /\ meta_of (memory_ loop_forwarded) 4 = Some (s, a, v).
Proof.
  destruct (proxy_threads_consistent demo_heartbeat 10 demo_balancer loop_forwarded loop_forwarded_run) as (Q & Hb & H1 & _).
  destruct (H1 2%nat (demo_conn loop_forwarded 2)) as (C & p & s & a & v & He & Hp & Hm & _);
    [rewrite live_compute; vm_compute; reflexivity|vm_compute; reflexivity|].
  assert (conn_map_ (derived_ loop_forwarded) !! 2%nat = Some (1%nat, Some 4%nat)) as E by (vm_compute; reflexivity).
  rewrite E in He. injection He as <- <-. exists Q, s, a, v. exact (conj Hb (conj Hp Hm)).
Defined.

End ProxyLoop.
