(* ===== verification/ProxyPath.v ===== *)
(** * The path of a request through the proxy (reverseproxy/proxyserver.cc, networkmodel/serverbase.cc)

    The request of a client arrives in segments, each read by an event; the last one
    makes the proxy forward it. The response of the web server arrives in
    segments on the connection that was made for it, and the last one makes the
    proxy send it to the client. *)
From stdpp Require Import gmap fin_maps.
From S2P Require Import Prelude CLib StdMap AutoBuffer FirstLine HeaderField HttpPacket HttpTheory HttpProps UnixSocket TcpConnection.
From S2P Require Import ServerBase NetThreadTheory EventLoop LoadBalancer ProxyServer ProxyForward.

Module ProxyPath.
Import TcpConnection ServerBase NetThreadTheory ProxyForward.

(** ** Specifications *)

(** The segments hand over the packet of [rc] in the state [tm], whatever handles it. *)
Definition segments_hand_over (t : NetThread) (u : nat) (segs : list bytes) (rc : RecvContext) (tm : NetThread) : Prop :=
  forall vm : NetThreadMethods proxy_parser proxy_thread, read_segments vm t u segs = ServerBase.HandleApplicationPacket vm rc tm.

(** The segments complete a packet: after the last one, and not before, the
    parser has reached its end, in state [q]. *)
Fixpoint completes (p : proxy_parser) (a : bytes) (segs : list bytes) (q : proxy_parser) : Prop :=
  match segs with
  | [] => False
  | [d] => exists r, parser_DoParse p (a ++ d) = Ok (r, q) /\ parser_IsEnd q = true /\ parser_IsErr q = false
  | d :: ds => exists r p', parser_DoParse p (a ++ d) = Ok (r, p') /\ parser_IsEnd p' = false /\
      parser_IsErr p' = false /\ completes p' (a ++ d) ds q
  end.

(** A connection that speaks HTTP and has received [a] so far. *)
Record http_input (c : Conn) (a : bytes) (p : proxy_parser) : Prop := {
  hi_recv : receiving c a p;
  hi_flags : input_flags c = (false, false, false)
}.

(** Two states of a connection that differ in what it has received. *)
Definition same_but_input (c c' : Conn) : Prop :=
  same_links c c' /\ conn_Uid c' = conn_Uid c /\ conn_FD c' = conn_FD c /\
  (conn_type c', remote_ip_ c', remote_port_ c') = (conn_type c, remote_ip_ c, remote_port_ c).

(** How much the receive buffer may grow with a segment, and with [n] segments. *)
Definition grows (c c' : Conn) : Prop :=
  AutoBuffer.capacity_ (tcp_byte_arr_ c') <= AutoBuffer.capacity_ (tcp_byte_arr_ c) + UnixSocket.kBufferSize
    + AutoBuffer.malloc_unit_size_ (tcp_byte_arr_ c) /\
  AutoBuffer.malloc_unit_size_ (tcp_byte_arr_ c') = AutoBuffer.malloc_unit_size_ (tcp_byte_arr_ c).

Definition room (c : Conn) (n : nat) : Prop :=
  AutoBuffer.capacity_ (tcp_byte_arr_ c)
  + Z.of_nat n * (UnixSocket.kBufferSize + AutoBuffer.malloc_unit_size_ (tcp_byte_arr_ c)) < 2 ^ 60.

(** The packet to answer a client with, which is made when its request is complete. *)
Definition answer_packet (t : NetThread) (c : Conn) : option nat :=
  if bool_decide (conn_type c = kAcceptFrom) then Some (next_ (memory_ t)) else None.

(** The state [tm] in which the packet [q] of the bytes [data] is handled, which came
    on the connection [u]. *)
Record packet_in (t tm : NetThread) (Q : list nat) (u : nat) (c c' : Conn) (q : proxy_parser) (data : bytes) : Prop := {
  pi_inv : base_inv (option_list (answer_packet t c) ++ Q) tm;
  pi_conns : conns tm = <[u := c']> (conns t);
  pi_recv : receiving c' data q;
  pi_same : this_ c' = this_ c /\ conn_FD c' = conn_FD c /\ conn_type c' = conn_type c /\ pending_send_ctx_ c' = pending_send_ctx_ c;
  pi_cap : AutoBuffer.capacity_ (tcp_byte_arr_ c') < 2 ^ 60;
  pi_derived : derived_ tm = derived_ t;
  pi_memory : match answer_packet t c with
              | Some p => exists s uid, next_ (memory_ tm) = S p /\ ctxs_ (memory_ tm)
                            = <[p := mkSendContext s uid (this_ c) (AutoBuffer.new AutoBuffer.kMallocUnit) true]> (ctxs_ (memory_ t))
              | None => memory_ tm = memory_ t
              end
}.

Definition packet_context (t : NetThread) (u : nat) (c : Conn) (q : proxy_parser) : RecvContext :=
  mkRecvContext (Z.of_nat u) (conn_FD c) (remote_ip_ c) (remote_port_ c) (conn_type c) (Some q) (answer_packet t c).

(** ** Lemmas *)

Lemma receive_input (c : Conn) (a d : bytes) (p q : proxy_parser) (r : Z) :
  http_input c a p -> AutoBuffer.capacity_ (tcp_byte_arr_ c) < 2 ^ 60 -> read_sized d ->
  parser_DoParse p (a ++ d) = Ok (r, q) -> parser_IsErr q = false ->
  exists c', (forall rs, Receive c (UnixSocket.ReadData d :: rs) =
      if parser_IsEnd q || negb (zlen d =? UnixSocket.kBufferSize) then Ok (0, c') else Receive c' rs) /\ http_input c' (a ++ d) q /\ same_but_input c c' /\ grows c c'.
Proof.
  intros [Hr Hf] Hcap Hd Hp Hq.
  destruct (Receive_read c a d p Hr Hcap Hd) as [(f & Hf' & _)|(r' & q' & c' & Hp2 & E & Hr' & Hc & Hu & b & Hc')]; [congruence|].
  rewrite Hp in Hp2. simplify_eq. rewrite Hq in E. eexists. split; [exact E|]. by split_and!.
Qed.

(** A segment is received: the last one, or one of several. *)
Lemma receive_put (t : NetThread) (Q : list nat) (u : nat) (c : Conn) (a d : bytes) (ds : list bytes) (p q : proxy_parser) (r : Z) :
  base_inv Q t -> conns t !! u = Some c -> http_input c a p -> AutoBuffer.capacity_ (tcp_byte_arr_ c) < 2 ^ 60 ->
  read_sized d -> parser_DoParse p (a ++ d) = Ok (r, q) -> parser_IsErr q = false ->
  parser_IsEnd q = bool_decide (ds = []) ->
  exists t' c', base_inv Q t' /\ conns t' = <[u := c']> (conns t) /\ memory_ t' = memory_ t /\ same_thread t t' /\
    http_input c' (a ++ d) q /\ same_but_input c c' /\ grows c c' /\
    forall vm : NetThreadMethods proxy_parser proxy_thread,
      read_segments vm t u (d :: ds) = if bool_decide (ds = []) then on_parsed vm t' u c' else read_segments vm t' u ds.
Proof.
  intros Hb Hu Hc Hcap Hd Hp Hq Hend.
  destruct (receive_input c a d p q r Hc Hcap Hd Hp Hq) as (c' & Er & Hc' & Hsame & Hg). pose proof Hsame as (Hl & Hid & Hfd & _).
  destruct (base_put t Q Q u c c' (memory_ t) (bi_mgr _ _ Hb) Hu Hid Hfd) as (t' & E & Hb' & Hc1 & Hm1 & Hs1).
  { eapply ctx_inv_links; [apply Hb|done|done]. }
  replace (set_memory t (memory_ t)) with t in E by by destruct t. exists t', c'. split_and!; try done. intros vm.
  pose proof (hi_flags _ _ _ Hc') as [= _ Hfin _].
  assert (IsParseDone c' = Ok (parser_IsEnd q)) as Hdone by (unfold IsParseDone; by rewrite (rv_parser _ _ _ (hi_recv _ _ _ Hc'))).
  rewrite Hend in Er, Hdone. case_bool_decide as Hds; cbn [orb] in Er; [|by apply (segment_read vm t t' u c c')].
  subst ds. rewrite last_read. unfold __OnReadEvent, vec_get. pose proof Hu as Hu'. apply live_lookup_Some in Hu' as ->.
  cbn [mbind res_bind]. rewrite Er. cbn [mbind res_bind]. rewrite E. cbn [mbind res_bind Z.ltb Z.compare]. by rewrite Hfin, Hdone.
Qed.

(** The packet is complete: it is handed over. *)
Lemma parsed_in (t : NetThread) (Q : list nat) (u : nat) (c : Conn) (data : bytes) (q : proxy_parser) :
  base_inv Q t -> conns t !! u = Some c -> http_input c data q -> parser_IsUpgrade q = false ->
  (conn_type c = kAcceptFrom -> Z.of_nat (next_ (memory_ t)) < 2 ^ 32) -> AutoBuffer.capacity_ (tcp_byte_arr_ c) < 2 ^ 60 ->
  exists tm c', packet_in t tm Q u c c' q data /\
    forall vm : NetThreadMethods proxy_parser proxy_thread,
      on_parsed vm t u c = ServerBase.HandleApplicationPacket vm (packet_context t u c q) tm.
Proof.
  intros Hb Hu [Hr Hf] Hup Hlt Hcap. injection Hf as _ _ Hlong.
  assert (uid_ c = Z.of_nat u) as Huid by (apply (mi_uid _ (bi_mgr _ _ Hb)); by apply live_lookup_Some).
  pose proof Hr as [_ _ _ Hpar].
  assert (IsUpgradeApplicationProtocol c = false) as Ec by (unfold IsUpgradeApplicationProtocol; by rewrite Hpar).
  unfold on_parsed, packet_context, answer_packet, MakeRecvContext. rewrite Ec, Hpar, Hlong, andb_true_r, Huid.
  destruct (bool_decide (conn_type c = kAcceptFrom)) eqn:Ea.
  - destruct (MakeSendContext c (memory_ t)) as [[p c'] m] eqn:Em.
    apply bool_decide_eq_true in Ea as Ea'.
    destruct (base_make_send t Q u p c c' m Hb Hu Em (Hlt Ea')) as (tm & E & Hb' & Hc' & Hm' & (Hd' & _)).
    unfold MakeSendContext, alloc in Em. injection Em as <- <- <-. exists tm. eexists. split.
    + split; unfold answer_packet; rewrite ?Ea, ?Hm'; try done; [by destruct Hr|by eexists _, _].
    + intros vm. cbn [mbind res_bind set_return_packet]. rewrite E. done.
  - destruct (base_put t Q Q u c c (memory_ t) (bi_mgr _ _ Hb) Hu eq_refl eq_refl) as (tm & E & Hb' & Hc' & Hm' & (Hd' & _)).
    { rewrite insert_id by done. apply Hb. }
    exists tm, c. split.
    + split; unfold answer_packet; rewrite ?Ea; try done.
    + intros vm. cbn [mbind res_bind]. by rewrite E.
Qed.

(** A packet that comes after more has been received. *)
Lemma packet_in_put (t t1 tm : NetThread) (Q : list nat) (u : nat) (c c1 c' : Conn) (q : proxy_parser) (data : bytes) :
  conns t1 = <[u := c1]> (conns t) -> memory_ t1 = memory_ t -> derived_ t1 = derived_ t -> same_but_input c c1 ->
  packet_in t1 tm Q u c1 c' q data ->
  packet_in t tm Q u c c' q data /\ packet_context t1 u c1 q = packet_context t u c q.
Proof.
  intros Hc Hm Hd ((Ht & _ & _ & Hpe) & _ & Hfd & [= Hty Hip Hpo]) [H1 H2 H3 (H4 & H5 & H6 & H7) H8 H9 H10].
  assert (answer_packet t1 c1 = answer_packet t c) as Ea by (unfold answer_packet; by rewrite Hty, Hm).
  split; [|unfold packet_context; by rewrite Ea, Hfd, Hip, Hpo, Hty]. rewrite Ea, ?Hm in *.
  split; try done; [by rewrite H2, Hc, insert_insert_eq|split_and!; congruence|congruence|by rewrite <- Ht].
Qed.

(** All segments of a packet. *)
Lemma read_packet (segs : list bytes) (t : NetThread) (Q : list nat) (u : nat) (c : Conn) (a : bytes) (p q : proxy_parser) :
  base_inv Q t -> conns t !! u = Some c -> http_input c a p -> room c (length segs) ->
  Forall read_sized segs -> completes p a segs q -> parser_IsUpgrade q = false ->
  (conn_type c = kAcceptFrom -> Z.of_nat (next_ (memory_ t)) < 2 ^ 32) ->
  exists tm c', packet_in t tm Q u c c' q (a ++ concat segs) /\ segments_hand_over t u segs (packet_context t u c q) tm.
Proof.
  intros Hb Hu Hc Hr Hs. revert t c a p Hb Hu Hc Hr.
  induction Hs as [|d ds Hd Hds IH]; intros t c a p Hb Hu Hc Hr Hco Hup Hlt; [done|].
  pose proof (hi_recv _ _ _ Hc) as [_ [_ _ _ Hl Hun _] _ _]. unfold room, UnixSocket.kBufferSize in Hr. cbn [length] in Hr.
  rewrite Nat2Z.inj_succ in Hr.
  assert (exists r p1, parser_DoParse p (a ++ d) = Ok (r, p1) /\ parser_IsErr p1 = false /\
    match ds with [] => p1 = q /\ parser_IsEnd p1 = true | _ => parser_IsEnd p1 = false /\ completes p1 (a ++ d) ds q end)
    as (r & p1 & Hp & He & Hrest) by (destruct ds; [destruct Hco as (r & ?); exists r, q; tauto|destruct Hco as (r & p1 & ?); exists r, p1; tauto]).
  destruct (receive_put t Q u c a d ds p p1 r Hb Hu Hc ltac:(nia) Hd Hp He) as (t1 & c1 & Hb1 & Hc1 & Hm1 & (Hd1 & _) & Hi1 & Hs1 & [Hg1 Hg2] & Ev);
    [by destruct ds; [destruct Hrest as [-> ->]|destruct Hrest as [-> _]]|].
  assert (conns t1 !! u = Some c1) as Hu1 by by rewrite Hc1, lookup_insert_eq.
  assert (conn_type c1 = conn_type c) as Hty1 by (destruct Hs1 as (_ & _ & _ & [= -> _ _]); done).
  destruct ds as [|d2 ds].
  - destruct Hrest as [-> Hend]. cbn [concat]. rewrite app_nil_r.
    destruct (parsed_in t1 Q u c1 (a ++ d) q Hb1 Hu1 Hi1 Hup) as (tm & c' & Hin & Hv); [by rewrite Hm1, Hty1|unfold UnixSocket.kBufferSize in *; cbn in Hr; lia|].
    destruct (packet_in_put t t1 tm Q u c c1 c' q (a ++ d) Hc1 Hm1 Hd1 Hs1 Hin) as [Hin' Ectx]. exists tm, c'. split; [done|].
    intros vm. by rewrite Ev, Hv, Ectx.
  - destruct Hrest as [Hend Hco1]. destruct (IH t1 c1 (a ++ d) p1) as (tm & c' & Hin & Hv); try done.
    + unfold room, UnixSocket.kBufferSize in *. rewrite Hg2. nia.
    + by rewrite Hm1, Hty1.
    + rewrite <- app_assoc in Hin. destruct (packet_in_put t t1 tm Q u c c1 c' q _ Hc1 Hm1 Hd1 Hs1 Hin) as [Hin' Ectx].
      exists tm, c'. split; [done|]. intros vm. rewrite Ev, <- Ectx. apply Hv.
Qed.

Lemma packet_sizes (t tm : NetThread) (Q : list nat) (u : nat) (c c' : Conn) (q : proxy_parser) (data : bytes) :
  sizes t -> packet_in t tm Q u c c' q data -> sizes tm.
Proof.
  intros Hsz [_ H2 [_ [_ _ _ Hl _ _] _ _] _ Hcap _ _] v e. rewrite H2.
  intros [[<- <-]|[_ Hv]]%lookup_insert_Some; [lia|by eapply Hsz].
Qed.

(** The body of a request that was received as [data]. *)
Definition body_in (q : HttpPacket.HttpParser HttpPacket.request_sub) (data : bytes) : res (option bytes) :=
  match HttpPacket.request_Body q with
  | Some b => Some <$> AutoBuffer.bytes_of (fun _ => Some data) b
  | None => Ok None
  end.

(** The request of an accepted connection is complete. *)
Lemma packet_requesting (t tm : NetThread) (Q : list nat) (C : nat) (cc cc' : Conn) (q : HttpPacket.HttpParser HttpPacket.request_sub)
    (data : bytes) :
  sizes t -> conn_type cc = kAcceptFrom -> 0 < conn_FD cc -> 0 < zlen data < 2 ^ 31 ->
  packet_in t tm Q C cc cc' (PRequest q) data ->
  let rc := packet_context t C cc (PRequest q) in
  exists ctx, requesting tm Q rc C (next_ (memory_ t)) cc' ctx data /\ heartbeat_body rc cc' = body_in q data /\ this_ cc' = this_ cc /\
    next_ (memory_ tm) = S (next_ (memory_ t)).
Proof.
  intros Hsz Hty Hfd Hlen Hin rc. pose proof (packet_sizes _ _ _ _ _ _ _ _ Hsz Hin) as Hsz'.
  destruct Hin as [H1 H2 [_ H3 H3' _] (H4 & H5 & H6 & H7) H8 H9 H10]. unfold rc, packet_context, answer_packet in *.
  rewrite bool_decide_true in H1, H10 |- * by done. destruct H10 as (s & uid & Hn & Hx). cbn [option_list app] in H1.
  eexists. split_and!; [|by unfold heartbeat_body, body_in; cbn [rc_application_packet]; rewrite H3'|done|done].
  split; try done; rewrite ?Hx, ?lookup_insert_eq; try done; [by rewrite H2, lookup_insert_eq|by rewrite H5].
Qed.

(** What the proxy does with a request that arrives in segments. *)
Lemma relay_request (PH : bytes -> option Z * Z) (x : forward_io) (t : NetThread) (Q : list nat) (C : nat) (cc : Conn)
    (segs : list bytes) (q : HttpPacket.HttpParser HttpPacket.request_sub) (body : option bytes) (i : nat)
    (b0 b1 : LoadBalancer.LoadBalancer) (host : LoadBalancer.WebServerProfile)
    (Hb : base_inv Q t) (Hsz : sizes t) (HC : conns t !! C = Some cc) (Hclient : conn_type cc = kAcceptFrom) (Hcfd : 0 < conn_FD cc)
    (Hinput : http_input cc [] (PRequest HttpPacket.new_request)) (Hroom : room cc (length segs))
    (Hsegs : Forall read_sized segs)
    (Hreq : completes (PRequest HttpPacket.new_request) [] segs (PRequest q))
    (Hup : HttpPacket.is_upgrade_to_ws_ (HttpPacket.sub q) = false) (Hlen : zlen (concat segs) < 2 ^ 31)
    (Hbody : body_in q (concat segs) = Ok body)
    (Hheart : ProxyServer.CheckHeartbeat PH (balancer_ (derived_ t)) (remote_ip_ cc) body (fw_now x) = Ok (false, b0))
    (Hbal : LoadBalance x b0 (remote_ip_ cc) = Ok (Some i, b1)) (Hhost : LoadBalancer.web_servers_ b1 !! i = Some host)
    (Hfd : 0 < fw_fd x) (Hadd : can_add t (fw_fd x)) (Hlt : Z.of_nat (next_ (memory_ t)) + 3 < 2 ^ 32)
    (Hconn : connects 3 (fw_connects x) = true) (Hall : fw_write x = UnixSocket.Wrote (zlen (concat segs))) :
  exists rc tm t1 W wc cc' ctx k, segments_hand_over t C segs rc tm /\
    HandleApplicationPacket PH x rc tm = Ok (false, t1, [(k, concat segs)]) /\
    forwarding t1 Q W C (next_ (memory_ t)) wc cc' ctx /\ this_ cc' = this_ cc /\ sizes t1 /\ idle wc /\
    (remote_ip_ wc, remote_port_ wc, conn_type wc, parser_ wc)
    = (LoadBalancer.ip host, LoadBalancer.port host, kConnectTo, Some (PResponse HttpPacket.new_response)).
Proof.
  destruct (read_packet segs t Q C cc [] _ (PRequest q) Hb HC Hinput Hroom Hsegs Hreq) as (tm & cc' & Hin & Hh); [done|intros _; lia|].
  cbn [app] in Hin. assert (0 < zlen (concat segs)) as Hpos.
  { apply read_sized_concat; [done|]. by intros ->. }
  destruct (packet_requesting t tm Q C cc cc' q (concat segs) Hsz Hclient Hcfd ltac:(lia) Hin) as (ctx & Hrq & Hbd & Hth & Hnx).
  set (rc := packet_context t C cc (PRequest q)) in *. set (p := next_ (memory_ t)) in *.
  assert (can_add tm (fw_fd x)) as Hadd'.
  { destruct Hadd as [A1 A2]. destruct Hin as [_ H2 _ (_ & H5 & _) _ _ _]. unfold can_add. rewrite H2. split.
    - by rewrite map_size_insert_Some.
    - intros v e [[<- <-]|[_ Hv]]%lookup_insert_Some; [rewrite H5|]; by eapply A2. }
  pose proof (forward_request PH x rc tm Q C p cc' ctx (concat segs) body i b0 b1 host Hrq ltac:(by rewrite Hbd)
    ltac:(by rewrite (pi_derived _ _ _ _ _ _ _ _ Hin)) Hbal Hhost Hfd Hadd' ltac:(rewrite Hnx; unfold p in *; lia)) as H.
  rewrite Hconn, Hall in H. cbn [wrote] in H. rewrite Nat2Z.id, firstn_all in H.
  destruct H as (t1 & W & wc & k & E1 & _ & _ & Hf & Hr & _ & _ & _ & Hsz1 & _ & Hidle); [lia|].
  exists rc, tm, t1, W, wc, cc', ctx, k. split_and!; try done.
  unfold HandleApplicationPacket. cbn [rc packet_context rc_application_packet from_option mbind res_bind parser_Protocol].
  unfold HandleHttpPacket. rewrite (rq_type _ _ _ _ _ _ _ _ Hrq). exact E1.
Qed.

(** What the proxy does with the response that arrives in segments. *)
Lemma relay_response (PH : bytes -> option Z * Z) (y : forward_io) (t : NetThread) (Q : list nat) (W C p : nat) (wc cc : Conn)
    (ctx : SendContext) (segs : list bytes) (q : HttpPacket.HttpParser FirstLine.StatusLine)
    (Hf : forwarding t Q W C p wc cc ctx) (Hsz : sizes t) (Hidle : idle wc)
    (Hty : conn_type wc = kConnectTo) (Hpar : parser_ wc = Some (PResponse HttpPacket.new_response))
    (Hsegs : Forall read_sized segs) (Hnum : Z.of_nat (length segs) < 2 ^ 40)
    (Hresp : completes (PResponse HttpPacket.new_response) [] segs (PResponse q)) (Hlen : zlen (concat segs) < 2 ^ 31)
    (Hw : 0 <= wrote (fw_write y) <= zlen (concat segs)) :
  exists rc tm t' cc' out rest, segments_hand_over t W segs rc tm /\
    HandleApplicationPacket PH y rc tm = Ok (true, t', [(p, out)]) /\ out ++ rest = concat segs /\ zlen out = wrote (fw_write y) /\
    conns tm !! C = Some cc /\ ctxs_ (memory_ tm) !! p = Some ctx /\
    base_inv Q t' /\ conns t' !! C = Some cc' /\ this_ cc' = this_ cc /\ conns t' !! W = None /\
    if decide (rest = []) then pending_send_ctx_ cc' = pending_send_ctx_ cc
    else pending_send_ctx_ cc' = pending_send_ctx_ cc ++ [p] /\
         exists ctx', ctxs_ (memory_ t') !! p = Some ctx' /\ AutoBuffer.holds (sc_buffer ctx') rest.
Proof.
  pose proof Hf as [Hb HW HC Hne Hmap Hctx Hval Hown Hfd Hpos Hunit]. destruct Hidle as [Hbuf Hflags].
  assert (http_input wc [] (PResponse HttpPacket.new_response)) as Hinput.
  { split; [|done]. injection Hflags as He _ _. split; by rewrite ?Hbuf. }
  destruct (read_packet segs t (p :: Q) W wc [] _ (PResponse q) Hb HW Hinput) as (tm & wc' & Hin & Hh); try done; [|by rewrite Hty|].
  { unfold room. rewrite Hbuf. cbn. unfold UnixSocket.kBufferSize, AutoBuffer.kMallocUnit. lia. }
  pose proof (packet_sizes _ _ _ _ _ _ _ _ Hsz Hin) as Hsz'.
  destruct Hin as [H1 H2 [_ H3 H3' _] (H4 & H5 & H6 & H7) H8 H9 H10]. set (rc := packet_context t W wc (PResponse q)) in *.
  assert (answer_packet t wc = None) as Ea by (unfold answer_packet; by rewrite Hty). rewrite Ea in H1, H10. cbn [option_list app] in H1, H3'.
  assert (conns tm !! C = Some cc) as HC' by by rewrite H2, lookup_insert_ne.
  assert (forwarding tm Q W C p wc' cc ctx) as Hf'.
  { split; try done; [by rewrite H2, lookup_insert_eq|by rewrite H9|by rewrite H10]. }
  assert (0 < zlen (concat segs)) as Hpos'.
  { apply read_sized_concat; [done|]. by intros ->. }
  destruct (return_response y rc tm Q W C p wc' cc ctx Hf' Hsz') as (t' & cc' & out & rest & E & Ho & Hz & Hb' & Hc' & Ht' & Hp'); try done; rewrite ?H3'; try lia.
  { intros E. rewrite E in Hpos'. cbn in Hpos'. lia. }
  exists rc, tm, t', cc', out, rest. split_and!; try done.
  - unfold HandleApplicationPacket. cbn [rc packet_context rc_application_packet from_option mbind res_bind parser_Protocol].
    unfold HandleHttpPacket. cbn [rc packet_context rc_type]. rewrite Hty, E. done.
  - by rewrite <- H3'.
  - by rewrite H10.
  - by rewrite Hc', lookup_delete_ne, lookup_insert_eq by done.
  - by rewrite Hc', lookup_delete_eq.
Qed.

(** ** Properties *)


(** *** A request in two segments, and a response in three *)

Definition relay_segments : list bytes := [str "GET / HTTP/1.1" ++ [13; 10] ++ str "Ho"; str "st: h" ++ [13; 10; 13; 10]].
Definition relay_answer : list bytes :=
  [str "HTTP/1.1 200 OK" ++ [13; 10] ++ str "Content-Length: 2"; [13; 10] ++ str "Server: s" ++ [13; 10; 13; 10] ++ str "h"; str "i"].

Definition relay_client : Conn := default (new_ConnectionProfile kUnknown [] 0 0 0 0) (slot proxy_accepted 1).

Definition request_state (segs : list bytes) : HttpPacket.HttpParser HttpPacket.request_sub :=
  match feed_parser HttpPacket.new_request [] segs with Ok q => q | Fault _ => HttpPacket.new_request end.
Definition response_state (segs : list bytes) : HttpPacket.HttpParser FirstLine.StatusLine :=
  match feed_parser HttpPacket.new_response [] segs with Ok q => q | Fault _ => HttpPacket.new_response end.

Lemma proxy_accepted_inv : base_inv [] proxy_accepted.
Proof.
  assert (base_inv [] proxy_start) as H0 by apply net_base, new_thread_inv.
  assert (conns proxy_start = ∅) as Ee by apply live_new.
  destruct (base_register config_methods proxy_config_law proxy_start [] 5 (str "10.0.0.7") 4711 0 H0)
    as (taken & t1 & E1 & H1 & _); [lia|split; [rewrite Ee; vm_compute; lia|intros u c; by rewrite Ee]|].
  assert (t1 = proxy_accepted) as -> by (unfold proxy_accepted; by rewrite E1). exact H1.
Qed.

Lemma proxy_accepted_sizes : sizes proxy_accepted.
Proof.
  intros v e He. apply (items_compute proxy_accepted (fun c => (0 <=? AutoBuffer.capacity_ (tcp_byte_arr_ c)) &&
    (AutoBuffer.capacity_ (tcp_byte_arr_ c) <? 2 ^ 64))) in He; [lia|vm_compute; reflexivity].
Qed.

Lemma relay_client_live : conns proxy_accepted !! 1%nat = Some relay_client.
Proof. apply live_lookup_Some. vm_compute. reflexivity. Qed.

Lemma relay_client_input : http_input relay_client [] (PRequest HttpPacket.new_request).
Proof.
  split; [split|]; [vm_compute; reflexivity| |vm_compute; reflexivity..].
  apply (AutoBuffer.holds_new AutoBuffer.kMallocUnit). vm_compute. split; reflexivity.
Qed.

Lemma proxy_accepted_can_add : can_add proxy_accepted 6.
Proof. apply can_add_compute; vm_compute; [lia|reflexivity]. Qed.


End ProxyPath.
