(* ===== verification/EndToEnd.v ===== *)
(** * A client, the proxy and a web server (proxyserver.cc, webserver.cc)

    The two programs together: a client sends a request to the proxy, the proxy
    forwards it to a web server, a scene of the web server answers it, and the
    proxy sends the answer to the client. The networks between them deliver the
    bytes that were sent, in whatever segments [read] returns them. *)
From stdpp Require Import gmap fin_maps.
From S2P Require Import Prelude CLib StdMap AutoBuffer FirstLine HeaderField HttpPacket HttpTheory HttpProps.
From S2P Require Import NetSceneDispatcher DispatcherTheory UnixSocket TcpConnection ServerBase NetThreadTheory.
From S2P Require Import WebServer WebLoop RequestPath LoadBalancer ProxyServer ProxyForward ProxyPath.

Module EndToEnd.
Import TcpConnection ServerBase NetThreadTheory.
#[local] Existing Instances HttpPacket.request_methods HttpPacket.response_methods HttpTheory.request_laws HttpTheory.response_laws
  WebServer.web_protocol_parser.

(** ** Specifications *)

(** The segments of a message: none is empty or larger than the 4096 bytes of one [read]. *)
Definition segments (segs : list bytes) (data : bytes) : Prop :=
  concat segs = data /\ Forall read_sized segs.

(** A whole request, which asks for no upgrade. *)
Definition whole_request (data : bytes) (q : HttpPacket.HttpParser HttpPacket.request_sub) : Prop :=
  data <> [] /\ zlen data < 2 ^ 31 /\ (exists r, HttpPacket.DoParse HttpPacket.new_request data = Ok (r, q)) /\
  HttpPacket.IsEnd q = true /\ HttpPacket.is_upgrade_to_ws_ (HttpPacket.sub q) = false.

(** A thread of the proxy with the connection [C] of a client, and a system and a balancer with which the
    request [q] of the bytes [data], in [n] segments, can be forwarded to [host] at once. *)
Record proxy_ready (PH : bytes -> option Z * Z) (x : ProxyForward.forward_io) (t : ProxyForward.NetThread) (Q : list nat) (C : nat)
    (cc : ProxyForward.Conn) (q : HttpPacket.HttpParser HttpPacket.request_sub) (data : bytes) (n : nat)
    (host : LoadBalancer.WebServerProfile) : Prop := {
  pr_inv : base_inv Q t;
  pr_sizes : ProxyForward.sizes t;
  pr_client : conns t !! C = Some cc;
  pr_type : conn_type cc = kAcceptFrom;
  pr_fd : 0 < conn_FD cc;
  pr_input : ProxyPath.http_input cc [] (ProxyForward.PRequest HttpPacket.new_request);
  pr_room : ProxyPath.room cc n;
  pr_host : exists body i b0 b1, ProxyPath.body_in q data = Ok body /\
    ProxyServer.CheckHeartbeat PH (ProxyForward.balancer_ (derived_ t)) (remote_ip_ cc) body (ProxyForward.fw_now x)
      = Ok (false, b0) /\
    ProxyForward.LoadBalance x b0 (remote_ip_ cc) = Ok (Some i, b1) /\ LoadBalancer.web_servers_ b1 !! i = Some host;
  pr_socket : 0 < ProxyForward.fw_fd x /\ can_add t (ProxyForward.fw_fd x);
  pr_next : Z.of_nat (next_ (memory_ t)) + 3 < 2 ^ 32;
  pr_connects : connects 3 (ProxyForward.fw_connects x) = true;
  pr_write : ProxyForward.fw_write x = UnixSocket.Wrote (zlen data)
}.

Section Segments.
Context {S : Type} `{HttpTheory.HttpParserLaws S}.

(** After the last segment, and not before, the parser has reached its end. *)
Fixpoint ends_with (p : HttpPacket.HttpParser S) (a : bytes) (segs : list bytes) (q : HttpPacket.HttpParser S) : Prop :=
  match segs with
  | [] => False
  | [d] => exists r, HttpPacket.DoParse p (a ++ d) = Ok (r, q) /\ HttpPacket.IsEnd q = true /\ HttpPacket.IsErr q = false
  | d :: ds => exists r p', HttpPacket.DoParse p (a ++ d) = Ok (r, p') /\ HttpPacket.IsEnd p' = false /\
      HttpPacket.IsErr p' = false /\ ends_with p' (a ++ d) ds q
  end.

(** ** Lemmas *)

Lemma end_no_err (q : HttpPacket.HttpParser S) : HttpPacket.IsEnd q = true -> HttpPacket.IsErr q = false.
Proof. unfold HttpPacket.IsEnd, HttpPacket.IsErr. intros E%bool_decide_eq_true. by rewrite E. Qed.

(** A whole message ends with its last segment, whatever the segments. *)
Lemma ends_from (s : S) (segs : list bytes) (a : bytes) (p q : HttpPacket.HttpParser S) (r : Z) :
  HttpTheory.reached s a p -> Forall read_sized segs -> segs <> [] ->
  zlen (a ++ concat segs) < 2 ^ 31 -> HttpTheory.outcome s (a ++ concat segs) = Ok (r, q) -> HttpPacket.IsEnd q = true ->
  ends_with p a segs q.
Proof.
  intros Hr Hc. revert a p Hr. induction Hc as [|c cs Hc Hcs IH]; intros a p Hr Hne Hl Ho He; [done|].
  cbn [concat] in *. rewrite app_assoc in Ho, Hl. pose proof (read_sized_nil _ Hc) as Hcn.
  assert (a ++ c <> []) by (by intros [_ ?]%app_nil). assert (zlen (a ++ c) < 2 ^ 31) by (rewrite length_app in Hl; lia).
  assert (HttpPacket.DoParse p (a ++ c) = HttpTheory.outcome s (a ++ c)) as Ep
    by (rewrite (HttpTheory.resume s) by done; by apply HttpTheory.DoParse_outcome).
  destruct cs as [|c' cs]; cbn [ends_with]; rewrite Ep.
  { cbn [concat] in Ho. rewrite app_nil_r in Ho. exists r. split_and!; [done|done|by apply end_no_err]. }
  destruct (HttpTheory.outcome_prefix s (a ++ c) (concat (c' :: cs)) r q) as (r' & p' & Ho' & Hs); [|done..|].
  { inversion Hcs as [|? ? Hc' _]; subst. cbn. intros [-> _]%app_nil. by apply read_sized_nil in Hc'. }
  exists r', p'. unfold HttpTheory.stopped in Hs. apply orb_false_iff in Hs as Hs'. split_and!; [done|apply Hs'|apply Hs'|].
  apply IH; try done. by eapply HttpTheory.outcome_reached.
Qed.

Lemma whole_ends (s : S) (segs : list bytes) (data : bytes) (q : HttpPacket.HttpParser S) (r : Z) :
  segments segs data -> data <> [] -> zlen data < 2 ^ 31 -> HttpPacket.DoParse (HttpPacket.new_HttpParser s) data = Ok (r, q) ->
  HttpPacket.IsEnd q = true -> ends_with (HttpPacket.new_HttpParser s) [] segs q.
Proof.
  intros [Hs Hf] Hn Hl Hp He. apply (ends_from s segs [] _ q r); [by apply HttpTheory.reached_none|done|by intros ->|by rewrite app_nil_l, Hs| |done].
  by rewrite app_nil_l, Hs, <- HttpTheory.DoParse_outcome.
Qed.

End Segments.

Lemma ends_request (segs : list bytes) (a : bytes) (p q : HttpPacket.HttpParser HttpPacket.request_sub) :
  ends_with p a segs q -> ProxyPath.completes (ProxyForward.PRequest p) a segs (ProxyForward.PRequest q) /\ RequestPath.completes p a segs q.
Proof.
  revert a p. induction segs as [|d [|d2 ds] IH]; intros a p; cbn; [done|..].
  - intros (r & E & ?). split; exists r; [by rewrite E|done].
  - intros (r & p' & E & He & Hr & Hrest). destruct (IH (a ++ d) p' Hrest) as [H1 H2].
    split; [exists r, (ProxyForward.PRequest p'); by rewrite E|by exists r, p'].
Qed.

Lemma ends_response (segs : list bytes) (a : bytes) (p q : HttpPacket.HttpParser FirstLine.StatusLine) :
  ends_with p a segs q -> ProxyPath.completes (ProxyForward.PResponse p) a segs (ProxyForward.PResponse q).
Proof.
  revert a p. induction segs as [|d [|d2 ds] IH]; intros a p; cbn; [done|..].
  - intros (r & E & ?). exists r. by rewrite E.
  - intros (r & p' & E & He & Hr & Hrest). exists r, (ProxyForward.PResponse p'). rewrite E. by apply IH in Hrest.
Qed.

(** A response that a client reads is one the proxy's parser completes, in whatever segments. *)
Lemma client_reads_ends (b : AutoBuffer.AutoBuffer) (code : Z) (headers : StdMap.smap bytes) (resp : bytes) (segs : list bytes) :
  DispatcherTheory.client_reads b code headers resp -> segments segs (AutoBuffer.contents b) ->
  AutoBuffer.contents b <> [] -> zlen (AutoBuffer.contents b) < 2 ^ 31 ->
  exists q, ends_with HttpPacket.new_response [] segs q.
Proof.
  intros Hc Hs Hn Hl. destruct (Hc [AutoBuffer.contents b]) as (q & Hf & He & _); [by repeat constructor|by cbn; rewrite app_nil_r|].
  cbn [HttpPacket.feed] in Hf. rewrite app_nil_l in Hf. apply bind_Ok in Hf as ([r p] & Hp & Hf).
  assert (p = q) as -> by (destruct (_ || _); by injection Hf). exists q. by eapply whole_ends.
Qed.

Lemma segments_number (segs : list bytes) (data : bytes) : segments segs data -> Z.of_nat (length segs) <= zlen data.
Proof. intros [<- Hf]. destruct segs as [|d ds]; [done|]. by apply read_sized_concat. Qed.

(** ** Properties *)


(** *** A client behind the proxy asks for the index page *)

Definition demo_get : bytes := concat RequestPath.get_segments.
Definition demo_segments : list bytes := [take 7 demo_get; drop 7 demo_get].

Lemma demo_ready :
  proxy_ready (fun _ => (None, 0)) (ProxyForward.demo_io 38) ProxyForward.proxy_accepted [] 1 ProxyPath.relay_client
    (RequestPath.parsed RequestPath.get_segments) demo_get 2 ProxyForward.demo_host.
Proof.
  split; [exact ProxyPath.proxy_accepted_inv|exact ProxyPath.proxy_accepted_sizes|exact ProxyPath.relay_client_live
         |vm_compute; reflexivity|vm_compute; reflexivity|exact ProxyPath.relay_client_input|vm_compute; reflexivity| | 
         |vm_compute; reflexivity|vm_compute; reflexivity|vm_compute; reflexivity].
  - exists None, 0%nat, ProxyForward.demo_balancer, ProxyForward.demo_balancer. split_and!; vm_compute; reflexivity.
  - split; [vm_compute; reflexivity|exact ProxyPath.proxy_accepted_can_add].
Qed.


End EndToEnd.
