(* ===== verification/HeartbeatPath.v ===== *)
(** * The heartbeat of a web server (webserver.cc, proxyserver.cc, loadbalancer.cc)

    A web server tells the proxy now and then that it is up and how much it has
    to do: the main thread packs a message of the protobuf code into a POST request, and the
    proxy, which finds that the request comes from a registered web server,
    marks this server as up. *)
From stdpp Require Import gmap fin_maps.
From S2P Require Import Prelude CLib StdMap AutoBuffer FirstLine HeaderField HttpPacket HttpTheory HttpProps.
From S2P Require Import UnixSocket TcpConnection ServerBase NetThreadTheory ServerConfig WebServer WebLoop.
From S2P Require Import LoadBalancer ProxyServer ProxyForward ProxyPath EndToEnd.

Module HeartbeatPath.
Import TcpConnection ServerBase NetThreadTheory WebServer WebLoop.
#[local] Existing Instances HttpPacket.request_methods HttpTheory.request_laws ProxyForward.proxy_protocol_parser.

(** ** Specifications *)

(** What all network threads of the web server have to do. *)
Definition total_backlog (ts : list WebServer.NetThread) : Z := fold_left (fun b t => wrap32 (b + WebServer.Backlog t)) ts 0.

(** The request that carries the message [ba] to the proxy. *)
Definition heartbeat_message (e : WebServer.ServerConfig) (ba : bytes) : bytes :=
  HttpProps.request_message (WebServer.reverse_proxy_ip e) (str "/") None ba.

(** The proxy can be reached, its address can stand in a header, and the message is not too long. *)
Record can_report (e : WebServer.ServerConfig) (t : WebServer.NetThread) (x : WebServer.heartbeat_io) (ba : bytes) : Prop := {
  cr_host : HeaderField.token (WebServer.reverse_proxy_ip e);
  cr_body : ba <> [] /\ zlen ba < 10 ^ 8;
  cr_size : zlen (heartbeat_message e ba) < 2 ^ 31;
  cr_fd : 0 < WebServer.hb_fd x;
  cr_add : can_add t (WebServer.hb_fd x);
  cr_next : Z.of_nat (next_ (memory_ t)) + 3 < 2 ^ 32;
  cr_connects : connects 3 (WebServer.hb_connects x) = true;
  cr_write : WebServer.hb_write x = UnixSocket.Wrote (zlen (heartbeat_message e ba))
}.

(** ** Lemmas *)

Lemma slash_ok (host ba : bytes) :
  HeaderField.token host -> zlen ba < 10 ^ 8 -> HttpProps.request_ok host (str "/") None ba.
Proof.
  intros Hh Hb. split; [by apply FirstLine.str_word|by apply HttpProps.plain_dec|done|by constructor|done].
Qed.

(** A packet made for a connection, filled and sent whole. *)
Lemma pack_and_send (t : WebServer.NetThread) (Q : list nat) (u : nat) (c : WebServer.Conn) (e : WebServer.ServerConfig) (ba : bytes) (now : Z) :
  base_inv Q t -> conns t !! u = Some c -> Z.of_nat (next_ (memory_ t)) < 2 ^ 32 -> 0 < conn_FD c ->
  zlen (heartbeat_message e ba) < 2 ^ 31 ->
  exists t', (
    '(p, t) ← conn_MakeSendContext t u;
    ctx ← from_option Ok (Fault Dangling) (ctxs_ (memory_ t) !! p);
    b ← HttpPacket.request_Pack (WebServer.reverse_proxy_ip e) (str "/") None ba (sc_buffer ctx);
    TrySendAndMarkPendingIfUndone (set_memory t (set_ctx (memory_ t) p (set_buffer ctx b))) (Some p)
      (UnixSocket.Wrote (zlen (heartbeat_message e ba))) now) = Ok (true, t', heartbeat_message e ba).
Proof.
  intros Hb Hu Hlt Hfd Hl. set (msg := heartbeat_message e ba) in *.
  destruct (base_conn_make t Q u c Hb Hu Hlt) as (t1 & c1 & m & Em & -> & Hb1 & Hc1 & Hm1 & _). cbn [mbind res_bind].
  unfold MakeSendContext, alloc in Em. injection Em as <- <-. set (c1 := set_sending c _ _ _) in Hc1.
  rewrite Hm1. cbn [set_ctx ctxs_]. rewrite lookup_insert_eq.
  cbn [from_option mbind res_bind sc_buffer].
  destruct (HttpProps.request_Pack_holds (WebServer.reverse_proxy_ip e) (str "/") None ba (AutoBuffer.new AutoBuffer.kMallocUnit))
    as (b & -> & Ho & Hcb & Hpos & _); [cbn; unfold AutoBuffer.kMallocUnit; lia|done|]. cbn [mbind res_bind].
  change (AutoBuffer.contents b = msg) in Hcb.
  set (p := next_ (memory_ t)) in *. set (ctx := mkSendContext _ _ _ _ _). set (t2 := set_memory _ _).
  assert (0 < zlen msg) as Hmsg by (unfold msg, heartbeat_message, HttpProps.request_message; rewrite HttpTheory.message_length; lia).
  clearbody msg. pose proof (AutoBuffer.contents_length _ Ho) as Hlen. rewrite Hcb in Hlen.
  assert (base_inv (p :: Q) t2) as Hb2.
  { destruct Hb1 as [H1 H2]. split; [done|]. eapply ctx_inv_meta; [exact H2|by rewrite Hm1|]. intros r. rewrite Hm1.
    apply meta_set_buffer. cbn. by rewrite lookup_insert_eq. }
  destruct (base_send t2 Q p u c1 (set_buffer ctx b) msg (UnixSocket.Wrote (zlen msg)) now Hb2) as (t' & c' & E & _); try done.
  - change (conns t2) with (conns t1). by rewrite Hc1, lookup_insert_eq.
  - cbn. by rewrite lookup_insert_eq.
  - cbn [set_buffer sc_buffer]. unfold AutoBuffer.bytes_of. rewrite (AutoBuffer.owned_ptr _ Ho). by destruct (_ =? _); rewrite Hcb.
  - lia.
  - cbn. lia.
  - exists t'. rewrite E. cbn [wrote]. by rewrite Z.eqb_refl, Nat2Z.id, firstn_all.
Qed.

(** [SendHeartbeat]: the message leaves whole. *)
Lemma heartbeat_sent (Serialize : Z -> Z -> bytes) (c : ServerConfig.ServerConfigBase) (e : WebServer.ServerConfig)
    (t : WebServer.NetThread) (ts : list WebServer.NetThread) (x : WebServer.heartbeat_io) :
  let ba := Serialize (total_backlog (t :: ts)) (ServerConfig.port c) in
  WebLoop.web_inv t -> ServerConfig.is_config_done c = true -> can_report e t x ba ->
  exists t', WebServer.SendHeartbeat Serialize c e (t :: ts) x = Ok (t' :: ts, Some (heartbeat_message e ba)).
Proof.
  intros ba Hnet Hdone [_ _ Hsz Hfd Hadd Hn Hcn Hw]. unfold WebServer.SendHeartbeat. rewrite Hdone. cbn [negb].
  fold (total_backlog (t :: ts)). fold ba.
  destruct (base_make WebServer.web_methods (law_config_law _ WebLoop.outstanding) t _ (WebServer.hb_inet_addr x) (WebServer.reverse_proxy_ip e)
    (WebServer.reverse_proxy_port e) (WebServer.hb_now x) (WebServer.hb_fd x) (WebServer.hb_connects x) (net_base _ _ Hnet) Hfd Hadd)
    as (o & t1 & -> & Hb1 & _ & Hm1 & Eo & Hcase). rewrite Hcn in Eo. destruct o as [u|]; [|done]. cbn [mbind res_bind].
  destruct Hcase as (c0 & c1 & _ & Hc1 & Hcfd & _). assert (conns t1 !! u = Some c1) as Hu1 by by rewrite Hc1, lookup_insert_eq.
  destruct (base_conn_make t1 _ u c1 Hb1 Hu1) as (t2 & c2 & m & Em & -> & Hb2 & Hc2 & Hm2 & _); [rewrite Hm1; cbn; lia|]. cbn [mbind res_bind].
  unfold MakeSendContext, alloc in Em. injection Em as <- <-. set (c2 := set_sending c1 _ _ _) in Hc2.
  destruct (pack_and_send t2 _ u c2 e ba (WebServer.hb_now x) Hb2 ltac:(by rewrite Hc2, lookup_insert_eq)) as (t' & E); try done.
  - rewrite Hm2, Hm1. cbn. lia.
  - cbn. change (0 < conn_FD c1). by rewrite Hcfd.
  - rewrite Hw. exists t'.
    destruct (conn_MakeSendContext t2 u) as [[p t3]|]; [|done]. cbn [mbind res_bind] in *.
    destruct (from_option Ok (Fault Dangling) (ctxs_ (memory_ t3) !! p)) as [ctx|]; [|done]. cbn [mbind res_bind] in *.
    destruct (HttpPacket.request_Pack _ _ _ _ _) as [b|]; [|done]. cbn [mbind res_bind] in *. by rewrite E.
Qed.

(** What the parser makes of the message. *)
Lemma heartbeat_parsed (e : WebServer.ServerConfig) (ba : bytes) (segs : list bytes) :
  HeaderField.token (WebServer.reverse_proxy_ip e) -> ba <> [] -> zlen ba < 10 ^ 8 -> zlen (heartbeat_message e ba) < 2 ^ 31 ->
  EndToEnd.segments segs (heartbeat_message e ba) ->
  exists q, ProxyPath.completes (ProxyForward.PRequest HttpPacket.new_request) [] segs (ProxyForward.PRequest q) /\
    HttpPacket.is_upgrade_to_ws_ (HttpPacket.sub q) = false /\ ProxyPath.body_in q (concat segs) = Ok (Some ba).
Proof.
  intros Hh Hne Hb Hl Hs.
  destruct (HttpProps.request_message_outcome (WebServer.reverse_proxy_ip e) (str "/") None ba (slash_ok _ _ Hh Hb) Hne Hl)
    as (q & Hq & (He & Hline & _) & Hup & Hbody). exists q.
  assert (heartbeat_message e ba <> []) as Hn by apply HttpProps.message_nonnil. split_and!.
  - apply EndToEnd.ends_request. eapply (EndToEnd.whole_ends _ _ _ _ 0 Hs Hn Hl); [|done]. by rewrite HttpTheory.DoParse_outcome.
  - rewrite Hup. unfold HttpPacket.request_fields. generalize (HttpPacket.len_str (zlen ba)), (WebServer.reverse_proxy_ip e). reflexivity.
  - unfold ProxyPath.body_in, HttpPacket.request_Body. rewrite Hline. cbn [FirstLine.method_]. rewrite bool_decide_false by done.
    destruct Hs as [-> _]. unfold heartbeat_message. by rewrite Hbody.
Qed.

(** The proxy reads it. *)
Lemma heartbeat_read (PH : bytes -> option Z * Z) (y : ProxyForward.forward_io) (t : ProxyForward.NetThread) (Q : list nat) (C : nat)
    (cc : ProxyForward.Conn) (e : WebServer.ServerConfig) (ba : bytes) (segs : list bytes) (p n : Z) (j : nat)
    (s : LoadBalancer.WebServerProfile) :
  let b := ProxyForward.balancer_ (derived_ t) in
  base_inv Q t -> conns t !! C = Some cc -> conn_type cc = kAcceptFrom ->
  ProxyPath.http_input cc [] (ProxyForward.PRequest HttpPacket.new_request) -> ProxyPath.room cc (length segs) ->
  Z.of_nat (next_ (memory_ t)) < 2 ^ 32 ->
  HeaderField.token (WebServer.reverse_proxy_ip e) -> ba <> [] -> zlen ba < 10 ^ 8 -> zlen (heartbeat_message e ba) < 2 ^ 31 ->
  EndToEnd.segments segs (heartbeat_message e ba) -> PH ba = (Some p, n) ->
  list_find (fun s => LoadBalancer.ip s = remote_ip_ cc /\ LoadBalancer.port s = wrap16 p) (LoadBalancer.web_servers_ b) = Some (j, s) ->
  exists rc tm t', ProxyPath.segments_hand_over t C segs rc tm /\
    ProxyForward.HandleApplicationPacket PH y rc tm = Ok (true, t', []) /\
    ProxyForward.balancer_ (derived_ t') = LoadBalancer.OnRecvHeartbeat b j (wrap32 n) (ProxyForward.fw_now y) /\
    conns t' = delete C (conns t).
Proof.
  intros b Hb HC Hty Hin Hr Hlt Hh Hne Hba Hl Hs Hp Hfind.
  destruct (heartbeat_parsed e ba segs Hh Hne Hba Hl Hs) as (q & Hco & Hup & Hbody).
  destruct (ProxyPath.read_packet segs t Q C cc [] _ (ProxyForward.PRequest q) Hb HC Hin Hr) as (tm & cc' & Hpk & Hh'); try done; [apply Hs|].
  set (rc := ProxyPath.packet_context t C cc (ProxyForward.PRequest q)) in *. destruct Hpk as [H1 H2 [_ H3 H3' _] _ _ H9 _]. cbn [app] in H3'.
  assert (conns tm !! C = Some cc') as HC' by by rewrite H2, lookup_insert_eq.
  assert (rc_type rc = kAcceptFrom) as Hrt by exact Hty.
  assert (Eh : ProxyForward.HandleApplicationPacket PH y rc tm = ProxyForward.HandleHttpRequest PH y rc tm)
    by (unfold ProxyForward.HandleApplicationPacket; cbn; unfold ProxyForward.HandleHttpPacket; by rewrite Hrt).
  exists rc, tm. rewrite Eh. unfold ProxyForward.HandleHttpRequest. rewrite bool_decide_true by done. cbn [assert_ mbind res_bind].
  change (rc_tcp_connection_uid rc) with (Z.of_nat C). rewrite Nat2Z.id.
  destruct (ProxyForward.thread_get tm _ C cc' H1 HC') as [_ ->]. cbn [mbind res_bind].
  assert (ProxyForward.heartbeat_body rc cc' = Ok (Some ba)) as Hbd by (rewrite <- Hbody, <- H3'; done).
  rewrite Hbd. cbn [mbind res_bind]. unfold ProxyServer.CheckHeartbeat. rewrite H9. fold b.
  change (rc_from_ip rc) with (remote_ip_ cc). rewrite (ProxyServer.heartbeat_loop_parsed PH _ 0 _ ba None p n b _ Hp) by by left.
  rewrite Hfind. cbn [mbind res_bind Nat.add]. set (t1 := ProxyForward.set_balancer tm _).
  assert (exists Q', base_inv Q' t1) as [Q' Hb1] by (destruct H1; eexists; by split).
  destruct (base_del t1 Q' C cc' Hb1 HC') as (t' & -> & _ & Hc' & _ & (Hd' & _)). cbn [mbind res_bind]. exists t'.
  split_and!; [done|done|by rewrite Hd'|]. rewrite Hc'. change (conns t1) with (conns tm). by rewrite H2, delete_insert_eq.
Qed.

Lemma total_backlog_range (t : WebServer.NetThread) (ts : list WebServer.NetThread) : wrap32 (total_backlog (t :: ts)) = total_backlog (t :: ts).
Proof.
  assert (H : forall ts b, wrap32 b = b -> wrap32 (fold_left (fun b t => wrap32 (b + WebServer.Backlog t)) ts b)
                          = fold_left (fun b t => wrap32 (b + WebServer.Backlog t)) ts b).
  { clear. induction ts as [|t ts IH]; intros b Hb; cbn [fold_left]; [done|]. apply IH. unfold wrap32. by rewrite Z.mod_mod. }
  by apply H.
Qed.

(** ** Properties *)

(** C9: The heartbeat of a web server reaches the balancer of the proxy. The main thread of the web server
    sends one POST request with its backlog and its port. When the bytes of it arrive at the proxy, in
    whatever segments of 1 to 4096 bytes, on a connection from the address of a registered web server with this port, the
    proxy marks the first such server as up from now on, with this backlog; it changes no other server,
    answers nothing and closes the connection. A server with a positive weight can then be
    selected. *)
Theorem heartbeat_marks_up (Serialize : Z -> Z -> bytes) (PH : bytes -> option Z * Z) (c : ServerConfig.ServerConfigBase)
    (e : WebServer.ServerConfig) (tw : WebServer.NetThread) (ts : list WebServer.NetThread) (x : WebServer.heartbeat_io)
    (y : ProxyForward.forward_io) (t : ProxyForward.NetThread) (Q : list nat) (C : nat) (cc : ProxyForward.Conn) (segs : list bytes)
    (j : nat) (s : LoadBalancer.WebServerProfile)
    (Hproto : PH (Serialize (total_backlog (tw :: ts)) (ServerConfig.port c)) = (Some (ServerConfig.port c), total_backlog (tw :: ts)))
    (Hport : 0 <= ServerConfig.port c < 2 ^ 16)
    (Hweb : WebLoop.web_inv tw) (Hdone : ServerConfig.is_config_done c = true)
    (Hrep : can_report e tw x (Serialize (total_backlog (tw :: ts)) (ServerConfig.port c)))
    (Hb : base_inv Q t) (HC : conns t !! C = Some cc) (Hty : conn_type cc = kAcceptFrom)
    (Hin : ProxyPath.http_input cc [] (ProxyForward.PRequest HttpPacket.new_request)) (Hroom : ProxyPath.room cc (length segs))
    (Hnext : Z.of_nat (next_ (memory_ t)) < 2 ^ 32)
    (Hsegs : EndToEnd.segments segs (heartbeat_message e (Serialize (total_backlog (tw :: ts)) (ServerConfig.port c))))
    (Hreg : list_find (fun s => LoadBalancer.ip s = remote_ip_ cc /\ LoadBalancer.port s = ServerConfig.port c)
              (LoadBalancer.web_servers_ (ProxyForward.balancer_ (derived_ t))) = Some (j, s)) :
  exists tw' rc tm t', WebServer.SendHeartbeat Serialize c e (tw :: ts) x = Ok (tw' :: ts, Some (concat segs)) /\
    ProxyPath.segments_hand_over t C segs rc tm /\
    ProxyForward.HandleApplicationPacket PH y rc tm = Ok (true, t', []) /\ conns t' = delete C (conns t) /\
    (exists s', LoadBalancer.web_servers_ (ProxyForward.balancer_ (derived_ t')) !! j = Some s' /\
       (LoadBalancer.ip s', LoadBalancer.port s', LoadBalancer.weight s') = (LoadBalancer.ip s, LoadBalancer.port s, LoadBalancer.weight s) /\
       LoadBalancer.is_down s' = false /\ LoadBalancer.backlog s' = total_backlog (tw :: ts) /\
       LoadBalancer.last_heartbeat_ts s' = ProxyForward.fw_now y /\
       forall now, 0 < LoadBalancer.weight s -> (LoadBalancer.__IsWebServerAvailable s' now).1 = true) /\
    forall i, i <> j -> LoadBalancer.web_servers_ (ProxyForward.balancer_ (derived_ t')) !! i
                        = LoadBalancer.web_servers_ (ProxyForward.balancer_ (derived_ t)) !! i.
Proof.
  destruct (heartbeat_sent Serialize c e tw ts x Hweb Hdone Hrep) as (tw' & Es). pose proof Hrep as [Hh [Hne Hba] Hl _ _ _ _ _].
  assert (wrap16 (ServerConfig.port c) = ServerConfig.port c) as Ew by (apply Z.mod_small; lia).
  destruct (heartbeat_read PH y t Q C cc e (Serialize (total_backlog (tw :: ts)) (ServerConfig.port c)) segs (ServerConfig.port c)
    (total_backlog (tw :: ts)) j s) as (rc & tm & t' & Hh' & E & Hbal & Hc'); try done; [by rewrite Ew|].
  exists tw', rc, tm, t'. rewrite total_backlog_range in Hbal. unfold LoadBalancer.OnRecvHeartbeat in Hbal.
  apply list_find_Some in Hreg as (Hj & _). rewrite Hj in Hbal.
  split_and!; [destruct Hsegs as [-> _]; exact Es|done|done|done| |].
  - eexists. rewrite Hbal. cbn [LoadBalancer.set_server LoadBalancer.web_servers_].
    rewrite list_lookup_insert_eq by by eapply lookup_lt_Some. split; [done|]. split_and!; try done.
    intros now Hw. unfold LoadBalancer.__IsWebServerAvailable. cbn. destruct (Z.leb_spec (LoadBalancer.weight s) 0); [lia|done].
  - intros i Hi. rewrite Hbal. cbn [LoadBalancer.set_server LoadBalancer.web_servers_]. by rewrite list_lookup_insert_ne.
Qed.

(** *** A web server that reports to the proxy *)

(** A code for the message, in place of the one the protobuf compiler generates. *)
Definition demo_serialize (n p : Z) : bytes := [n; p / 256; p mod 256].
Definition demo_parse (b : bytes) : option Z * Z := match b with [n; h; l] => (Some (256 * h + l), n) | _ => (None, 0) end.

Definition demo_config : ServerConfig.ServerConfigBase := ServerConfig.mkConfig 5002 4 100 true.
Definition demo_web_config : WebServer.ServerConfig := WebServer.mkWebConfig 10 4 (str "10.0.0.1") 80 true 30000.
Definition demo_message : bytes := heartbeat_message demo_web_config (demo_serialize 0 5002).
Definition demo_segments : list bytes := [take 30 demo_message; drop 30 demo_message].
Definition demo_io : WebServer.heartbeat_io :=
  WebServer.mkHeartbeatIo (fun _ => 0) 9 [0] (UnixSocket.Wrote (zlen demo_message)) 0.

(** The server is registered and has been reported as down. *)
Definition demo_server : LoadBalancer.WebServerProfile := LoadBalancer.mkServer (str "10.0.0.7") 5002 1 0 0 true false 0 1.
Definition demo_proxy : ProxyForward.NetThread :=
  ProxyForward.set_balancer ProxyForward.proxy_accepted (LoadBalancer.mkBalancer LoadBalancer.kPoll [ProxyForward.demo_host; demo_server] 0 0).

Lemma heartbeat_marks_up_witness :
  exists rc tm t', ProxyPath.segments_hand_over demo_proxy 1 demo_segments rc tm /\
    ProxyForward.HandleApplicationPacket demo_parse (ProxyForward.demo_io 0) rc tm = Ok (true, t', []) /\
    exists s', LoadBalancer.web_servers_ (ProxyForward.balancer_ (derived_ t')) !! 1%nat = Some s' /\ LoadBalancer.is_down s' = false.
Proof.
  destruct (heartbeat_marks_up demo_serialize demo_parse demo_config demo_web_config WebLoop.accepting_thread [] demo_io
    (ProxyForward.demo_io 0) demo_proxy [] 1 ProxyPath.relay_client demo_segments 1 demo_server)
    as (tw' & rc & tm & t' & _ & H1 & H2 & _ & (s' & H3 & _ & H4 & _) & _).
  - vm_compute. reflexivity.
  - vm_compute. split; [discriminate|reflexivity].
  - exact WebLoop.accepting_inv.
  - reflexivity.
  - split.
    + apply HeaderField.token_dec. reflexivity.
    + split; [discriminate|vm_compute; reflexivity].
    + vm_compute. reflexivity.
    + vm_compute. reflexivity.
    + apply can_add_compute; vm_compute; [lia|reflexivity].
    + vm_compute. reflexivity.
    + vm_compute. reflexivity.
    + vm_compute. reflexivity.
  - destruct ProxyPath.proxy_accepted_inv. split; assumption.
  - exact ProxyPath.relay_client_live.
  - vm_compute. reflexivity.
  - exact ProxyPath.relay_client_input.
  - vm_compute. reflexivity.
  - vm_compute. reflexivity.
  - split; [vm_compute; reflexivity|]. unfold demo_segments. repeat (constructor; [vm_compute; split; [reflexivity|discriminate]|]). constructor.
  - vm_compute. reflexivity.
  - exists rc, tm, t'. split; [exact H1|]. split; [exact H2|]. exists s'. exact (conj H3 H4).
Defined.

End HeartbeatPath.
