(* ===== verification/Coroutine.v ===== *)
(** * Coroutines (utils/coroutine/coroutine.h, coroutine.cc, coroutine_util.S)

    Coroutines share one stack: a coroutine that yields has its frames copied
    from the stack into a buffer of its own, and copied back before it is
    resumed. The model has the memory of the stack by words of eight bytes, the
    stack pointer, the other registers and the instruction pointer. What the
    calls store below the stack pointer is written down where it can be read
    again. *)
From stdpp Require Import relations.
From S2P Require Import Prelude CLib.

Module Coroutine.

(** ** Definitions *)

(** The registers other than [rsp] and [rip] are a list. *)
Record cpu := mkCpu { mem : Z -> Z; rsp : Z; others : list Z; rip : Z }.

Definition store (m : Z -> Z) (a v : Z) : Z -> Z := fun b => if b =? a then v else m b.

(** [stack_frames_buf] is the words written to it so far. *)
Record CoroutineContext := mkContext {
  ctx_others : list Z;
  ctx_rsp : Z;
  co_resume_addr : Z;
  stack_frames_start : Z;
  stack_frames_len : Z;
  stack_frames_buf : list Z;
  stack_frames_buf_capacity : Z
}.

Record CoroutineProfile := mkProfile {
  co_uid_ : Z;
  co_ctx_ : CoroutineContext;
  co_entry_ : Z;
  has_start_ : bool
}.

Definition kInvalidUid : Z := 0.
Definition kCoStackFramesBufMallocUnit : Z := 1024.
Definition kMaxCoStackFramesBuffSize : Z := 102400.

Definition InitialCoContext : CoroutineContext :=
  mkContext (replicate 15 0) 0 0 0 0 [] kCoStackFramesBufMallocUnit.

Definition set_resume (c : CoroutineContext) (a : Z) : CoroutineContext :=
  mkContext (ctx_others c) (ctx_rsp c) a (stack_frames_start c) (stack_frames_len c) (stack_frames_buf c)
    (stack_frames_buf_capacity c).

(** The constructor: [curr_uid] is the static counter. *)
Definition new_CoroutineProfile (entry curr_uid : Z) : CoroutineProfile * Z :=
  let uid := add64 curr_uid 1 in
  (mkProfile uid (set_resume InitialCoContext entry) entry false, uid).

Definition SetEntry (p : CoroutineProfile) (entry : Z) : res CoroutineProfile :=
  _ ← assert_ (negb (has_start_ p));
  Ok (mkProfile (co_uid_ p) (set_resume (co_ctx_ p) entry) (co_entry_ p) (has_start_ p)).

(** [CheckStackFramesBufCapacity]; [realloc] keeps the contents. *)
Definition CheckStackFramesBufCapacity (c : CoroutineContext) : res CoroutineContext :=
  if stack_frames_buf_capacity c <? stack_frames_len c then
    _ ← assert_ (stack_frames_len c <? kMaxCoStackFramesBuffSize);
    let malloc_unit := kCoStackFramesBufMallocUnit in
    let new_capacity := stack_frames_len c in
    let new_capacity :=
      if negb (new_capacity mod malloc_unit =? 0) then (new_capacity / malloc_unit + 1) * malloc_unit else new_capacity in
    Ok (mkContext (ctx_others c) (ctx_rsp c) (co_resume_addr c) (stack_frames_start c) (stack_frames_len c)
          (stack_frames_buf c) new_capacity)
  else Ok c.

(** The turns of the loops of [SaveStackFrames] and [RestoreStackFrames]: the
    count goes down by eight, and the loop is left when nothing is left or the
    subtraction borrows. *)
Definition turns (len : Z) : nat := Z.to_nat (Z.max 1 ((len + 7) / 8)).

Definition frame_words (m : Z -> Z) (start : Z) (n : nat) : list Z :=
  (fun i => m (start - 8 * Z.of_nat i)) <$> seq 0 n.

(** [SaveStackFrames]: the words from [start] downwards go to the buffer, which
    must have room for them. *)
Definition SaveStackFrames (m : Z -> Z) (c : CoroutineContext) : res CoroutineContext :=
  let n := turns (stack_frames_len c) in
  if 8 * Z.of_nat n <=? stack_frames_buf_capacity c then
    Ok (mkContext (ctx_others c) (ctx_rsp c) (co_resume_addr c) (stack_frames_start c) (stack_frames_len c)
          (frame_words m (stack_frames_start c) n ++ drop n (stack_frames_buf c)) (stack_frames_buf_capacity c))
  else Fault Undefined.

Definition restore_words (m : Z -> Z) (start : Z) (ws : list Z) : Z -> Z :=
  fun a => if (a <=? start) && (start - 8 * zlen ws <? a) && ((start - a) mod 8 =? 0)
           then nth (Z.to_nat ((start - a) / 8)) ws 0 else m a.

(** [RestoreStackFrames], called with the stack pointer at [sp]: its own return
    address is at [sp - 8], and a frame restored there would be jumped to. *)
Definition RestoreStackFrames (m : Z -> Z) (sp : Z) (c : CoroutineContext) : res (Z -> Z) :=
  let n := turns (stack_frames_len c) in
  let start := stack_frames_start c in
  if (length (stack_frames_buf c) <? n)%nat then Fault Undefined
  else if (start - 8 * (Z.of_nat n - 1) <=? sp - 8) && (sp - 8 <=? start) then Fault Undefined
  else Ok (restore_words m start (take n (stack_frames_buf c))).

Section Yield.

(** The address of the instruction after [callq SaveRbxToR15] in [SwitchCoroutine]. *)
Context (save_ret : Z).

(** [SwitchCoroutine(_from, _to)]: [ra] is its return address. It is at [rsp - 8],
    that of the call of [SaveRbxToR15] below it. *)
Definition SwitchCoroutine (k : cpu) (ra : Z) (from to : CoroutineContext) : CoroutineContext * cpu :=
  let m := store (store (mem k) (rsp k - 8) ra) (rsp k - 16) save_ret in
  let from := mkContext (others k) (rsp k) ra (stack_frames_start from) (stack_frames_len from) (stack_frames_buf from)
                (stack_frames_buf_capacity from) in
  (from, mkCpu (store m (ctx_rsp to - 8) (co_resume_addr to)) (ctx_rsp to) (ctx_others to) (co_resume_addr to)).

(** [StartCoroutine(_from, _to)]: the entry is pushed after the return address
    [ra] of the call, which the entry will find as its own. *)
Definition StartCoroutine (k : cpu) (ra : Z) (from to : CoroutineContext) : CoroutineContext * CoroutineContext * cpu :=
  let from := mkContext (others k) (rsp k) ra (stack_frames_start from) (stack_frames_len from) (stack_frames_buf from)
                (stack_frames_buf_capacity from) in
  let to' := mkContext (ctx_others to) (ctx_rsp to) (co_resume_addr to) (rsp k - 16) (stack_frames_len to)
               (stack_frames_buf to) (stack_frames_buf_capacity to) in
  (from, to', mkCpu (store (store (mem k) (rsp k - 8) ra) (rsp k - 16) (co_resume_addr to)) (rsp k - 8) (others k)
                (co_resume_addr to)).

Definition set_ctx (p : CoroutineProfile) (c : CoroutineContext) : CoroutineProfile :=
  mkProfile (co_uid_ p) c (co_entry_ p) (has_start_ p).

Definition set_len (c : CoroutineContext) (len : Z) : CoroutineContext :=
  mkContext (ctx_others c) (ctx_rsp c) (co_resume_addr c) (stack_frames_start c) len (stack_frames_buf c)
    (stack_frames_buf_capacity c).

(** The frames of the coroutine that yields, with the stack pointer at [sp]. *)
Definition save_frames (m : Z -> Z) (sp : Z) (p : CoroutineProfile) : res CoroutineProfile :=
  if has_start_ p then
    let c := co_ctx_ p in
    _ ← assert_ (sp <=? stack_frames_start c);
    let c := set_len c (stack_frames_start c - sp + 8) in
    c ← CheckStackFramesBufCapacity c;
    c ← SaveStackFrames m c;
    Ok (set_ctx p c)
  else Ok p.

(** [CoYieldTo] of one profile to another: the two profiles and the processor.
    [ra] and [ra'] are the return addresses of the two calls in it. *)
Definition CoYieldTo (k : cpu) (ra ra' : Z) (this to : CoroutineProfile) : res (CoroutineProfile * CoroutineProfile * cpu) :=
  this ← save_frames (mem k) (rsp k) this;
  if has_start_ to then
    _ ← assert_ (stack_frames_len (co_ctx_ this) <? kMaxCoStackFramesBuffSize);
    m ← RestoreStackFrames (mem k) (rsp k) (co_ctx_ to);
    let '(c, k) := SwitchCoroutine (mkCpu m (rsp k) (others k) (rip k)) ra (co_ctx_ this) (co_ctx_ to) in
    Ok (set_ctx this c, to, k)
  else
    _ ← assert_ (negb (co_resume_addr (co_ctx_ to) =? 0));
    let '(c, c', k) := StartCoroutine k ra' (co_ctx_ this) (co_ctx_ to) in
    Ok (set_ctx this c, mkProfile (co_uid_ to) c' (co_entry_ to) true, k).

(** *** The dispatcher *)

(** The profiles, the main one first, and the place of [curr_coro_]. *)
Record CoroutineDispatcher := mkDispatcher { coroutines_ : list CoroutineProfile; curr_coro_ : nat }.

Definition new_CoroutineDispatcher (main : CoroutineProfile) : CoroutineDispatcher := mkDispatcher [main] 0.

Definition AddCoroutine (d : CoroutineDispatcher) (p : CoroutineProfile) : CoroutineDispatcher :=
  mkDispatcher (coroutines_ d ++ [p]) (curr_coro_ d).

Definition DelCoroutine (d : CoroutineDispatcher) (p : CoroutineProfile) : CoroutineDispatcher := d.

(** [coroutines_[i]->CoYieldTo(coroutines_[j])]; the assertion at its start
    compares the pointers. *)
Definition yield_at (d : CoroutineDispatcher) (k : cpu) (ra ra' : Z) (i j : nat) : res (CoroutineDispatcher * cpu) :=
  match coroutines_ d !! i, coroutines_ d !! j with
  | Some this, Some to =>
      _ ← assert_ (negb (i =? j)%nat);
      '(this, to, k) ← CoYieldTo k ra ra' this to;
      Ok (mkDispatcher (<[j := to]> (<[i := this]> (coroutines_ d))) j, k)
  | _, _ => Fault Undefined
  end.

Definition CoStart (d : CoroutineDispatcher) (k : cpu) (ra ra' : Z) : res (CoroutineDispatcher * cpu) :=
  if (length (coroutines_ d) <=? 1)%nat then Ok (d, k) else yield_at d k ra ra' 0 1.

(** The place after [i], the main coroutine left out. *)
Definition next_place (d : CoroutineDispatcher) (i : nat) : nat :=
  if (S i =? length (coroutines_ d))%nat then 1%nat else S i.

Definition CoYieldCurr (d : CoroutineDispatcher) (k : cpu) (ra ra' : Z) : res (CoroutineDispatcher * cpu) :=
  yield_at d k ra ra' (curr_coro_ d) (next_place d (curr_coro_ d)).

(** ** Specifications *)

(** What happens while coroutine [a] does not run: the one that runs computes,
    it yields to another, or a coroutine is added. *)
Inductive co_step (a : nat) : CoroutineDispatcher * cpu -> CoroutineDispatcher * cpu -> Prop :=
| co_work d k k' : curr_coro_ d <> a -> co_step a (d, k) (d, k')
| co_yield d k ra ra' j d' k' :
    curr_coro_ d <> a -> j <> a -> yield_at d k ra ra' (curr_coro_ d) j = Ok (d', k') -> co_step a (d, k) (d', k')
| co_add d k p : co_step a (d, k) (AddCoroutine d p, k).

(** What happens to the dispatcher at all. *)
Inductive run_step : CoroutineDispatcher * cpu -> CoroutineDispatcher * cpu -> Prop :=
| run_work d k k' : run_step (d, k) (d, k')
| run_yield d k ra ra' j d' k' :
    yield_at d k ra ra' (curr_coro_ d) j = Ok (d', k') -> run_step (d, k) (d', k')
| run_add d k p : run_step (d, k) (AddCoroutine d p, k).

(** Coroutine [b] was started with its frames below [start]; unless it runs, it has yielded from them. *)
Definition started_at (b : nat) (start : Z) (d : CoroutineDispatcher) : Prop :=
  exists q, coroutines_ d !! b = Some q /\ has_start_ q = true /\ stack_frames_start (co_ctx_ q) = start /\
    (curr_coro_ d = b \/ ctx_rsp (co_ctx_ q) <= start).

(** ** Lemmas *)

Lemma turns_frames (start sp : Z) :
  sp <= start -> (start - sp) mod 8 = 0 -> turns (start - sp + 8) = Z.to_nat ((start - sp) / 8 + 1).
Proof.
  intros Hle Hm. unfold turns. f_equal. pose proof (Z.div_mod (start - sp) 8 ltac:(lia)) as E. rewrite Hm in E.
  assert (0 <= (start - sp) / 8) by (apply Z.div_pos; lia).
  replace (start - sp + 8 + 7) with (7 + ((start - sp) / 8 + 1) * 8) by lia. rewrite Z.div_add by lia.
  change (7 / 8) with 0. lia.
Qed.

Lemma frame_words_lookup (m : Z -> Z) (start : Z) (n i : nat) :
  (i < n)%nat -> nth i (frame_words m start n) 0 = m (start - 8 * Z.of_nat i).
Proof.
  intros Hi. apply nth_lookup_Some. unfold frame_words. rewrite list_lookup_fmap, lookup_seq_lt by done. done.
Qed.

Lemma frame_words_length (m : Z -> Z) (start : Z) (n : nat) : length (frame_words m start n) = n.
Proof. unfold frame_words. by rewrite length_fmap, length_seq. Qed.

(** Restoring what was saved gives back the words of the frames. *)
Lemma restore_saved (m0 m : Z -> Z) (start sp : Z) (a : Z) :
  sp <= start -> (start - sp) mod 8 = 0 -> sp <= a <= start -> (start - a) mod 8 = 0 ->
  restore_words m start (frame_words m0 start (turns (start - sp + 8))) a = m0 a.
Proof.
  intros Hle Hm Ha Hma. unfold restore_words. rewrite frame_words_length, turns_frames by done.
  pose proof (Z.div_mod (start - sp) 8 ltac:(lia)) as E. rewrite Hm in E.
  pose proof (Z.div_mod (start - a) 8 ltac:(lia)) as Ea. rewrite Hma in Ea.
  assert (0 <= (start - a) / 8) by (apply Z.div_pos; lia).
  assert ((start - a) / 8 <= (start - sp) / 8) by (apply Z.div_le_mono; lia).
  destruct (Z.leb_spec a start); [|lia]. destruct (Z.ltb_spec (start - 8 * Z.of_nat (Z.to_nat ((start - sp) / 8 + 1))) a); [|lia].
  rewrite Hma. cbn [andb Z.eqb]. rewrite frame_words_lookup by lia. f_equal. lia.
Qed.

(** The context of a coroutine that has yielded at [k], to be resumed at [ra]. *)
Record yielded (p : CoroutineProfile) (k : cpu) (start ra : Z) : Prop := {
  yi_start : has_start_ p = true;
  yi_frames : stack_frames_start (co_ctx_ p) = start;
  yi_len : stack_frames_len (co_ctx_ p) = start - rsp k + 8;
  yi_buf : take (turns (start - rsp k + 8)) (stack_frames_buf (co_ctx_ p)) = frame_words (mem k) start (turns (start - rsp k + 8));
  yi_rsp : ctx_rsp (co_ctx_ p) = rsp k;
  yi_others : ctx_others (co_ctx_ p) = others k;
  yi_resume : co_resume_addr (co_ctx_ p) = ra
}.

Lemma save_frames_ok (m : Z -> Z) (sp : Z) (p p' : CoroutineProfile) :
  has_start_ p = true -> save_frames m sp p = Ok p' ->
  let start := stack_frames_start (co_ctx_ p) in
  has_start_ p' = true /\ stack_frames_start (co_ctx_ p') = start /\ stack_frames_len (co_ctx_ p') = start - sp + 8 /\
  take (turns (start - sp + 8)) (stack_frames_buf (co_ctx_ p')) = frame_words m start (turns (start - sp + 8)) /\ sp <= start.
Proof.
  intros Hs. unfold save_frames. rewrite Hs. destruct (Z.leb_spec sp (stack_frames_start (co_ctx_ p))) as [Hle|]; [|done]. cbn [assert_ mbind res_bind].
  intros E. apply bind_Ok in E as (c & Ec & E). apply bind_Ok in E as (c' & Ec' & E). injection E as <-. cbv zeta.
  assert (stack_frames_start c = stack_frames_start (co_ctx_ p) /\ stack_frames_len c = stack_frames_start (co_ctx_ p) - sp + 8) as [H1 H2].
  { unfold CheckStackFramesBufCapacity in Ec. destruct (_ <? _); [|by injection Ec as <-]. destruct (_ <? _) in Ec; [|done].
    cbn [assert_ mbind res_bind] in Ec. by injection Ec as <-. }
  unfold SaveStackFrames in Ec'. destruct (_ <=? _); [|done]. injection Ec' as <-. cbn. rewrite H1, H2.
  split_and!; try done. by rewrite take_app_length' by (symmetry; apply frame_words_length).
Qed.

Lemma CoYieldTo_yielded k ra ra' this to this' to' k' :
  has_start_ this = true -> CoYieldTo k ra ra' this to = Ok (this', to', k') ->
  yielded this' k (stack_frames_start (co_ctx_ this)) (if has_start_ to then ra else ra') /\
  rsp k <= stack_frames_start (co_ctx_ this).
Proof.
  intros Hs. unfold CoYieldTo. intros E. apply bind_Ok in E as (p & Ep & E).
  destruct (save_frames_ok _ _ _ _ Hs Ep) as (H1 & H2 & H3 & H4 & H5). destruct (has_start_ to).
  - destruct (_ <? _) in E; [|done]. cbn [assert_ mbind res_bind] in E. apply bind_Ok in E as (m & Em & E).
    injection E as <- <- <-. split; [|done]. by split.
  - destruct (negb _) in E; [|done]. cbn in E. injection E as <- <- <-. split; [|done]. by split.
Qed.

(** The only word of the frames that the calls made meanwhile can reach is the first one. *)
Lemma CoYieldTo_resumes k ra ra' this to this' to' k' k0 start ra0 :
  yielded to k0 start ra0 -> rsp k0 <= start -> (start - rsp k0) mod 8 = 0 -> (start - rsp k) mod 8 = 0 ->
  CoYieldTo k ra ra' this to = Ok (this', to', k') ->
  rsp k' = rsp k0 /\ others k' = others k0 /\ rip k' = ra0 /\
  (forall a, rsp k0 <= a <= start -> (start - a) mod 8 = 0 -> a < start \/ rsp k <> start + 16 -> mem k' a = mem k0 a) /\
  (rsp k = start + 16 -> mem k' start = save_ret).
Proof.
  intros [Hs Hf Hl Hb Hr Ho Hra] Hle Hm Hk. unfold CoYieldTo. rewrite Hs. intros E. apply bind_Ok in E as (p & Ep & E).
  destruct (_ <? _) in E; [|done]. cbn [assert_ mbind res_bind] in E. apply bind_Ok in E as (m & Em & E).
  injection E as <- <- <-. cbn. split_and!; try done; unfold store; rewrite Hr.
  - intros a Ha Hma Htop. unfold RestoreStackFrames in Em. rewrite Hf, Hl, Hb in Em.
    destruct (_ <? _)%nat in Em; [done|]. rewrite turns_frames in Em by done.
    destruct (_ && _) eqn:Hin in Em; [done|]. injection Em as <-. rewrite <- (turns_frames start (rsp k0)) by done.
    assert (rsp k - 8 < rsp k0 \/ start < rsp k - 8) as Hout.
    { pose proof (Z.div_mod (start - rsp k0) 8 ltac:(lia)). apply andb_false_iff in Hin as [Hin%Z.leb_gt|Hin%Z.leb_gt]; lia. }
    destruct (Z.eqb_spec a (rsp k0 - 8)); [lia|]. destruct (Z.eqb_spec a (rsp k - 16)).
    + exfalso. pose proof (Z.div_mod (start - rsp k) 8 ltac:(lia)). lia.
    + destruct (Z.eqb_spec a (rsp k - 8)); [lia|]. by apply restore_saved.
  - intros Hsp. destruct (Z.eqb_spec start (rsp k0 - 8)); [lia|]. destruct (Z.eqb_spec start (rsp k - 16)); [done|lia].
Qed.

Lemma CoYieldTo_switch k ra ra' this to this' to' k' :
  has_start_ to = true -> CoYieldTo k ra ra' this to = Ok (this', to', k') ->
  to' = to /\ exists m, mem k' = store (store (store m (rsp k - 8) ra) (rsp k - 16) save_ret)
                              (ctx_rsp (co_ctx_ to) - 8) (co_resume_addr (co_ctx_ to)).
Proof.
  intros Hs. unfold CoYieldTo. rewrite Hs. intros E. apply bind_Ok in E as (p & _ & E).
  apply bind_Ok in E as (u & _ & E). apply bind_Ok in E as (m & _ & E). injection E as _ <- <-. by eauto.
Qed.

Lemma CoYieldTo_start k ra ra' this to this' to' k' :
  has_start_ to = false -> CoYieldTo k ra ra' this to = Ok (this', to', k') ->
  has_start_ to' = true /\ stack_frames_start (co_ctx_ to') = rsp k - 16 /\
  mem k' (rsp k - 16) = co_resume_addr (co_ctx_ to).
Proof.
  intros Hs. unfold CoYieldTo. rewrite Hs. intros E. apply bind_Ok in E as (p & _ & E).
  apply bind_Ok in E as (u & _ & E). injection E as _ <- <-. cbn. unfold store. by rewrite Z.eqb_refl.
Qed.

Lemma yield_at_Ok d k ra ra' i j d' k' :
  yield_at d k ra ra' i j = Ok (d', k') ->
  exists this to this' to', coroutines_ d !! i = Some this /\ coroutines_ d !! j = Some to /\
    CoYieldTo k ra ra' this to = Ok (this', to', k') /\ i <> j /\
    d' = mkDispatcher (<[j := to']> (<[i := this']> (coroutines_ d))) j.
Proof.
  unfold yield_at. destruct (coroutines_ d !! i) as [this|]; [|done]. destruct (coroutines_ d !! j) as [to|]; [|done].
  destruct (Nat.eqb_spec i j) as [|Hne]; [done|]. cbn [negb assert_ mbind res_bind]. intros E.
  apply bind_Ok in E as ([[this' to'] k1] & E1 & E). injection E as <- <-. by exists this, to, this', to'.
Qed.

Lemma yield_at_keeps d k ra ra' i j d' k' a :
  yield_at d k ra ra' i j = Ok (d', k') -> i <> a -> j <> a ->
  coroutines_ d' !! a = coroutines_ d !! a /\ curr_coro_ d' = j.
Proof.
  intros E Hi Hj. destruct (yield_at_Ok _ _ _ _ _ _ _ _ E) as (this & to & this' & to' & _ & _ & _ & _ & ->). cbn.
  by rewrite !list_lookup_insert_ne.
Qed.

Lemma yield_at_yielded d k ra ra' i j d' k' p :
  coroutines_ d !! i = Some p -> has_start_ p = true -> yield_at d k ra ra' i j = Ok (d', k') ->
  exists q rc, coroutines_ d' !! i = Some q /\ yielded q k (stack_frames_start (co_ctx_ p)) rc /\
    rsp k <= stack_frames_start (co_ctx_ p) /\ (rc = ra \/ rc = ra') /\ curr_coro_ d' <> i.
Proof.
  intros Hp Hs E. destruct (yield_at_Ok _ _ _ _ _ _ _ _ E) as (this & to & q & to' & Hi & Hj & Ey & Hne & ->).
  rewrite Hp in Hi. injection Hi as <-. destruct (CoYieldTo_yielded _ _ _ _ _ _ _ _ Hs Ey) as [Hyi Hle].
  exists q, (if has_start_ to then ra else ra'). pose proof (lookup_lt_Some _ _ _ Hp). split_and!; try done.
  - cbn. rewrite list_lookup_insert_ne by congruence. by apply list_lookup_insert_eq.
  - destruct (has_start_ to); auto.
Qed.

Lemma co_steps_keep a s s' p :
  rtc (co_step a) s s' -> curr_coro_ s.1 <> a -> coroutines_ s.1 !! a = Some p ->
  coroutines_ s'.1 !! a = Some p /\ curr_coro_ s'.1 <> a.
Proof.
  induction 1 as [s|s1 s2 s3 Hs _ IH]; [done|]. intros Hc Hp. apply IH; destruct Hs as [d k k' Hn|d k ra ra' j d' k' Hn Hj E|d k q]; cbn in *; try done.
  - destruct (yield_at_keeps _ _ _ _ _ _ _ _ a E Hn Hj) as [_ ->]. done.
  - destruct (yield_at_keeps _ _ _ _ _ _ _ _ a E Hn Hj) as [-> _]. done.
  - rewrite lookup_app_l; [done|]. by eapply lookup_lt_Some.
Qed.

(** Yields one after the other; before each the coroutine that runs computes. *)
Fixpoint yields (d : CoroutineDispatcher) (ks : list (cpu * Z * Z)) : res CoroutineDispatcher :=
  match ks with
  | [] => Ok d
  | (k, ra, ra') :: ks' => '(d, _) ← CoYieldCurr d k ra ra'; yields d ks'
  end.

Lemma CoYieldCurr_next d k ra ra' d' k' :
  CoYieldCurr d k ra ra' = Ok (d', k') ->
  curr_coro_ d' = next_place d (curr_coro_ d) /\ length (coroutines_ d') = length (coroutines_ d).
Proof.
  intros E. destruct (yield_at_Ok _ _ _ _ _ _ _ _ E) as (this & to & this' & to' & _ & _ & _ & _ & ->). cbn.
  by rewrite !length_insert.
Qed.

(** A coroutine that has started keeps the place of its frames. *)
Lemma run_step_started b start s s' : run_step s s' -> started_at b start s.1 -> started_at b start s'.1.
Proof.
  intros Hs (q & Hq & Hst & Hstart & Hc). destruct Hs as [d k k'|d k ra ra' j d' k' E|d k p]; cbn [fst] in *.
  - by exists q.
  - destruct (decide (curr_coro_ d = b)) as [Hb|Hb].
    + rewrite <- Hb in Hq. destruct (yield_at_yielded _ _ _ _ _ _ _ _ _ Hq Hst E) as (q' & rc & Hq' & Hy & Hle & _ & _).
      exists q'. rewrite <- Hb. destruct Hy. split_and!; [done|done|congruence|]. right. congruence.
    + destruct Hc as [|Hc]; [done|]. destruct (yield_at_Ok _ _ _ _ _ _ _ _ E) as (this & to & this' & to' & Hi & Hj & Ey & Hne & ->).
      destruct (decide (j = b)) as [->|Hjb].
      * rewrite Hq in Hj. injection Hj as <-. exists q. cbn. split_and!; [|done|done|by left].
        destruct (CoYieldTo_switch _ _ _ _ _ _ _ _ Hst Ey) as [-> _]. apply list_lookup_insert_eq.
        rewrite length_insert. by eapply lookup_lt_Some.
      * exists q. cbn. rewrite !list_lookup_insert_ne by done. auto.
  - exists q. cbn. rewrite lookup_app_l by (by eapply lookup_lt_Some). auto.
Qed.

Lemma runs_started b start s s' : rtc run_step s s' -> started_at b start s.1 -> started_at b start s'.1.
Proof. induction 1 as [|s1 s2 s3 H _ IH]; [done|]. eauto using run_step_started. Qed.

(** ** Theorems *)

(** C40: A coroutine that yields is resumed as it was: whatever the others do to the stack and the
    registers meanwhile, and however often they yield to each other, when one of them yields to it the
    stack pointer, the other registers and every word of its frames are those of the moment it
    yielded, and it goes on after its call. The first word of the frames is an exception when the one
    that yields to it does so at the depth from which it was started. *)
Theorem coroutine_resumes (a j : nat) (d0 d1 d2 d3 : CoroutineDispatcher) (k0 k1 k2 k3 : cpu) (ra ra' rb rb' : Z)
    (p : CoroutineProfile)
    (Hp : coroutines_ d0 !! a = Some p) (Hs : has_start_ p = true)
    (Hal : (stack_frames_start (co_ctx_ p) - rsp k0) mod 8 = 0)
    (Hal2 : (stack_frames_start (co_ctx_ p) - rsp k2) mod 8 = 0)
    (Hy : yield_at d0 k0 ra ra' a j = Ok (d1, k1)) (Hrun : rtc (co_step a) (d1, k1) (d2, k2))
    (Hback : yield_at d2 k2 rb rb' (curr_coro_ d2) a = Ok (d3, k3)) :
  rsp k3 = rsp k0 /\ others k3 = others k0 /\ (rip k3 = ra \/ rip k3 = ra') /\
  forall x, rsp k0 <= x <= stack_frames_start (co_ctx_ p) -> (stack_frames_start (co_ctx_ p) - x) mod 8 = 0 ->
    x < stack_frames_start (co_ctx_ p) \/ rsp k2 <> stack_frames_start (co_ctx_ p) + 16 -> mem k3 x = mem k0 x.
Proof.
  destruct (yield_at_yielded _ _ _ _ _ _ _ _ _ Hp Hs Hy) as (q & rc & Hq & Hyi & Hle & Hrc & Hne).
  destruct (co_steps_keep a _ _ q Hrun) as [Hp2 _]; [done|done|]. cbn [fst] in Hp2.
  destruct (yield_at_Ok _ _ _ _ _ _ _ _ Hback) as (this & to & q1 & p2 & _ & Hto & E2 & _). rewrite Hp2 in Hto. injection Hto as <-.
  destruct (CoYieldTo_resumes _ _ _ _ _ _ _ _ _ _ _ Hyi Hle Hal Hal2 E2) as (H1 & H2 & H3 & H4 & _).
  rewrite H3. by split_and!.
Qed.

(** The coroutines take turns: the main one is left out, and the number of yields alone says which
    runs. With a single coroutine a yield fails the assertion of [CoYieldTo]. *)
Theorem yields_round_robin (n : nat) (d d' : CoroutineDispatcher) (ks : list (cpu * Z * Z))
    (Hn : length (coroutines_ d) = S n) (Hc : (1 <= curr_coro_ d <= n)%nat) (Hk : ks <> []) :
  if (n =? 1)%nat then yields d ks = Fault AssertFailed
  else yields d ks = Ok d' -> curr_coro_ d' = S ((curr_coro_ d - 1 + length ks) mod n).
Proof.
  destruct (Nat.eqb_spec n 1) as [->|Hn1].
  - destruct ks as [|[[k ra] ra'] ks]; [done|]. cbn [yields]. unfold CoYieldCurr, next_place, yield_at. rewrite Hn.
    replace (curr_coro_ d) with 1%nat by lia. cbn [Nat.eqb].
    destruct (lookup_lt_is_Some_2 (coroutines_ d) 1%nat) as [q ->]; [lia|]. done.
  - clear Hk. revert d Hn Hc. induction ks as [|[[k ra] ra'] ks IH]; intros d Hn Hc; cbn [yields].
    { intros [= <-]. cbn [length]. rewrite Nat.add_0_r, Nat.mod_small by lia. lia. }
    intros E. apply bind_Ok in E as ([d1 k1] & E1 & E). destruct (CoYieldCurr_next _ _ _ _ _ _ E1) as [Hc1 Hl1].
    assert (1 <= curr_coro_ d1 <= n /\ (curr_coro_ d1 - 1) mod n = (curr_coro_ d - 1 + 1) mod n)%nat as [H1 H2].
    { rewrite Hc1. unfold next_place. rewrite Hn. destruct (Nat.eqb_spec (S (curr_coro_ d)) (S n)).
      - split; [lia|]. replace (curr_coro_ d - 1 + 1)%nat with n by lia. by rewrite Nat.Div0.mod_same, Nat.Div0.mod_0_l.
      - split; [lia|]. f_equal. lia. }
    rewrite (IH d1) by (congruence || done). f_equal. cbn [length].
    rewrite <- Nat.Div0.add_mod_idemp_l, H2, Nat.Div0.add_mod_idemp_l. f_equal. lia.
Qed.

(** A coroutine must not be resumed from within its own frames: if the stack pointer of the one that
    yields is inside the place of the frames to be restored, [RestoreStackFrames] overwrites its own
    return address. It comes to that when a coroutine yields from a deeper call than the one from which
    it had started the other. *)
Theorem deep_yield_clobbers (k : cpu) (ra ra' : Z) (this this' to : CoroutineProfile) (low : Z)
    (Hthis : save_frames (mem k) (rsp k) this = Ok this')
    (Hmax : stack_frames_len (co_ctx_ this') < kMaxCoStackFramesBuffSize)
    (Hto : has_start_ to = true) (Hlen : stack_frames_len (co_ctx_ to) = stack_frames_start (co_ctx_ to) - low + 8)
    (Hal : (stack_frames_start (co_ctx_ to) - low) mod 8 = 0)
    (Hin : low <= rsp k - 8 <= stack_frames_start (co_ctx_ to)) :
  CoYieldTo k ra ra' this to = Fault Undefined.
Proof.
  unfold CoYieldTo. rewrite Hthis, Hto. cbn [mbind res_bind]. destruct (Z.ltb_spec (stack_frames_len (co_ctx_ this')) kMaxCoStackFramesBuffSize); [|lia].
  cbn [assert_ mbind res_bind]. unfold RestoreStackFrames. rewrite Hlen, turns_frames by (lia || done).
  set (start := stack_frames_start (co_ctx_ to)) in *.
  pose proof (Z.div_mod (start - low) 8 ltac:(lia)) as E. rewrite Hal in E. assert (0 <= (start - low) / 8) by (apply Z.div_pos; lia).
  destruct (_ <? _)%nat; [done|]. destruct (Z.leb_spec (start - 8 * (Z.of_nat (Z.to_nat ((start - low) / 8 + 1)) - 1)) (rsp k - 8)); [|lia].
  destruct (Z.leb_spec (rsp k - 8) start); [done|lia].
Qed.

(** A coroutine that has started another, and yields to it again from the same depth, overwrites the first
    word of the other's frames with the return address of the call of [SaveRbxToR15]. *)
Theorem same_depth_clobbers (a b : nat) (d0 d1 d2 d3 : CoroutineDispatcher) (k0 k1 k2 k3 : cpu) (ra ra' rb rb' : Z)
    (p : CoroutineProfile) (Hp : coroutines_ d0 !! b = Some p) (Hs : has_start_ p = false)
    (H1 : yield_at d0 k0 ra ra' a b = Ok (d1, k1)) (Hrun : rtc run_step (d1, k1) (d2, k2))
    (Hcur : curr_coro_ d2 = a) (Hsp : rsp k2 = rsp k0)
    (H2 : yield_at d2 k2 rb rb' a b = Ok (d3, k3)) :
  mem k1 (rsp k0 - 16) = co_resume_addr (co_ctx_ p) /\ mem k3 (rsp k0 - 16) = save_ret /\
  exists q, coroutines_ d3 !! b = Some q /\ stack_frames_start (co_ctx_ q) = rsp k0 - 16.
Proof.
  destruct (yield_at_Ok _ _ _ _ _ _ _ _ H1) as (this & to & this' & q1 & _ & Hj & Ey & Hne & Hd1).
  rewrite Hp in Hj. injection Hj as <-. destruct (CoYieldTo_start _ _ _ _ _ _ _ _ Hs Ey) as (Hs1 & Hst1 & Hm1).
  assert (Hst : started_at b (rsp k0 - 16) d1).
  { exists q1. subst d1. cbn. split_and!; try done; [|by left]. apply list_lookup_insert_eq. rewrite length_insert. by eapply lookup_lt_Some. }
  apply (runs_started b _ _ _ Hrun) in Hst as (q & Hq & Hsq & Hstart & [Hc|Hc]); cbn [fst] in *; [congruence|].
  destruct (yield_at_Ok _ _ _ _ _ _ _ _ H2) as (this2 & to2 & this3 & to3 & _ & Hj & Ey2 & _ & ->).
  rewrite Hq in Hj. injection Hj as <-. destruct (CoYieldTo_switch _ _ _ _ _ _ _ _ Hsq Ey2) as (-> & m & ->).
  split; [done|]. split.
  - unfold store. destruct (Z.eqb_spec (rsp k0 - 16) (ctx_rsp (co_ctx_ q) - 8)); [lia|]. by rewrite Hsp, Z.eqb_refl.
  - exists q. split; [|done]. cbn. apply list_lookup_insert_eq. rewrite length_insert. by eapply lookup_lt_Some.
Qed.

End Yield.

(** ** Witnesses *)

(** The main coroutine and two others, entered at 7001 and 7002. *)
Definition demo_dispatcher : CoroutineDispatcher :=
  let '(main, u) := new_CoroutineProfile 0 kInvalidUid in
  let '(p, u) := new_CoroutineProfile 7001 u in
  let '(q, _) := new_CoroutineProfile 7002 u in
  AddCoroutine (AddCoroutine (new_CoroutineDispatcher main) p) q.

Definition demo_cpu (sp v : Z) : cpu := mkCpu (fun _ => v) sp [v] 0.

Definition after_yield (o : res (CoroutineDispatcher * cpu)) : CoroutineDispatcher :=
  match o with Ok (d, _) => d | Fault _ => demo_dispatcher end.

(** The first was started and yields at 904, which starts the second. *)
Definition demo_first : CoroutineDispatcher := after_yield (CoStart 9001 demo_dispatcher (demo_cpu 1000 1) 5001 5002).
Definition demo_second : CoroutineDispatcher := after_yield (CoYieldCurr 9001 demo_first (demo_cpu 904 2) 5001 5002).

Lemma coroutine_resumes_witness :
  exists d3 k3, yield_at 9001 demo_second (demo_cpu 800 3) 5001 5002 2 1 = Ok (d3, k3) /\
    rsp k3 = 904 /\ others k3 = [2] /\ (rip k3 = 5001 \/ rip k3 = 5002) /\ mem k3 912 = 2.
Proof.
  destruct (yield_at 9001 demo_second (demo_cpu 800 3) 5001 5002 2 1) as [[d3 k3]|] eqn:E; [|vm_compute in E; discriminate].
  exists d3, k3. split; [reflexivity|].
  destruct (coroutine_resumes 9001 1 2 demo_first demo_second demo_second d3 (demo_cpu 904 2) (mkCpu (store (store (fun _ => 2) 896 5002) 888 7002) 896 [2] 7002)
    (demo_cpu 800 3) k3 5001 5002 5001 5002 (default (mkProfile 0 InitialCoContext 0 false) (coroutines_ demo_first !! 1%nat)))
    as (H1 & H2 & H3 & H4); [reflexivity|reflexivity|reflexivity|reflexivity|reflexivity| |exact E|].
  - apply rtc_once. apply co_work. discriminate.
  - split_and!; [exact H1|exact H2|exact H3|]. apply (H4 912); [cbn; lia|reflexivity|right; discriminate].
Defined.

Lemma yields_round_robin_witness :
  exists d', yields 9001 demo_first [(demo_cpu 904 2, 5001, 5002); (demo_cpu 800 3, 5001, 5002)] = Ok d' /\ curr_coro_ d' = 1%nat.
Proof.
  destruct (yields 9001 demo_first [(demo_cpu 904 2, 5001, 5002); (demo_cpu 800 3, 5001, 5002)]) as [d'|] eqn:E; [|vm_compute in E; discriminate].
  exists d'. split; [reflexivity|].
  apply (yields_round_robin 9001 2 demo_first d' [(demo_cpu 904 2, 5001, 5002); (demo_cpu 800 3, 5001, 5002)]);
    [reflexivity|split; vm_compute; lia|discriminate|exact E].
Defined.

(** The second, at 800, yields to the first, which yields back from 856. *)
Definition demo_third : CoroutineDispatcher := after_yield (CoYieldCurr 9001 demo_second (demo_cpu 800 3) 5001 5002).

Lemma deep_yield_clobbers_witness :
  exists this to, coroutines_ demo_third !! 1%nat = Some this /\ coroutines_ demo_third !! 2%nat = Some to /\
    CoYieldTo 9001 (demo_cpu 856 4) 5001 5002 this to = Fault Undefined.
Proof.
  destruct (coroutines_ demo_third !! 1%nat) as [this|] eqn:E1; [|vm_compute in E1; discriminate].
  destruct (coroutines_ demo_third !! 2%nat) as [to|] eqn:E2; [|vm_compute in E2; discriminate].
  exists this, to. split_and!; [reflexivity|reflexivity|]. vm_compute in E1, E2. injection E1 as <-. injection E2 as <-.
  eapply (deep_yield_clobbers 9001 (demo_cpu 856 4) 5001 5002 _ _ _ 800); [reflexivity|vm_compute; reflexivity|reflexivity|reflexivity|reflexivity|cbn; lia].
Defined.

(** The first, back at 904, yields to the second again. *)
Lemma same_depth_clobbers_witness :
  exists d3 k3, yield_at 9001 demo_third (demo_cpu 904 4) 5001 5002 1 2 = Ok (d3, k3) /\ mem k3 888 = 9001.
Proof.
  destruct (yield_at 9001 demo_first (demo_cpu 904 2) 5001 5002 1 2) as [[d1 k1]|] eqn:E1; [|vm_compute in E1; discriminate].
  destruct (yield_at 9001 d1 (demo_cpu 800 3) 5001 5002 2 1) as [[d2 k2]|] eqn:E2; [|vm_compute in E1; injection E1 as <- <-; vm_compute in E2; discriminate].
  assert (d2 = demo_third) as -> by (vm_compute in E1; injection E1 as <- <-; vm_compute in E2; by injection E2 as <- <-).
  destruct (yield_at 9001 demo_third (demo_cpu 904 4) 5001 5002 1 2) as [[d3 k3]|] eqn:E3; [|vm_compute in E3; discriminate].
  exists d3, k3. split; [reflexivity|].
  eapply (same_depth_clobbers 9001 1 2 demo_first d1 demo_third d3 (demo_cpu 904 2) k1 (demo_cpu 904 4) k3 5001 5002 5001 5002);
    [reflexivity|reflexivity|exact E1| |reflexivity|reflexivity|exact E3].
  eapply rtc_l; [apply (run_work 9001 _ _ (demo_cpu 800 3))|]. eapply rtc_l; [|eapply rtc_once, run_work].
  eapply run_yield. replace (curr_coro_ d1) with 2%nat by (vm_compute in E1; by injection E1 as <- <-). exact E2.
Defined.

End Coroutine.
