(* ===== verification/CoroutineAsm.v ===== *)
(** * The assembly of the coroutines (utils/coroutine/coroutine_util.S)

    The instructions of the file, on a machine with the sixteen general registers, the
    two flags that are tested, and a memory of words of eight bytes. The theorems show that the
    procedures do what [Coroutine] says of them, to every word of memory. *)
From S2P Require Import Prelude CLib Coroutine.

Module CoroutineAsm.

(** ** Definitions *)

(** *** The machine *)

Inductive reg := RAX | RBX | RCX | RDX | RBP | RSP | RSI | RDI | R8 | R9 | R10 | R11 | R12 | R13 | R14 | R15.

#[export] Instance reg_eq_dec : EqDecision reg.
Proof. solve_decision. Defined.

(** A register [%r], or the word at [d(%b)]. *)
Inductive operand := R (r : reg) | M (d : Z) (b : reg).

Inductive label :=
| L_SwitchCoroutine | L_StartCoroutine | L_GetRsp | L_SaveRbxToR15
| L_SaveStackFrames | L_save_qword | L_RestoreStackFrames | L_revert_qword.

Inductive instr :=
| movq (src dst : operand)
| addq (imm : Z) (dst : operand)
| subq (imm : Z) (dst : operand)
| pushq (src : operand)
| popq (r : reg)
| callq (l : label)
| ja (l : label)
| retq.

Record machine := mkMachine { regs : reg -> Z; mem : Z -> Z; pc : Z; CF : bool; ZF : bool }.

Definition upd (f : reg -> Z) (r : reg) (v : Z) : reg -> Z := fun r' => if decide (r' = r) then v else f r'.

(** *** The text of the file *)

(** The registers that are saved and restored in the order of the context, with
    their places in it. *)
Definition code_SwitchCoroutine : list instr :=
  [movq (R RAX) (M 0 RDI);
   callq L_SaveRbxToR15;
   addq 8 (M 40 RDI);
   movq (M 0 RSP) (R RAX);
   movq (R RAX) (M 128 RDI);
   movq (M 0 RSI) (R RAX);
   movq (M 8 RSI) (R RBX);
   movq (M 16 RSI) (R RCX);
   movq (M 24 RSI) (R RDX);
   movq (M 32 RSI) (R RBP);
   movq (M 40 RSI) (R RSP);
   movq (M 56 RSI) (R RDI);
   movq (M 64 RSI) (R R8);
   movq (M 72 RSI) (R R9);
   movq (M 80 RSI) (R R10);
   movq (M 88 RSI) (R R11);
   movq (M 96 RSI) (R R12);
   movq (M 104 RSI) (R R13);
   movq (M 112 RSI) (R R14);
   movq (M 120 RSI) (R R15);
   pushq (M 128 RSI);
   movq (M 48 RSI) (R RSI);
   retq].

Definition code_StartCoroutine : list instr :=
  [movq (R RAX) (M 0 RDI);
   movq (M 0 RSP) (R RAX);
   movq (R RAX) (M 128 RDI);
   callq L_SaveRbxToR15;
   addq 8 (M 40 RDI);
   movq (M 0 RDI) (R RAX);
   pushq (M 128 RSI);
   movq (R RSP) (M 136 RSI);
   retq].

Definition code_GetRsp : list instr := [movq (R RSP) (M 0 RDI); retq].

Definition code_SaveRbxToR15 : list instr :=
  [movq (R RBX) (M 8 RDI);
   movq (R RCX) (M 16 RDI);
   movq (R RDX) (M 24 RDI);
   movq (R RBP) (M 32 RDI);
   movq (R RSP) (M 40 RDI);
   addq 8 (M 40 RDI);
   movq (R RSI) (M 48 RDI);
   movq (R RDI) (M 56 RDI);
   movq (R R8) (M 64 RDI);
   movq (R R9) (M 72 RDI);
   movq (R R10) (M 80 RDI);
   movq (R R11) (M 88 RDI);
   movq (R R12) (M 96 RDI);
   movq (R R13) (M 104 RDI);
   movq (R R14) (M 112 RDI);
   movq (R R15) (M 120 RDI);
   retq].

Definition code_SaveStackFrames : list instr :=
  [pushq (R RAX);
   (* save_qword: *)
   movq (M 0 RSI) (R RAX);
   movq (R RAX) (M 0 RDI);
   addq 8 (R RDI);
   subq 8 (R RSI);
   subq 8 (R RDX);
   ja L_save_qword;
   popq RAX;
   retq].

Definition code_RestoreStackFrames : list instr :=
  [pushq (R RAX);
   (* revert_qword: *)
   movq (M 0 RDI) (R RAX);
   movq (R RAX) (M 0 RSI);
   addq 8 (R RDI);
   subq 8 (R RSI);
   subq 8 (R RDX);
   ja L_revert_qword;
   popq RAX;
   retq].

Definition code_text : list instr :=
  code_SwitchCoroutine ++ code_StartCoroutine ++ code_GetRsp ++ code_SaveRbxToR15 ++ code_SaveStackFrames ++
  code_RestoreStackFrames.

Definition place (l : label) : nat :=
  let start := length code_SwitchCoroutine in
  let get := (start + length code_StartCoroutine)%nat in
  let saveregs := (get + length code_GetRsp)%nat in
  let save := (saveregs + length code_SaveRbxToR15)%nat in
  let restore := (save + length code_SaveStackFrames)%nat in
  match l with
  | L_SwitchCoroutine => 0
  | L_StartCoroutine => start
  | L_GetRsp => get
  | L_SaveRbxToR15 => saveregs
  | L_SaveStackFrames => save
  | L_save_qword => S save
  | L_RestoreStackFrames => restore
  | L_revert_qword => S restore
  end%nat.

Section Text.

(** The address of the text; an instruction counts as one unit of it. *)
Context (text : Z).

Definition code_addr (i : nat) : Z := text + Z.of_nat i.

Definition fetch (a : Z) : option (nat * instr) :=
  if a <? text then None else let i := Z.to_nat (a - text) in (fun c => (i, c)) <$> code_text !! i.

(** *** Instructions *)

(** Accesses that are not to the address of a word are left out: the machine
    stops. *)
Definition word_addr (a : Z) : bool := a mod 8 =? 0.

Definition load (m : Z -> Z) (a : Z) : option Z := if word_addr a then Some (m a) else None.
Definition put (m : Z -> Z) (a v : Z) : option (Z -> Z) := if word_addr a then Some (Coroutine.store m a v) else None.

Definition read (s : machine) (o : operand) : option Z :=
  match o with R r => Some (regs s r) | M d b => load (mem s) (wrap64 (regs s b + d)) end.

Definition write (s : machine) (o : operand) (v : Z) : option machine :=
  match o with
  | R r => Some (mkMachine (upd (regs s) r v) (mem s) (pc s) (CF s) (ZF s))
  | M d b => (fun m => mkMachine (regs s) m (pc s) (CF s) (ZF s)) <$> put (mem s) (wrap64 (regs s b + d)) v
  end.

Definition set_flags (s : machine) (c z : bool) : machine := mkMachine (regs s) (mem s) (pc s) c z.
Definition goto (s : machine) (a : Z) : machine := mkMachine (regs s) (mem s) a (CF s) (ZF s).

Definition push (s : machine) (v : Z) : option machine :=
  let sp := wrap64 (regs s RSP - 8) in
  (fun m => mkMachine (upd (regs s) RSP sp) m (pc s) (CF s) (ZF s)) <$> put (mem s) sp v.

Definition pop (s : machine) : option (Z * machine) :=
  let sp := regs s RSP in
  (fun v => (v, mkMachine (upd (regs s) RSP (wrap64 (sp + 8))) (mem s) (pc s) (CF s) (ZF s))) <$> load (mem s) sp.

(** One instruction; [next] is the address after it. *)
Definition exec (next : Z) (c : instr) (s : machine) : option machine :=
  match c with
  | movq src dst => v ← read s src; s ← write s dst v; Some (goto s next)
  | addq imm dst =>
      v ← read s dst; s ← write s dst (wrap64 (v + imm));
      Some (goto (set_flags s (2 ^ 64 <=? v + imm) (wrap64 (v + imm) =? 0)) next)
  | subq imm dst =>
      v ← read s dst; s ← write s dst (wrap64 (v - imm));
      Some (goto (set_flags s (v <? imm) (wrap64 (v - imm) =? 0)) next)
  | pushq src => v ← read s src; s ← push s v; Some (goto s next)
  | popq r => '(v, s) ← pop s; s ← write s (R r) v; Some (goto s next)
  | callq l => s ← push s next; Some (goto s (code_addr (place l)))
  | ja l => Some (goto s (if negb (CF s) && negb (ZF s) then code_addr (place l) else next))
  | retq => '(v, s) ← pop s; Some (goto s v)
  end.

(** The machine stops outside of the text. *)
Definition step (s : machine) : option machine :=
  '(i, c) ← fetch (pc s); exec (code_addr (S i)) c s.

Fixpoint run (n : nat) (s : machine) : option machine :=
  match n with O => Some s | S n => s ← step s; run n s end.

(** A call of a procedure of the file from outside, which is to return to [ra]. *)
Definition call_from (s : machine) (ra : Z) (l : label) : option machine :=
  s ← push s ra; Some (goto s (code_addr (place l))).

(** ** Specifications *)

(** The address of a word. *)
Definition word_ok (a : Z) : Prop := 0 <= a < 2 ^ 64 /\ a mod 8 = 0.

(** Two areas of memory that have nothing in common. *)
Definition apart (a n b k : Z) : Prop := a + n <= b \/ b + k <= a.

(** The registers of a context other than [rsp], with their places in it. *)
Definition other_regs : list reg := [RAX; RBX; RCX; RDX; RBP; RSI; RDI; R8; R9; R10; R11; R12; R13; R14; R15].
Definition other_places : list Z := [0; 8; 16; 24; 32; 48; 56; 64; 72; 80; 88; 96; 104; 112; 120].

(** The context [x] is in memory at [c]. *)
Record ctx_at (m : Z -> Z) (c : Z) (x : Coroutine.CoroutineContext) : Prop := {
  at_others : (fun d => m (c + d)) <$> other_places = Coroutine.ctx_others x;
  at_rsp : m (c + 40) = Coroutine.ctx_rsp x;
  at_resume : m (c + 128) = Coroutine.co_resume_addr x;
  at_start : m (c + 136) = Coroutine.stack_frames_start x;
  at_len : m (c + 144) = Coroutine.stack_frames_len x;
  at_capacity : m (c + 160) = Coroutine.stack_frames_buf_capacity x
}.

(** A stack pointer with room for two words below it. *)
Definition sp_ok (sp : Z) : Prop := 16 <= sp /\ sp + 8 < 2 ^ 64 /\ sp mod 8 = 0.

(** The words [ws] of a buffer are in memory at [b]. *)
Definition buf_at (m : Z -> Z) (b : Z) (ws : list Z) : Prop :=
  forall i w, ws !! i = Some w -> m (b + 8 * Z.of_nat i) = w.

(** The arguments of [SaveStackFrames] and [RestoreStackFrames] for a context: its buffer is apart from
    its frames and from the two words below the stack pointer. *)
Record frames_args (s : machine) (c : Coroutine.CoroutineContext) : Prop := {
  fa_start : regs s RSI = Coroutine.stack_frames_start c;
  fa_len : regs s RDX = Coroutine.stack_frames_len c;
  fa_buf : buf_at (mem s) (regs s RDI) (Coroutine.stack_frames_buf c);
  fa_room : 8 * zlen (Coroutine.stack_frames_buf c) <= Coroutine.stack_frames_buf_capacity c;
  fa_word : word_ok (regs s RDI) /\ word_ok (regs s RSI) /\ sp_ok (regs s RSP);
  fa_range : 0 <= regs s RDX < 2 ^ 64 /\ regs s RDI + Coroutine.stack_frames_buf_capacity c < 2 ^ 64 /\
             8 * Z.of_nat (Coroutine.turns (regs s RDX)) <= regs s RSI;
  fa_sp : apart (regs s RSP - 16) 16 (regs s RDI) (Coroutine.stack_frames_buf_capacity c);
  fa_apart : let n := 8 * Z.of_nat (Coroutine.turns (regs s RDX)) in
    apart (regs s RSI + 8 - n) n (regs s RDI) (Coroutine.stack_frames_buf_capacity c)
}.

(** The place of a context of 168 bytes. *)
Definition ctx_ok (c : Z) : Prop := word_ok c /\ c + 168 < 2 ^ 64.

Definition cpu_of (s : machine) : Coroutine.cpu :=
  Coroutine.mkCpu (mem s) (regs s RSP) (regs s <$> other_regs) (pc s).

(** ** Lemmas *)

Lemma word_ok_addr (a : Z) : word_ok a -> wrap64 a = a /\ word_addr a = true.
Proof. intros [H1 H2]. split; [by apply wrap64_id|]. by apply Z.eqb_eq. Qed.

Lemma fetch_at (i : nat) : fetch (code_addr i) = (fun c => (i, c)) <$> code_text !! i.
Proof.
  unfold fetch, code_addr. destruct (Z.ltb_spec (text + Z.of_nat i) text); [lia|].
  by replace (Z.to_nat (text + Z.of_nat i - text)) with i by lia.
Qed.

Lemma run_S (n i : nat) (f : reg -> Z) (m : Z -> Z) (c z : bool) (ins : instr) :
  code_text !! i = Some ins ->
  run (S n) (mkMachine f m (code_addr i) c z) =
  (s ← exec (code_addr (S i)) ins (mkMachine f m (code_addr i) c z); run n s).
Proof. intros Hi. cbn [run]. unfold step. cbn [pc]. by rewrite fetch_at, Hi. Qed.

Section Exec.

Context (f : reg -> Z) (m : Z -> Z) (p nx : Z) (c z : bool).

Lemma exec_store (r b : reg) (d : Z) :
  word_ok (f b + d) ->
  exec nx (movq (R r) (M d b)) (mkMachine f m p c z) = Some (mkMachine f (Coroutine.store m (f b + d) (f r)) nx c z).
Proof. intros [H1 H2]%word_ok_addr. cbn. unfold put. by rewrite H1, H2. Qed.

Lemma exec_load (r b : reg) (d : Z) :
  word_ok (f b + d) ->
  exec nx (movq (M d b) (R r)) (mkMachine f m p c z) = Some (mkMachine (upd f r (m (f b + d))) m nx c z).
Proof. intros [H1 H2]%word_ok_addr. cbn. unfold load. by rewrite H1, H2. Qed.

Lemma exec_add_mem (imm d : Z) (b : reg) :
  word_ok (f b + d) ->
  exists c' z', exec nx (addq imm (M d b)) (mkMachine f m p c z) =
    Some (mkMachine f (Coroutine.store m (f b + d) (wrap64 (m (f b + d) + imm))) nx c' z').
Proof. intros [H1 H2]%word_ok_addr. cbn. unfold load, put. rewrite H1, H2. cbn. eauto. Qed.

Lemma exec_add_reg (imm : Z) (r : reg) :
  exists c' z', exec nx (addq imm (R r)) (mkMachine f m p c z) = Some (mkMachine (upd f r (wrap64 (f r + imm))) m nx c' z').
Proof. cbn. eauto. Qed.

Lemma exec_sub_reg (imm : Z) (r : reg) :
  exec nx (subq imm (R r)) (mkMachine f m p c z) =
    Some (mkMachine (upd f r (wrap64 (f r - imm))) m nx (f r <? imm) (wrap64 (f r - imm) =? 0)).
Proof. done. Qed.

Lemma exec_push (v : Z) (o : operand) :
  word_ok (f RSP - 8) -> read (mkMachine f m p c z) o = Some v ->
  exec nx (pushq o) (mkMachine f m p c z) =
    Some (mkMachine (upd f RSP (f RSP - 8)) (Coroutine.store m (f RSP - 8) v) nx c z).
Proof. intros [H1 H2]%word_ok_addr Hv. cbn. rewrite Hv. cbn. unfold push, put. cbn. by rewrite H1, H2. Qed.

Lemma exec_call (l : label) :
  word_ok (f RSP - 8) ->
  exec nx (callq l) (mkMachine f m p c z) =
    Some (mkMachine (upd f RSP (f RSP - 8)) (Coroutine.store m (f RSP - 8) nx) (code_addr (place l)) c z).
Proof. intros [H1 H2]%word_ok_addr. cbn. unfold push, put. cbn. by rewrite H1, H2. Qed.

Lemma exec_ret :
  word_ok (f RSP) -> 0 <= f RSP + 8 < 2 ^ 64 ->
  exec nx retq (mkMachine f m p c z) = Some (mkMachine (upd f RSP (f RSP + 8)) m (m (f RSP)) c z).
Proof. intros [H1 H2]%word_ok_addr H. cbn. unfold pop, load. cbn. rewrite H2. cbn. by rewrite wrap64_id. Qed.

Lemma exec_pop (r : reg) :
  word_ok (f RSP) -> 0 <= f RSP + 8 < 2 ^ 64 ->
  exec nx (popq r) (mkMachine f m p c z) = Some (mkMachine (upd (upd f RSP (f RSP + 8)) r (m (f RSP))) m nx c z).
Proof. intros [H1 H2]%word_ok_addr H. cbn. unfold pop, load. cbn. rewrite H2. cbn. by rewrite wrap64_id. Qed.

End Exec.

Lemma read_word (f : reg -> Z) (m : Z -> Z) (p : Z) (c z : bool) (d : Z) (b : reg) :
  word_ok (f b + d) -> read (mkMachine f m p c z) (M d b) = Some (m (f b + d)).
Proof. intros [H1 H2]%word_ok_addr. cbn. unfold load. by rewrite H1, H2. Qed.

Lemma upd_eq (f : reg -> Z) (r : reg) (v : Z) : upd f r v r = v.
Proof. unfold upd. by rewrite decide_True. Qed.

Lemma upd_ne (f : reg -> Z) (r r' : reg) (v : Z) : r' <> r -> upd f r v r' = f r'.
Proof. intros H. unfold upd. by rewrite decide_False. Qed.

Lemma store_eq (m : Z -> Z) (a v : Z) : Coroutine.store m a v a = v.
Proof. unfold Coroutine.store. by rewrite Z.eqb_refl. Qed.

Lemma store_ne (m : Z -> Z) (a b v : Z) : b <> a -> Coroutine.store m a v b = m b.
Proof. intros H. unfold Coroutine.store. by destruct (Z.eqb_spec b a). Qed.

Lemma store_ext (m m' : Z -> Z) (a b v : Z) :
  (b <> a -> m b = m' b) -> Coroutine.store m a v b = Coroutine.store m' a v b.
Proof. intros H. unfold Coroutine.store. destruct (Z.eqb_spec b a); auto. Qed.

Lemma run_app (n k : nat) (s s' : machine) : run n s = Some s' -> run (n + k) s = run k s'.
Proof.
  revert s. induction n as [|n IH]; intros s; cbn; [by intros [= ->]|].
  destruct (step s) as [s1|]; [|done]. cbn. apply IH.
Qed.

(** Addresses of words, one instruction, the words of a memory after stores. *)
Ltac areas := unfold apart in *; lia.

Ltac word := split_and!; first [areas | Z.to_euclidean_division_equations; lia].

Ltac regs := repeat first [rewrite upd_eq | rewrite upd_ne by discriminate].

Ltac asm1 :=
  erewrite run_S by reflexivity;
  first [rewrite exec_store by (regs; word) | rewrite exec_load by (regs; word) | rewrite exec_call by (regs; word)
        | rewrite exec_ret by (regs; (word || lia)) | rewrite exec_pop by (regs; (word || lia))
        | erewrite exec_push; [|by regs; word|first [reflexivity | apply read_word; by regs; word]]
        | match goal with |- context [exec ?nx (addq ?i (M ?d ?b)) (mkMachine ?f ?m ?p ?c ?z)] =>
            let H := fresh in
            destruct (exec_add_mem f m p nx c z i d b) as (? & ? & H); [regs; word|rewrite H; clear H] end];
  cbn [mbind option_bind]; regs.

Ltac words := repeat (rewrite store_eq || rewrite store_ne by areas).

Lemma SaveRbxToR15_runs (f : reg -> Z) (m : Z -> Z) (c z : bool) :
  word_ok (f RDI) -> f RDI + 168 < 2 ^ 64 -> word_ok (f RSP) -> f RSP + 8 < 2 ^ 64 -> apart (f RSP) 8 (f RDI) 168 ->
  exists m' c' z',
    run 17 (mkMachine f m (code_addr (place L_SaveRbxToR15)) c z) =
      Some (mkMachine (upd f RSP (f RSP + 8)) m' (m (f RSP)) c' z') /\
    (forall a, a < f RDI + 8 \/ f RDI + 128 <= a -> m' a = m a) /\
    (fun d => m' (f RDI + d)) <$> [8; 16; 24; 32; 40; 48; 56; 64; 72; 80; 88; 96; 104; 112; 120] =
      [f RBX; f RCX; f RDX; f RBP; f RSP + 8; f RSI; f RDI; f R8; f R9; f R10; f R11; f R12; f R13; f R14; f R15].
Proof.
  intros [Hd1 Hd2] Hd3 [Hs1 Hs2] Hs3 Hap. change (place L_SaveRbxToR15) with 34%nat.
  do 17 asm1. cbn [run]. words.
  eexists _, _, _. split; [reflexivity|]. split.
  - intros a Ha. by words.
  - cbn [fmap list_fmap]. words. rewrite !wrap64_id by lia. done.
Qed.

(** The registers that [SaveRbxToR15] puts into a context, with the stack pointer [sp]. *)
Definition saved_at (m : Z -> Z) (d : Z) (f : reg -> Z) (sp : Z) : Prop :=
  (fun e => m (d + e)) <$> [8; 16; 24; 32; 40; 48; 56; 64; 72; 80; 88; 96; 104; 112; 120] =
  [f RBX; f RCX; f RDX; f RBP; sp; f RSI; f RDI; f R8; f R9; f R10; f R11; f R12; f R13; f R14; f R15].

Lemma saved_ext (m m' : Z -> Z) (d : Z) (f : reg -> Z) (sp : Z) :
  (forall e, 8 <= e < 128 -> m' (d + e) = m (d + e)) -> saved_at m d f sp -> saved_at m' d f sp.
Proof. intros H Hs. unfold saved_at in *. cbn in *. by rewrite !H by lia. Qed.

(** The call of [SaveRbxToR15] and the instruction that corrects the stack pointer. *)
Lemma save_registers_runs (i : nat) (f : reg -> Z) (m : Z -> Z) (c z : bool) :
  code_text !! i = Some (callq L_SaveRbxToR15) -> code_text !! S i = Some (addq 8 (M 40 RDI)) ->
  ctx_ok (f RDI) -> sp_ok (f RSP + 8) -> apart (f RSP - 8) 8 (f RDI) 168 ->
  exists m' c' z',
    run 19 (mkMachine f m (code_addr i) c z) =
      Some (mkMachine (upd (upd f RSP (f RSP - 8)) RSP (f RSP - 8 + 8)) m' (code_addr (S (S i))) c' z') /\
    (forall a, a < f RDI + 8 \/ f RDI + 128 <= a -> m' a = Coroutine.store m (f RSP - 8) (code_addr (S i)) a) /\
    saved_at m' (f RDI) f (f RSP + 8).
Proof.
  intros Hi1 Hi2 [[Hd1 Hd2] Hd3] (Hs1 & Hs2 & Hs3) Hap. rewrite (run_S _ _ _ _ _ _ _ Hi1), exec_call by word. cbn [mbind option_bind].
  edestruct SaveRbxToR15_runs as (m1 & c1 & z1 & Hrun & Hsame & Hsaved);
    [| | | | |rewrite (run_app 17 1 _ _ Hrun); clear Hrun]; regs; [word|lia|word|lia|areas|].
  revert Hsame Hsaved. regs. words. intros Hsame Hsaved. rewrite (run_S _ _ _ _ _ _ _ Hi2).
  edestruct exec_add_mem as (c2 & z2 & ->); [regs; word|]. cbn [mbind option_bind run]. regs.
  eexists _, _, _. split; [reflexivity|]. split.
  - intros a Ha. words. by apply Hsame.
  - unfold saved_at. cbn [fmap list_fmap] in *. words.
    injection Hsaved as E1 E2 E3 E4 E5 E6 E7 E8 E9 E10 E11 E12 E13 E14 E15.
    rewrite E1, E2, E3, E4, E5, E6, E7, E8, E9, E10, E11, E12, E13, E14, E15.
    replace (f RSP - 8 + 8 + 8) with (f RSP + 8) by lia. by rewrite wrap64_id by lia.
Qed.

(** The context after its registers were saved. *)
Lemma ctx_saved (m m' : Z -> Z) (d ra : Z) (f : reg -> Z) (sp : Z) (x : Coroutine.CoroutineContext) :
  ctx_at m d x -> m' (d + 0) = f RAX -> saved_at m' d f sp -> m' (d + 128) = ra ->
  (forall e, 136 <= e <= 160 -> m' (d + e) = m (d + e)) ->
  ctx_at m' d (Coroutine.mkContext (f <$> other_regs) sp ra (Coroutine.stack_frames_start x) (Coroutine.stack_frames_len x)
                 (Coroutine.stack_frames_buf x) (Coroutine.stack_frames_buf_capacity x)).
Proof.
  intros [C1 C2 C3 C4 C5 C6] H0 Hs Hr He. unfold saved_at in Hs. cbn [fmap list_fmap] in Hs.
  injection Hs as E1 E2 E3 E4 E5 E6 E7 E8 E9 E10 E11 E12 E13 E14 E15.
  split; cbn; rewrite ?He by lia; try done.
  by rewrite H0, E1, E2, E3, E4, E6, E7, E8, E9, E10, E11, E12, E13, E14, E15.
Qed.

Lemma ctx_ext (m m' : Z -> Z) (d : Z) (x : Coroutine.CoroutineContext) :
  (forall e, 0 <= e <= 160 -> m' (d + e) = m (d + e)) -> ctx_at m d x -> ctx_at m' d x.
Proof. intros He [C1 C2 C3 C4 C5 C6]. split; cbn in *; by rewrite !He by lia. Qed.

Lemma call_from_Some (s : machine) (ra : Z) (l : label) :
  word_ok (regs s RSP - 8) ->
  call_from s ra l = Some (mkMachine (upd (regs s) RSP (regs s RSP - 8)) (Coroutine.store (mem s) (regs s RSP - 8) ra)
                             (code_addr (place l)) (CF s) (ZF s)).
Proof. intros [H1 H2]%word_ok_addr. unfold call_from, push, put. by rewrite H1, H2. Qed.

(** *** The loops *)

(** Where the loops are after [i] turns: the buffer is read upwards from [rdi],
    the stack downwards from [rsi]. *)
Definition walk (f : reg -> Z) (r : reg) (i : Z) : Z :=
  match r with RDI => f RDI + 8 * i | _ => f RSI - 8 * i end.

(** The words at the places of [src] go to those of [dst]. *)
Definition copied (f : reg -> Z) (src dst : reg) (n : Z) (m m' : Z -> Z) : Prop :=
  (forall i, 0 <= i < n -> m' (walk f dst i) = m (walk f src i)) /\
  (forall a, (forall i, 0 <= i < n -> a <> walk f dst i) -> m' a = m a).

Lemma turns_one (len : Z) : 0 <= len -> Coroutine.turns len = 1%nat -> len <= 8.
Proof. unfold Coroutine.turns. intros H0 H. Z.to_euclidean_division_equations. lia. Qed.

Lemma turns_more (len : Z) (n : nat) : 0 <= len -> Coroutine.turns len = S (S n) -> 8 < len /\ Coroutine.turns (len - 8) = S n.
Proof. unfold Coroutine.turns. intros H0 H. Z.to_euclidean_division_equations. lia. Qed.

(** One more word before the others. *)
Lemma copied_more (f f1 : reg -> Z) (src dst : reg) (n : Z) (m m2 : Z -> Z) :
  0 <= n -> walk f src 0 = f src /\ walk f dst 0 = f dst ->
  (forall r i, r = src \/ r = dst -> walk f1 r i = walk f r (i + 1)) ->
  (forall i, 0 <= i < n + 1 -> walk f src i <> f dst) ->
  copied f1 src dst n (Coroutine.store m (f dst) (m (f src))) m2 -> copied f src dst (n + 1) m m2.
Proof.
  intros Hn [Hs0 Hd0] Hnext Hap [H1 H2].
  assert (Hinj : forall i, 0 <= i -> walk f dst 0 <> walk f dst (i + 1)) by (intros i Hi; destruct dst; cbn; lia).
  split.
  - intros i Hi. destruct (decide (i = 0)) as [->|Hi0].
    + rewrite H2, Hd0, store_eq, Hs0; [done|]. intros j Hj. rewrite Hnext by auto. apply Hinj. lia.
    + replace i with (i - 1 + 1) by lia. rewrite <- !Hnext by auto. rewrite H1 by lia. rewrite Hnext by auto.
      apply store_ne, Hap. lia.
  - intros a Ha. rewrite H2; [apply store_ne; rewrite <- Hd0; apply Ha; lia|]. intros i Hi. rewrite Hnext by auto. apply Ha. lia.
Qed.

Section Loop.

Context (src dst : reg) (l : label) (p : nat).

Context (Hdir : src = RSI /\ dst = RDI \/ src = RDI /\ dst = RSI) (Hl : place l = p)
        (Hcode : forall i, (i < 6)%nat -> code_text !! (i + p)%nat =
           [movq (M 0 src) (R RAX); movq (R RAX) (M 0 dst); addq 8 (R RDI); subq 8 (R RSI); subq 8 (R RDX); ja l] !! i).

(** One turn. *)
Lemma turn_runs (f : reg -> Z) (m : Z -> Z) (c z : bool) :
  word_ok (f RDI) -> f RDI + 8 < 2 ^ 64 -> word_ok (f RSI) -> 0 <= f RDX < 2 ^ 64 ->
  exists f' c' z',
    run 6 (mkMachine f m (code_addr p) c z) =
      Some (mkMachine f' (Coroutine.store m (f dst) (m (f src))) (code_addr (if 8 <? f RDX then p else 6 + p)) c' z') /\
    f' RDI = f RDI + 8 /\ f' RSI = wrap64 (f RSI - 8) /\ f' RDX = wrap64 (f RDX - 8) /\
    (forall r, r ∉ [RAX; RDI; RSI; RDX] -> f' r = f r).
Proof.
  intros HD HD' HS HX. assert (word_ok (f src + 0) /\ word_ok (f dst + 0)) as [Hsrc Hdst].
  { destruct Hdir as [[-> ->]|[-> ->]]; by rewrite !Z.add_0_r. }
  assert (src <> RAX /\ dst <> RAX) as [Hs Hd] by (destruct Hdir as [[-> ->]|[-> ->]]; done).
  rewrite (run_S _ _ _ _ _ _ _ (Hcode 0 ltac:(lia))), exec_load by done. cbn [mbind option_bind].
  rewrite (run_S _ _ _ _ _ _ _ (Hcode 1 ltac:(lia))), exec_store by (by rewrite upd_ne). cbn [mbind option_bind].
  rewrite (run_S _ _ _ _ _ _ _ (Hcode 2 ltac:(lia))). edestruct exec_add_reg as (c1 & z1 & ->). cbn [mbind option_bind].
  rewrite (run_S _ _ _ _ _ _ _ (Hcode 3 ltac:(lia))), exec_sub_reg. cbn [mbind option_bind].
  rewrite (run_S _ _ _ _ _ _ _ (Hcode 4 ltac:(lia))), exec_sub_reg. cbn [mbind option_bind].
  rewrite (run_S _ _ _ _ _ _ _ (Hcode 5 ltac:(lia))). cbn [exec mbind option_bind run goto regs mem CF ZF].
  rewrite Hl. regs. rewrite (upd_ne _ _ dst) by done. rewrite !Z.add_0_r.
  replace (if negb (f RDX <? 8) && negb (wrap64 (f RDX - 8) =? 0) then code_addr p else code_addr (S (5 + p)))
    with (code_addr (if 8 <? f RDX then p else (6 + p)%nat)).
  - eexists _, _, _. split; [reflexivity|]. regs. split_and!; [by apply wrap64_id; destruct HD; lia|done|done|].
    intros r Hr. cbn [regs]. rewrite !upd_ne by (intros ->; apply Hr; set_solver). done.
  - destruct (Z.ltb_spec 8 (f RDX)), (Z.ltb_spec (f RDX) 8); try lia; [|done|].
    + rewrite wrap64_id by lia. by destruct (Z.eqb_spec (f RDX - 8) 0); [lia|].
    + rewrite wrap64_id by lia. by destruct (Z.eqb_spec (f RDX - 8) 0); [|lia].
Qed.

Lemma loop_runs (n : nat) : forall (f : reg -> Z) (m : Z -> Z) (c z : bool),
  Coroutine.turns (f RDX) = S n -> 0 <= f RDX < 2 ^ 64 ->
  word_ok (f RDI) -> f RDI + 8 * (Z.of_nat n + 1) < 2 ^ 64 -> word_ok (f RSI) -> 8 * Z.of_nat n <= f RSI ->
  (forall i j, 0 <= i < Z.of_nat n + 1 -> 0 <= j < Z.of_nat n + 1 -> walk f src i <> walk f dst j) ->
  exists f' m' c' z',
    run (6 * S n) (mkMachine f m (code_addr p) c z) = Some (mkMachine f' m' (code_addr (6 + p)) c' z') /\
    (forall r, r ∉ [RAX; RDI; RSI; RDX] -> f' r = f r) /\ copied f src dst (Z.of_nat n + 1) m m'.
Proof.
  assert (Hw : forall f, walk f src 0 = f src /\ walk f dst 0 = f dst).
  { intros f. destruct Hdir as [[-> ->]|[-> ->]]; cbn; split; lia. }
  induction n as [|n IH]; intros f m c z Ht HX HD HD' HS HS' Hap;
    destruct (turn_runs f m c z HD ltac:(lia) HS HX) as (f1 & c1 & z1 & Hrun & HD1 & HS1 & HX1 & Hr1).
  - apply turns_one in Ht; [|lia]. destruct (Z.ltb_spec 8 (f RDX)); [lia|]. eexists _, _, _, _. split; [exact Hrun|]. split; [done|].
    destruct (Hw f) as [H1 H2]. split.
    + intros i Hi. assert (i = 0) as -> by lia. by rewrite H1, H2, store_eq.
    + intros a Ha. apply store_ne. rewrite <- H2. apply Ha. lia.
  - apply turns_more in Ht as [H8 Ht]; [|lia]. destruct (Z.ltb_spec 8 (f RDX)); [|lia].
    rewrite wrap64_id in HS1, HX1 by (destruct HS; lia).
    assert (Hnext : forall r i, r = src \/ r = dst -> walk f1 r i = walk f r (i + 1)).
    { intros r i Hr. destruct Hdir as [[-> ->]|[-> ->]]; destruct Hr as [-> | ->]; cbn; rewrite ?HD1, ?HS1; lia. }
    edestruct (IH f1) as (f2 & m2 & c2 & z2 & Hrun2 & Hr2 & Hc1 & Hc2).
    + by rewrite HX1.
    + lia.
    + rewrite HD1. destruct HD. word.
    + rewrite HD1. lia.
    + rewrite HS1. destruct HS. word.
    + rewrite HS1. lia.
    + intros i j Hi Hj. rewrite !Hnext by auto. apply Hap; lia.
    + exists f2, m2, c2, z2. split; [|split; [intros r Hr; by rewrite Hr2, Hr1|]].
      { replace (6 * S (S n))%nat with (6 + 6 * S n)%nat by lia. rewrite (run_app _ _ _ _ Hrun). exact Hrun2. }
      rewrite Nat2Z.inj_succ. apply (copied_more f f1); [lia|done|done| |by split; rewrite <- Z.add_1_r in *].
      intros i Hi. rewrite <- (proj2 (Hw f)). apply Hap; lia.
Qed.

(** The procedure around the loop. *)
Lemma frames_runs (q : label) (s : machine) (ra : Z) (n : nat) :
  S (place q) = p -> code_text !! place q = Some (pushq (R RAX)) -> code_text !! (6 + p)%nat = Some (popq RAX) ->
  code_text !! (7 + p)%nat = Some retq ->
  Coroutine.turns (regs s RDX) = S n -> 0 <= regs s RDX < 2 ^ 64 -> sp_ok (regs s RSP) ->
  word_ok (regs s RDI) -> regs s RDI + 8 * (Z.of_nat n + 1) < 2 ^ 64 -> word_ok (regs s RSI) -> 8 * Z.of_nat n <= regs s RSI ->
  (forall i j, 0 <= i < Z.of_nat n + 1 -> 0 <= j < Z.of_nat n + 1 -> walk (regs s) src i <> walk (regs s) dst j) ->
  (forall i, 0 <= i < Z.of_nat n + 1 -> walk (regs s) dst i <> regs s RSP - 8) ->
  exists s', (s0 ← call_from s ra q; run (3 + 6 * S n) s0) = Some s' /\
    pc s' = ra /\ (forall r, r ∉ [RAX; RDI; RSI; RDX] -> regs s' r = regs s r) /\ regs s' RAX = mem s' (regs s RSP - 16) /\
    copied (regs s) src dst (Z.of_nat n + 1)
      (Coroutine.store (Coroutine.store (mem s) (regs s RSP - 8) ra) (regs s RSP - 16) (regs s RAX)) (mem s').
Proof.
  intros Hq Hpush Hpop Hret Ht HX (H1 & H2 & H3) HD HD' HS HS' Hap Hra. rewrite call_from_Some by word.
  destruct s as [f m pc0 cf zf]. cbn [regs mem CF ZF mbind option_bind] in *.
  change (3 + 6 * S n)%nat with (S (2 + 6 * S n))%nat. rewrite (Nat.add_comm 2), (run_S _ _ _ _ _ _ _ Hpush), Hq.
  rewrite (exec_push _ _ _ _ _ _ (f RAX)) by (first [regs; word | reflexivity]). cbn [mbind option_bind]. regs.
  replace (f RSP - 8 - 8) with (f RSP - 16) by lia. set (m1 := Coroutine.store _ (f RSP - 16) _).
  set (g := upd (upd f RSP (f RSP - 8)) RSP (f RSP - 16)).
  destruct (loop_runs n g m1 cf zf Ht HX HD HD' HS HS' Hap) as (f' & m' & c1 & z1 & Hrun & Hr & Hc).
  rewrite (run_app _ 2 _ _ Hrun), (run_S _ _ _ _ _ _ _ Hpop).
  assert (Hsp : f' RSP = f RSP - 16) by (rewrite Hr by set_solver; apply upd_eq).
  rewrite exec_pop by (rewrite Hsp; (word || lia)). cbn [mbind option_bind].
  rewrite (run_S _ _ _ _ _ _ _ Hret), exec_ret by (regs; rewrite Hsp; (word || lia)). cbn [mbind option_bind run]. regs. rewrite Hsp.
  eexists. split; [reflexivity|]. cbn [pc regs mem]. split_and!.
  - replace (f RSP - 16 + 8) with (f RSP - 8) by lia. destruct Hc as [_ Hc]. rewrite Hc; [|intros i Hi; symmetry; by apply Hra].
    subst m1. by words.
  - intros r Hr'. destruct (decide (r = RSP)) as [->|Hne]; [regs; lia|].
    rewrite !upd_ne by (try done; intros ->; set_solver). rewrite Hr by done. subst g. by rewrite !upd_ne.
  - by regs.
  - exact Hc.
Qed.

End Loop.

Lemma save_qword_code (i : nat) : (i < 6)%nat -> code_text !! (i + 52)%nat =
  [movq (M 0 RSI) (R RAX); movq (R RAX) (M 0 RDI); addq 8 (R RDI); subq 8 (R RSI); subq 8 (R RDX); ja L_save_qword] !! i.
Proof. intros Hi. do 6 (destruct i as [|i]; [reflexivity|]). lia. Qed.

Lemma revert_qword_code (i : nat) : (i < 6)%nat -> code_text !! (i + 61)%nat =
  [movq (M 0 RDI) (R RAX); movq (R RAX) (M 0 RSI); addq 8 (R RDI); subq 8 (R RSI); subq 8 (R RDX); ja L_revert_qword] !! i.
Proof. intros Hi. do 6 (destruct i as [|i]; [reflexivity|]). lia. Qed.

(** ** Theorems *)

(** C26: [SwitchCoroutine] as assembled does what [Coroutine.SwitchCoroutine] does: it ends,
    at the resume address of the second context, with its registers; the first context has the
    registers of the call, and all other memory is that of the model. *)
Theorem SwitchCoroutine_refines (s : machine) (ra : Z) (cf ct : Coroutine.CoroutineContext)
    (Hf : ctx_ok (regs s RDI)) (Ht : ctx_ok (regs s RSI)) (Hft : apart (regs s RDI) 168 (regs s RSI) 168)
    (Hsp : sp_ok (regs s RSP)) (Hspf : apart (regs s RSP - 16) 16 (regs s RDI) 168)
    (Hspt : apart (regs s RSP - 16) 16 (regs s RSI) 168)
    (Hcf : ctx_at (mem s) (regs s RDI) cf) (Hct : ctx_at (mem s) (regs s RSI) ct)
    (Hto : sp_ok (Coroutine.ctx_rsp ct)) (Htof : apart (Coroutine.ctx_rsp ct - 8) 8 (regs s RDI) 168)
    (Htot : apart (Coroutine.ctx_rsp ct - 8) 8 (regs s RSI) 168) :
  exists s', (s0 ← call_from s ra L_SwitchCoroutine; run 40 s0) = Some s' /\
    let '(cf', k') := Coroutine.SwitchCoroutine (code_addr 2) (cpu_of s) ra cf ct in
    ctx_at (mem s') (regs s RDI) cf' /\ ctx_at (mem s') (regs s RSI) ct /\
    pc s' = Coroutine.rip k' /\ regs s' RSP = Coroutine.rsp k' /\ regs s' <$> other_regs = Coroutine.others k' /\
    forall a, apart a 8 (regs s RDI) 168 -> mem s' a = Coroutine.mem k' a.
Proof.
  destruct Hf as [[Hf1 Hf2] Hf3], Ht as [[Ht1 Ht2] Ht3], Hsp as (Hs1 & Hs2 & Hs3), Hto as (Hr1 & Hr2 & Hr3).
  rewrite call_from_Some by word. destruct s as [f m p c z]. cbn [regs mem CF ZF mbind option_bind] in *.
  change (place L_SwitchCoroutine) with 0%nat. asm1.
  edestruct (save_registers_runs 1) as (m1 & c1 & z1 & Hrun & Hsame & Hsaved);
    [done|done| | | |rewrite (run_app 19 20 _ _ Hrun); clear Hrun]; unfold ctx_ok, sp_ok, word_ok; regs; [word|word|areas|].
  revert Hsame Hsaved. regs. intros Hsame Hsaved. do 2 asm1.
  set (m2 := Coroutine.store m1 _ _).
  assert (Hm2 : forall d, 0 <= d <= 160 -> m2 (f RSI + d) = m (f RSI + d)).
  { intros d Hd. subst m2. words. rewrite Hsame by areas. by words. }
  do 6 (asm1; rewrite ?Hm2 by lia). rewrite (at_rsp _ _ _ Hct). do 12 (asm1; rewrite ?Hm2 by lia).
  cbn [run]. words. eexists. split; [reflexivity|].
  cbn [Coroutine.SwitchCoroutine mem regs pc cpu_of Coroutine.mem Coroutine.rsp Coroutine.rip Coroutine.others].
  split_and!.
  - eapply ctx_saved; [exact Hcf| | | |].
    + subst m2. words. rewrite Hsame by areas. by words.
    + replace (f RSP) with (f RSP - 8 + 8) by lia. eapply saved_ext; [|exact Hsaved]. intros e He. subst m2. by words.
    + subst m2. words. rewrite Hsame by areas. replace (f RSP - 8 - 8 + 8 + 0) with (f RSP - 8) by lia. by words.
    + intros e He. subst m2. words. rewrite Hsame by areas. by words.
  - eapply ctx_ext; [|exact Hct]. intros e He. words. by apply Hm2.
  - apply (at_resume _ _ _ Hct).
  - regs. lia.
  - cbn [fmap list_fmap other_regs]. regs. rewrite Hm2 by lia. apply (at_others _ _ _ Hct).
  - intros a Ha. rewrite (at_resume _ _ _ Hct). replace (f RSP - 16) with (f RSP - 8 - 8) by lia.
    apply store_ext. intros _. subst m2. words. rewrite Hsame by areas. apply store_ext. intros _. by words.
Qed.

(** [StartCoroutine] as assembled does what [Coroutine.StartCoroutine] does: it ends at the entry of
    the second context, with the registers of the call. *)
Theorem StartCoroutine_refines (s : machine) (ra : Z) (cf ct : Coroutine.CoroutineContext)
    (Hf : ctx_ok (regs s RDI)) (Ht : ctx_ok (regs s RSI)) (Hft : apart (regs s RDI) 168 (regs s RSI) 168)
    (Hsp : sp_ok (regs s RSP)) (Hspf : apart (regs s RSP - 16) 16 (regs s RDI) 168)
    (Hspt : apart (regs s RSP - 16) 16 (regs s RSI) 168)
    (Hcf : ctx_at (mem s) (regs s RDI) cf) (Hct : ctx_at (mem s) (regs s RSI) ct) :
  exists s', (s0 ← call_from s ra L_StartCoroutine; run 26 s0) = Some s' /\
    let '(cf', ct', k') := Coroutine.StartCoroutine (cpu_of s) ra cf ct in
    ctx_at (mem s') (regs s RDI) cf' /\ ctx_at (mem s') (regs s RSI) ct' /\
    pc s' = Coroutine.rip k' /\ regs s' RSP = Coroutine.rsp k' /\ regs s' <$> other_regs = Coroutine.others k' /\
    forall a, apart a 8 (regs s RDI) 168 -> apart a 8 (regs s RSI) 168 -> mem s' a = Coroutine.mem k' a.
Proof.
  destruct Hf as [[Hf1 Hf2] Hf3], Ht as [[Ht1 Ht2] Ht3], Hsp as (Hs1 & Hs2 & Hs3).
  rewrite call_from_Some by word. destruct s as [f m p c z]. cbn [regs mem CF ZF mbind option_bind] in *.
  change (place L_StartCoroutine) with 23%nat. do 3 asm1.
  edestruct (save_registers_runs 26) as (m1 & c1 & z1 & Hrun & Hsame & Hsaved);
    [done|done| | | |rewrite (run_app 19 4 _ _ Hrun); clear Hrun]; unfold ctx_ok, sp_ok, word_ok; regs; [word|word|areas|].
  revert Hsame Hsaved. regs. replace (f RSP - 8 + 0) with (f RSP - 8) by lia. words. intros Hsame Hsaved. do 4 asm1. cbn [run].
  replace (f RSP - 8 - 8 + 8 - 8) with (f RSP - 16) by lia. replace (f RSP - 8 - 8) with (f RSP - 16) in Hsame by lia.
  assert (Hto : forall d, 0 <= d <= 160 -> m1 (f RSI + d) = m (f RSI + d)).
  { intros d Hd. rewrite Hsame by areas. by words. }
  rewrite (Hto 128), (at_resume _ _ _ Hct) by lia. words. eexists. split; [reflexivity|].
  cbn [Coroutine.StartCoroutine mem regs pc cpu_of Coroutine.mem Coroutine.rsp Coroutine.rip Coroutine.others].
  split_and!.
  - eapply ctx_saved; [exact Hcf| | | |].
    + words. rewrite Hsame by areas. by words.
    + replace (f RSP) with (f RSP - 8 + 8) at 3 by lia. eapply saved_ext; [|exact Hsaved]. intros e He. by words.
    + words. rewrite Hsame by areas. by words.
    + intros e He. words. rewrite Hsame by areas. by words.
  - destruct Hct as [C1 C2 C3 C4 C5 C6]. split; cbn in *; words; by rewrite ?Hto by lia.
  - done.
  - regs. lia.
  - cbn [fmap list_fmap other_regs]. regs. rewrite Hsame by areas. by words.
  - intros a Ha Hb. words. apply store_ext. intros Hne. words. rewrite Hsame by areas. by words.
Qed.

(** C27: [SaveStackFrames] as assembled does what [Coroutine.SaveStackFrames] does: it returns, with the frames in
    the buffer, and other memory and registers as they were. *)
Theorem SaveStackFrames_refines (s : machine) (ra : Z) (c c' : Coroutine.CoroutineContext) (Ha : frames_args s c)
    (Hlow : regs s RSP <= regs s RSI + 8 - 8 * Z.of_nat (Coroutine.turns (regs s RDX)))
    (Hsave : Coroutine.SaveStackFrames (mem s) c = Ok c') :
  exists s', (s0 ← call_from s ra L_SaveStackFrames; run (3 + 6 * Coroutine.turns (regs s RDX)) s0) = Some s' /\
    pc s' = ra /\ (forall r, r ∉ [RDI; RSI; RDX] -> regs s' r = regs s r) /\
    buf_at (mem s') (regs s RDI) (Coroutine.stack_frames_buf c') /\
    forall a, apart a 8 (regs s RDI) (Coroutine.stack_frames_buf_capacity c) -> apart a 8 (regs s RSP - 16) 16 -> mem s' a = mem s a.
Proof.
  destruct Ha as [Hstart Hlen Hbuf Hroom ([HD1 HD2] & [HS1 HS2] & (H1 & H2 & H3)) (HX & Hcap & HS') Hsp Hap]. cbv zeta in Hap.
  unfold Coroutine.SaveStackFrames in Hsave. rewrite <- Hlen, <- Hstart in Hsave.
  destruct (Z.leb_spec (8 * Z.of_nat (Coroutine.turns (regs s RDX))) (Coroutine.stack_frames_buf_capacity c)) as [Hn|]; [|done].
  injection Hsave as <-. cbn [Coroutine.stack_frames_buf].
  destruct (Coroutine.turns (regs s RDX)) as [|n] eqn:Ht; [unfold Coroutine.turns in Ht; lia|].
  destruct (frames_runs RSI RDI L_save_qword 52 ltac:(by left) eq_refl save_qword_code L_SaveStackFrames s ra n)
    as (s' & Hrun & Hpc & Hr & Hrax & Hc1 & Hc2); try done; try lia.
  { intros i j Hi Hj. cbn [walk]. areas. }
  { intros i Hi. cbn [walk]. areas. }
  exists s'. split; [exact Hrun|]. cbn [walk] in Hc1, Hc2.
  assert (Hm : forall a, apart a 8 (regs s RDI) (8 * (Z.of_nat n + 1)) -> apart a 8 (regs s RSP - 16) 16 -> mem s' a = mem s a).
  { intros a Ha Hb. rewrite Hc2 by (intros i Hi; areas). by words. }
  split_and!; [done| | |].
  - intros r Hr'. destruct (decide (r = RAX)) as [->|Hne]; [|apply Hr; set_solver].
    rewrite Hrax, Hc2 by (intros i Hi; areas). by words.
  - intros i w Hi. destruct (decide (i < S n)%nat) as [Hlt|Hge].
    + rewrite lookup_app_l in Hi by (by rewrite Coroutine.frame_words_length).
      rewrite Hc1 by lia. words. rewrite <- (Coroutine.frame_words_lookup (mem s) (regs s RSI) (S n) i) by done.
      by apply nth_lookup_Some.
    + rewrite lookup_app_r in Hi by (rewrite Coroutine.frame_words_length; lia). rewrite Coroutine.frame_words_length, lookup_drop in Hi.
      replace (S n + (i - S n))%nat with i in Hi by lia. apply lookup_lt_Some in Hi as Hlt.
      rewrite Hm by areas. by apply Hbuf.
  - intros a Ha Hb. apply Hm; [areas|done].
Qed.

(** [RestoreStackFrames] as assembled does what [Coroutine.RestoreStackFrames] does: it returns, with the words of
    the buffer in the frames. What it leaves of its own below the stack pointer is all that may
    differ elsewhere. *)
Theorem RestoreStackFrames_refines (s : machine) (ra : Z) (c : Coroutine.CoroutineContext) (m' : Z -> Z) (Ha : frames_args s c)
    (Hres : Coroutine.RestoreStackFrames (mem s) (regs s RSP) c = Ok m') :
  exists s', (s0 ← call_from s ra L_RestoreStackFrames; run (3 + 6 * Coroutine.turns (regs s RDX)) s0) = Some s' /\
    pc s' = ra /\ (forall r, r ∉ [RAX; RDI; RSI; RDX] -> regs s' r = regs s r) /\
    let low := regs s RSI + 8 - 8 * Z.of_nat (Coroutine.turns (regs s RDX)) in
    forall a, a mod 8 = 0 -> low <= a <= regs s RSI \/ apart a 8 (regs s RSP - 16) 16 -> mem s' a = m' a.
Proof.
  destruct Ha as [Hstart Hlen Hbuf Hroom ([HD1 HD2] & [HS1 HS2] & (H1 & H2 & H3)) (HX & Hcap & HS') Hsp Hap]. cbv zeta in *.
  unfold Coroutine.RestoreStackFrames in Hres. rewrite <- Hlen, <- Hstart in Hres.
  destruct (Coroutine.turns (regs s RDX)) as [|n] eqn:Ht; [unfold Coroutine.turns in Ht; lia|].
  destruct (Nat.ltb_spec (length (Coroutine.stack_frames_buf c)) (S n)) as [|Hn] in Hres; [done|].
  destruct (_ && _) eqn:Hin in Hres; [done|]. injection Hres as <-.
  assert (Hout : regs s RSP - 8 < regs s RSI - 8 * Z.of_nat n \/ regs s RSI < regs s RSP - 8).
  { apply andb_false_iff in Hin as [Hin%Z.leb_gt|Hin%Z.leb_gt]; lia. }
  destruct (frames_runs RDI RSI L_revert_qword 61 ltac:(by right) eq_refl revert_qword_code L_RestoreStackFrames s ra n)
    as (s' & Hrun & Hpc & Hr & _ & Hc1 & Hc2); try done; try lia.
  { intros i j Hi Hj. cbn [walk]. areas. }
  { intros i Hi. cbn [walk]. areas. }
  exists s'. split; [exact Hrun|]. cbn [walk] in Hc1, Hc2. split_and!; [done|done|].
  intros a Haw Hin'. unfold Coroutine.restore_words. rewrite length_take_le by lia.
  assert (Hmod : (regs s RSI - a) mod 8 = 0) by (Z.to_euclidean_division_equations; lia). rewrite Hmod.
  destruct (Z.leb_spec a (regs s RSI)) as [Hle|Hgt], (Z.ltb_spec (regs s RSI - 8 * Z.of_nat (S n)) a) as [Hlo|Hlo]; cbn [andb Z.eqb];
    [|rewrite Hc2 by (intros i Hi; lia); words; done..].
  set (i := Z.to_nat ((regs s RSI - a) / 8)).
  assert (Hi : a = regs s RSI - 8 * Z.of_nat i /\ (i < S n)%nat) by (subst i; Z.to_euclidean_division_equations; lia).
  clearbody i. destruct Hi as [-> Hlt]. rewrite Hc1 by lia. words. destruct (lookup_lt_is_Some_2 (Coroutine.stack_frames_buf c) i) as [w Hw]; [lia|].
  rewrite (Hbuf i w Hw). symmetry. apply nth_lookup_Some. by rewrite lookup_take_lt by lia.
Qed.

(** [GetRsp] gives the stack pointer in the call, eight below that of the caller. *)
Theorem GetRsp_gives (s : machine) (ra : Z) (Hd : word_ok (regs s RDI)) (Hsp : sp_ok (regs s RSP))
    (Hap : apart (regs s RDI) 8 (regs s RSP - 8) 8) :
  exists s', (s0 ← call_from s ra L_GetRsp; run 2 s0) = Some s' /\ pc s' = ra /\ (forall r, regs s' r = regs s r) /\
    mem s' (regs s RDI) + 8 = regs s RSP.
Proof.
  destruct Hd as [Hd1 Hd2], Hsp as (H1 & H2 & H3). rewrite call_from_Some by word. destruct s as [f m p c z].
  cbn [regs mem CF ZF mbind option_bind] in *. change (place L_GetRsp) with 32%nat. do 2 asm1. cbn [run]. rewrite Z.add_0_r. words.
  eexists. split; [reflexivity|]. cbn [pc regs mem]. split_and!; [done| |rewrite store_eq; lia].
  intros r. destruct (decide (r = RSP)) as [->|Hne]; [regs; lia|]. by rewrite !upd_ne.
Qed.

End Text.

(** ** Witnesses *)

(** The context that is in memory at [c]. *)
Definition read_ctx (m : Z -> Z) (c : Z) (buf : list Z) : Coroutine.CoroutineContext :=
  Coroutine.mkContext ((fun d => m (c + d)) <$> other_places) (m (c + 40)) (m (c + 128)) (m (c + 136)) (m (c + 144)) buf (m (c + 160)).

Definition demo_mem (a : Z) : Z := a + 80000.

(** Contexts at 8000 and 9600, the stack pointer at 16000. *)
Definition demo_machine (x : Z) : machine :=
  mkMachine (fun r => match r with RSP => 16000 | RDI => 8000 | RSI => 9600 | _ => x end) demo_mem 0 false false.

Ltac demo :=
  cbv zeta; unfold ctx_ok, sp_ok, word_ok, apart; cbn -[Z.add Z.sub Z.modulo Coroutine.turns]; unfold demo_mem;
  try change (Coroutine.turns 48) with 6%nat; Z.to_euclidean_division_equations; lia.

Lemma SwitchCoroutine_refines_witness :
  exists s', (s0 ← call_from 4000 (demo_machine 5) 777 L_SwitchCoroutine; run 4000 40 s0) = Some s' /\
    pc s' = 89728 /\ regs s' RSP = 89640 /\ regs s' RBX = 89608 /\ mem s' 8008 = 5 /\ mem s' 8040 = 16000 /\
    mem s' 8128 = 777 /\ mem s' 15984 = 4002.
Proof.
  destruct (SwitchCoroutine_refines 4000 (demo_machine 5) 777 (read_ctx demo_mem 8000 []) (read_ctx demo_mem 9600 []))
    as (s' & Hrun & [C1 C2 C3 C4 C5 C6] & _ & Hpc & Hsp & Ho & Hm);
    [demo..|by split|by split|demo|demo|demo|].
  exists s'. split; [exact Hrun|]. split_and!; [exact Hpc|exact Hsp| | |exact C2|exact C3|].
  - exact (f_equal (fun l => nth 1 l 0) Ho).
  - exact (f_equal (fun l => nth 1 l 0) C1).
  - apply Hm. demo.
Defined.

(** A buffer of 1024 bytes at 8000, frames from 16040 down to the stack pointer. *)
Definition frames_machine : machine :=
  mkMachine (fun r => match r with RSP => 16000 | RDI => 8000 | RSI => 16040 | RDX => 48 | _ => 5 end) demo_mem 0 false false.

Definition frames_ctx (buf : list Z) : Coroutine.CoroutineContext := Coroutine.mkContext [] 0 0 16040 48 buf 1024.

Lemma SaveStackFrames_refines_witness :
  exists s', (s0 ← call_from 4000 frames_machine 777 L_SaveStackFrames; run 4000 39 s0) = Some s' /\
    pc s' = 777 /\ regs s' RAX = 5 /\ mem s' 8000 = 96040 /\ mem s' 8040 = 96000 /\ mem s' 16000 = 96000.
Proof.
  destruct (SaveStackFrames_refines 4000 frames_machine 777 (frames_ctx []) (frames_ctx ((fun i => 96040 - 8 * i) <$> [0; 1; 2; 3; 4; 5])))
    as (s' & Hrun & Hpc & Hr & Hb & Hm).
  - split; first [done | by intros [] | idtac]; demo.
  - demo.
  - reflexivity.
  - exists s'. split; [exact Hrun|]. split; [exact Hpc|]. split; [apply (Hr RAX); clear; set_solver|].
    split; [exact (Hb 0%nat _ eq_refl)|]. split; [exact (Hb 5%nat _ eq_refl)|]. apply Hm; demo.
Defined.

(** Frames below the stack pointer are restored. *)
Definition restore_machine : machine :=
  mkMachine (fun r => match r with RSP => 16000 | RDI => 8000 | RSI => 14040 | RDX => 48 | _ => 5 end) demo_mem 0 false false.

Lemma RestoreStackFrames_refines_witness :
  exists s', (s0 ← call_from 4000 restore_machine 777 L_RestoreStackFrames; run 4000 39 s0) = Some s' /\
    pc s' = 777 /\ mem s' 14040 = 88000 /\ mem s' 14000 = 88040.
Proof.
  destruct (RestoreStackFrames_refines 4000 restore_machine 777
    (Coroutine.mkContext [] 0 0 14040 48 ((fun i => 88000 + 8 * i) <$> [0; 1; 2; 3; 4; 5]) 1024)
    (Coroutine.restore_words demo_mem 14040 ((fun i => 88000 + 8 * i) <$> [0; 1; 2; 3; 4; 5]))) as (s' & Hrun & Hpc & _ & Hm).
  - split; first [done | idtac]; try demo. by intros [|[|[|[|[|[|]]]]]] w [= <-].
  - reflexivity.
  - exists s'. split; [exact Hrun|]. split; [exact Hpc|]. split; (apply Hm; [reflexivity|left; demo]).
Defined.

End CoroutineAsm.
